(** * phi-adapter-hue: a shallow embedding of the bridge synchronisation code

    The repository holds two generations of the Hue adapter:
    - the Qt plugin [HueAdapter] (hueadapter.cpp): asynchronous snapshot
      fetches with retries, lazy per-device metadata fetches, the event
      stream handlers, the button multi-press tracker and gamut clamping;
    - the IPC sidecar [HueSidecar] (hue_sidecar.cpp, hue_model.cpp): a
      synchronous poll that builds a [Snapshot] and publishes it.

    Both are embedded below, each in its own module.  Member names are the
    ones of the C++ sources.  Conventions:
    - [QString] is [string]; [QHash]/[QSet] are stdpp's [gmap]/[gset];
      [QQueue]/[QList]/[std::vector] are [list];
    - [int], [qint64] are [Z] (the one place where C++ arithmetic could
      leave the range of [int], the press counter, wraps explicitly);
    - [double] is idealised as an exact rational [Q]; the gamut code is
      written over an abstract number type, so that the choice among the
      edge projections only uses the order properties that IEEE comparison
      has too, and its geometry is proved on the rationals;
    - signals, outgoing requests and timers started by a handler are
      collected in a list of effects, in program order. *)

From Stdlib Require Import ZArith QArith Qround Lia Lqa Bool Ascii.
From stdpp Require Import base gmap strings list fin_sets.

Close Scope Q_scope.
Local Open Scope Z_scope.

(* ===================================================================== *)
(** * Qt value types *)
(* ===================================================================== *)

Module Qt.

(** ** QString *)

Definition isEmpty (s : string) : bool := bool_decide (s = "").

(** [QChar::isSpace] on ASCII characters: tab to carriage return, and space. *)
(** [QChar::isSpace] on the ASCII range: tab to carriage return, and the
    space.  Strings are byte strings here; the statements that depend on the
    character class are stated for texts with [isAsciiText]. *)
Definition isSpace (c : ascii) : bool :=
  let n := nat_of_ascii c in
  ((9 <=? n)%nat && (n <=? 13)%nat) || (n =? 32)%nat.

Fixpoint trimLeft (s : string) : string :=
  match s with
  | EmptyString => EmptyString
  | String c r => if isSpace c then trimLeft r else s
  end.

(** Drops trailing white space: a suffix made of spaces only is removed. *)
Fixpoint trimRight (s : string) : string :=
  match s with
  | EmptyString => EmptyString
  | String c r =>
      match trimRight r with
      | EmptyString => if isSpace c then EmptyString else String c EmptyString
      | r' => String c r'
      end
  end.

Definition trimmed (s : string) : string := trimRight (trimLeft s).

(** [QChar::toLower] on the ASCII range: only [A]-[Z] have a lower case. *)
Definition toLowerChar (c : ascii) : ascii :=
  let n := nat_of_ascii c in
  if ((65 <=? n)%nat && (n <=? 90)%nat) then ascii_of_nat (n + 32) else c.

Fixpoint toLower (s : string) : string :=
  match s with
  | EmptyString => EmptyString
  | String c r => String (toLowerChar c) (toLower r)
  end.

Definition startsWith (s p : string) : bool := String.prefix p s.

(** [s.mid(n)]: the rest of [s] from position [n]. *)
Fixpoint mid (s : string) (n : nat) : string :=
  match n, s with
  | O, _ => s
  | S n', String _ r => mid r n'
  | S _, EmptyString => EmptyString
  end.

Fixpoint containsChar (s : string) (c : ascii) : bool :=
  match s with
  | EmptyString => false
  | String d r => if Ascii.eqb c d then true else containsChar r c
  end.

(** [s.section(c, 1)]: everything after the first occurrence of [c]. *)
Fixpoint sectionFrom1 (s : string) (c : ascii) : string :=
  match s with
  | EmptyString => EmptyString
  | String d r => if Ascii.eqb c d then r else sectionFrom1 r c
  end.

(** ** QJsonValue

    [QJsonObject] keeps one value per key; it is an association list read
    by its first matching key and written by [insert], which replaces. *)

#[warnings="-register-all"]
Inductive QJsonValue : Type :=
| JUndefined
| JNull
| JBool (b : bool)
| JDouble (d : Q)
| JString (s : string)
| JArray (a : list QJsonValue)
| JObject (o : list (string * QJsonValue)).

Abbreviation QJsonArray := (list QJsonValue).
Abbreviation QJsonObject := (list (string * QJsonValue)).

Fixpoint value (o : QJsonObject) (key : string) : QJsonValue :=
  match o with
  | [] => JUndefined
  | (k, v) :: r => if bool_decide (k = key) then v else value r key
  end.

Fixpoint contains (o : QJsonObject) (key : string) : bool :=
  match o with
  | [] => false
  | (k, _) :: r => if bool_decide (k = key) then true else contains r key
  end.

Fixpoint insert (o : QJsonObject) (key : string) (v : QJsonValue) : QJsonObject :=
  match o with
  | [] => [(key, v)]
  | (k, w) :: r => if bool_decide (k = key) then (k, v) :: r else (k, w) :: insert r key v
  end.

Definition isObject (v : QJsonValue) : bool :=
  match v with JObject _ => true | _ => false end.
Definition isString (v : QJsonValue) : bool :=
  match v with JString _ => true | _ => false end.
Definition isArray (v : QJsonValue) : bool :=
  match v with JArray _ => true | _ => false end.

Definition toObject (v : QJsonValue) : QJsonObject :=
  match v with JObject o => o | _ => [] end.
Definition toArray (v : QJsonValue) : QJsonArray :=
  match v with JArray a => a | _ => [] end.
Definition toString (v : QJsonValue) : string :=
  match v with JString s => s | _ => "" end.
Definition toStringOr (v : QJsonValue) (def : string) : string :=
  match v with JString s => s | _ => def end.
Definition toBool (v : QJsonValue) (def : bool) : bool :=
  match v with JBool b => b | _ => def end.
Definition toDouble (v : QJsonValue) (def : Q) : Q :=
  match v with JDouble d => d | _ => def end.

(** [toInt(def)]: the number when it is integral, [def] otherwise. *)
Definition toInt (v : QJsonValue) (def : Z) : Z :=
  match v with
  | JDouble d => if Qeq_bool d (inject_Z (Qfloor d)) then Qfloor d else def
  | _ => def
  end.

Definition objIsEmpty (o : QJsonObject) : bool :=
  match o with [] => true | _ => false end.

(** ** Numbers *)

Definition Qltb (a b : Q) : bool := negb (Qle_bool b a).

(** [qBound(lo, v, hi)] = [std::clamp(v, lo, hi)] = max(lo, min(hi, v)). *)
Definition qBoundQ (lo v hi : Q) : Q :=
  if Qltb v lo then lo else if Qltb hi v then hi else v.

Definition qBoundZ (lo v hi : Z) : Z := Z.max lo (Z.min hi v).

(** [std::round], [qRound]: to the nearest integer, halves away from zero. *)
Definition round (d : Q) : Z :=
  if Qle_bool 0 d then Qfloor (d + (1 # 2))%Q else Qceiling (d - (1 # 2))%Q.

(** ** More of QString and QChar *)

(** A string that does not start with white space. *)
Definition noLeadingSpace (s : string) : Prop :=
  match s with
  | EmptyString => True
  | String c _ => isSpace c = false
  end.

(** [s.contains(sub)]: [sub] occurs in [s]; the empty string occurs
    everywhere. *)
Fixpoint containsStr (s sub : string) : bool :=
  String.prefix sub s
  || match s with
     | EmptyString => false
     | String _ r => containsStr r sub
     end.

(** [QChar::toUpper] on ASCII letters. *)
Definition toUpperChar (c : ascii) : ascii :=
  let n := nat_of_ascii c in
  if ((97 <=? n)%nat && (n <=? 122)%nat) then ascii_of_nat (n - 32) else c.

(** [s.replace(before, after)] for two characters. *)
Fixpoint replaceChar (s : string) (before after : ascii) : string :=
  match s with
  | EmptyString => EmptyString
  | String c r =>
      String (if Ascii.eqb c before then after else c) (replaceChar r before after)
  end.

(** Text of ASCII characters only.  On such text [QChar::isSpace],
    [QString::toLower] and [QChar::toUpper] are the functions above;
    beyond ASCII Qt follows the Unicode tables. *)
Fixpoint isAsciiText (s : string) : bool :=
  match s with
  | EmptyString => true
  | String c r => (nat_of_ascii c <? 128)%nat && isAsciiText r
  end.

End Qt.

(* ===================================================================== *)
(** * The Qt plugin: [HueAdapter] (hueadapter.cpp) *)
(* ===================================================================== *)

Module Plugin.
Import Qt.

(** ** Canonical entities (phi-core types used by the adapter) *)

Inductive DeviceClass := ClassUnknown | ClassLight | ClassSensor | ClassSwitch
                       | ClassPlug | ClassButton | ClassGateway.

Inductive ChannelKind :=
| KindUnknown | PowerOnOff | Brightness | ColorTemperature | ColorTemperaturePreset
| ColorRGB | Motion | Tamper | Temperature | Illuminance | Battery
| ButtonEvent | RelativeRotation | ConnectivityStatus | DeviceSoftwareUpdate.

Inductive ChannelDataType := TypeUnknown | TypeBool | TypeInt | TypeFloat | TypeEnum | TypeColor.

Inductive ButtonEventCode :=
| BtnNone | InitialPress | LongPress | Repeat | ShortPressRelease | LongPressRelease
| DoublePress | TriplePress | QuadruplePress | QuintuplePress.

#[export] Instance ButtonEventCode_eq_dec : EqDecision ButtonEventCode.
Proof. solve_decision. Defined.

Inductive SceneState := SceneUnknown | Inactive | ActiveStatic | ActiveDynamic.

#[export] Instance SceneState_eq_dec : EqDecision SceneState.
Proof. solve_decision. Defined.

Module Device.
Record t : Type := mk {
  id : string;
  name : string;
  manufacturer : string;
  model : string;
  firmware : string;
  deviceClass : DeviceClass;
  meta : QJsonObject
}.
(** A default-constructed [Device]. *)
Definition empty : t :=
  {| id := ""; name := ""; manufacturer := ""; model := ""; firmware := "";
     deviceClass := ClassUnknown; meta := [] |}.
Definition set_id (v : string) (d : t) : t :=
  {| id := v; name := name d; manufacturer := manufacturer d; model := model d;
     firmware := firmware d; deviceClass := deviceClass d; meta := meta d |}.
Definition set_name (v : string) (d : t) : t :=
  {| id := id d; name := v; manufacturer := manufacturer d; model := model d;
     firmware := firmware d; deviceClass := deviceClass d; meta := meta d |}.
End Device.

Module Channel.
Record t : Type := mk {
  id : string;
  name : string;
  kind : ChannelKind;
  dataType : ChannelDataType;
  minValue : Q;
  maxValue : Q;
  stepValue : Q;
  unit : string
}.
End Channel.

Abbreviation ChannelList := (list Channel.t).

Module Scene.
Record t : Type := mk {
  id : string;
  name : string;
  description : string;
  image : string;
  state : SceneState;
  scopeId : string;
  scopeType : string;
  supportsDynamic : bool;
  supportsDeactivate : bool;
  meta : QJsonObject
}.
(** A default-constructed [Scene]. *)
Definition empty : t :=
  {| id := ""; name := ""; description := ""; image := ""; state := SceneUnknown;
     scopeId := ""; scopeType := ""; supportsDynamic := false;
     supportsDeactivate := false; meta := [] |}.
End Scene.

Module HueChannelBinding.
Record t : Type := mk { resourceId : string; resourceType : string }.
Definition empty : t := {| resourceId := ""; resourceType := "" |}.
End HueChannelBinding.

(** A [QTimer] as the adapter uses it: single shot, started with an
    interval, stopped, or left to fire. *)
Module QTimer.
Record t : Type := mk { active : bool; interval : Z }.
End QTimer.

Module ButtonMultiPressTracker.
Record t : Type := mk {
  count : Z;
  lastTs : Z;
  timer : option QTimer.t;
  deviceExtId : string;
  channelExtId : string
}.
(** A default-constructed tracker, as [operator[]] inserts it. *)
Definition empty : t :=
  {| count := 0; lastTs := 0; timer := None; deviceExtId := ""; channelExtId := "" |}.
End ButtonMultiPressTracker.

(** ** Constants of the anonymous namespace *)

Definition kMaxConcurrentV2DeviceFetch : nat := 4.
Definition kButtonMultiPressWindowMs : Z := 1200.
Definition kButtonMultiPressResetGapMs : Z := 500.
Definition kV2DeviceFetchSpacingMs : Z := 20.
Definition kMaxV2ResourceSnapshotRetries : Z := 3.
Definition kV2ResourceRetryBaseDelayMs : Z := 1000.

Definition channelBindingKey (deviceExtId channelExtId : string) : string :=
  deviceExtId +:+ "|" +:+ channelExtId.

(** ** The adapter object *)

Record HueAdapter : Type := mkHueAdapter {
  m_nam : bool;
  token : string;
  m_stopping : bool;
  m_connected : bool;
  m_v2SnapshotByType : gmap string QJsonArray;
  m_v2SnapshotPending : Z;
  m_v2BootstrapDone : bool;
  m_v2SnapshotFailedThisCycle : bool;
  m_pendingV2ResourceTypes : gset string;
  m_v2ResourceRetryCount : gmap string Z;
  m_pendingV2DeviceFetch : gset string;
  m_failedV2DeviceFetch : gset string;
  m_v2DeviceFetchQueue : list string;
  m_v2DeviceFetchTimer : bool;
  m_deviceIdToExternalId : gmap string string;
  m_v2Devices : gmap string Device.t;
  m_v2DeviceInfoCache : gmap string Device.t;
  m_v2DeviceChannels : gmap string ChannelList;
  m_v2ResourceToDevice : gmap string string;
  m_deviceToLightResource : gmap string string;
  m_v2RoomMemberships : gmap string (list string);
  m_buttonResourceToChannel : gmap string string;
  m_channelBindings : gmap string HueChannelBinding.t;
  m_knownDeviceExternalIds : gset string;
  m_v2Scenes : gmap string Scene.t;
  m_sceneSnapshotDirty : bool;
  m_buttonMultiPress : gmap string ButtonMultiPressTracker.t
}.

(** The adapter as constructed: every container empty, every flag clear. *)
Definition initial : HueAdapter :=
  {| m_nam := false; token := ""; m_stopping := false; m_connected := false; m_v2SnapshotByType
     := ∅; m_v2SnapshotPending := 0; m_v2BootstrapDone := false; m_v2SnapshotFailedThisCycle :=
     false; m_pendingV2ResourceTypes := ∅; m_v2ResourceRetryCount := ∅; m_pendingV2DeviceFetch
     := ∅; m_failedV2DeviceFetch := ∅; m_v2DeviceFetchQueue := []; m_v2DeviceFetchTimer :=
     false; m_deviceIdToExternalId := ∅; m_v2Devices := ∅; m_v2DeviceInfoCache := ∅;
     m_v2DeviceChannels := ∅; m_v2ResourceToDevice := ∅; m_deviceToLightResource := ∅;
     m_v2RoomMemberships := ∅; m_buttonResourceToChannel := ∅; m_channelBindings := ∅;
     m_knownDeviceExternalIds := ∅; m_v2Scenes := ∅; m_sceneSnapshotDirty := false;
     m_buttonMultiPress := ∅ |}.

(** Field updates ([this->field = v]). *)
Definition set_m_nam (v : bool) (s : HueAdapter) : HueAdapter :=
  {| m_nam := v; token := token s; m_stopping := m_stopping s; m_connected := m_connected s;
     m_v2SnapshotByType := m_v2SnapshotByType s; m_v2SnapshotPending := m_v2SnapshotPending s;
     m_v2BootstrapDone := m_v2BootstrapDone s; m_v2SnapshotFailedThisCycle :=
     m_v2SnapshotFailedThisCycle s; m_pendingV2ResourceTypes := m_pendingV2ResourceTypes s;
     m_v2ResourceRetryCount := m_v2ResourceRetryCount s; m_pendingV2DeviceFetch :=
     m_pendingV2DeviceFetch s; m_failedV2DeviceFetch := m_failedV2DeviceFetch s;
     m_v2DeviceFetchQueue := m_v2DeviceFetchQueue s; m_v2DeviceFetchTimer :=
     m_v2DeviceFetchTimer s; m_deviceIdToExternalId := m_deviceIdToExternalId s; m_v2Devices :=
     m_v2Devices s; m_v2DeviceInfoCache := m_v2DeviceInfoCache s; m_v2DeviceChannels :=
     m_v2DeviceChannels s; m_v2ResourceToDevice := m_v2ResourceToDevice s;
     m_deviceToLightResource := m_deviceToLightResource s; m_v2RoomMemberships :=
     m_v2RoomMemberships s; m_buttonResourceToChannel := m_buttonResourceToChannel s;
     m_channelBindings := m_channelBindings s; m_knownDeviceExternalIds :=
     m_knownDeviceExternalIds s; m_v2Scenes := m_v2Scenes s; m_sceneSnapshotDirty :=
     m_sceneSnapshotDirty s; m_buttonMultiPress := m_buttonMultiPress s |}.
Definition set_token (v : string) (s : HueAdapter) : HueAdapter :=
  {| m_nam := m_nam s; token := v; m_stopping := m_stopping s; m_connected := m_connected s;
     m_v2SnapshotByType := m_v2SnapshotByType s; m_v2SnapshotPending := m_v2SnapshotPending s;
     m_v2BootstrapDone := m_v2BootstrapDone s; m_v2SnapshotFailedThisCycle :=
     m_v2SnapshotFailedThisCycle s; m_pendingV2ResourceTypes := m_pendingV2ResourceTypes s;
     m_v2ResourceRetryCount := m_v2ResourceRetryCount s; m_pendingV2DeviceFetch :=
     m_pendingV2DeviceFetch s; m_failedV2DeviceFetch := m_failedV2DeviceFetch s;
     m_v2DeviceFetchQueue := m_v2DeviceFetchQueue s; m_v2DeviceFetchTimer :=
     m_v2DeviceFetchTimer s; m_deviceIdToExternalId := m_deviceIdToExternalId s; m_v2Devices :=
     m_v2Devices s; m_v2DeviceInfoCache := m_v2DeviceInfoCache s; m_v2DeviceChannels :=
     m_v2DeviceChannels s; m_v2ResourceToDevice := m_v2ResourceToDevice s;
     m_deviceToLightResource := m_deviceToLightResource s; m_v2RoomMemberships :=
     m_v2RoomMemberships s; m_buttonResourceToChannel := m_buttonResourceToChannel s;
     m_channelBindings := m_channelBindings s; m_knownDeviceExternalIds :=
     m_knownDeviceExternalIds s; m_v2Scenes := m_v2Scenes s; m_sceneSnapshotDirty :=
     m_sceneSnapshotDirty s; m_buttonMultiPress := m_buttonMultiPress s |}.
Definition set_m_stopping (v : bool) (s : HueAdapter) : HueAdapter :=
  {| m_nam := m_nam s; token := token s; m_stopping := v; m_connected := m_connected s;
     m_v2SnapshotByType := m_v2SnapshotByType s; m_v2SnapshotPending := m_v2SnapshotPending s;
     m_v2BootstrapDone := m_v2BootstrapDone s; m_v2SnapshotFailedThisCycle :=
     m_v2SnapshotFailedThisCycle s; m_pendingV2ResourceTypes := m_pendingV2ResourceTypes s;
     m_v2ResourceRetryCount := m_v2ResourceRetryCount s; m_pendingV2DeviceFetch :=
     m_pendingV2DeviceFetch s; m_failedV2DeviceFetch := m_failedV2DeviceFetch s;
     m_v2DeviceFetchQueue := m_v2DeviceFetchQueue s; m_v2DeviceFetchTimer :=
     m_v2DeviceFetchTimer s; m_deviceIdToExternalId := m_deviceIdToExternalId s; m_v2Devices :=
     m_v2Devices s; m_v2DeviceInfoCache := m_v2DeviceInfoCache s; m_v2DeviceChannels :=
     m_v2DeviceChannels s; m_v2ResourceToDevice := m_v2ResourceToDevice s;
     m_deviceToLightResource := m_deviceToLightResource s; m_v2RoomMemberships :=
     m_v2RoomMemberships s; m_buttonResourceToChannel := m_buttonResourceToChannel s;
     m_channelBindings := m_channelBindings s; m_knownDeviceExternalIds :=
     m_knownDeviceExternalIds s; m_v2Scenes := m_v2Scenes s; m_sceneSnapshotDirty :=
     m_sceneSnapshotDirty s; m_buttonMultiPress := m_buttonMultiPress s |}.
Definition set_m_connected (v : bool) (s : HueAdapter) : HueAdapter :=
  {| m_nam := m_nam s; token := token s; m_stopping := m_stopping s; m_connected := v;
     m_v2SnapshotByType := m_v2SnapshotByType s; m_v2SnapshotPending := m_v2SnapshotPending s;
     m_v2BootstrapDone := m_v2BootstrapDone s; m_v2SnapshotFailedThisCycle :=
     m_v2SnapshotFailedThisCycle s; m_pendingV2ResourceTypes := m_pendingV2ResourceTypes s;
     m_v2ResourceRetryCount := m_v2ResourceRetryCount s; m_pendingV2DeviceFetch :=
     m_pendingV2DeviceFetch s; m_failedV2DeviceFetch := m_failedV2DeviceFetch s;
     m_v2DeviceFetchQueue := m_v2DeviceFetchQueue s; m_v2DeviceFetchTimer :=
     m_v2DeviceFetchTimer s; m_deviceIdToExternalId := m_deviceIdToExternalId s; m_v2Devices :=
     m_v2Devices s; m_v2DeviceInfoCache := m_v2DeviceInfoCache s; m_v2DeviceChannels :=
     m_v2DeviceChannels s; m_v2ResourceToDevice := m_v2ResourceToDevice s;
     m_deviceToLightResource := m_deviceToLightResource s; m_v2RoomMemberships :=
     m_v2RoomMemberships s; m_buttonResourceToChannel := m_buttonResourceToChannel s;
     m_channelBindings := m_channelBindings s; m_knownDeviceExternalIds :=
     m_knownDeviceExternalIds s; m_v2Scenes := m_v2Scenes s; m_sceneSnapshotDirty :=
     m_sceneSnapshotDirty s; m_buttonMultiPress := m_buttonMultiPress s |}.
Definition set_m_v2SnapshotByType (v : gmap string QJsonArray) (s : HueAdapter) : HueAdapter :=
  {| m_nam := m_nam s; token := token s; m_stopping := m_stopping s; m_connected := m_connected
     s; m_v2SnapshotByType := v; m_v2SnapshotPending := m_v2SnapshotPending s; m_v2BootstrapDone
     := m_v2BootstrapDone s; m_v2SnapshotFailedThisCycle := m_v2SnapshotFailedThisCycle s;
     m_pendingV2ResourceTypes := m_pendingV2ResourceTypes s; m_v2ResourceRetryCount :=
     m_v2ResourceRetryCount s; m_pendingV2DeviceFetch := m_pendingV2DeviceFetch s;
     m_failedV2DeviceFetch := m_failedV2DeviceFetch s; m_v2DeviceFetchQueue :=
     m_v2DeviceFetchQueue s; m_v2DeviceFetchTimer := m_v2DeviceFetchTimer s;
     m_deviceIdToExternalId := m_deviceIdToExternalId s; m_v2Devices := m_v2Devices s;
     m_v2DeviceInfoCache := m_v2DeviceInfoCache s; m_v2DeviceChannels := m_v2DeviceChannels s;
     m_v2ResourceToDevice := m_v2ResourceToDevice s; m_deviceToLightResource :=
     m_deviceToLightResource s; m_v2RoomMemberships := m_v2RoomMemberships s;
     m_buttonResourceToChannel := m_buttonResourceToChannel s; m_channelBindings :=
     m_channelBindings s; m_knownDeviceExternalIds := m_knownDeviceExternalIds s; m_v2Scenes :=
     m_v2Scenes s; m_sceneSnapshotDirty := m_sceneSnapshotDirty s; m_buttonMultiPress :=
     m_buttonMultiPress s |}.
Definition set_m_v2SnapshotPending (v : Z) (s : HueAdapter) : HueAdapter :=
  {| m_nam := m_nam s; token := token s; m_stopping := m_stopping s; m_connected := m_connected
     s; m_v2SnapshotByType := m_v2SnapshotByType s; m_v2SnapshotPending := v; m_v2BootstrapDone
     := m_v2BootstrapDone s; m_v2SnapshotFailedThisCycle := m_v2SnapshotFailedThisCycle s;
     m_pendingV2ResourceTypes := m_pendingV2ResourceTypes s; m_v2ResourceRetryCount :=
     m_v2ResourceRetryCount s; m_pendingV2DeviceFetch := m_pendingV2DeviceFetch s;
     m_failedV2DeviceFetch := m_failedV2DeviceFetch s; m_v2DeviceFetchQueue :=
     m_v2DeviceFetchQueue s; m_v2DeviceFetchTimer := m_v2DeviceFetchTimer s;
     m_deviceIdToExternalId := m_deviceIdToExternalId s; m_v2Devices := m_v2Devices s;
     m_v2DeviceInfoCache := m_v2DeviceInfoCache s; m_v2DeviceChannels := m_v2DeviceChannels s;
     m_v2ResourceToDevice := m_v2ResourceToDevice s; m_deviceToLightResource :=
     m_deviceToLightResource s; m_v2RoomMemberships := m_v2RoomMemberships s;
     m_buttonResourceToChannel := m_buttonResourceToChannel s; m_channelBindings :=
     m_channelBindings s; m_knownDeviceExternalIds := m_knownDeviceExternalIds s; m_v2Scenes :=
     m_v2Scenes s; m_sceneSnapshotDirty := m_sceneSnapshotDirty s; m_buttonMultiPress :=
     m_buttonMultiPress s |}.
Definition set_m_v2BootstrapDone (v : bool) (s : HueAdapter) : HueAdapter :=
  {| m_nam := m_nam s; token := token s; m_stopping := m_stopping s; m_connected := m_connected
     s; m_v2SnapshotByType := m_v2SnapshotByType s; m_v2SnapshotPending := m_v2SnapshotPending
     s; m_v2BootstrapDone := v; m_v2SnapshotFailedThisCycle := m_v2SnapshotFailedThisCycle s;
     m_pendingV2ResourceTypes := m_pendingV2ResourceTypes s; m_v2ResourceRetryCount :=
     m_v2ResourceRetryCount s; m_pendingV2DeviceFetch := m_pendingV2DeviceFetch s;
     m_failedV2DeviceFetch := m_failedV2DeviceFetch s; m_v2DeviceFetchQueue :=
     m_v2DeviceFetchQueue s; m_v2DeviceFetchTimer := m_v2DeviceFetchTimer s;
     m_deviceIdToExternalId := m_deviceIdToExternalId s; m_v2Devices := m_v2Devices s;
     m_v2DeviceInfoCache := m_v2DeviceInfoCache s; m_v2DeviceChannels := m_v2DeviceChannels s;
     m_v2ResourceToDevice := m_v2ResourceToDevice s; m_deviceToLightResource :=
     m_deviceToLightResource s; m_v2RoomMemberships := m_v2RoomMemberships s;
     m_buttonResourceToChannel := m_buttonResourceToChannel s; m_channelBindings :=
     m_channelBindings s; m_knownDeviceExternalIds := m_knownDeviceExternalIds s; m_v2Scenes :=
     m_v2Scenes s; m_sceneSnapshotDirty := m_sceneSnapshotDirty s; m_buttonMultiPress :=
     m_buttonMultiPress s |}.
Definition set_m_v2SnapshotFailedThisCycle (v : bool) (s : HueAdapter) : HueAdapter :=
  {| m_nam := m_nam s; token := token s; m_stopping := m_stopping s; m_connected := m_connected
     s; m_v2SnapshotByType := m_v2SnapshotByType s; m_v2SnapshotPending := m_v2SnapshotPending
     s; m_v2BootstrapDone := m_v2BootstrapDone s; m_v2SnapshotFailedThisCycle := v;
     m_pendingV2ResourceTypes := m_pendingV2ResourceTypes s; m_v2ResourceRetryCount :=
     m_v2ResourceRetryCount s; m_pendingV2DeviceFetch := m_pendingV2DeviceFetch s;
     m_failedV2DeviceFetch := m_failedV2DeviceFetch s; m_v2DeviceFetchQueue :=
     m_v2DeviceFetchQueue s; m_v2DeviceFetchTimer := m_v2DeviceFetchTimer s;
     m_deviceIdToExternalId := m_deviceIdToExternalId s; m_v2Devices := m_v2Devices s;
     m_v2DeviceInfoCache := m_v2DeviceInfoCache s; m_v2DeviceChannels := m_v2DeviceChannels s;
     m_v2ResourceToDevice := m_v2ResourceToDevice s; m_deviceToLightResource :=
     m_deviceToLightResource s; m_v2RoomMemberships := m_v2RoomMemberships s;
     m_buttonResourceToChannel := m_buttonResourceToChannel s; m_channelBindings :=
     m_channelBindings s; m_knownDeviceExternalIds := m_knownDeviceExternalIds s; m_v2Scenes :=
     m_v2Scenes s; m_sceneSnapshotDirty := m_sceneSnapshotDirty s; m_buttonMultiPress :=
     m_buttonMultiPress s |}.
Definition set_m_pendingV2ResourceTypes (v : gset string) (s : HueAdapter) : HueAdapter :=
  {| m_nam := m_nam s; token := token s; m_stopping := m_stopping s; m_connected := m_connected
     s; m_v2SnapshotByType := m_v2SnapshotByType s; m_v2SnapshotPending := m_v2SnapshotPending
     s; m_v2BootstrapDone := m_v2BootstrapDone s; m_v2SnapshotFailedThisCycle :=
     m_v2SnapshotFailedThisCycle s; m_pendingV2ResourceTypes := v; m_v2ResourceRetryCount :=
     m_v2ResourceRetryCount s; m_pendingV2DeviceFetch := m_pendingV2DeviceFetch s;
     m_failedV2DeviceFetch := m_failedV2DeviceFetch s; m_v2DeviceFetchQueue :=
     m_v2DeviceFetchQueue s; m_v2DeviceFetchTimer := m_v2DeviceFetchTimer s;
     m_deviceIdToExternalId := m_deviceIdToExternalId s; m_v2Devices := m_v2Devices s;
     m_v2DeviceInfoCache := m_v2DeviceInfoCache s; m_v2DeviceChannels := m_v2DeviceChannels s;
     m_v2ResourceToDevice := m_v2ResourceToDevice s; m_deviceToLightResource :=
     m_deviceToLightResource s; m_v2RoomMemberships := m_v2RoomMemberships s;
     m_buttonResourceToChannel := m_buttonResourceToChannel s; m_channelBindings :=
     m_channelBindings s; m_knownDeviceExternalIds := m_knownDeviceExternalIds s; m_v2Scenes :=
     m_v2Scenes s; m_sceneSnapshotDirty := m_sceneSnapshotDirty s; m_buttonMultiPress :=
     m_buttonMultiPress s |}.
Definition set_m_v2ResourceRetryCount (v : gmap string Z) (s : HueAdapter) : HueAdapter :=
  {| m_nam := m_nam s; token := token s; m_stopping := m_stopping s; m_connected := m_connected
     s; m_v2SnapshotByType := m_v2SnapshotByType s; m_v2SnapshotPending := m_v2SnapshotPending
     s; m_v2BootstrapDone := m_v2BootstrapDone s; m_v2SnapshotFailedThisCycle :=
     m_v2SnapshotFailedThisCycle s; m_pendingV2ResourceTypes := m_pendingV2ResourceTypes s;
     m_v2ResourceRetryCount := v; m_pendingV2DeviceFetch := m_pendingV2DeviceFetch s;
     m_failedV2DeviceFetch := m_failedV2DeviceFetch s; m_v2DeviceFetchQueue :=
     m_v2DeviceFetchQueue s; m_v2DeviceFetchTimer := m_v2DeviceFetchTimer s;
     m_deviceIdToExternalId := m_deviceIdToExternalId s; m_v2Devices := m_v2Devices s;
     m_v2DeviceInfoCache := m_v2DeviceInfoCache s; m_v2DeviceChannels := m_v2DeviceChannels s;
     m_v2ResourceToDevice := m_v2ResourceToDevice s; m_deviceToLightResource :=
     m_deviceToLightResource s; m_v2RoomMemberships := m_v2RoomMemberships s;
     m_buttonResourceToChannel := m_buttonResourceToChannel s; m_channelBindings :=
     m_channelBindings s; m_knownDeviceExternalIds := m_knownDeviceExternalIds s; m_v2Scenes :=
     m_v2Scenes s; m_sceneSnapshotDirty := m_sceneSnapshotDirty s; m_buttonMultiPress :=
     m_buttonMultiPress s |}.
Definition set_m_pendingV2DeviceFetch (v : gset string) (s : HueAdapter) : HueAdapter :=
  {| m_nam := m_nam s; token := token s; m_stopping := m_stopping s; m_connected := m_connected
     s; m_v2SnapshotByType := m_v2SnapshotByType s; m_v2SnapshotPending := m_v2SnapshotPending
     s; m_v2BootstrapDone := m_v2BootstrapDone s; m_v2SnapshotFailedThisCycle :=
     m_v2SnapshotFailedThisCycle s; m_pendingV2ResourceTypes := m_pendingV2ResourceTypes s;
     m_v2ResourceRetryCount := m_v2ResourceRetryCount s; m_pendingV2DeviceFetch := v;
     m_failedV2DeviceFetch := m_failedV2DeviceFetch s; m_v2DeviceFetchQueue :=
     m_v2DeviceFetchQueue s; m_v2DeviceFetchTimer := m_v2DeviceFetchTimer s;
     m_deviceIdToExternalId := m_deviceIdToExternalId s; m_v2Devices := m_v2Devices s;
     m_v2DeviceInfoCache := m_v2DeviceInfoCache s; m_v2DeviceChannels := m_v2DeviceChannels s;
     m_v2ResourceToDevice := m_v2ResourceToDevice s; m_deviceToLightResource :=
     m_deviceToLightResource s; m_v2RoomMemberships := m_v2RoomMemberships s;
     m_buttonResourceToChannel := m_buttonResourceToChannel s; m_channelBindings :=
     m_channelBindings s; m_knownDeviceExternalIds := m_knownDeviceExternalIds s; m_v2Scenes :=
     m_v2Scenes s; m_sceneSnapshotDirty := m_sceneSnapshotDirty s; m_buttonMultiPress :=
     m_buttonMultiPress s |}.
Definition set_m_failedV2DeviceFetch (v : gset string) (s : HueAdapter) : HueAdapter :=
  {| m_nam := m_nam s; token := token s; m_stopping := m_stopping s; m_connected := m_connected
     s; m_v2SnapshotByType := m_v2SnapshotByType s; m_v2SnapshotPending := m_v2SnapshotPending
     s; m_v2BootstrapDone := m_v2BootstrapDone s; m_v2SnapshotFailedThisCycle :=
     m_v2SnapshotFailedThisCycle s; m_pendingV2ResourceTypes := m_pendingV2ResourceTypes s;
     m_v2ResourceRetryCount := m_v2ResourceRetryCount s; m_pendingV2DeviceFetch :=
     m_pendingV2DeviceFetch s; m_failedV2DeviceFetch := v; m_v2DeviceFetchQueue :=
     m_v2DeviceFetchQueue s; m_v2DeviceFetchTimer := m_v2DeviceFetchTimer s;
     m_deviceIdToExternalId := m_deviceIdToExternalId s; m_v2Devices := m_v2Devices s;
     m_v2DeviceInfoCache := m_v2DeviceInfoCache s; m_v2DeviceChannels := m_v2DeviceChannels s;
     m_v2ResourceToDevice := m_v2ResourceToDevice s; m_deviceToLightResource :=
     m_deviceToLightResource s; m_v2RoomMemberships := m_v2RoomMemberships s;
     m_buttonResourceToChannel := m_buttonResourceToChannel s; m_channelBindings :=
     m_channelBindings s; m_knownDeviceExternalIds := m_knownDeviceExternalIds s; m_v2Scenes :=
     m_v2Scenes s; m_sceneSnapshotDirty := m_sceneSnapshotDirty s; m_buttonMultiPress :=
     m_buttonMultiPress s |}.
Definition set_m_v2DeviceFetchQueue (v : list string) (s : HueAdapter) : HueAdapter :=
  {| m_nam := m_nam s; token := token s; m_stopping := m_stopping s; m_connected := m_connected
     s; m_v2SnapshotByType := m_v2SnapshotByType s; m_v2SnapshotPending := m_v2SnapshotPending
     s; m_v2BootstrapDone := m_v2BootstrapDone s; m_v2SnapshotFailedThisCycle :=
     m_v2SnapshotFailedThisCycle s; m_pendingV2ResourceTypes := m_pendingV2ResourceTypes s;
     m_v2ResourceRetryCount := m_v2ResourceRetryCount s; m_pendingV2DeviceFetch :=
     m_pendingV2DeviceFetch s; m_failedV2DeviceFetch := m_failedV2DeviceFetch s;
     m_v2DeviceFetchQueue := v; m_v2DeviceFetchTimer := m_v2DeviceFetchTimer s;
     m_deviceIdToExternalId := m_deviceIdToExternalId s; m_v2Devices := m_v2Devices s;
     m_v2DeviceInfoCache := m_v2DeviceInfoCache s; m_v2DeviceChannels := m_v2DeviceChannels s;
     m_v2ResourceToDevice := m_v2ResourceToDevice s; m_deviceToLightResource :=
     m_deviceToLightResource s; m_v2RoomMemberships := m_v2RoomMemberships s;
     m_buttonResourceToChannel := m_buttonResourceToChannel s; m_channelBindings :=
     m_channelBindings s; m_knownDeviceExternalIds := m_knownDeviceExternalIds s; m_v2Scenes :=
     m_v2Scenes s; m_sceneSnapshotDirty := m_sceneSnapshotDirty s; m_buttonMultiPress :=
     m_buttonMultiPress s |}.
Definition set_m_v2DeviceFetchTimer (v : bool) (s : HueAdapter) : HueAdapter :=
  {| m_nam := m_nam s; token := token s; m_stopping := m_stopping s; m_connected := m_connected
     s; m_v2SnapshotByType := m_v2SnapshotByType s; m_v2SnapshotPending := m_v2SnapshotPending
     s; m_v2BootstrapDone := m_v2BootstrapDone s; m_v2SnapshotFailedThisCycle :=
     m_v2SnapshotFailedThisCycle s; m_pendingV2ResourceTypes := m_pendingV2ResourceTypes s;
     m_v2ResourceRetryCount := m_v2ResourceRetryCount s; m_pendingV2DeviceFetch :=
     m_pendingV2DeviceFetch s; m_failedV2DeviceFetch := m_failedV2DeviceFetch s;
     m_v2DeviceFetchQueue := m_v2DeviceFetchQueue s; m_v2DeviceFetchTimer := v;
     m_deviceIdToExternalId := m_deviceIdToExternalId s; m_v2Devices := m_v2Devices s;
     m_v2DeviceInfoCache := m_v2DeviceInfoCache s; m_v2DeviceChannels := m_v2DeviceChannels s;
     m_v2ResourceToDevice := m_v2ResourceToDevice s; m_deviceToLightResource :=
     m_deviceToLightResource s; m_v2RoomMemberships := m_v2RoomMemberships s;
     m_buttonResourceToChannel := m_buttonResourceToChannel s; m_channelBindings :=
     m_channelBindings s; m_knownDeviceExternalIds := m_knownDeviceExternalIds s; m_v2Scenes :=
     m_v2Scenes s; m_sceneSnapshotDirty := m_sceneSnapshotDirty s; m_buttonMultiPress :=
     m_buttonMultiPress s |}.
Definition set_m_deviceIdToExternalId (v : gmap string string) (s : HueAdapter) : HueAdapter :=
  {| m_nam := m_nam s; token := token s; m_stopping := m_stopping s; m_connected := m_connected
     s; m_v2SnapshotByType := m_v2SnapshotByType s; m_v2SnapshotPending := m_v2SnapshotPending
     s; m_v2BootstrapDone := m_v2BootstrapDone s; m_v2SnapshotFailedThisCycle :=
     m_v2SnapshotFailedThisCycle s; m_pendingV2ResourceTypes := m_pendingV2ResourceTypes s;
     m_v2ResourceRetryCount := m_v2ResourceRetryCount s; m_pendingV2DeviceFetch :=
     m_pendingV2DeviceFetch s; m_failedV2DeviceFetch := m_failedV2DeviceFetch s;
     m_v2DeviceFetchQueue := m_v2DeviceFetchQueue s; m_v2DeviceFetchTimer :=
     m_v2DeviceFetchTimer s; m_deviceIdToExternalId := v; m_v2Devices := m_v2Devices s;
     m_v2DeviceInfoCache := m_v2DeviceInfoCache s; m_v2DeviceChannels := m_v2DeviceChannels s;
     m_v2ResourceToDevice := m_v2ResourceToDevice s; m_deviceToLightResource :=
     m_deviceToLightResource s; m_v2RoomMemberships := m_v2RoomMemberships s;
     m_buttonResourceToChannel := m_buttonResourceToChannel s; m_channelBindings :=
     m_channelBindings s; m_knownDeviceExternalIds := m_knownDeviceExternalIds s; m_v2Scenes :=
     m_v2Scenes s; m_sceneSnapshotDirty := m_sceneSnapshotDirty s; m_buttonMultiPress :=
     m_buttonMultiPress s |}.
Definition set_m_v2Devices (v : gmap string Device.t) (s : HueAdapter) : HueAdapter :=
  {| m_nam := m_nam s; token := token s; m_stopping := m_stopping s; m_connected := m_connected
     s; m_v2SnapshotByType := m_v2SnapshotByType s; m_v2SnapshotPending := m_v2SnapshotPending
     s; m_v2BootstrapDone := m_v2BootstrapDone s; m_v2SnapshotFailedThisCycle :=
     m_v2SnapshotFailedThisCycle s; m_pendingV2ResourceTypes := m_pendingV2ResourceTypes s;
     m_v2ResourceRetryCount := m_v2ResourceRetryCount s; m_pendingV2DeviceFetch :=
     m_pendingV2DeviceFetch s; m_failedV2DeviceFetch := m_failedV2DeviceFetch s;
     m_v2DeviceFetchQueue := m_v2DeviceFetchQueue s; m_v2DeviceFetchTimer :=
     m_v2DeviceFetchTimer s; m_deviceIdToExternalId := m_deviceIdToExternalId s; m_v2Devices :=
     v; m_v2DeviceInfoCache := m_v2DeviceInfoCache s; m_v2DeviceChannels := m_v2DeviceChannels
     s; m_v2ResourceToDevice := m_v2ResourceToDevice s; m_deviceToLightResource :=
     m_deviceToLightResource s; m_v2RoomMemberships := m_v2RoomMemberships s;
     m_buttonResourceToChannel := m_buttonResourceToChannel s; m_channelBindings :=
     m_channelBindings s; m_knownDeviceExternalIds := m_knownDeviceExternalIds s; m_v2Scenes :=
     m_v2Scenes s; m_sceneSnapshotDirty := m_sceneSnapshotDirty s; m_buttonMultiPress :=
     m_buttonMultiPress s |}.
Definition set_m_v2DeviceInfoCache (v : gmap string Device.t) (s : HueAdapter) : HueAdapter :=
  {| m_nam := m_nam s; token := token s; m_stopping := m_stopping s; m_connected := m_connected
     s; m_v2SnapshotByType := m_v2SnapshotByType s; m_v2SnapshotPending := m_v2SnapshotPending
     s; m_v2BootstrapDone := m_v2BootstrapDone s; m_v2SnapshotFailedThisCycle :=
     m_v2SnapshotFailedThisCycle s; m_pendingV2ResourceTypes := m_pendingV2ResourceTypes s;
     m_v2ResourceRetryCount := m_v2ResourceRetryCount s; m_pendingV2DeviceFetch :=
     m_pendingV2DeviceFetch s; m_failedV2DeviceFetch := m_failedV2DeviceFetch s;
     m_v2DeviceFetchQueue := m_v2DeviceFetchQueue s; m_v2DeviceFetchTimer :=
     m_v2DeviceFetchTimer s; m_deviceIdToExternalId := m_deviceIdToExternalId s; m_v2Devices :=
     m_v2Devices s; m_v2DeviceInfoCache := v; m_v2DeviceChannels := m_v2DeviceChannels s;
     m_v2ResourceToDevice := m_v2ResourceToDevice s; m_deviceToLightResource :=
     m_deviceToLightResource s; m_v2RoomMemberships := m_v2RoomMemberships s;
     m_buttonResourceToChannel := m_buttonResourceToChannel s; m_channelBindings :=
     m_channelBindings s; m_knownDeviceExternalIds := m_knownDeviceExternalIds s; m_v2Scenes :=
     m_v2Scenes s; m_sceneSnapshotDirty := m_sceneSnapshotDirty s; m_buttonMultiPress :=
     m_buttonMultiPress s |}.
Definition set_m_v2DeviceChannels (v : gmap string ChannelList) (s : HueAdapter) : HueAdapter :=
  {| m_nam := m_nam s; token := token s; m_stopping := m_stopping s; m_connected := m_connected
     s; m_v2SnapshotByType := m_v2SnapshotByType s; m_v2SnapshotPending := m_v2SnapshotPending
     s; m_v2BootstrapDone := m_v2BootstrapDone s; m_v2SnapshotFailedThisCycle :=
     m_v2SnapshotFailedThisCycle s; m_pendingV2ResourceTypes := m_pendingV2ResourceTypes s;
     m_v2ResourceRetryCount := m_v2ResourceRetryCount s; m_pendingV2DeviceFetch :=
     m_pendingV2DeviceFetch s; m_failedV2DeviceFetch := m_failedV2DeviceFetch s;
     m_v2DeviceFetchQueue := m_v2DeviceFetchQueue s; m_v2DeviceFetchTimer :=
     m_v2DeviceFetchTimer s; m_deviceIdToExternalId := m_deviceIdToExternalId s; m_v2Devices :=
     m_v2Devices s; m_v2DeviceInfoCache := m_v2DeviceInfoCache s; m_v2DeviceChannels := v;
     m_v2ResourceToDevice := m_v2ResourceToDevice s; m_deviceToLightResource :=
     m_deviceToLightResource s; m_v2RoomMemberships := m_v2RoomMemberships s;
     m_buttonResourceToChannel := m_buttonResourceToChannel s; m_channelBindings :=
     m_channelBindings s; m_knownDeviceExternalIds := m_knownDeviceExternalIds s; m_v2Scenes :=
     m_v2Scenes s; m_sceneSnapshotDirty := m_sceneSnapshotDirty s; m_buttonMultiPress :=
     m_buttonMultiPress s |}.
Definition set_m_v2ResourceToDevice (v : gmap string string) (s : HueAdapter) : HueAdapter :=
  {| m_nam := m_nam s; token := token s; m_stopping := m_stopping s; m_connected := m_connected
     s; m_v2SnapshotByType := m_v2SnapshotByType s; m_v2SnapshotPending := m_v2SnapshotPending
     s; m_v2BootstrapDone := m_v2BootstrapDone s; m_v2SnapshotFailedThisCycle :=
     m_v2SnapshotFailedThisCycle s; m_pendingV2ResourceTypes := m_pendingV2ResourceTypes s;
     m_v2ResourceRetryCount := m_v2ResourceRetryCount s; m_pendingV2DeviceFetch :=
     m_pendingV2DeviceFetch s; m_failedV2DeviceFetch := m_failedV2DeviceFetch s;
     m_v2DeviceFetchQueue := m_v2DeviceFetchQueue s; m_v2DeviceFetchTimer :=
     m_v2DeviceFetchTimer s; m_deviceIdToExternalId := m_deviceIdToExternalId s; m_v2Devices :=
     m_v2Devices s; m_v2DeviceInfoCache := m_v2DeviceInfoCache s; m_v2DeviceChannels :=
     m_v2DeviceChannels s; m_v2ResourceToDevice := v; m_deviceToLightResource :=
     m_deviceToLightResource s; m_v2RoomMemberships := m_v2RoomMemberships s;
     m_buttonResourceToChannel := m_buttonResourceToChannel s; m_channelBindings :=
     m_channelBindings s; m_knownDeviceExternalIds := m_knownDeviceExternalIds s; m_v2Scenes :=
     m_v2Scenes s; m_sceneSnapshotDirty := m_sceneSnapshotDirty s; m_buttonMultiPress :=
     m_buttonMultiPress s |}.
Definition set_m_deviceToLightResource (v : gmap string string) (s : HueAdapter) : HueAdapter :=
  {| m_nam := m_nam s; token := token s; m_stopping := m_stopping s; m_connected := m_connected
     s; m_v2SnapshotByType := m_v2SnapshotByType s; m_v2SnapshotPending := m_v2SnapshotPending
     s; m_v2BootstrapDone := m_v2BootstrapDone s; m_v2SnapshotFailedThisCycle :=
     m_v2SnapshotFailedThisCycle s; m_pendingV2ResourceTypes := m_pendingV2ResourceTypes s;
     m_v2ResourceRetryCount := m_v2ResourceRetryCount s; m_pendingV2DeviceFetch :=
     m_pendingV2DeviceFetch s; m_failedV2DeviceFetch := m_failedV2DeviceFetch s;
     m_v2DeviceFetchQueue := m_v2DeviceFetchQueue s; m_v2DeviceFetchTimer :=
     m_v2DeviceFetchTimer s; m_deviceIdToExternalId := m_deviceIdToExternalId s; m_v2Devices :=
     m_v2Devices s; m_v2DeviceInfoCache := m_v2DeviceInfoCache s; m_v2DeviceChannels :=
     m_v2DeviceChannels s; m_v2ResourceToDevice := m_v2ResourceToDevice s;
     m_deviceToLightResource := v; m_v2RoomMemberships := m_v2RoomMemberships s;
     m_buttonResourceToChannel := m_buttonResourceToChannel s; m_channelBindings :=
     m_channelBindings s; m_knownDeviceExternalIds := m_knownDeviceExternalIds s; m_v2Scenes :=
     m_v2Scenes s; m_sceneSnapshotDirty := m_sceneSnapshotDirty s; m_buttonMultiPress :=
     m_buttonMultiPress s |}.
Definition set_m_v2RoomMemberships (v : gmap string (list string)) (s : HueAdapter) : HueAdapter :=
  {| m_nam := m_nam s; token := token s; m_stopping := m_stopping s; m_connected := m_connected
     s; m_v2SnapshotByType := m_v2SnapshotByType s; m_v2SnapshotPending := m_v2SnapshotPending
     s; m_v2BootstrapDone := m_v2BootstrapDone s; m_v2SnapshotFailedThisCycle :=
     m_v2SnapshotFailedThisCycle s; m_pendingV2ResourceTypes := m_pendingV2ResourceTypes s;
     m_v2ResourceRetryCount := m_v2ResourceRetryCount s; m_pendingV2DeviceFetch :=
     m_pendingV2DeviceFetch s; m_failedV2DeviceFetch := m_failedV2DeviceFetch s;
     m_v2DeviceFetchQueue := m_v2DeviceFetchQueue s; m_v2DeviceFetchTimer :=
     m_v2DeviceFetchTimer s; m_deviceIdToExternalId := m_deviceIdToExternalId s; m_v2Devices :=
     m_v2Devices s; m_v2DeviceInfoCache := m_v2DeviceInfoCache s; m_v2DeviceChannels :=
     m_v2DeviceChannels s; m_v2ResourceToDevice := m_v2ResourceToDevice s;
     m_deviceToLightResource := m_deviceToLightResource s; m_v2RoomMemberships := v;
     m_buttonResourceToChannel := m_buttonResourceToChannel s; m_channelBindings :=
     m_channelBindings s; m_knownDeviceExternalIds := m_knownDeviceExternalIds s; m_v2Scenes :=
     m_v2Scenes s; m_sceneSnapshotDirty := m_sceneSnapshotDirty s; m_buttonMultiPress :=
     m_buttonMultiPress s |}.
Definition set_m_buttonResourceToChannel (v : gmap string string) (s : HueAdapter) : HueAdapter :=
  {| m_nam := m_nam s; token := token s; m_stopping := m_stopping s; m_connected := m_connected
     s; m_v2SnapshotByType := m_v2SnapshotByType s; m_v2SnapshotPending := m_v2SnapshotPending
     s; m_v2BootstrapDone := m_v2BootstrapDone s; m_v2SnapshotFailedThisCycle :=
     m_v2SnapshotFailedThisCycle s; m_pendingV2ResourceTypes := m_pendingV2ResourceTypes s;
     m_v2ResourceRetryCount := m_v2ResourceRetryCount s; m_pendingV2DeviceFetch :=
     m_pendingV2DeviceFetch s; m_failedV2DeviceFetch := m_failedV2DeviceFetch s;
     m_v2DeviceFetchQueue := m_v2DeviceFetchQueue s; m_v2DeviceFetchTimer :=
     m_v2DeviceFetchTimer s; m_deviceIdToExternalId := m_deviceIdToExternalId s; m_v2Devices :=
     m_v2Devices s; m_v2DeviceInfoCache := m_v2DeviceInfoCache s; m_v2DeviceChannels :=
     m_v2DeviceChannels s; m_v2ResourceToDevice := m_v2ResourceToDevice s;
     m_deviceToLightResource := m_deviceToLightResource s; m_v2RoomMemberships :=
     m_v2RoomMemberships s; m_buttonResourceToChannel := v; m_channelBindings :=
     m_channelBindings s; m_knownDeviceExternalIds := m_knownDeviceExternalIds s; m_v2Scenes :=
     m_v2Scenes s; m_sceneSnapshotDirty := m_sceneSnapshotDirty s; m_buttonMultiPress :=
     m_buttonMultiPress s |}.
Definition set_m_channelBindings (v : gmap string HueChannelBinding.t) (s : HueAdapter) : HueAdapter :=
  {| m_nam := m_nam s; token := token s; m_stopping := m_stopping s; m_connected := m_connected
     s; m_v2SnapshotByType := m_v2SnapshotByType s; m_v2SnapshotPending := m_v2SnapshotPending
     s; m_v2BootstrapDone := m_v2BootstrapDone s; m_v2SnapshotFailedThisCycle :=
     m_v2SnapshotFailedThisCycle s; m_pendingV2ResourceTypes := m_pendingV2ResourceTypes s;
     m_v2ResourceRetryCount := m_v2ResourceRetryCount s; m_pendingV2DeviceFetch :=
     m_pendingV2DeviceFetch s; m_failedV2DeviceFetch := m_failedV2DeviceFetch s;
     m_v2DeviceFetchQueue := m_v2DeviceFetchQueue s; m_v2DeviceFetchTimer :=
     m_v2DeviceFetchTimer s; m_deviceIdToExternalId := m_deviceIdToExternalId s; m_v2Devices :=
     m_v2Devices s; m_v2DeviceInfoCache := m_v2DeviceInfoCache s; m_v2DeviceChannels :=
     m_v2DeviceChannels s; m_v2ResourceToDevice := m_v2ResourceToDevice s;
     m_deviceToLightResource := m_deviceToLightResource s; m_v2RoomMemberships :=
     m_v2RoomMemberships s; m_buttonResourceToChannel := m_buttonResourceToChannel s;
     m_channelBindings := v; m_knownDeviceExternalIds := m_knownDeviceExternalIds s; m_v2Scenes
     := m_v2Scenes s; m_sceneSnapshotDirty := m_sceneSnapshotDirty s; m_buttonMultiPress :=
     m_buttonMultiPress s |}.
Definition set_m_knownDeviceExternalIds (v : gset string) (s : HueAdapter) : HueAdapter :=
  {| m_nam := m_nam s; token := token s; m_stopping := m_stopping s; m_connected := m_connected
     s; m_v2SnapshotByType := m_v2SnapshotByType s; m_v2SnapshotPending := m_v2SnapshotPending
     s; m_v2BootstrapDone := m_v2BootstrapDone s; m_v2SnapshotFailedThisCycle :=
     m_v2SnapshotFailedThisCycle s; m_pendingV2ResourceTypes := m_pendingV2ResourceTypes s;
     m_v2ResourceRetryCount := m_v2ResourceRetryCount s; m_pendingV2DeviceFetch :=
     m_pendingV2DeviceFetch s; m_failedV2DeviceFetch := m_failedV2DeviceFetch s;
     m_v2DeviceFetchQueue := m_v2DeviceFetchQueue s; m_v2DeviceFetchTimer :=
     m_v2DeviceFetchTimer s; m_deviceIdToExternalId := m_deviceIdToExternalId s; m_v2Devices :=
     m_v2Devices s; m_v2DeviceInfoCache := m_v2DeviceInfoCache s; m_v2DeviceChannels :=
     m_v2DeviceChannels s; m_v2ResourceToDevice := m_v2ResourceToDevice s;
     m_deviceToLightResource := m_deviceToLightResource s; m_v2RoomMemberships :=
     m_v2RoomMemberships s; m_buttonResourceToChannel := m_buttonResourceToChannel s;
     m_channelBindings := m_channelBindings s; m_knownDeviceExternalIds := v; m_v2Scenes :=
     m_v2Scenes s; m_sceneSnapshotDirty := m_sceneSnapshotDirty s; m_buttonMultiPress :=
     m_buttonMultiPress s |}.
Definition set_m_v2Scenes (v : gmap string Scene.t) (s : HueAdapter) : HueAdapter :=
  {| m_nam := m_nam s; token := token s; m_stopping := m_stopping s; m_connected := m_connected
     s; m_v2SnapshotByType := m_v2SnapshotByType s; m_v2SnapshotPending := m_v2SnapshotPending
     s; m_v2BootstrapDone := m_v2BootstrapDone s; m_v2SnapshotFailedThisCycle :=
     m_v2SnapshotFailedThisCycle s; m_pendingV2ResourceTypes := m_pendingV2ResourceTypes s;
     m_v2ResourceRetryCount := m_v2ResourceRetryCount s; m_pendingV2DeviceFetch :=
     m_pendingV2DeviceFetch s; m_failedV2DeviceFetch := m_failedV2DeviceFetch s;
     m_v2DeviceFetchQueue := m_v2DeviceFetchQueue s; m_v2DeviceFetchTimer :=
     m_v2DeviceFetchTimer s; m_deviceIdToExternalId := m_deviceIdToExternalId s; m_v2Devices :=
     m_v2Devices s; m_v2DeviceInfoCache := m_v2DeviceInfoCache s; m_v2DeviceChannels :=
     m_v2DeviceChannels s; m_v2ResourceToDevice := m_v2ResourceToDevice s;
     m_deviceToLightResource := m_deviceToLightResource s; m_v2RoomMemberships :=
     m_v2RoomMemberships s; m_buttonResourceToChannel := m_buttonResourceToChannel s;
     m_channelBindings := m_channelBindings s; m_knownDeviceExternalIds :=
     m_knownDeviceExternalIds s; m_v2Scenes := v; m_sceneSnapshotDirty := m_sceneSnapshotDirty
     s; m_buttonMultiPress := m_buttonMultiPress s |}.
Definition set_m_sceneSnapshotDirty (v : bool) (s : HueAdapter) : HueAdapter :=
  {| m_nam := m_nam s; token := token s; m_stopping := m_stopping s; m_connected := m_connected
     s; m_v2SnapshotByType := m_v2SnapshotByType s; m_v2SnapshotPending := m_v2SnapshotPending
     s; m_v2BootstrapDone := m_v2BootstrapDone s; m_v2SnapshotFailedThisCycle :=
     m_v2SnapshotFailedThisCycle s; m_pendingV2ResourceTypes := m_pendingV2ResourceTypes s;
     m_v2ResourceRetryCount := m_v2ResourceRetryCount s; m_pendingV2DeviceFetch :=
     m_pendingV2DeviceFetch s; m_failedV2DeviceFetch := m_failedV2DeviceFetch s;
     m_v2DeviceFetchQueue := m_v2DeviceFetchQueue s; m_v2DeviceFetchTimer :=
     m_v2DeviceFetchTimer s; m_deviceIdToExternalId := m_deviceIdToExternalId s; m_v2Devices :=
     m_v2Devices s; m_v2DeviceInfoCache := m_v2DeviceInfoCache s; m_v2DeviceChannels :=
     m_v2DeviceChannels s; m_v2ResourceToDevice := m_v2ResourceToDevice s;
     m_deviceToLightResource := m_deviceToLightResource s; m_v2RoomMemberships :=
     m_v2RoomMemberships s; m_buttonResourceToChannel := m_buttonResourceToChannel s;
     m_channelBindings := m_channelBindings s; m_knownDeviceExternalIds :=
     m_knownDeviceExternalIds s; m_v2Scenes := m_v2Scenes s; m_sceneSnapshotDirty := v;
     m_buttonMultiPress := m_buttonMultiPress s |}.
Definition set_m_buttonMultiPress (v : gmap string ButtonMultiPressTracker.t) (s : HueAdapter) : HueAdapter :=
  {| m_nam := m_nam s; token := token s; m_stopping := m_stopping s; m_connected := m_connected
     s; m_v2SnapshotByType := m_v2SnapshotByType s; m_v2SnapshotPending := m_v2SnapshotPending
     s; m_v2BootstrapDone := m_v2BootstrapDone s; m_v2SnapshotFailedThisCycle :=
     m_v2SnapshotFailedThisCycle s; m_pendingV2ResourceTypes := m_pendingV2ResourceTypes s;
     m_v2ResourceRetryCount := m_v2ResourceRetryCount s; m_pendingV2DeviceFetch :=
     m_pendingV2DeviceFetch s; m_failedV2DeviceFetch := m_failedV2DeviceFetch s;
     m_v2DeviceFetchQueue := m_v2DeviceFetchQueue s; m_v2DeviceFetchTimer :=
     m_v2DeviceFetchTimer s; m_deviceIdToExternalId := m_deviceIdToExternalId s; m_v2Devices :=
     m_v2Devices s; m_v2DeviceInfoCache := m_v2DeviceInfoCache s; m_v2DeviceChannels :=
     m_v2DeviceChannels s; m_v2ResourceToDevice := m_v2ResourceToDevice s;
     m_deviceToLightResource := m_deviceToLightResource s; m_v2RoomMemberships :=
     m_v2RoomMemberships s; m_buttonResourceToChannel := m_buttonResourceToChannel s;
     m_channelBindings := m_channelBindings s; m_knownDeviceExternalIds :=
     m_knownDeviceExternalIds s; m_v2Scenes := m_v2Scenes s; m_sceneSnapshotDirty :=
     m_sceneSnapshotDirty s; m_buttonMultiPress := v |}.

(** ** Signals, requests and timers

    What a handler sends out, in program order: Qt signals ([emit ...]),
    requests handed to the [QNetworkAccessManager], and single-shot timers
    it arms.  [networkGet p] is a GET of [/clip/v2/resource/p]. *)

Inductive QVariant :=
| VInvalid
| VBool (b : bool)
| VInt (i : Z)
| VDouble (d : Q)
| VButtonEventCode (c : ButtonEventCode).

(** [QVariant::toBool], [toDouble], [toInt] on the variants above. *)
Definition variantToBool (v : QVariant) : bool :=
  match v with
  | VBool b => b
  | VInt i => negb (i =? 0)
  | VDouble d => negb (Qeq_bool d 0)
  | _ => false
  end.

Definition variantToDouble (v : QVariant) : Q :=
  match v with
  | VBool b => if b then 1%Q else 0%Q
  | VInt i => inject_Z i
  | VDouble d => d
  | _ => 0%Q
  end.

Definition variantToInt (v : QVariant) : Z :=
  match v with
  | VBool b => if b then 1 else 0
  | VInt i => i
  | VDouble d => round d
  | _ => 0
  end.

Inductive CmdStatus := Success | Failure.

Module CmdResponse.
Record t : Type := mk { status : CmdStatus; finalValue : QVariant; error : string }.
End CmdResponse.

Inductive Effect :=
| deviceUpdated (device : Device.t) (channels : ChannelList)
| deviceRemoved (deviceExtId : string)
| channelStateUpdated (deviceExtId channelExtId : string) (value : QVariant) (tsMs : Z)
| connectionStateChanged (connected : bool)
| scenesUpdated (scenes : list Scene.t)
| fullSyncCompleted
| cmdResult (resp : CmdResponse.t)
| networkGet (resourcePath : string)
| networkPut (resourcePath : string) (body : QJsonObject)
| singleShotSnapshotRequest (delayMs : Z) (resourceType : string)
| baseUpdateChannelState (deviceExtId channelExtId : string) (value : QVariant).

(** A member function: reads and updates the adapter, returns a value and
    the effects it produced. *)
Definition Act (A : Type) : Type := HueAdapter → A * HueAdapter * list Effect.

#[export] Instance Act_ret : MRet Act := λ A a s, (a, s, []).
#[export] Instance Act_bind : MBind Act := λ A B f m s,
  let '(a, s1, e1) := m s in
  let '(b, s2, e2) := f a s1 in
  (b, s2, e1 ++ e2).

Definition get : Act HueAdapter := λ s, (s, s, []).
Definition modify (f : HueAdapter → HueAdapter) : Act unit := λ s, (tt, f s, []).
Definition emit (e : Effect) : Act unit := λ s, (tt, s, [e]).
Definition skip : Act unit := mret tt.

Definition stateOf {A} (r : A * HueAdapter * list Effect) : HueAdapter := r.1.2.
Definition effectsOf {A} (r : A * HueAdapter * list Effect) : list Effect := r.2.
Definition resultOf {A} (r : A * HueAdapter * list Effect) : A := r.1.1.

(** ** Lazy device-metadata fetches (hueadapter.cpp 1079-1098, 1142-1205) *)

Definition startV2DeviceFetch (deviceId : string) : Act bool :=
  s ← get;
  if negb (m_nam s) || isEmpty deviceId then mret false
  else if bool_decide (deviceId ∈ m_failedV2DeviceFetch s) then mret false
  else if isEmpty (token s) then mret false
  else
    modify (λ s, set_m_pendingV2DeviceFetch ({[deviceId]} ∪ m_pendingV2DeviceFetch s) s);;
    emit (networkGet ("device/" +:+ deviceId));;
    mret true.

Definition fetchV2DeviceResource (deviceId : string) : Act unit :=
  s ← get;
  if negb (m_nam s) || isEmpty deviceId then skip
  else if bool_decide (deviceId ∈ m_failedV2DeviceFetch s) then skip
  else if bool_decide (deviceId ∈ m_pendingV2DeviceFetch s) then skip
  else if bool_decide (deviceId ∈ m_v2DeviceFetchQueue s) then skip
  else if (kMaxConcurrentV2DeviceFetch <=? size (m_pendingV2DeviceFetch s))%nat then
    modify (λ s, set_m_v2DeviceFetchQueue (m_v2DeviceFetchQueue s ++ [deviceId]) s)
  else
    startV2DeviceFetch deviceId;; skip.

(** The [while] loop of [startNextQueuedV2DeviceFetch], by recursion on the
    queue it empties: [queue] is the content of [m_v2DeviceFetchQueue] when
    the loop condition is evaluated.  Returns [started]. *)
Fixpoint drainV2DeviceFetchQueue (queue : list string) : Act bool :=
  match queue with
  | [] => mret false
  | deviceId :: rest =>
      s ← get;
      if (size (m_pendingV2DeviceFetch s) <? kMaxConcurrentV2DeviceFetch)%nat then
        modify (set_m_v2DeviceFetchQueue rest);;
        if isEmpty deviceId then drainV2DeviceFetchQueue rest
        else if bool_decide (deviceId ∈ m_failedV2DeviceFetch s) then drainV2DeviceFetchQueue rest
        else if bool_decide (deviceId ∈ m_pendingV2DeviceFetch s) then drainV2DeviceFetchQueue rest
        else startV2DeviceFetch deviceId
      else mret false
  end.

Definition startNextQueuedV2DeviceFetch : Act unit :=
  s ← get;
  if negb (m_nam s) then skip
  else
    started ← drainV2DeviceFetchQueue (m_v2DeviceFetchQueue s);
    if negb started then skip
    else
      s ← get;
      if negb (bool_decide (m_v2DeviceFetchQueue s = []))
         && (size (m_pendingV2DeviceFetch s) <? kMaxConcurrentV2DeviceFetch)%nat
         && negb (m_v2DeviceFetchTimer s)
      then modify (set_m_v2DeviceFetchTimer true)
      else skip.

(** [m_v2DeviceFetchTimer] is single shot and connected to
    [startNextQueuedV2DeviceFetch] (constructor, lines 517-521). *)
Definition onV2DeviceFetchTimerTimeout : Act unit :=
  modify (set_m_v2DeviceFetchTimer false);;
  startNextQueuedV2DeviceFetch.

(** ** Scenes (hueadapter.cpp 86-143, 4179-4280) *)

(** [buildServiceRefMap]: the [rid]s of a [services] array grouped by
    [rtype]; a type with one reference maps to that string, others to an
    array. *)
Definition collectServiceRefs (services : QJsonArray) : gmap string (list string) :=
  foldl (λ (refs : gmap string (list string)) (val : QJsonValue),
           if negb (isObject val) then refs
           else
             let obj := toObject val in
             let type := toString (value obj "rtype") in
             let rid := toString (value obj "rid") in
             if isEmpty type || isEmpty rid then refs
             else <[type := default [] (refs !! type) ++ [rid]]> refs)
        ∅ services.

Definition buildServiceRefMap (services : QJsonArray) : QJsonObject :=
  foldl (λ (map : QJsonObject) (entry : string * list string),
           match entry.2 with
           | [rid] => insert map entry.1 (JString rid)
           | rids => insert map entry.1 (JArray (JString <$> rids))
           end)
        [] (map_to_list (collectServiceRefs services)).

Definition attachServiceRefs (meta : QJsonObject) : QJsonObject :=
  let services := toArray (value meta "services") in
  match services with
  | [] => meta
  | _ =>
      let refs := buildServiceRefMap services in
      if objIsEmpty refs then meta else insert meta "serviceRefs" (JObject refs)
  end.

Fixpoint firstNonEmptyString (obj : QJsonObject) (keys : list string) : string :=
  match keys with
  | [] => ""
  | key :: rest =>
      match value obj key with
      | JString text =>
          let text := trimmed text in
          if negb (isEmpty text) then text else firstNonEmptyString obj rest
      | JObject nested =>
          let nestedValue := trimmed (toString (value nested "value")) in
          if negb (isEmpty nestedValue) then nestedValue
          else
            let nestedName := trimmed (toString (value nested "name")) in
            if negb (isEmpty nestedName) then nestedName
            else firstNonEmptyString obj rest
      | _ => firstNonEmptyString obj rest
      end
  end.

Definition parseSceneState (v : string) : SceneState :=
  let normalized := toLower (trimmed v) in
  if bool_decide (normalized = "dynamic") then ActiveDynamic
  else if bool_decide (normalized = "static") || bool_decide (normalized = "active")
  then ActiveStatic
  else if bool_decide (normalized = "inactive") then Inactive
  else SceneUnknown.

(** [hasAction] of [handleV2SceneResource]: a case-insensitive search of
    [status.action_values]. *)
Definition hasAction (resObj : QJsonObject) (action : string) : bool :=
  if isEmpty action then false
  else
    let actionsVal := value (toObject (value resObj "status")) "action_values" in
    match actionsVal with
    | JArray arr =>
        existsb (λ val, bool_decide (toLower (toString val) = toLower action)) arr
    | JString text => bool_decide (toLower text = toLower action)
    | _ => false
    end.

(** The scene as [handleV2SceneResource] stores it once the id and the
    name are accepted (lines 4203-4277). *)
Definition updatedScene (scene : Scene.t) (resObj : QJsonObject) : Scene.t :=
  let metaObj := toObject (value resObj "metadata") in
  let description :=
    if contains metaObj "description"
    then toStringOr (value metaObj "description") (Scene.description scene)
    else Scene.description scene in
  let avatarImage := toString (value (toObject (value metaObj "image")) "rid") in
  let image := if negb (isEmpty avatarImage) then avatarImage else Scene.image scene in
  let statusObj := toObject (value resObj "status") in
  let state1 :=
    if contains statusObj "active"
    then match parseSceneState (toString (value statusObj "active")) with
         | SceneUnknown => Scene.state scene
         | parsed => parsed
         end
    else Scene.state scene in
  let groupObj := toObject (value resObj "group") in
  let scopeExternalId := toString (value groupObj "rid") in
  let scopeId := if negb (isEmpty scopeExternalId) then scopeExternalId
                 else Scene.scopeId scene in
  let rtype := toString (value groupObj "rtype") in
  let scopeType :=
    if negb (isEmpty rtype) then
      if bool_decide (rtype = "room") then "room"
      else if bool_decide (rtype = "zone") then "group"
      else rtype
    else Scene.scopeType scene in
  let state2 := match state1 with SceneUnknown => Inactive | st => st end in
  let meta :=
    if negb (objIsEmpty resObj)
    then attachServiceRefs (foldl (λ merged kv, insert merged kv.1 kv.2)
                                  (Scene.meta scene) resObj)
    else Scene.meta scene in
  {| Scene.id := Scene.id scene; Scene.name := Scene.name scene;
     Scene.description := description; Scene.image := image; Scene.state := state2;
     Scene.scopeId := scopeId; Scene.scopeType := scopeType;
     Scene.supportsDynamic := hasAction resObj "dynamic_palette";
     Scene.supportsDeactivate := false; Scene.meta := meta |}.

(** The name of the scene after parsing (lines 4191-4194): the name of
    the resource's metadata, or the one already stored when that is empty. *)
Definition parsedSceneName (resObj : QJsonObject) (scene : Scene.t) : string :=
  let metaObj := toObject (value resObj "metadata") in
  let sceneName := firstNonEmptyString metaObj ["name"] in
  if negb (isEmpty (trimmed sceneName)) then sceneName else Scene.name scene.

(** [handleV2SceneResource] on the scene table [m_v2Scenes]. *)
Definition handleV2SceneResource (resObj : QJsonObject)
    (scenes : gmap string Scene.t) : gmap string Scene.t :=
  let sceneId := toString (value resObj "id") in
  if isEmpty sceneId then scenes
  else
    let scene := default Scene.empty (scenes !! sceneId) in
    let name := parsedSceneName resObj scene in
    if isEmpty (trimmed name) then scenes
    else
      let scene :=
        {| Scene.id := sceneId; Scene.name := name;
           Scene.description := Scene.description scene; Scene.image := Scene.image scene;
           Scene.state := Scene.state scene; Scene.scopeId := Scene.scopeId scene;
           Scene.scopeType := Scene.scopeType scene;
           Scene.supportsDynamic := Scene.supportsDynamic scene;
           Scene.supportsDeactivate := Scene.supportsDeactivate scene;
           Scene.meta := Scene.meta scene |} in
      <[sceneId := updatedScene scene resObj]> scenes.

(** Every scene of the table has a name. *)
Definition allNamed (scenes : gmap string Scene.t) : Prop :=
  ∀ sceneId scene, scenes !! sceneId = Some scene → trimmed (Scene.name scene) ≠ "".

(** The scene list handed to [scenesUpdated]: [m_v2Scenes.values()]. *)
Definition sceneValues (scenes : gmap string Scene.t) : list Scene.t :=
  (map_to_list scenes).*2.

(** The event-stream branch for a [scene] resource (lines 1521-1523). *)
Definition onSceneEvent (resObj : QJsonObject) : Act unit :=
  modify (λ s, set_m_v2Scenes (handleV2SceneResource resObj (m_v2Scenes s)) s);;
  s ← get;
  emit (scenesUpdated (sceneValues (m_v2Scenes s))).

(** ** Emitting and removing devices (buildDevicesFromV2Snapshots, step 6
       and the removal that follows it, lines 2540-2595) *)

(** The ids of the [device] snapshot, as step 1 collects them in
    [snapshotDeviceIds] (lines 1759-1773).  [m_deviceIdToExternalId] was
    cleared at function entry and only receives identity pairs there, so
    the external id is the bridge id. *)
Definition collectSnapshotDeviceIds (deviceArray : QJsonArray) : gset string :=
  foldl (λ (ids : gset string) (val : QJsonValue),
           if negb (isObject val) then ids
           else
             let deviceId := toString (value (toObject val) "id") in
             if isEmpty deviceId then ids else {[deviceId]} ∪ ids)
        ∅ deviceArray.

(** Lines 2557-2574: a stable id and a non-empty name before hand-over. *)
Definition deviceForEmission (deviceExtId : string) (device : Device.t) : Device.t :=
  let device := if isEmpty (Device.id device) then Device.set_id deviceExtId device
                else device in
  if isEmpty (Device.name device) then
    let metaObj := toObject (value (Device.meta device) "metadata") in
    let metaName := toString (value metaObj "name") in
    if negb (isEmpty metaName) then Device.set_name metaName device
    else
      let productObj := toObject (value (Device.meta device) "product_data") in
      let productName := toString (value productObj "product_name") in
      if negb (isEmpty productName) then Device.set_name productName device
      else Device.set_name "Hue Device" device
  else device.

(** One iteration of the loop over [m_v2Devices.keys()]; the result is
    true when the device still waits for its metadata. *)
Definition emitDeviceIfComplete (deviceExtId : string) : Act bool :=
  s ← get;
  let channels := default [] (m_v2DeviceChannels s !! deviceExtId) in
  match channels with
  | [] => mret false
  | _ =>
      let device := default Device.empty (m_v2Devices s !! deviceExtId) in
      if objIsEmpty (Device.meta device) then
        fetchV2DeviceResource deviceExtId;; mret true
      else
        emit (deviceUpdated (deviceForEmission deviceExtId device) channels);;
        mret false
  end.

Fixpoint emitDevices (deviceKeys : list string) : Act bool :=
  match deviceKeys with
  | [] => mret false
  | deviceExtId :: rest =>
      pendingHere ← emitDeviceIfComplete deviceExtId;
      pendingRest ← emitDevices rest;
      mret (pendingHere || pendingRest)
  end.

(** Whether the loop asks for the metadata of [deviceExtId] instead of
    handing the device over: it has channels and an empty [meta]. *)
Definition waitsForMetadata (s : HueAdapter) (deviceExtId : string) : bool :=
  match default [] (m_v2DeviceChannels s !! deviceExtId) with
  | [] => false
  | _ => objIsEmpty (Device.meta (default Device.empty (m_v2Devices s !! deviceExtId)))
  end.

(** The [deviceUpdated] signals of the loop over [deviceKeys] when no
    device waits for metadata. *)
Definition deviceUpdates (s : HueAdapter) (deviceKeys : list string) : list Effect :=
  flat_map (λ deviceExtId,
              match default [] (m_v2DeviceChannels s !! deviceExtId) with
              | [] => []
              | channels =>
                  [deviceUpdated
                     (deviceForEmission deviceExtId
                        (default Device.empty (m_v2Devices s !! deviceExtId)))
                     channels]
              end) deviceKeys.

Definition removeDevice (extId : string) : Act unit :=
  if isEmpty extId then skip
  else
    emit (deviceRemoved extId);;
    modify (λ s, set_m_v2Devices (delete extId (m_v2Devices s)) s);;
    modify (λ s, set_m_v2DeviceChannels (delete extId (m_v2DeviceChannels s)) s);;
    modify (λ s, set_m_v2DeviceInfoCache (delete extId (m_v2DeviceInfoCache s)) s).

Fixpoint removeDevices (removedDevices : list string) : Act unit :=
  match removedDevices with
  | [] => skip
  | extId :: rest => removeDevice extId;; removeDevices rest
  end.

(** The tables after the removal loop has dropped [extId]. *)
Definition forget (extId : string) (s : HueAdapter) : HueAdapter :=
  if isEmpty extId then s
  else set_m_v2DeviceInfoCache (delete extId (m_v2DeviceInfoCache s))
         (set_m_v2DeviceChannels (delete extId (m_v2DeviceChannels s))
            (set_m_v2Devices (delete extId (m_v2Devices s)) s)).

(** The device ids of the [deviceRemoved] signals among [effects], in order. *)
Definition removedIds (effects : list Effect) : list string :=
  flat_map (λ e, match e with deviceRemoved id => [id] | _ => [] end) effects.

(** Lines 2582-2595. *)
Definition removeMissingDevices (snapshotDeviceIds : gset string) : Act unit :=
  s ← get;
  removeDevices (elements (m_knownDeviceExternalIds s ∖ snapshotDeviceIds));;
  modify (set_m_knownDeviceExternalIds snapshotDeviceIds).

(** Lines 2540-2595 as one block; true when it returned early because a
    device still waits for metadata. *)
Definition emitDevicesAndRemovals (snapshotDeviceIds : gset string) : Act bool :=
  s ← get;
  emitDevices ((map_to_list (m_v2Devices s)).*1) ≫= λ devicesPendingMetadata : bool,
  if devicesPendingMetadata then mret true
  else removeMissingDevices snapshotDeviceIds;; mret false.

(** ** [buildDevicesFromV2Snapshots] (lines 1736-2761)

    The channel derivation of steps 1-5, the seeding of channel values in
    step 7 and the flush of held-back notifications are not embedded; they
    enter as the three procedures below.  The guard, the tables cleared
    at entry, step 6, the removal, the scene hand-over and the completion
    flag are embedded. *)

Section Rebuild.

(** Steps 1-5 (lines 1753-2538): merge the device snapshot into the
    caches, derive every device's channel list, request metadata of
    owners that have none.  True when it returned at line 1925 because
    owners are missing. *)
Variable deriveDevicesAndChannels : Act bool.

(** Step 7 (lines 2597-2717): initial channel values from the snapshots. *)
Variable seedChannelState : Act unit.

(** Lines 2721-2750: the connectivity, software-update and discovery
    notifications held back during the bootstrap. *)
Variable flushPendingNotifications : Act unit.

Definition clearDerivedTables (s : HueAdapter) : HueAdapter :=
  set_m_v2RoomMemberships ∅
    (set_m_deviceToLightResource ∅
       (set_m_v2ResourceToDevice ∅
          (set_m_channelBindings ∅
             (set_m_buttonResourceToChannel ∅
                (set_m_v2DeviceChannels ∅
                   (set_m_deviceIdToExternalId ∅ s)))))).

Definition buildDevicesFromV2Snapshots : Act unit :=
  s ← get;
  if m_v2BootstrapDone s then skip
  else
    modify clearDerivedTables;;
    let snapshotDeviceIds :=
      collectSnapshotDeviceIds (default [] (m_v2SnapshotByType s !! "device")) in
    modify (λ s, set_m_v2Devices (m_v2DeviceInfoCache s) s);;
    deriveDevicesAndChannels ≫= λ missingOwners : bool,
    if missingOwners then skip
    else
      emitDevicesAndRemovals snapshotDeviceIds ≫= λ devicesPendingMetadata : bool,
      if devicesPendingMetadata then skip
      else
        seedChannelState;;
        s ← get;
        if negb (bool_decide (m_pendingV2DeviceFetch s = ∅))
           || negb (bool_decide (m_v2DeviceFetchQueue s = []))
        then skip
        else
          flushPendingNotifications;;
          s ← get;
          (if m_sceneSnapshotDirty s then
             modify (set_m_sceneSnapshotDirty false);;
             match sceneValues (m_v2Scenes s) with
             | [] => skip
             | scenes => emit (scenesUpdated scenes)
             end
           else skip);;
          modify (set_m_v2BootstrapDone true);;
          emit fullSyncCompleted.

End Rebuild.

(** ** The snapshot cycle (lines 781-977, 1027-1140, 1663-1688, 1719-1734) *)

Definition setConnected (connected : bool) : Act unit :=
  s ← get;
  if bool_decide (m_connected s = connected) then skip
  else modify (set_m_connected connected);; emit (connectionStateChanged connected).

(** The [sendRequest] closure of [requestV2ResourceSnapshot]. *)
Definition sendV2ResourceSnapshotRequest (resourceType : string) : Act unit :=
  s ← get;
  if negb (m_nam s) then skip
  else if bool_decide (resourceType ∈ m_pendingV2ResourceTypes s) then skip
  else if isEmpty (token s) then skip
  else
    modify (λ s, set_m_pendingV2ResourceTypes ({[resourceType]} ∪ m_pendingV2ResourceTypes s) s);;
    emit (networkGet resourceType).

Definition requestV2ResourceSnapshot (resourceType : string) (delayMs : Z) : Act unit :=
  if isEmpty resourceType then skip
  else if 0 <? delayMs then emit (singleShotSnapshotRequest delayMs resourceType)
  else sendV2ResourceSnapshotRequest resourceType.

Definition snapshotResources : list string :=
  ["device"; "room"; "zone"; "light"; "motion"; "temperature"; "light_level";
   "device_power"; "button"; "device_software_update"; "zigbee_connectivity";
   "zigbee_device_discovery"; "scene"].

Definition kSnapshotStaggerMs : Z := 400.

Fixpoint requestSnapshots (resources : list string) (staggerDelay : Z) : Act unit :=
  match resources with
  | [] => skip
  | res :: rest =>
      let delay := if bool_decide (res = "button") then staggerDelay + 1000
                   else staggerDelay in
      requestV2ResourceSnapshot res delay;;
      requestSnapshots rest (staggerDelay + kSnapshotStaggerMs)
  end.

Definition fetchV2ResourcesSnapshot : Act unit :=
  s ← get;
  if negb (m_nam s) then skip
  else if isEmpty (token s) then skip
  else
    modify (set_m_v2SnapshotByType ∅);;
    modify (set_m_pendingV2DeviceFetch ∅);;
    modify (set_m_v2DeviceFetchQueue []);;
    modify (set_m_failedV2DeviceFetch ∅);;
    modify (set_m_pendingV2ResourceTypes ∅);;
    modify (set_m_v2ResourceRetryCount ∅);;
    modify (set_m_v2SnapshotFailedThisCycle false);;
    modify (set_m_v2SnapshotPending (Z.of_nat (length snapshotResources)));;
    modify (set_m_v2BootstrapDone false);;
    requestSnapshots snapshotResources 0.

(** A finished [QNetworkReply]: the path of its request, whether it
    failed, and the JSON object of its body when the body is one. *)
Module Reply.
Record t : Type := mk { path : string; failed : bool; object : option QJsonObject }.
End Reply.

Definition resourcePrefix : string := "/clip/v2/resource/".

(** Lines 848-856: a lazy device fetch failed. *)
Definition deviceFetchFailed (deviceId : string) : Act unit :=
  if isEmpty deviceId then skip
  else
    modify (λ s, set_m_pendingV2DeviceFetch (m_pendingV2DeviceFetch s ∖ {[deviceId]}) s);;
    modify (λ s, set_m_failedV2DeviceFetch ({[deviceId]} ∪ m_failedV2DeviceFetch s) s).

(** Lines 883-885: a lazy device fetch answered. *)
Definition deviceFetchSucceeded (deviceId : string) : Act unit :=
  if isEmpty deviceId then skip
  else modify (λ s, set_m_pendingV2DeviceFetch (m_pendingV2DeviceFetch s ∖ {[deviceId]}) s).

(** What moves the lazy fetch queue: a metadata request, the reply to a
    device fetch (the queue's share of [onNetworkReplyFinished]: it
    answered with a JSON object, it failed, or it answered with a body
    that is no JSON object, lines 865-871, where the handler returns
    before the device leaves the in-flight set), the spacing timer, and
    the start of a new snapshot cycle. *)
Inductive FetchEvent :=
| MetadataRequested (deviceId : string)
| DeviceFetchAnswered (deviceId : string)
| DeviceFetchFailed (deviceId : string)
| DeviceFetchUnreadable (deviceId : string)
| FetchTimerTimeout
| SnapshotCycleStarted.

Definition fetchQueueStep (ev : FetchEvent) : Act unit :=
  match ev with
  | MetadataRequested deviceId => fetchV2DeviceResource deviceId
  | DeviceFetchAnswered deviceId =>
      deviceFetchSucceeded deviceId;; startNextQueuedV2DeviceFetch
  | DeviceFetchFailed deviceId =>
      deviceFetchFailed deviceId;; startNextQueuedV2DeviceFetch
  | DeviceFetchUnreadable _ => skip
  | FetchTimerTimeout => onV2DeviceFetchTimerTimeout
  | SnapshotCycleStarted => fetchV2ResourcesSnapshot
  end.

(** The number of device fetches in flight, [m_pendingV2DeviceFetch.size()]. *)
Definition pendingCount (s : HueAdapter) : nat := size (m_pendingV2DeviceFetch s).

(** A device id that [startNextQueuedV2DeviceFetch] passes over. *)
Definition ineligible (s : HueAdapter) (deviceId : string) : Prop :=
  deviceId = "" ∨ deviceId ∈ m_failedV2DeviceFetch s ∨ deviceId ∈ m_pendingV2DeviceFetch s.

Section SnapshotCycle.

(** The rebuild that a completed cycle runs; see [buildDevicesFromV2Snapshots]. *)
Variable rebuild : Act unit.

(** Lines 887-960: the merge of a lazily fetched device into the caches. *)
Variable mergeFetchedDevices : string → QJsonArray → Act unit.

Definition finalizeV2SnapshotIfReady : Act unit :=
  s ← get;
  if negb (m_v2BootstrapDone s)
     && bool_decide (m_v2SnapshotPending s = 0)
     && bool_decide (m_pendingV2DeviceFetch s = ∅)
     && bool_decide (m_v2DeviceFetchQueue s = [])
  then
    if m_v2SnapshotFailedThisCycle s then
      modify (set_m_v2BootstrapDone true);;
      modify (set_m_v2SnapshotFailedThisCycle false)
    else rebuild
  else skip.

Definition decrementSnapshotPending : Act unit :=
  s ← get;
  if 0 <? m_v2SnapshotPending s
  then modify (set_m_v2SnapshotPending (m_v2SnapshotPending s - 1))
  else skip.

Definition handleV2ResourceSnapshot (resourceType : string) (root : QJsonObject) : Act unit :=
  let dataArr := toArray (value root "data") in
  modify (λ s, set_m_v2SnapshotByType (<[resourceType := dataArr]> (m_v2SnapshotByType s)) s);;
  modify (λ s, set_m_pendingV2ResourceTypes (m_pendingV2ResourceTypes s ∖ {[resourceType]}) s);;
  modify (λ s, set_m_v2ResourceRetryCount (delete resourceType (m_v2ResourceRetryCount s)) s);;
  (if bool_decide (resourceType = "scene") then
     modify (set_m_v2Scenes ∅);;
     modify (λ s, set_m_v2Scenes
                    (foldl (λ scenes val,
                              if negb (isObject val) then scenes
                              else handleV2SceneResource (toObject val) scenes)
                           (m_v2Scenes s) dataArr) s);;
     modify (set_m_sceneSnapshotDirty true)
   else skip);;
  decrementSnapshotPending;;
  finalizeV2SnapshotIfReady.

(** Lines 821-847: a snapshot request for [resourceType] failed.  True
    when the handler returns at line 834 after scheduling a retry. *)
Definition snapshotRequestFailed (resourceType : string) : Act bool :=
  modify (λ s, set_m_pendingV2ResourceTypes (m_pendingV2ResourceTypes s ∖ {[resourceType]}) s);;
  s ← get;
  let attempt := default 0 (m_v2ResourceRetryCount s !! resourceType) in
  if attempt <? kMaxV2ResourceSnapshotRetries then
    let nextAttempt := attempt + 1 in
    let delayMs := kV2ResourceRetryBaseDelayMs * nextAttempt in
    modify (λ s, set_m_v2ResourceRetryCount
                   (<[resourceType := nextAttempt]> (m_v2ResourceRetryCount s)) s);;
    requestV2ResourceSnapshot resourceType delayMs;;
    mret true
  else
    modify (λ s, set_m_v2ResourceRetryCount (delete resourceType (m_v2ResourceRetryCount s)) s);;
    modify (set_m_v2SnapshotFailedThisCycle true);;
    modify (λ s, set_m_v2SnapshotByType (<[resourceType := []]> (m_v2SnapshotByType s)) s);;
    decrementSnapshotPending;;
    finalizeV2SnapshotIfReady;;
    mret false.


Definition onNetworkReplyFinished (reply : Reply.t) : Act unit :=
  let path := Reply.path reply in
  if Reply.failed reply then
    s ← get;
    (if negb (m_stopping s) then setConnected false else skip);;
    (if startsWith path resourcePrefix then
       let resourcePath := mid path (String.length resourcePrefix) in
       if negb (containsChar resourcePath "/") then
         let resourceType := resourcePath in
         if negb (isEmpty resourceType) then snapshotRequestFailed resourceType
         else mret false
       else if startsWith resourcePath "device/" then
         deviceFetchFailed (sectionFrom1 resourcePath "/");; mret false
       else mret false
     else mret false) ≫= λ returned : bool,
    if returned then skip
    else if startsWith path "/clip/v2/resource/device/" then startNextQueuedV2DeviceFetch
    else skip
  else
    setConnected true;;
    match Reply.object reply with
    | None => skip
    | Some obj =>
        if startsWith path resourcePrefix then
          let resourcePath := mid path (String.length resourcePrefix) in
          (if startsWith resourcePath "device/" then
             let deviceId := sectionFrom1 resourcePath "/" in
             deviceFetchSucceeded deviceId;;
             mergeFetchedDevices deviceId (toArray (value obj "data"))
           else handleV2ResourceSnapshot resourcePath obj);;
          (if startsWith resourcePath "device/" then startNextQueuedV2DeviceFetch
           else skip);;
          finalizeV2SnapshotIfReady
        else skip
    end.

End SnapshotCycle.

(** ** Button multi-press aggregation (lines 2996-3014, 3123-3146, 3973-4042) *)

Definition mapHueV2ButtonEventToCode (event : string) : ButtonEventCode :=
  if bool_decide (event = "initial_press") then InitialPress
  else if bool_decide (event = "long_press") then LongPress
  else if bool_decide (event = "repeat") then Repeat
  else if bool_decide (event = "short_release") then ShortPressRelease
  else if bool_decide (event = "long_release") then LongPressRelease
  else BtnNone.

(** [int] arithmetic, wrapping at 32 bits. *)
Definition wrapInt (z : Z) : Z := (z + 2 ^ 31) mod 2 ^ 32 - 2 ^ 31.

Definition handleShortPressRelease (deviceExtId channelExtId : string) (eventTs : Z)
  : Act unit :=
  if isEmpty deviceExtId || isEmpty channelExtId then skip
  else
    let key := channelBindingKey deviceExtId channelExtId in
    modify (λ s,
      let tracker := default ButtonMultiPressTracker.empty (m_buttonMultiPress s !! key) in
      let tracker :=
        {| ButtonMultiPressTracker.deviceExtId := deviceExtId;
           ButtonMultiPressTracker.channelExtId := channelExtId;
           ButtonMultiPressTracker.lastTs := eventTs;
           ButtonMultiPressTracker.count := wrapInt (ButtonMultiPressTracker.count tracker + 1);
           ButtonMultiPressTracker.timer :=
             Some {| QTimer.active := true; QTimer.interval := kButtonMultiPressWindowMs |} |} in
      set_m_buttonMultiPress (<[key := tracker]> (m_buttonMultiPress s)) s).

(** The [switch] of [finalizePendingShortPress]. *)
Definition aggregatedCode (count : Z) : ButtonEventCode :=
  if bool_decide (count = 2) then DoublePress
  else if bool_decide (count = 3) then TriplePress
  else if bool_decide (count = 4) then QuadruplePress
  else QuintuplePress.

Definition stopTimer (timer : option QTimer.t) : option QTimer.t :=
  match timer with
  | Some t => Some {| QTimer.active := false; QTimer.interval := QTimer.interval t |}
  | None => None
  end.

Definition finalizePendingShortPress (key : string) : Act unit :=
  s ← get;
  match m_buttonMultiPress s !! key with
  | None => skip
  | Some tracker =>
      let count := ButtonMultiPressTracker.count tracker in
      let ts := ButtonMultiPressTracker.lastTs tracker in
      let tracker' :=
        {| ButtonMultiPressTracker.deviceExtId := ButtonMultiPressTracker.deviceExtId tracker;
           ButtonMultiPressTracker.channelExtId := ButtonMultiPressTracker.channelExtId tracker;
           ButtonMultiPressTracker.lastTs := 0;
           ButtonMultiPressTracker.count := 0;
           ButtonMultiPressTracker.timer := stopTimer (ButtonMultiPressTracker.timer tracker) |} in
      modify (λ s, set_m_buttonMultiPress (<[key := tracker']> (m_buttonMultiPress s)) s);;
      if count <? 2 then skip
      else
        let aggregated := aggregatedCode count in
        if negb (bool_decide (aggregated = BtnNone))
           && negb (isEmpty (ButtonMultiPressTracker.deviceExtId tracker))
           && negb (isEmpty (ButtonMultiPressTracker.channelExtId tracker))
        then emit (channelStateUpdated (ButtonMultiPressTracker.deviceExtId tracker)
                                       (ButtonMultiPressTracker.channelExtId tracker)
                                       (VButtonEventCode aggregated) ts)
        else skip
  end.

(** The aggregation timer of a tracker is connected to
    [finalizePendingShortPress] of its key (lines 3989-3991). *)
Definition onMultiPressTimerTimeout (key : string) : Act unit :=
  finalizePendingShortPress key.

(** [handleV2ButtonResource] from line 3123 on: the device, the channel,
    the event code (not [None]) and the event time are resolved. *)
Definition dispatchButtonEvent (deviceExtId channelExtId : string)
    (code : ButtonEventCode) (eventTs : Z) : Act unit :=
  let bindingKey := channelBindingKey deviceExtId channelExtId in
  s ← get;
  (if bool_decide (code = InitialPress) then
     match m_buttonMultiPress s !! bindingKey with
     | Some tracker =>
         if (0 <? ButtonMultiPressTracker.count tracker)
            && (0 <? ButtonMultiPressTracker.lastTs tracker)
         then
           let gap := eventTs - ButtonMultiPressTracker.lastTs tracker in
           if kButtonMultiPressResetGapMs <=? gap then finalizePendingShortPress bindingKey
           else skip
         else skip
     | None => skip
     end
   else skip);;
  (if bool_decide (code = ShortPressRelease)
   then handleShortPressRelease deviceExtId channelExtId eventTs
   else skip);;
  emit (channelStateUpdated deviceExtId channelExtId (VButtonEventCode code) eventTs).

(** What reaches the tracker of one channel: a button report of the bridge
    or the expiry of the aggregation window. *)
Inductive ButtonInput :=
| ButtonReport (lastEvent : string) (eventTs : Z)
| WindowExpired.

Definition buttonStep (deviceExtId channelExtId : string) (input : ButtonInput) : Act unit :=
  match input with
  | ButtonReport lastEvent eventTs =>
      let code := mapHueV2ButtonEventToCode lastEvent in
      if bool_decide (code = BtnNone) then skip
      else dispatchButtonEvent deviceExtId channelExtId code eventTs
  | WindowExpired => onMultiPressTimerTimeout (channelBindingKey deviceExtId channelExtId)
  end.

Fixpoint runActs (acts : list (Act unit)) : Act unit :=
  match acts with
  | [] => skip
  | a :: rest => a;; runActs rest
  end.

(** The raw notification of a button report. *)
Definition rawEvent (deviceExtId channelExtId : string) (code : ButtonEventCode) (ts : Z)
  : Effect :=
  channelStateUpdated deviceExtId channelExtId (VButtonEventCode code) ts.

(** The tracker as a short release leaves it: window timer running. *)
Definition releasedTracker (deviceExtId channelExtId : string) (count ts : Z)
  : ButtonMultiPressTracker.t :=
  {| ButtonMultiPressTracker.count := count;
     ButtonMultiPressTracker.lastTs := ts;
     ButtonMultiPressTracker.timer :=
       Some {| QTimer.active := true; QTimer.interval := kButtonMultiPressWindowMs |};
     ButtonMultiPressTracker.deviceExtId := deviceExtId;
     ButtonMultiPressTracker.channelExtId := channelExtId |}.

(** The aggregated press as C3 states it, for a count of at least 2: a
    double, triple or quadruple press for 2, 3 or 4, a quintuple press for
    anything above; compared with [aggregatedCode] in [aggregatedCode_spec]. *)
Definition pressCodeOf (count : Z) : ButtonEventCode :=
  if decide (count = 2) then DoublePress
  else if decide (count = 3) then TriplePress
  else if decide (count = 4) then QuadruplePress
  else QuintuplePress.

(** ** Gamut clamping (lines 3185-3216, 3244-3290)

    Written over an abstract number type: the code only adds, subtracts,
    multiplies, divides and compares [double]s. *)

Module Number.
Class t (R : Type) : Type := mk {
  zero : R; one : R; half : R; tiny : R;   (* 0.0, 1.0, 0.5, 1e-12 *)
  add : R → R → R; sub : R → R → R; mul : R → R → R; div : R → R → R;
  ltb : R → R → bool; leb : R → R → bool
}.
End Number.

Section Gamut.
Context {R : Type} `{Number.t R}.
Import Number.

Definition QPointF : Type := R * R.

(** [QPointF::operator==] is Qt's own (fuzzy) comparison. *)
Variable pointEq : QPointF → QPointF → bool.

Record HueGamut : Type := mkHueGamut { p1 : QPointF; p2 : QPointF; p3 : QPointF }.

Definition isValid (g : HueGamut) : bool :=
  negb (pointEq (p1 g) (p2 g)) && negb (pointEq (p2 g) (p3 g))
  && negb (pointEq (p3 g) (p1 g)).

Definition qBound (lo v hi : R) : R :=
  if ltb v lo then lo else if ltb hi v then hi else v.

Definition closestPointOnSegment (p a b : QPointF) : QPointF :=
  let abx := sub b.1 a.1 in
  let aby := sub b.2 a.2 in
  let apx := sub p.1 a.1 in
  let apy := sub p.2 a.2 in
  let abLen2 := add (mul abx abx) (mul aby aby) in
  if leb abLen2 tiny then a
  else
    let t := div (add (mul apx abx) (mul apy aby)) abLen2 in
    let t := qBound zero t one in
    (add a.1 (mul (sub b.1 a.1) t), add a.2 (mul (sub b.2 a.2) t)).

Definition signedArea (a b c : QPointF) : R :=
  mul half (sub (mul (sub b.1 a.1) (sub c.2 a.2)) (mul (sub b.2 a.2) (sub c.1 a.1))).

Definition pointInTriangle (p a b c : QPointF) : bool :=
  let area1 := signedArea p a b in
  let area2 := signedArea p b c in
  let area3 := signedArea p c a in
  let hasNeg := ltb area1 zero || ltb area2 zero || ltb area3 zero in
  let hasPos := ltb zero area1 || ltb zero area2 || ltb zero area3 in
  negb (hasNeg && hasPos).

Definition dist2 (u v : QPointF) : R :=
  let dx := sub u.1 v.1 in
  let dy := sub u.2 v.2 in
  add (mul dx dx) (mul dy dy).

(** The three edge projections, in the order the code computes them. *)
Definition edgeProjections (g : HueGamut) (p : QPointF) : list QPointF :=
  [closestPointOnSegment p (p1 g) (p2 g);
   closestPointOnSegment p (p2 g) (p3 g);
   closestPointOnSegment p (p3 g) (p1 g)].

(** [clampColorToGamut] for a light whose gamut entry is [gamut]
    ([None]: no entry in [m_gamutByLightId]); returns the new [(x, y)]. *)
Definition clampColorToGamut (gamut : option HueGamut) (p : QPointF) : QPointF :=
  match gamut with
  | None => p
  | Some g =>
      if negb (isValid g) then p
      else
        let a := p1 g in
        let b := p2 g in
        let c := p3 g in
        if pointInTriangle p a b c then p
        else
          let pAB := closestPointOnSegment p a b in
          let pBC := closestPointOnSegment p b c in
          let pCA := closestPointOnSegment p c a in
          let dAB := dist2 p pAB in
          let dBC := dist2 p pBC in
          let dCA := dist2 p pCA in
          let closest := pAB in
          let dMin := dAB in
          let '(dMin, closest) := if ltb dBC dMin then (dBC, pBC) else (dMin, closest) in
          let closest := if ltb dCA dMin then pCA else closest in
          closest
  end.

End Gamut.

(** [double] read as an exact rational. *)
#[export] Instance Number_Q : Number.t Q :=
  {| Number.zero := 0%Q; Number.one := 1%Q; Number.half := (1 # 2)%Q;
     Number.tiny := (1 # 1000000000000)%Q;
     Number.add := Qplus; Number.sub := Qminus; Number.mul := Qmult; Number.div := Qdiv;
     Number.ltb := Qltb; Number.leb := Qle_bool |}.

(** Point comparison on rationals: both coordinates equal.  [QPointF]'s
    comparison is a fuzzy one on doubles; the two agree on points that are
    not within rounding distance of each other, and the facts about the
    clamp take the comparison as a parameter. *)
Definition pointEqQ (p q : Q * Q) : bool := Qeq_bool p.1 q.1 && Qeq_bool p.2 q.2.

(** ** Channel writes (lines 652-758, 1207-1235) *)

Definition sendV2ResourceUpdate (resourceType resourceId : string) (payload : QJsonObject)
  : Act bool :=
  s ← get;
  if negb (m_nam s) then mret false
  else if isEmpty resourceType || isEmpty resourceId then mret false
  else if objIsEmpty payload then mret false
  else if isEmpty (token s) then mret false
  else emit (networkPut (resourceType +:+ "/" +:+ resourceId) payload);; mret true.

(** The [ctPreset] branch: the mirek value for a preset index, from the
    range of the device's [ct] channel (lines 697-713). *)
Definition ctRangeOf (channels : ChannelList) : Q * Q :=
  let ctMin := 153%Q in
  let ctMax := 500%Q in
  match List.find (λ ch, bool_decide (Channel.id ch = "ct")) channels with
  | Some ch =>
      (if Qltb 0 (Channel.minValue ch) then Channel.minValue ch else ctMin,
       if Qltb 0 (Channel.maxValue ch) then Channel.maxValue ch else ctMax)
  | None => (ctMin, ctMax)
  end.

Definition ctPresetMired (presetIdx : Z) (channels : ChannelList) : Z :=
  let '(ctMin, ctMax) := ctRangeOf channels in
  let span := (ctMax - ctMin)%Q in
  let t := if Qltb 0 span then (inject_Z presetIdx / 4)%Q else (1 # 2)%Q in
  round (ctMin + t * span)%Q.

(** The body of a colour-temperature request. *)
Definition mirekBody (ctMired : Z) : QJsonObject :=
  [("color_temperature", JObject [("mirek", JDouble (inject_Z ctMired))])].

Section ChannelWrites.

(** The conversion of a written colour to chromaticity ([Color] from the
    variant or its map, then [colorToXy] of color.h, lines 720-733). *)
Variable variantToXy : QVariant → Q * Q.

(** The table [m_gamutByLightId], in rational coordinates. *)
Variable m_gamutByLightId : gmap string (@HueGamut Q).

(** The request body and the echoed final value of a handled channel. *)
Definition lightWriteBody (lightId channelExternalId : string) (value : QVariant)
    (channels : ChannelList) : option (QJsonObject * QVariant) :=
  if bool_decide (channelExternalId = "on") then
    let on := variantToBool value in
    Some ([("on", JObject [("on", JBool on)])], VBool on)
  else if bool_decide (channelExternalId = "bri") then
    let percent := qBoundQ 0 (variantToDouble value) 100 in
    Some ([("dimming", JObject [("brightness", JDouble percent)])], VDouble percent)
  else if bool_decide (channelExternalId = "ct") then
    let ctMired := variantToInt value in
    Some (mirekBody ctMired, VInt ctMired)
  else if bool_decide (channelExternalId = "ctPreset") then
    let presetIdx := qBoundZ 0 (variantToInt value) 4 in
    let ctMired := ctPresetMired presetIdx channels in
    Some (mirekBody ctMired, VInt presetIdx)
  else if bool_decide (channelExternalId = "color") then
    let xy := clampColorToGamut pointEqQ (m_gamutByLightId !! lightId) (variantToXy value) in
    Some ([("color", JObject [("xy", JObject [("x", JDouble xy.1); ("y", JDouble xy.2)])])],
          value)
  else None.

Definition updateChannelState (deviceExternalId channelExternalId : string)
    (value : QVariant) : Act unit :=
  s ← get;
  if m_stopping s then emit (baseUpdateChannelState deviceExternalId channelExternalId value)
  else
    let bindingKey := channelBindingKey deviceExternalId channelExternalId in
    let binding := default HueChannelBinding.empty (m_channelBindings s !! bindingKey) in
    if negb (bool_decide (HueChannelBinding.resourceType binding = "light"))
       || isEmpty (HueChannelBinding.resourceId binding)
    then emit (baseUpdateChannelState deviceExternalId channelExternalId value)
    else
      let channels := default [] (m_v2DeviceChannels s !! deviceExternalId) in
      match lightWriteBody (HueChannelBinding.resourceId binding) channelExternalId
                           value channels with
      | None => emit (baseUpdateChannelState deviceExternalId channelExternalId value)
      | Some (body, finalValue) =>
          sendV2ResourceUpdate (HueChannelBinding.resourceType binding)
                               (HueChannelBinding.resourceId binding) body
            ≫= λ sent : bool,
          emit (cmdResult
                  {| CmdResponse.status := if sent then Success else Failure;
                     CmdResponse.finalValue := finalValue;
                     CmdResponse.error :=
                       if sent then "" else "Hue request could not be sent" |})
      end.

End ChannelWrites.

(** ** More helpers of the anonymous namespace (hueadapter.cpp 145-437) *)

(** The loop of [serviceRefFromMeta] over an array entry: the first
    string that is not blank, trimmed. *)
Fixpoint firstRefOf (arr : QJsonArray) : string :=
  match arr with
  | [] => ""
  | JString s :: rest =>
      let text := trimmed s in
      if negb (isEmpty text) then text else firstRefOf rest
  | _ :: rest => firstRefOf rest
  end.

Definition serviceRefFromMeta (meta : QJsonObject) (refKey : string) : string :=
  let refs := toObject (value meta "serviceRefs") in
  if objIsEmpty refs then ""
  else
    match value refs refKey with
    | JString s =>
        let text := trimmed s in
        if negb (isEmpty text) then text else ""
    | JArray arr => firstRefOf arr
    | _ => ""
    end.

(** The [rid]s of the entries of [services] whose [rtype] is [type], in
    the order of the array; entries without a [rid] do not count. *)
Definition serviceRids (type : string) (services : QJsonArray) : list string :=
  flat_map (λ val,
              match val with
              | JObject obj =>
                  if bool_decide (toString (value obj "rtype") = type)
                     && negb (isEmpty (toString (value obj "rid")))
                  then [toString (value obj "rid")] else []
              | _ => []
              end) services.

(** The entry that [buildServiceRefMap] stores for the references
    [rids] of one type. *)
Definition refEntry (rids : list string) : QJsonValue :=
  match rids with
  | [rid] => JString rid
  | _ => JArray (JString <$> rids)
  end.

(** [phicore::DeviceSoftwareUpdateStatus]. *)
Module DeviceSoftwareUpdateStatus.
Inductive t :=
| Unknown | UpToDate | UpdateAvailable | Downloading | Installing | RebootRequired | Failed.
End DeviceSoftwareUpdateStatus.

Definition deviceSoftwareUpdateStatusFromString (value : string)
  : DeviceSoftwareUpdateStatus.t :=
  let normalized := toLower value in
  if containsStr normalized "up" && containsStr normalized "date"
  then DeviceSoftwareUpdateStatus.UpToDate
  else if containsStr normalized "ready" || containsStr normalized "available"
  then DeviceSoftwareUpdateStatus.UpdateAvailable
  else if containsStr normalized "download" then DeviceSoftwareUpdateStatus.Downloading
  else if containsStr normalized "install" && negb (containsStr normalized "ready")
  then DeviceSoftwareUpdateStatus.Installing
  else if containsStr normalized "reboot" || containsStr normalized "restart"
  then DeviceSoftwareUpdateStatus.RebootRequired
  else if containsStr normalized "fail" then DeviceSoftwareUpdateStatus.Failed
  else DeviceSoftwareUpdateStatus.Unknown.

Definition deviceSoftwareUpdateStatusToString (status : DeviceSoftwareUpdateStatus.t)
  : string :=
  match status with
  | DeviceSoftwareUpdateStatus.UpToDate => "UpToDate"
  | DeviceSoftwareUpdateStatus.UpdateAvailable => "UpdateAvailable"
  | DeviceSoftwareUpdateStatus.Downloading => "Downloading"
  | DeviceSoftwareUpdateStatus.Installing => "Installing"
  | DeviceSoftwareUpdateStatus.RebootRequired => "RebootRequired"
  | DeviceSoftwareUpdateStatus.Failed => "Failed"
  | DeviceSoftwareUpdateStatus.Unknown => "Unknown"
  end.

Definition classifyDeviceString (text : string) : DeviceClass :=
  if isEmpty text then ClassUnknown
  else
    let lower := toLower text in
    if containsStr lower "plug" then ClassPlug
    else if containsStr lower "sensor" then ClassSensor
    else if containsStr lower "switch" then ClassSwitch
    else if containsStr lower "bridge" || containsStr lower "gateway" then ClassGateway
    else ClassUnknown.

Definition withDeviceClass (cls : DeviceClass) (d : Device.t) : Device.t :=
  {| Device.id := Device.id d; Device.name := Device.name d;
     Device.manufacturer := Device.manufacturer d; Device.model := Device.model d;
     Device.firmware := Device.firmware d; Device.deviceClass := cls;
     Device.meta := Device.meta d |}.

(** The loop of [applyDeviceClassFromMetadata] over its candidates: it
    stops at the first text that classifies. *)
Fixpoint applyFirstClass (device : Device.t) (candidates : list string) : Device.t :=
  match candidates with
  | [] => device
  | text :: rest =>
      match classifyDeviceString text with
      | ClassUnknown => applyFirstClass device rest
      | cls =>
          match Device.deviceClass device with
          | ClassUnknown | ClassLight => withDeviceClass cls device
          | _ => device
          end
      end
  end.

Definition applyDeviceClassFromMetadata (device : Device.t) (metaObj productObj : QJsonObject)
  : Device.t :=
  applyFirstClass device
    [toString (value productObj "product_archetype");
     toString (value productObj "product_name");
     toString (value metaObj "archetype");
     toString (value metaObj "name")].

(** The loop of [beautifyHueEffectLabel]: a character is put in upper
    case when it is the first one or follows white space. *)
Fixpoint capitalizeWords (afterSpace : bool) (lower : string) : string :=
  match lower with
  | EmptyString => EmptyString
  | String c r =>
      String (if afterSpace then toUpperChar c else c) (capitalizeWords (isSpace c) r)
  end.

Definition beautifyHueEffectLabel (effect : string) : string :=
  if isEmpty effect then effect
  else capitalizeWords true (toLower (replaceChar (replaceChar effect "_" " ") "-" " ")).

(** [phicore::DeviceEffect]; [Other] stands for the enumerators that the
    adapter does not name. *)
Module DeviceEffect.
Inductive t :=
| Other | Candle | Fireplace | Sparkle | ColorLoop | Relax | Concentrate | Alarm
| CustomVendor.
End DeviceEffect.

Definition mapHueEffectName (effect : string) : DeviceEffect.t :=
  let lower := toLower effect in
  if bool_decide (lower = "candle") then DeviceEffect.Candle
  else if bool_decide (lower = "fire") || bool_decide (lower = "sunbeam")
  then DeviceEffect.Fireplace
  else if bool_decide (lower = "sparkle") || bool_decide (lower = "glisten")
          || bool_decide (lower = "opal") || bool_decide (lower = "prism")
          || bool_decide (lower = "underwater") || bool_decide (lower = "enchant")
          || bool_decide (lower = "cosmos")
  then DeviceEffect.Sparkle
  else if bool_decide (lower = "colorloop") || containsStr lower "palette"
  then DeviceEffect.ColorLoop
  else if bool_decide (lower = "sunrise") || bool_decide (lower = "sunset")
  then DeviceEffect.Relax
  else DeviceEffect.CustomVendor.

Definition hueEffectNameForDeviceEffect (effect : DeviceEffect.t) : string :=
  match effect with
  | DeviceEffect.Candle => "candle"
  | DeviceEffect.Fireplace => "fire"
  | DeviceEffect.Sparkle => "sparkle"
  | DeviceEffect.ColorLoop => "colorloop"
  | DeviceEffect.Relax => "sunset"
  | DeviceEffect.Concentrate => "enchant"
  | DeviceEffect.Alarm => "prism"
  | _ => ""
  end.

(** [phicore::DeviceEffectDescriptor]. *)
Module DeviceEffectDescriptor.
Record t : Type := mk {
  effect : DeviceEffect.t;
  id : string;
  label : string;
  description : string;
  requiresParams : bool;
  meta : QJsonObject
}.
End DeviceEffectDescriptor.

(** The set [seen] of [applyHueEffects] at its start: the identifiers and
    labels of the effects the device has, in lower case. *)
Definition seenEffects (effects : list DeviceEffectDescriptor.t) : gset string :=
  foldl (λ (seen : gset string) existing,
           {[toLower (DeviceEffectDescriptor.label existing)]}
           ∪ ({[toLower (DeviceEffectDescriptor.id existing)]} ∪ seen))
        ∅ effects.

(** The closure [addEffectsFromArray] on [seen] and [device.effects]. *)
Definition addEffectsFromArray (category : string) (array : QJsonArray)
    (acc : gset string * list DeviceEffectDescriptor.t)
  : gset string * list DeviceEffectDescriptor.t :=
  foldl (λ (acc : gset string * list DeviceEffectDescriptor.t) (val : QJsonValue),
           match val with
           | JString s =>
               let value := trimmed s in
               if isEmpty value then acc
               else
                 let key := toLower value in
                 if bool_decide (key = "no_effect") then acc
                 else if bool_decide (key ∈ acc.1) then acc
                 else
                   let desc :=
                     {| DeviceEffectDescriptor.effect := mapHueEffectName value;
                        DeviceEffectDescriptor.id := value;
                        DeviceEffectDescriptor.label := beautifyHueEffectLabel value;
                        DeviceEffectDescriptor.description :=
                          "Hue effect " +:+ beautifyHueEffectLabel value;
                        DeviceEffectDescriptor.requiresParams := false;
                        DeviceEffectDescriptor.meta :=
                          insert (insert [] "hueEffect" (JString value))
                                 "hueEffectCategory" (JString category) |} in
                   ({[key]} ∪ acc.1, acc.2 ++ [desc])
           | _ => acc
           end)
        acc array.

(** The keys under which [addEffectsFromArray] looks the entries of
    [array] up in [seen]: the trimmed strings in lower case, without the
    blank ones and [no_effect]. *)
Definition effectKeys (array : QJsonArray) : list string :=
  flat_map (λ val,
              match val with
              | JString s =>
                  let key := toLower (trimmed s) in
                  if isEmpty (trimmed s) || bool_decide (key = "no_effect") then []
                  else [key]
              | _ => []
              end) array.

(** What the loop of [addEffectsFromArray] keeps, for the effects
    [effects] a device had at the start: they stay in front of the
    [added] ones, the seen keys are theirs and the names of the added
    ones, and the added ones have fresh names. *)
Definition registered (effects : list DeviceEffectDescriptor.t)
    (acc : gset string * list DeviceEffectDescriptor.t)
    (added : list DeviceEffectDescriptor.t) : Prop :=
  acc.2 = effects ++ added
  ∧ (∀ key, key ∈ acc.1 ↔ (key ∈ seenEffects effects
                           ∨ key ∈ ((toLower ∘ DeviceEffectDescriptor.id) <$> added)))
  ∧ NoDup ((toLower ∘ DeviceEffectDescriptor.id) <$> added)
  ∧ (∀ d, d ∈ added →
       DeviceEffectDescriptor.id d ≠ ""
       ∧ toLower (DeviceEffectDescriptor.id d) ≠ "no_effect"
       ∧ (toLower (DeviceEffectDescriptor.id d) ∉ seenEffects effects)
       ∧ value (DeviceEffectDescriptor.meta d) "hueEffect"
         = JString (DeviceEffectDescriptor.id d)).

(** [applyHueEffects] on [device.effects], the one field of the device
    that it reads and writes. *)
Definition applyHueEffects (effects : list DeviceEffectDescriptor.t) (source : QJsonObject)
  : list DeviceEffectDescriptor.t :=
  if objIsEmpty source then effects
  else
    let effectsArr :=
      toArray (value (toObject (value source "effects")) "effect_values") in
    let v2ActionArr :=
      toArray (value (toObject (value (toObject (value source "effects_v2")) "action"))
                     "effect_values") in
    let timedArr :=
      toArray (value (toObject (value source "timed_effects")) "effect_values") in
    (addEffectsFromArray "timed_effects" timedArr
       (addEffectsFromArray "effects" v2ActionArr
          (addEffectsFromArray "effects" effectsArr (seenEffects effects, effects)))).2.

(** ** Owners and delete events (lines 1605-1629, 4282-4311) *)

(** [deviceExternalIdFromV2Resource]; the function is [const] and writes
    through a [const_cast]. *)
Definition deviceExternalIdFromV2Resource (resObj : QJsonObject) : Act string :=
  let ownerObj := toObject (value resObj "owner") in
  if negb (bool_decide (toString (value ownerObj "rtype") = "device")) then mret ""
  else
    let deviceId := toString (value ownerObj "rid") in
    if isEmpty deviceId then mret ""
    else
      s ← get;
      let mapped := default "" (m_deviceIdToExternalId s !! deviceId) in
      if isEmpty mapped then
        modify (λ s, set_m_deviceIdToExternalId
                       (<[deviceId := deviceId]> (m_deviceIdToExternalId s)) s);;
        fetchV2DeviceResource deviceId;;
        mret deviceId
      else
        let deviceInfo := default Device.empty (m_v2DeviceInfoCache s !! mapped) in
        (if objIsEmpty (Device.meta deviceInfo) then fetchV2DeviceResource deviceId
         else skip);;
        mret mapped.

(** One round of the loop of [handleV2DeleteEvent]. *)
Definition deleteDevice (resVal : QJsonValue) : Act unit :=
  if negb (isObject resVal) then skip
  else
    let resObj := toObject resVal in
    let type := toString (value resObj "type") in
    if negb (bool_decide (type = "device")) then skip
    else
      let deviceId := toString (value resObj "id") in
      if isEmpty deviceId then skip
      else
        s ← get;
        let taken := default "" (m_deviceIdToExternalId s !! deviceId) in
        modify (λ s, set_m_deviceIdToExternalId (delete deviceId (m_deviceIdToExternalId s)) s);;
        let extId := if isEmpty taken then deviceId else taken in
        emit (deviceRemoved extId);;
        modify (λ s, set_m_v2Devices (delete extId (m_v2Devices s)) s);;
        modify (λ s, set_m_v2DeviceChannels (delete extId (m_v2DeviceChannels s)) s);;
        modify (λ s, set_m_v2DeviceInfoCache (delete extId (m_v2DeviceInfoCache s)) s);;
        modify (λ s, set_m_knownDeviceExternalIds (m_knownDeviceExternalIds s ∖ {[extId]}) s);;
        modify (λ s, set_m_deviceToLightResource (delete extId (m_deviceToLightResource s)) s).

Fixpoint handleV2DeleteEvent (dataArr : QJsonArray) : Act unit :=
  match dataArr with
  | [] => skip
  | resVal :: rest => deleteDevice resVal;; handleV2DeleteEvent rest
  end.

(** Nothing of the device [extId] is left in the tables that a removal
    clears. *)
Definition erased (extId : string) (s : HueAdapter) : Prop :=
  m_v2Devices s !! extId = None
  ∧ m_v2DeviceChannels s !! extId = None
  ∧ m_v2DeviceInfoCache s !! extId = None
  ∧ (extId ∉ m_knownDeviceExternalIds s)
  ∧ m_deviceToLightResource s !! extId = None.

(** The tables that a lazy metadata fetch leaves as they are. *)
Definition sameTables (s s' : HueAdapter) : Prop :=
  m_v2Devices s' = m_v2Devices s
  ∧ m_v2DeviceChannels s' = m_v2DeviceChannels s
  ∧ m_v2DeviceInfoCache s' = m_v2DeviceInfoCache s
  ∧ m_knownDeviceExternalIds s' = m_knownDeviceExternalIds s
  ∧ m_deviceIdToExternalId s' = m_deviceIdToExternalId s
  ∧ m_failedV2DeviceFetch s' = m_failedV2DeviceFetch s.

(** What the device loop over [keys] may produce in the state [s]: the
    update of a device that has channels, metadata and a name, or the
    metadata request of a device that waits for it. *)
Definition completeUpdate (s : HueAdapter) (keys : list string) (e : Effect) : Prop :=
  match e with
  | deviceUpdated device channels =>
      channels ≠ [] ∧ Device.name device ≠ ""
      ∧ objIsEmpty (Device.meta device) = false
      ∧ ∃ key, key ∈ keys
               ∧ m_v2DeviceChannels s !! key = Some channels
               ∧ waitsForMetadata s key = false
               ∧ (Device.id device = "" → key = "")
  | networkGet path =>
      ∃ key, key ∈ keys ∧ path = "device/" +:+ key ∧ waitsForMetadata s key = true
  | _ => False
  end.

(** ** Connection state and the gamut table (lines 1018-1025, 3220-3243) *)

(** Connection states that change at every step, starting from [current]. *)
Fixpoint alternates (current : bool) (signals : list bool) : Prop :=
  match signals with
  | [] => True
  | signal :: rest => signal = negb current ∧ alternates signal rest
  end.

Section GamutTable.
Variable pointEq : (Q * Q) → (Q * Q) → bool.

(** The closure [pointFrom] of [updateGamutForLight]. *)
Definition pointFrom (v : QJsonValue) : Q * Q :=
  match toArray v with
  | x :: y :: _ => (toDouble x 0, toDouble y 0)
  | _ => (0%Q, 0%Q)
  end.

(** [updateGamutForLight] on the table [m_gamutByLightId]. *)
Definition updateGamutForLight (lightId : string) (controlObj : QJsonObject)
    (m_gamutByLightId : gmap string (@HueGamut Q)) : gmap string (@HueGamut Q) :=
  match toArray (value controlObj "colorgamut") with
  | first :: second :: third :: _ =>
      let g := {| p1 := pointFrom first; p2 := pointFrom second; p3 := pointFrom third |} in
      if negb (isValid pointEq g) then m_gamutByLightId
      else <[lightId := g]> m_gamutByLightId
  | _ => m_gamutByLightId
  end.

End GamutTable.

(** ** Binding keys and connectivity texts (lines 81-84, 208-221) *)

Definition resourceBindingKey (resourceType resourceId : string) : string :=
  resourceType +:+ "|" +:+ resourceId.

(** [phicore::ConnectivityStatus]; the name is taken by the channel kind. *)
Module Connectivity.
Inductive Status := Unknown | Connected | Limited | Disconnected.
End Connectivity.

Definition connectivityStatusFromString (value : string) : Connectivity.Status :=
  let normalized := toLower (trimmed value) in
  if bool_decide (normalized = "connected") then Connectivity.Connected
  else if bool_decide (normalized = "disconnected") then Connectivity.Disconnected
  else if containsStr normalized "issue" || containsStr normalized "limited"
          || containsStr normalized "degraded"
  then Connectivity.Limited
  else Connectivity.Unknown.

(** ** Seeding channel values from the light snapshot
       ([buildDevicesFromV2Snapshots], lines 1928-1946 and 2600-2655) *)

(** The closure [deviceForHueOwner]: the external id of the device that
    owns a resource; an owner without an entry in [m_v2Devices] gets a
    placeholder and a metadata request. *)
Definition deviceForHueOwner (ownerId : string) : Act string :=
  if isEmpty ownerId then mret ""
  else
    s ← get;
    let mapped := default "" (m_deviceIdToExternalId s !! ownerId) in
    if negb (isEmpty mapped) && bool_decide (mapped ∈ dom (m_v2Devices s)) then mret mapped
    else
      let mapped := ownerId in
      let device := default Device.empty (m_v2Devices s !! mapped) in
      let device := if isEmpty (Device.id device) then Device.set_id mapped device
                    else device in
      modify (λ s, set_m_v2Devices (<[mapped := device]> (m_v2Devices s)) s);;
      (if negb (bool_decide (mapped ∈ dom (m_v2DeviceInfoCache s)))
       then modify (λ s, set_m_v2DeviceInfoCache
                           (<[mapped := device]> (m_v2DeviceInfoCache s)) s)
       else skip);;
      modify (λ s, set_m_deviceIdToExternalId
                     (<[ownerId := mapped]> (m_deviceIdToExternalId s)) s);;
      fetchV2DeviceResource ownerId;;
      mret mapped.

Section Seeding.

(** [colorFromXy(x, y, 1.0)] of color.h, wrapped in a [QVariant]. *)
Variable colorVariant : Q → Q → QVariant.

(** The time of the rebuild, [nowMs]. *)
Variable nowMs : Z.

(** One entry of the light array in step 7 (lines 2601-2655). *)
Definition seedLightState (val : QJsonValue) : Act unit :=
  if negb (isObject val) then skip
  else
    let resObj := toObject val in
    let ownerObj := toObject (value resObj "owner") in
    if negb (bool_decide (toString (value ownerObj "rtype") = "device")) then skip
    else
      let deviceId := toString (value ownerObj "rid") in
      deviceExtId ← deviceForHueOwner deviceId;
      if isEmpty deviceExtId then skip
      else
        let onObj := toObject (value resObj "on") in
        let dimObj := toObject (value resObj "dimming") in
        let ctObj := toObject (value resObj "color_temperature") in
        let colorObj := toObject (value resObj "color") in
        (if contains onObj "on"
         then emit (channelStateUpdated deviceExtId "on"
                                        (VBool (toBool (value onObj "on") false)) nowMs)
         else skip);;
        (if contains dimObj "brightness" then
           let percent := toDouble (value dimObj "brightness") (-1) in
           if Qle_bool 0 percent
           then emit (channelStateUpdated deviceExtId "bri"
                                          (VDouble (qBoundQ 0 percent 100)) nowMs)
           else skip
         else skip);;
        (if contains ctObj "mirek"
         then emit (channelStateUpdated deviceExtId "ct"
                                        (VInt (toInt (value ctObj "mirek") 0)) nowMs)
         else skip);;
        let xyObj := toObject (value colorObj "xy") in
        if contains xyObj "x" && contains xyObj "y"
        then emit (channelStateUpdated deviceExtId "color"
                                       (colorVariant (toDouble (value xyObj "x") 0)
                                                     (toDouble (value xyObj "y") 0))
                                       nowMs)
        else skip.

(** The channel values that [seedLightState] emits for the light
    [resObj] of the device [deviceExtId], in order. *)
Definition lightStateValues (deviceExtId : string) (resObj : QJsonObject) : list Effect :=
  let onObj := toObject (value resObj "on") in
  let dimObj := toObject (value resObj "dimming") in
  let ctObj := toObject (value resObj "color_temperature") in
  let xyObj := toObject (value (toObject (value resObj "color")) "xy") in
  (if contains onObj "on"
   then [channelStateUpdated deviceExtId "on" (VBool (toBool (value onObj "on") false)) nowMs]
   else [])
  ++ (if contains dimObj "brightness"
         && Qle_bool 0 (toDouble (value dimObj "brightness") (-1))
      then [channelStateUpdated deviceExtId "bri"
              (VDouble (qBoundQ 0 (toDouble (value dimObj "brightness") (-1)) 100)) nowMs]
      else [])
  ++ (if contains ctObj "mirek"
      then [channelStateUpdated deviceExtId "ct" (VInt (toInt (value ctObj "mirek") 0)) nowMs]
      else [])
  ++ (if contains xyObj "x" && contains xyObj "y"
      then [channelStateUpdated deviceExtId "color"
              (colorVariant (toDouble (value xyObj "x") 0) (toDouble (value xyObj "y") 0))
              nowMs]
      else []).

Fixpoint seedLightStates (lightArray : QJsonArray) : Act unit :=
  match lightArray with
  | [] => skip
  | val :: rest => seedLightState val;; seedLightStates rest
  end.

(** Step 6, the removal and the light part of step 7, as the rebuild
    runs them (lines 2540-2655). *)
Definition emitRemoveAndSeedLights (snapshotDeviceIds : gset string)
    (lightArray : QJsonArray) : Act unit :=
  emitDevicesAndRemovals snapshotDeviceIds ≫= λ devicesPendingMetadata : bool,
  if devicesPendingMetadata then skip else seedLightStates lightArray.

End Seeding.

(** The device ids of the channel values among [effects], in order. *)
Definition channelValueIds (effects : list Effect) : list string :=
  flat_map (λ e, match e with channelStateUpdated id _ _ _ => [id] | _ => [] end) effects.

(** A resource of the bridge that names [deviceId] as its owner. *)
Definition ownedBy (deviceId : string) (val : QJsonValue) : Prop :=
  toString (value (toObject (value (toObject val) "owner")) "rid") = deviceId.

(** ** Device fetches that are under way

    The lazy fetches whose GET was handed to the network and whose reply
    has not come back, along a sequence of queue events. *)

(** The device ids of the lazy fetches among [effects]: the GETs of
    [device/<id>]. *)
Definition deviceGetIds (effects : list Effect) : list string :=
  flat_map (λ e, match e with
                 | networkGet resourcePath =>
                     if startsWith resourcePath "device/"
                     then [mid resourcePath (String.length "device/")] else []
                 | _ => []
                 end) effects.

Fixpoint removeOne (deviceId : string) (ids : list string) : list string :=
  match ids with
  | [] => []
  | x :: rest => if bool_decide (x = deviceId) then rest else x :: removeOne deviceId rest
  end.

(** A reply ends one fetch of its device. *)
Definition answeredBy (ev : FetchEvent) (outstanding : list string) : list string :=
  match ev with
  | DeviceFetchAnswered deviceId | DeviceFetchFailed deviceId
  | DeviceFetchUnreadable deviceId => removeOne deviceId outstanding
  | _ => outstanding
  end.

Fixpoint outstandingFetches (evs : list FetchEvent) (s : HueAdapter)
    (outstanding : list string) : list string :=
  match evs with
  | [] => outstanding
  | ev :: rest =>
      let run := fetchQueueStep ev s in
      outstandingFetches rest (stateOf run)
                         (answeredBy ev outstanding ++ deviceGetIds (effectsOf run))
  end.

(** What a member function of the queue does to the fetches under way:
    nothing, or it starts one fetch of a device that was not in flight. *)
Definition startsAtMostOne (run : unit * HueAdapter * list Effect) (s : HueAdapter) : Prop :=
  (effectsOf run = [] ∧ m_pendingV2DeviceFetch (stateOf run) = m_pendingV2DeviceFetch s)
  ∨ ∃ d, effectsOf run = [networkGet ("device/" +:+ d)]
         ∧ m_pendingV2DeviceFetch (stateOf run) = {[d]} ∪ m_pendingV2DeviceFetch s
         ∧ d ∉ m_pendingV2DeviceFetch s.

(** ** The geometry of the gamut clamp, on rationals *)

(** [q] lies on the segment from [a] to [b]. *)
Definition onSegment (a b q : Q * Q) : Prop :=
  ∃ t : Q, (0 <= t)%Q ∧ (t <= 1)%Q
           ∧ (q.1 == a.1 + (b.1 - a.1) * t)%Q ∧ (q.2 == a.2 + (b.2 - a.2) * t)%Q.

(** [p] lies in the closed triangle [a], [b], [c]: it is a convex
    combination of the corners. *)
Definition inTriangle (a b c p : Q * Q) : Prop :=
  ∃ wa wb wc : Q,
    (0 <= wa)%Q ∧ (0 <= wb)%Q ∧ (0 <= wc)%Q ∧ (wa + wb + wc == 1)%Q
    ∧ (p.1 == wa * a.1 + wb * b.1 + wc * c.1)%Q
    ∧ (p.2 == wa * a.2 + wb * b.2 + wc * c.2)%Q.

(** The squared length of the edge from [a] to [b], as
    [closestPointOnSegment] computes it. *)
Definition edgeLength2 (a b : Q * Q) : Q :=
  ((b.1 - a.1) * (b.1 - a.1) + (b.2 - a.2) * (b.2 - a.2))%Q.

End Plugin.

(* ===================================================================== *)
(** * The IPC sidecar: [HueSidecar] (hue_sidecar.cpp, hue_model.cpp) *)
(* ===================================================================== *)

Module Sidecar.
Import Qt.

(** ** Entities of the adapter SDK *)

Inductive DeviceClass := ClassUnknown | ClassLight | ClassSensor | ClassButton.

(** [v1::ScalarValue], a [std::variant]. *)
Inductive ScalarValue :=
| SNone
| SBool (b : bool)
| SInt (i : Z)
| SDouble (d : Q)
| SString (s : string).

Module Device.
Record t : Type := mk {
  externalId : string;
  name : string;
  manufacturer : string;
  model : string;
  firmware : string;
  deviceClass : DeviceClass;
  hasBattery : bool;
  metaJson : QJsonObject
}.
End Device.

Module Channel.
Record t : Type := mk {
  externalId : string;
  name : string;
  minValue : Q;
  maxValue : Q;
  hasValue : bool;
  lastValue : ScalarValue
}.
End Channel.

Module DeviceEntry.
Record t : Type := mk {
  device : Device.t;
  channels : list Channel.t;
  lightResourceId : string       (* state.lightResourceId *)
}.
End DeviceEntry.

(** [v1::Room]; [v1::Group] has the same fields.  [metaJson] is kept as
    the JSON object of which the source stores the compact text. *)
Module Room.
Record t : Type := mk {
  externalId : string;
  name : string;
  zone : string;
  deviceExternalIds : list string;
  metaJson : QJsonObject
}.
End Room.

Module Scene.
Record t : Type := mk {
  externalId : string;
  name : string;
  scopeExternalId : string;
  scopeType : string;
  metaJson : QJsonObject
}.
End Scene.

Module Snapshot.
Record t : Type := mk {
  devices : gmap string DeviceEntry.t;
  rooms : list Room.t;
  groups : list Room.t;
  scenes : list Scene.t
}.
End Snapshot.

Module ConnectionSettings.
Record t : Type := mk { host : string; ip : string; appKey : string }.
Definition empty : t := {| host := ""; ip := ""; appKey := "" |}.
End ConnectionSettings.

(** [HttpClient::effectiveHost] (hue_http.cpp). *)
Definition effectiveHost (settings : ConnectionSettings.t) : string :=
  let host := trimmed (ConnectionSettings.host settings) in
  if negb (isEmpty host) then host else trimmed (ConnectionSettings.ip settings).

(** ** The sidecar object *)

Record HueSidecar : Type := mkHueSidecar {
  m_settings : ConnectionSettings.t;
  m_connected : bool;
  m_hasBootstrap : bool;
  m_pollIntervalMs : Z;
  m_retryIntervalMs : Z;
  m_nextPollDueMs : Z;
  m_devices : gmap string DeviceEntry.t;
  m_lightResourceByDevice : gmap string string;
  m_discoveryResourceId : string;
  m_knownRooms : gset string;
  m_knownGroups : gset string
}.

(** The sidecar as constructed. *)
Definition initial : HueSidecar :=
  {| m_settings := ConnectionSettings.empty; m_connected := false; m_hasBootstrap := false;
     m_pollIntervalMs := 5000; m_retryIntervalMs := 10000; m_nextPollDueMs := 0; m_devices := ∅;
     m_lightResourceByDevice := ∅; m_discoveryResourceId := ""; m_knownRooms := ∅;
     m_knownGroups := ∅ |}.

Definition set_m_settings (v : ConnectionSettings.t) (s : HueSidecar) : HueSidecar :=
  {| m_settings := v; m_connected := m_connected s; m_hasBootstrap := m_hasBootstrap s;
     m_pollIntervalMs := m_pollIntervalMs s; m_retryIntervalMs := m_retryIntervalMs s;
     m_nextPollDueMs := m_nextPollDueMs s; m_devices := m_devices s; m_lightResourceByDevice :=
     m_lightResourceByDevice s; m_discoveryResourceId := m_discoveryResourceId s; m_knownRooms
     := m_knownRooms s; m_knownGroups := m_knownGroups s |}.
Definition set_m_connected (v : bool) (s : HueSidecar) : HueSidecar :=
  {| m_settings := m_settings s; m_connected := v; m_hasBootstrap := m_hasBootstrap s;
     m_pollIntervalMs := m_pollIntervalMs s; m_retryIntervalMs := m_retryIntervalMs s;
     m_nextPollDueMs := m_nextPollDueMs s; m_devices := m_devices s; m_lightResourceByDevice :=
     m_lightResourceByDevice s; m_discoveryResourceId := m_discoveryResourceId s; m_knownRooms
     := m_knownRooms s; m_knownGroups := m_knownGroups s |}.
Definition set_m_hasBootstrap (v : bool) (s : HueSidecar) : HueSidecar :=
  {| m_settings := m_settings s; m_connected := m_connected s; m_hasBootstrap := v;
     m_pollIntervalMs := m_pollIntervalMs s; m_retryIntervalMs := m_retryIntervalMs s;
     m_nextPollDueMs := m_nextPollDueMs s; m_devices := m_devices s; m_lightResourceByDevice :=
     m_lightResourceByDevice s; m_discoveryResourceId := m_discoveryResourceId s; m_knownRooms
     := m_knownRooms s; m_knownGroups := m_knownGroups s |}.
Definition set_m_pollIntervalMs (v : Z) (s : HueSidecar) : HueSidecar :=
  {| m_settings := m_settings s; m_connected := m_connected s; m_hasBootstrap := m_hasBootstrap
     s; m_pollIntervalMs := v; m_retryIntervalMs := m_retryIntervalMs s; m_nextPollDueMs :=
     m_nextPollDueMs s; m_devices := m_devices s; m_lightResourceByDevice :=
     m_lightResourceByDevice s; m_discoveryResourceId := m_discoveryResourceId s; m_knownRooms
     := m_knownRooms s; m_knownGroups := m_knownGroups s |}.
Definition set_m_retryIntervalMs (v : Z) (s : HueSidecar) : HueSidecar :=
  {| m_settings := m_settings s; m_connected := m_connected s; m_hasBootstrap := m_hasBootstrap
     s; m_pollIntervalMs := m_pollIntervalMs s; m_retryIntervalMs := v; m_nextPollDueMs :=
     m_nextPollDueMs s; m_devices := m_devices s; m_lightResourceByDevice :=
     m_lightResourceByDevice s; m_discoveryResourceId := m_discoveryResourceId s; m_knownRooms
     := m_knownRooms s; m_knownGroups := m_knownGroups s |}.
Definition set_m_nextPollDueMs (v : Z) (s : HueSidecar) : HueSidecar :=
  {| m_settings := m_settings s; m_connected := m_connected s; m_hasBootstrap := m_hasBootstrap
     s; m_pollIntervalMs := m_pollIntervalMs s; m_retryIntervalMs := m_retryIntervalMs s;
     m_nextPollDueMs := v; m_devices := m_devices s; m_lightResourceByDevice :=
     m_lightResourceByDevice s; m_discoveryResourceId := m_discoveryResourceId s; m_knownRooms
     := m_knownRooms s; m_knownGroups := m_knownGroups s |}.
Definition set_m_devices (v : gmap string DeviceEntry.t) (s : HueSidecar) : HueSidecar :=
  {| m_settings := m_settings s; m_connected := m_connected s; m_hasBootstrap := m_hasBootstrap
     s; m_pollIntervalMs := m_pollIntervalMs s; m_retryIntervalMs := m_retryIntervalMs s;
     m_nextPollDueMs := m_nextPollDueMs s; m_devices := v; m_lightResourceByDevice :=
     m_lightResourceByDevice s; m_discoveryResourceId := m_discoveryResourceId s; m_knownRooms
     := m_knownRooms s; m_knownGroups := m_knownGroups s |}.
Definition set_m_lightResourceByDevice (v : gmap string string) (s : HueSidecar) : HueSidecar :=
  {| m_settings := m_settings s; m_connected := m_connected s; m_hasBootstrap := m_hasBootstrap
     s; m_pollIntervalMs := m_pollIntervalMs s; m_retryIntervalMs := m_retryIntervalMs s;
     m_nextPollDueMs := m_nextPollDueMs s; m_devices := m_devices s; m_lightResourceByDevice :=
     v; m_discoveryResourceId := m_discoveryResourceId s; m_knownRooms := m_knownRooms s;
     m_knownGroups := m_knownGroups s |}.
Definition set_m_discoveryResourceId (v : string) (s : HueSidecar) : HueSidecar :=
  {| m_settings := m_settings s; m_connected := m_connected s; m_hasBootstrap := m_hasBootstrap
     s; m_pollIntervalMs := m_pollIntervalMs s; m_retryIntervalMs := m_retryIntervalMs s;
     m_nextPollDueMs := m_nextPollDueMs s; m_devices := m_devices s; m_lightResourceByDevice :=
     m_lightResourceByDevice s; m_discoveryResourceId := v; m_knownRooms := m_knownRooms s;
     m_knownGroups := m_knownGroups s |}.
Definition set_m_knownRooms (v : gset string) (s : HueSidecar) : HueSidecar :=
  {| m_settings := m_settings s; m_connected := m_connected s; m_hasBootstrap := m_hasBootstrap
     s; m_pollIntervalMs := m_pollIntervalMs s; m_retryIntervalMs := m_retryIntervalMs s;
     m_nextPollDueMs := m_nextPollDueMs s; m_devices := m_devices s; m_lightResourceByDevice :=
     m_lightResourceByDevice s; m_discoveryResourceId := m_discoveryResourceId s; m_knownRooms
     := v; m_knownGroups := m_knownGroups s |}.
Definition set_m_knownGroups (v : gset string) (s : HueSidecar) : HueSidecar :=
  {| m_settings := m_settings s; m_connected := m_connected s; m_hasBootstrap := m_hasBootstrap
     s; m_pollIntervalMs := m_pollIntervalMs s; m_retryIntervalMs := m_retryIntervalMs s;
     m_nextPollDueMs := m_nextPollDueMs s; m_devices := m_devices s; m_lightResourceByDevice :=
     m_lightResourceByDevice s; m_discoveryResourceId := m_discoveryResourceId s; m_knownRooms
     := m_knownRooms s; m_knownGroups := v |}.

(** ** Messages to the host

    What the [send...] functions of the SDK base class hand to the host. *)

Inductive Msg :=
| DeviceRemoved (deviceExternalId : string)
| DeviceUpdated (device : Device.t) (channels : list Channel.t)
| ChannelStateUpdated (deviceExternalId channelExternalId : string)
                      (value : ScalarValue) (tsMs : Z)
| RoomUpdated (room : Room.t)
| RoomRemoved (roomExternalId : string)
| GroupUpdated (group : Room.t)
| GroupRemoved (groupExternalId : string)
| ScenesUpdated (scenes : list Scene.t)
| ConnectionStateChanged (connected : bool)
| FullSyncCompleted
| Error (message : string).

(** A member function of the sidecar: reads and updates it, returns a
    value and the messages that were delivered. *)
Definition Op (A : Type) : Type := HueSidecar → A * HueSidecar * list Msg.

#[export] Instance Op_ret : MRet Op := λ A a s, (a, s, []).
#[export] Instance Op_bind : MBind Op := λ A B f m s,
  let '(a, s1, e1) := m s in
  let '(b, s2, e2) := f a s1 in
  (b, s2, e1 ++ e2).

Definition get : Op HueSidecar := λ s, (s, s, []).
Definition modify (f : HueSidecar → HueSidecar) : Op unit := λ s, (tt, f s, []).
Definition skip : Op unit := mret tt.

Definition stateOf {A} (r : A * HueSidecar * list Msg) : HueSidecar := r.1.2.
Definition sentBy {A} (r : A * HueSidecar * list Msg) : list Msg := r.2.
Definition resultOf {A} (r : A * HueSidecar * list Msg) : A := r.1.1.

(** ** The scene, room and zone loops of [buildSnapshot] (hue_model.cpp 753-835) *)

(** The [v1::Scene] that the scene loop fills from one entry. *)
Definition sceneOf (sceneObj : QJsonObject) : Scene.t :=
  let group := toObject (value sceneObj "group") in
  {| Scene.externalId := toString (value sceneObj "id");
     Scene.name := toString (value (toObject (value sceneObj "metadata")) "name");
     Scene.scopeExternalId := toString (value group "rid");
     Scene.scopeType := toString (value group "rtype");
     Scene.metaJson := sceneObj |}.

Definition snapshotScenes (sceneData : QJsonArray) : list Scene.t :=
  foldl (λ (scenes : list Scene.t) (entry : QJsonValue),
           if negb (isObject entry) then scenes
           else
             let scene := sceneOf (toObject entry) in
             if negb (isEmpty (Scene.externalId scene)) then scenes ++ [scene] else scenes)
        [] sceneData.

Definition memberIdsOf (obj : QJsonObject) : list string :=
  foldl (λ (members : list string) (childValue : QJsonValue),
           if negb (isObject childValue) then members
           else
             let child := toObject childValue in
             if negb (bool_decide (toString (value child "rtype") = "device")) then members
             else
               let rid := trimmed (toString (value child "rid")) in
               if negb (isEmpty rid) then members ++ [rid] else members)
        [] (toArray (value obj "children")).

Definition collectMemberships (arr : QJsonArray)
    (memberships : gmap string (list string)) : gmap string (list string) :=
  foldl (λ (memberships : gmap string (list string)) (entry : QJsonValue),
           if negb (isObject entry) then memberships
           else
             let obj := toObject entry in
             let id := trimmed (toString (value obj "id")) in
             if isEmpty id then memberships
             else <[id := memberIdsOf obj]> memberships)
        memberships arr.

Definition snapshotRooms (zoneLabel : string) (memberships : gmap string (list string))
    (data : QJsonArray) : list Room.t :=
  foldl (λ (rooms : list Room.t) (entry : QJsonValue),
           if negb (isObject entry) then rooms
           else
             let obj := toObject entry in
             let externalId := toString (value obj "id") in
             let room :=
               {| Room.externalId := externalId;
                  Room.name := toString (value (toObject (value obj "metadata")) "name");
                  Room.zone := zoneLabel;
                  Room.deviceExternalIds := default [] (memberships !! externalId);
                  Room.metaJson := obj |} in
             if negb (isEmpty externalId) then rooms ++ [room] else rooms)
        [] data.

(** ** Command payloads (hue_model.cpp 453-480, 867-943) *)

(** [static_cast<double>] of a 64-bit integer is read as the integer
    itself, which is exact up to magnitude 2^53. *)
Definition scalarAsDouble (v : ScalarValue) : option Q :=
  match v with
  | SDouble d => Some d
  | SInt i => Some (inject_Z i)
  | SBool b => Some (if b then 1%Q else 0%Q)
  | _ => None
  end.

Definition scalarAsBool (v : ScalarValue) : option bool :=
  match v with
  | SBool b => Some b
  | SInt i => Some (negb (i =? 0))
  | SDouble d => Some (negb (Qeq_bool d 0))
  | SString s =>
      let text := toLower (trimmed s) in
      if bool_decide (text = "1") || bool_decide (text = "true") || bool_decide (text = "on")
      then Some true
      else if bool_decide (text = "0") || bool_decide (text = "false")
              || bool_decide (text = "off")
      then Some false
      else None
  | SNone => None
  end.

Module ChannelInvokeRequest.
Record t : Type := mk {
  deviceExternalId : string;
  channelExternalId : string;
  hasScalarValue : bool;
  value : ScalarValue;
  valueJson : string
}.
End ChannelInvokeRequest.

(** The bodies of a brightness write of the number [v] and of a
    colour-temperature write of [mired]. *)
Definition brightnessPayload (v : Q) : QJsonObject :=
  [("on", JObject [("on", JBool (Qltb 0 (qBoundQ 0 v 100)))]);
   ("dimming", JObject [("brightness", JDouble (qBoundQ 0 v 100))])].

Definition mirekPayload (mired : Z) : QJsonObject :=
  [("color_temperature", JObject [("mirek", JDouble (inject_Z mired))])].

Section Commands.

(** [extractRgb] followed by [rgbToXy] (hue_model.cpp 482-513, 840-865):
    the chromaticity of a colour write, [None] for a payload that
    [extractRgb] rejects.  The gamma curve needs [std::pow]. *)
Variable colorWriteXy : ChannelInvokeRequest.t → option (Q * Q).

(** The request body, or the error message; the source returns the
    compact JSON text of the body, an empty array on error. *)
Definition buildLightCommandPayload (channelExternalId : string)
    (request : ChannelInvokeRequest.t) : string + QJsonObject :=
  if bool_decide (channelExternalId = "on") then
    if negb (ChannelInvokeRequest.hasScalarValue request) then inl "Expected boolean value"
    else match scalarAsBool (ChannelInvokeRequest.value request) with
         | None => inl "Invalid boolean value"
         | Some v => inr [("on", JObject [("on", JBool v)])]
         end
  else if bool_decide (channelExternalId = "bri") then
    if negb (ChannelInvokeRequest.hasScalarValue request) then inl "Expected numeric brightness"
    else match scalarAsDouble (ChannelInvokeRequest.value request) with
         | None => inl "Invalid brightness value"
         | Some v => inr (brightnessPayload v)
         end
  else if bool_decide (channelExternalId = "ct") then
    if negb (ChannelInvokeRequest.hasScalarValue request)
    then inl "Expected numeric color temperature"
    else match scalarAsDouble (ChannelInvokeRequest.value request) with
         | None => inl "Invalid color temperature value"
         | Some v =>
             let mired := round (qBoundQ 100 v 1000) in
             inr (mirekPayload mired)
         end
  else if bool_decide (channelExternalId = "color") then
    match colorWriteXy request with
    | None => inl "Invalid color payload"
    | Some (x, y) =>
        inr [("color", JObject [("xy", JObject [("x", JDouble x); ("y", JDouble y)])])]
    end
  else inl "Unsupported channel".

End Commands.

Inductive CmdStatus := Success | InvalidArgument | TemporarilyOffline.

Module CmdResponse.
Record t : Type := mk { status : CmdStatus; error : string; finalValue : ScalarValue }.
End CmdResponse.

(** ** Publishing a snapshot (hue_sidecar.cpp, [publishSnapshot]) *)

Section Host.

(** Whether the host accepts a message: the [bool] the [send...]
    functions return. *)
Variable sink : Msg → bool.

Definition send (m : Msg) : Op bool :=
  λ s, if sink m then (true, s, [m]) else (false, s, []).

(** A loop whose body returns from the function with [false] on a failed send. *)
Fixpoint forEach {A} (body : A → Op bool) (l : list A) : Op bool :=
  match l with
  | [] => mret true
  | x :: rest => body x ≫= λ ok : bool, if ok then forEach body rest else mret false
  end.

Definition removeVanishedDevice (snapshot : Snapshot.t) (key : string) : Op bool :=
  if bool_decide (key ∈ dom (Snapshot.devices snapshot)) then mret true
  else
    send (DeviceRemoved key) ≫= λ ok : bool,
    if negb ok then mret false
    else
      modify (λ s, set_m_lightResourceByDevice (delete key (m_lightResourceByDevice s)) s);;
      mret true.

Definition publishChannelValue (ts : Z) (device : Device.t) (channel : Channel.t) : Op bool :=
  if negb (Channel.hasValue channel) then mret true
  else send (ChannelStateUpdated (Device.externalId device) (Channel.externalId channel)
                                 (Channel.lastValue channel) ts).

Definition publishDevice (ts : Z) (kv : string * DeviceEntry.t) : Op bool :=
  let entry := kv.2 in
  send (DeviceUpdated (DeviceEntry.device entry) (DeviceEntry.channels entry))
    ≫= λ ok : bool,
  if negb ok then mret false
  else forEach (publishChannelValue ts (DeviceEntry.device entry)) (DeviceEntry.channels entry).

Definition nextLightByDevice (snapshot : Snapshot.t) : gmap string string :=
  omap (λ entry, if negb (isEmpty (DeviceEntry.lightResourceId entry))
                 then Some (DeviceEntry.lightResourceId entry) else None)
       (Snapshot.devices snapshot).

Definition idsOf (rooms : list Room.t) : gset string :=
  list_to_set (filter (λ id, id ≠ "") (Room.externalId <$> rooms)).

Definition publishSnapshot (ts : Z) (snapshot : Snapshot.t) : Op bool :=
  s ← get;
  forEach (removeVanishedDevice snapshot) ((map_to_list (m_devices s)).*1) ≫= λ ok : bool,
  if negb ok then mret false else
  forEach (publishDevice ts) (map_to_list (Snapshot.devices snapshot)) ≫= λ ok : bool,
  if negb ok then mret false else
  let nextRooms := idsOf (Snapshot.rooms snapshot) in
  forEach (λ room, if isEmpty (Room.externalId room) then mret true
                   else send (RoomUpdated room))
          (Snapshot.rooms snapshot) ≫= λ ok : bool,
  if negb ok then mret false else
  forEach (λ oldRoom, if bool_decide (oldRoom ∈ nextRooms) then mret true
                      else send (RoomRemoved oldRoom))
          (elements (m_knownRooms s)) ≫= λ ok : bool,
  if negb ok then mret false else
  let nextGroups := idsOf (Snapshot.groups snapshot) in
  forEach (λ group, if isEmpty (Room.externalId group) then mret true
                    else send (GroupUpdated group))
          (Snapshot.groups snapshot) ≫= λ ok : bool,
  if negb ok then mret false else
  forEach (λ oldGroup, if bool_decide (oldGroup ∈ nextGroups) then mret true
                       else send (GroupRemoved oldGroup))
          (elements (m_knownGroups s)) ≫= λ ok : bool,
  if negb ok then mret false else
  send (ScenesUpdated (Snapshot.scenes snapshot)) ≫= λ ok : bool,
  if negb ok then mret false else
  modify (set_m_devices (Snapshot.devices snapshot));;
  modify (set_m_lightResourceByDevice (nextLightByDevice snapshot));;
  modify (set_m_knownRooms nextRooms);;
  modify (set_m_knownGroups nextGroups);;
  mret true.

Definition setConnectionState (connected : bool) : Op unit :=
  s ← get;
  if bool_decide (m_connected s = connected) then skip
  else modify (set_m_connected connected);; send (ConnectionStateChanged connected);; skip.

(** ** Polling the bridge ([pollBridge], [tick]) *)

(** [fetchResourceArray] of a collection: the [data] array, or the error
    message it reports. *)
Variable fetchResourceArray : string → string + QJsonArray.

(** The device part of [buildSnapshot] (hue_model.cpp 530-751), from the
    device, light, motion, tamper, temperature, light_level,
    device_power, button and zigbee_connectivity arrays, in this order. *)
Variable snapshotDevices : list QJsonArray → gmap string DeviceEntry.t.

Definition buildSnapshot (deviceData lightData motionData tamperData temperatureData
    lightLevelData devicePowerData buttonData zigbeeConnectivityData
    roomData zoneData sceneData : QJsonArray) : Snapshot.t :=
  let memberships := collectMemberships zoneData (collectMemberships roomData ∅) in
  {| Snapshot.devices :=
       snapshotDevices [deviceData; lightData; motionData; tamperData; temperatureData;
                        lightLevelData; devicePowerData; buttonData;
                        zigbeeConnectivityData];
     Snapshot.rooms := snapshotRooms "room" memberships roomData;
     Snapshot.groups := snapshotRooms "zone" memberships zoneData;
     Snapshot.scenes := snapshotScenes sceneData |}.

(** A fetch whose failure is replaced by an empty array (lines 633-646). *)
Definition fetchOrEmpty (resourceType : string) : QJsonArray :=
  match fetchResourceArray resourceType with
  | inr data => data
  | inl _ => []
  end.

Definition firstDiscoveryId (discoveryData : QJsonArray) : string :=
  default "" (head (filter (λ id, id ≠ "")
                      ((λ entry, trimmed (toString (value (toObject entry) "id")))
                         <$> filter (λ entry, isObject entry = true) discoveryData))).

(** The text that the SDK reports for a message it refused. *)
Variable sendErrorText : string.

(** [pollBridge]: the result and, on failure, the error text. *)
Definition pollBridge (ts : Z) : Op (bool * string) :=
  s ← get;
  if isEmpty (effectiveHost (m_settings s)) then mret (false, "Bridge host is empty")
  else if isEmpty (trimmed (ConnectionSettings.appKey (m_settings s)))
  then mret (false, "Hue application key missing")
  else
    match fetchResourceArray "device" with
    | inl error => mret (false, error)
    | inr deviceData =>
    match fetchResourceArray "light" with
    | inl error => mret (false, error)
    | inr lightData =>
    let motionData := fetchOrEmpty "motion" in
    let tamperData := fetchOrEmpty "tamper" in
    let temperatureData := fetchOrEmpty "temperature" in
    let lightLevelData := fetchOrEmpty "light_level" in
    let devicePowerData := fetchOrEmpty "device_power" in
    let buttonData := fetchOrEmpty "button" in
    let zigbeeConnectivityData := fetchOrEmpty "zigbee_connectivity" in
    match fetchResourceArray "room" with
    | inl error => mret (false, error)
    | inr roomData =>
    match fetchResourceArray "zone" with
    | inl error => mret (false, error)
    | inr zoneData =>
    match fetchResourceArray "scene" with
    | inl error => mret (false, error)
    | inr sceneData =>
        (match fetchResourceArray "zigbee_device_discovery" with
         | inr discoveryData =>
             modify (set_m_discoveryResourceId (firstDiscoveryId discoveryData))
         | inl _ => skip
         end);;
        let snapshot :=
          buildSnapshot deviceData lightData motionData tamperData temperatureData
                        lightLevelData devicePowerData buttonData zigbeeConnectivityData
                        roomData zoneData sceneData in
        publishSnapshot ts snapshot ≫= λ ok : bool,
        if negb ok then mret (false, sendErrorText)
        else
          setConnectionState true;;
          send FullSyncCompleted;;
          mret (true, "")
    end end end end end.

Definition tick (now : Z) : Op unit :=
  s ← get;
  if negb (m_hasBootstrap s) then skip
  else if now <? m_nextPollDueMs s then skip
  else
    pollBridge now ≫= λ r : bool * string,
    if negb r.1 then
      setConnectionState false;;
      (if negb (isEmpty r.2) then send (Error r.2);; skip else skip);;
      modify (λ s, set_m_nextPollDueMs (now + Z.max 1000 (m_retryIntervalMs s)) s)
    else
      modify (λ s, set_m_nextPollDueMs (now + Z.max 1000 (m_pollIntervalMs s)) s).

(** ** Channel writes ([onChannelInvoke]) *)

Variable colorWriteXy : ChannelInvokeRequest.t → option (Q * Q).

(** [HttpClient::putJsonAsync]: [None] when the request was handed over,
    the error text otherwise. *)
Variable putJsonAsync : string → QJsonObject → option string.

Definition failureResponse (status : CmdStatus) (error : string) : CmdResponse.t :=
  {| CmdResponse.status := status; CmdResponse.error := error;
     CmdResponse.finalValue := SNone |}.

Definition onChannelInvoke (now : Z) (request : ChannelInvokeRequest.t)
  : Op CmdResponse.t :=
  s ← get;
  if negb (m_hasBootstrap s)
  then mret (failureResponse TemporarilyOffline "Adapter not bootstrapped")
  else
    let deviceExternalId := ChannelInvokeRequest.deviceExternalId request in
    let channelExternalId := ChannelInvokeRequest.channelExternalId request in
    (if isEmpty (default "" (m_lightResourceByDevice s !! deviceExternalId))
     then pollBridge now;; skip else skip);;
    s ← get;
    let lightId := default "" (m_lightResourceByDevice s !! deviceExternalId) in
    if isEmpty lightId
    then mret (failureResponse InvalidArgument "No Hue light resource for device")
    else
      match buildLightCommandPayload colorWriteXy channelExternalId request with
      | inl payloadError => mret (failureResponse InvalidArgument payloadError)
      | inr payload =>
          match putJsonAsync ("/clip/v2/resource/light/" +:+ lightId) payload with
          | Some asyncError =>
              mret (failureResponse TemporarilyOffline
                      (if isEmpty asyncError then "Hue command could not be sent"
                       else asyncError))
          | None =>
              let resp :=
                {| CmdResponse.status := Success; CmdResponse.error := "";
                   CmdResponse.finalValue :=
                     if ChannelInvokeRequest.hasScalarValue request
                     then ChannelInvokeRequest.value request else SNone |} in
              (if bool_decide (channelExternalId = "on")
                  && ChannelInvokeRequest.hasScalarValue request then
                 match scalarAsBool (ChannelInvokeRequest.value request) with
                 | Some on =>
                     send (ChannelStateUpdated deviceExternalId channelExternalId
                                               (SBool on) now);; skip
                 | None => skip
                 end
               else if (bool_decide (channelExternalId = "bri")
                        || bool_decide (channelExternalId = "ct"))
                       && ChannelInvokeRequest.hasScalarValue request then
                 match scalarAsDouble (ChannelInvokeRequest.value request) with
                 | Some v =>
                     if bool_decide (channelExternalId = "ct") then
                       send (ChannelStateUpdated deviceExternalId channelExternalId
                                                 (SInt (round v)) now);; skip
                     else
                       let brightness := qBoundQ 0 v 100 in
                       send (ChannelStateUpdated deviceExternalId channelExternalId
                                                 (SDouble brightness) now);;
                       send (ChannelStateUpdated deviceExternalId "on"
                                                 (SBool (Qltb 0 brightness)) now);;
                       skip
                 | None => skip
                 end
               else skip);;
              mret resp
          end
      end.

End Host.

(** ** The collections of a poll

    [pollBridge] returns at once when one of the first list fails, and
    replaces a failed one of the second list by an empty array (lines
    629-652). *)

Definition coreTypes : list string := ["device"; "light"; "room"; "zone"; "scene"].

Definition secondaryTypes : list string :=
  ["motion"; "tamper"; "temperature"; "light_level"; "device_power"; "button";
   "zigbee_connectivity"].

(** A bridge that answers a failed secondary collection with an empty array. *)
Definition emptyOnFailure (fetchResourceArray : string → string + QJsonArray)
  : string → string + QJsonArray :=
  λ resourceType,
    if bool_decide (resourceType ∈ secondaryTypes)
    then inr (fetchOrEmpty fetchResourceArray resourceType)
    else fetchResourceArray resourceType.

(** ** The messages of a pass in which no send fails

    What the loops of [publishSnapshot] hand to the host, in their order,
    and the state it leaves, when every send is accepted. *)

Definition channelValueMessages (ts : Z) (device : Device.t) (channels : list Channel.t)
  : list Msg :=
  flat_map (λ channel,
              if Channel.hasValue channel
              then [ChannelStateUpdated (Device.externalId device)
                                        (Channel.externalId channel)
                                        (Channel.lastValue channel) ts]
              else []) channels.

Definition deviceMessages (ts : Z) (kv : string * DeviceEntry.t) : list Msg :=
  DeviceUpdated (DeviceEntry.device kv.2) (DeviceEntry.channels kv.2)
  :: channelValueMessages ts (DeviceEntry.device kv.2) (DeviceEntry.channels kv.2).

(** The keys of [m_devices] that the snapshot no longer has. *)
Definition vanishedDevices (snapshot : Snapshot.t) (s : HueSidecar) : list string :=
  filter (λ key, key ∉ dom (Snapshot.devices snapshot)) ((map_to_list (m_devices s)).*1).

Definition updateMessages (message : Room.t → Msg) (rooms : list Room.t) : list Msg :=
  flat_map (λ room, if isEmpty (Room.externalId room) then [] else [message room]) rooms.

Definition removeMessages (message : string → Msg) (known next : gset string) : list Msg :=
  flat_map (λ old, if bool_decide (old ∈ next) then [] else [message old]) (elements known).

Definition snapshotMessages (ts : Z) (snapshot : Snapshot.t) (s : HueSidecar) : list Msg :=
  (DeviceRemoved <$> vanishedDevices snapshot s)
  ++ flat_map (deviceMessages ts) (map_to_list (Snapshot.devices snapshot))
  ++ updateMessages RoomUpdated (Snapshot.rooms snapshot)
  ++ removeMessages RoomRemoved (m_knownRooms s) (idsOf (Snapshot.rooms snapshot))
  ++ updateMessages GroupUpdated (Snapshot.groups snapshot)
  ++ removeMessages GroupRemoved (m_knownGroups s) (idsOf (Snapshot.groups snapshot))
  ++ [ScenesUpdated (Snapshot.scenes snapshot)].

Definition publishedState (snapshot : Snapshot.t) (s : HueSidecar) : HueSidecar :=
  set_m_knownGroups (idsOf (Snapshot.groups snapshot))
    (set_m_knownRooms (idsOf (Snapshot.rooms snapshot))
       (set_m_lightResourceByDevice (nextLightByDevice snapshot)
          (set_m_devices (Snapshot.devices snapshot) s))).

(** [buildSnapshot] keys every entry by the id it stores in the entry's
    device (hue_model.cpp 127-130, 541-551). *)
Definition keyedById (devices : gmap string DeviceEntry.t) : Prop :=
  ∀ key entry, devices !! key = Some entry →
               Device.externalId (DeviceEntry.device entry) = key.

(** The device ids of the remove notifications among [msgs], in order. *)
Definition removedIds (msgs : list Msg) : list string :=
  flat_map (λ m, match m with DeviceRemoved id => [id] | _ => [] end) msgs.

(** Whether [m] is a device update, a channel value or a remove
    notification of the device [id]. *)
Definition concerns (id : string) (m : Msg) : bool :=
  match m with
  | DeviceRemoved d => bool_decide (d = id)
  | DeviceUpdated device _ => bool_decide (Device.externalId device = id)
  | ChannelStateUpdated d _ _ _ => bool_decide (d = id)
  | _ => false
  end.

(** ** Sending in order

    The messages of [msgs] that reach the host when they are sent in
    order and the sending stops at the first one the host refuses. *)
Fixpoint delivered (sink : Msg → bool) (msgs : list Msg) : list Msg :=
  match msgs with
  | [] => []
  | m :: rest => if sink m then m :: delivered sink rest else []
  end.

(** A step that sends [msgs] in order, stops at the first refusal,
    touches at most the light table on the way and applies [commit] when
    nothing was refused. *)
Definition delivers (sink : Msg → bool) (step : Op bool) (msgs : list Msg)
    (commit : HueSidecar → HueSidecar) : Prop :=
  ∀ s, ∃ lights,
    step s = (forallb sink msgs,
              (if forallb sink msgs then commit else id)
                (set_m_lightResourceByDevice lights s),
              delivered sink msgs).

(** The fields that decide when the sidecar polls. *)
Definition sameSchedule (s s' : HueSidecar) : Prop :=
  m_hasBootstrap s' = m_hasBootstrap s
  ∧ m_pollIntervalMs s' = m_pollIntervalMs s
  ∧ m_retryIntervalMs s' = m_retryIntervalMs s
  ∧ m_settings s' = m_settings s.

(** The ids of the room and of the group remove notifications among
    [msgs], in order. *)
Definition removedRoomIds (msgs : list Msg) : list string :=
  flat_map (λ m, match m with RoomRemoved id => [id] | _ => [] end) msgs.

Definition removedGroupIds (msgs : list Msg) : list string :=
  flat_map (λ m, match m with GroupRemoved id => [id] | _ => [] end) msgs.

(** ** Channel lists and memberships (hue_model.cpp 138-148, 753-777) *)

(** [upsertChannel]. *)
Fixpoint upsertChannel (channels : list Channel.t) (channel : Channel.t) : list Channel.t :=
  match channels with
  | [] => [channel]
  | existing :: rest =>
      if negb (bool_decide (Channel.externalId existing = Channel.externalId channel))
      then existing :: upsertChannel rest channel
      else channel :: rest
  end.

(** The first channel of [channels] with the id [id]. *)
Definition channelById (id : string) (channels : list Channel.t) : option Channel.t :=
  List.find (λ channel, bool_decide (Channel.externalId channel = id)) channels.

(** A table of memberships as [collectMemberships] builds it: the keys
    are trimmed, the members are trimmed and not empty. *)
Definition trimmedMembers (members : list string) : Prop :=
  Forall (λ member, member ≠ "" ∧ trimmed member = member) members.

Definition trimmedMemberships (memberships : gmap string (list string)) : Prop :=
  ∀ id members, memberships !! id = Some members →
                trimmed id = id ∧ trimmedMembers members.

(** ** Parsers and placeholders of the model (hue_model.cpp 122-136, 397-428) *)

(** [v1::ConnectivityStatus] and the button codes of [v1::ButtonEventCode]
    that the sidecar names. *)
Module ConnectivityStatus.
Inductive t := Unknown | Connected | Limited | Disconnected.
End ConnectivityStatus.

Module ButtonEventCode.
Inductive t := InitialPress | LongPress | Repeat | ShortPressRelease | LongPressRelease.
End ButtonEventCode.

Definition parseConnectivityStatus (resourceObj : QJsonObject)
  : option ConnectivityStatus.t :=
  let status := toLower (trimmed (toString (value resourceObj "status"))) in
  if bool_decide (status = "connected") then Some ConnectivityStatus.Connected
  else if bool_decide (status = "disconnected") then Some ConnectivityStatus.Disconnected
  else if containsStr status "issue" || containsStr status "limited"
          || containsStr status "degraded"
  then Some ConnectivityStatus.Limited
  else if negb (isEmpty status) then Some ConnectivityStatus.Unknown
  else None.

Definition mapButtonEventCode (eventRaw : string) : option ButtonEventCode.t :=
  let event := toLower (trimmed eventRaw) in
  if bool_decide (event = "initial_press") then Some ButtonEventCode.InitialPress
  else if bool_decide (event = "long_press") then Some ButtonEventCode.LongPress
  else if bool_decide (event = "repeat") then Some ButtonEventCode.Repeat
  else if bool_decide (event = "short_release") then Some ButtonEventCode.ShortPressRelease
  else if bool_decide (event = "long_release") then Some ButtonEventCode.LongPressRelease
  else None.

(** [ensureDevice] (hue_model.cpp 122-136) on [snapshot->devices]; the
    entry it returns is the one under [deviceId] afterwards.  The fields
    of the placeholder that the function does not set are those of a
    default-constructed entry. *)
Definition placeholder (deviceId : string) (fallbackClass : DeviceClass) : DeviceEntry.t :=
  {| DeviceEntry.device :=
       {| Device.externalId := deviceId; Device.name := "Hue Device";
          Device.manufacturer := ""; Device.model := ""; Device.firmware := "";
          Device.deviceClass := fallbackClass; Device.hasBattery := false;
          Device.metaJson := [] |};
     DeviceEntry.channels := [];
     DeviceEntry.lightResourceId := "" |}.

Definition isUnknownClass (cls : DeviceClass) : bool :=
  match cls with ClassUnknown => true | _ => false end.

Definition withClass (cls : DeviceClass) (entry : DeviceEntry.t) : DeviceEntry.t :=
  {| DeviceEntry.device :=
       {| Device.externalId := Device.externalId (DeviceEntry.device entry);
          Device.name := Device.name (DeviceEntry.device entry);
          Device.manufacturer := Device.manufacturer (DeviceEntry.device entry);
          Device.model := Device.model (DeviceEntry.device entry);
          Device.firmware := Device.firmware (DeviceEntry.device entry);
          Device.deviceClass := cls;
          Device.hasBattery := Device.hasBattery (DeviceEntry.device entry);
          Device.metaJson := Device.metaJson (DeviceEntry.device entry) |};
     DeviceEntry.channels := DeviceEntry.channels entry;
     DeviceEntry.lightResourceId := DeviceEntry.lightResourceId entry |}.

Definition ensureDevice (devices : gmap string DeviceEntry.t) (deviceId : string)
    (fallbackClass : DeviceClass) : gmap string DeviceEntry.t :=
  match devices !! deviceId with
  | None => <[deviceId := placeholder deviceId fallbackClass]> devices
  | Some entry =>
      if negb (isUnknownClass fallbackClass)
         && isUnknownClass (Device.deviceClass (DeviceEntry.device entry))
      then <[deviceId := withClass fallbackClass entry]> devices
      else devices
  end.

(** The snapshot that [pollBridge] builds from the answers of the bridge. *)
Definition polledSnapshot (fetchResourceArray : string → string + QJsonArray)
    (snapshotDevices : list QJsonArray → gmap string DeviceEntry.t) : Snapshot.t :=
  buildSnapshot snapshotDevices
    (fetchOrEmpty fetchResourceArray "device") (fetchOrEmpty fetchResourceArray "light")
    (fetchOrEmpty fetchResourceArray "motion") (fetchOrEmpty fetchResourceArray "tamper")
    (fetchOrEmpty fetchResourceArray "temperature")
    (fetchOrEmpty fetchResourceArray "light_level")
    (fetchOrEmpty fetchResourceArray "device_power")
    (fetchOrEmpty fetchResourceArray "button")
    (fetchOrEmpty fetchResourceArray "zigbee_connectivity")
    (fetchOrEmpty fetchResourceArray "room") (fetchOrEmpty fetchResourceArray "zone")
    (fetchOrEmpty fetchResourceArray "scene").

End Sidecar.

(* ===================================================================== *)
(** * Concrete inputs used by the examples below *)
(* ===================================================================== *)

Module Examples.
Import Qt.

(** A started plugin with an application key. *)
Definition startedAdapter : Plugin.HueAdapter :=
  Plugin.set_token "app-key" (Plugin.set_m_nam true Plugin.initial).

(** Six owners ask for metadata, one twice; then the fetch of [dev-b]
    fails, the spacing timer fires and [dev-a] answers. *)
Definition fetchEvents : list Plugin.FetchEvent :=
  [Plugin.MetadataRequested "dev-a"; Plugin.MetadataRequested "dev-b";
   Plugin.MetadataRequested "dev-c"; Plugin.MetadataRequested "dev-d";
   Plugin.MetadataRequested "dev-e"; Plugin.MetadataRequested "dev-f";
   Plugin.MetadataRequested "dev-e"; Plugin.DeviceFetchFailed "dev-b";
   Plugin.FetchTimerTimeout; Plugin.DeviceFetchAnswered "dev-a"].

(** Four owners ask for metadata, a new snapshot cycle starts before any
    of them is answered, and four more owners ask. *)
Definition fetchesAcrossCycles : list Plugin.FetchEvent :=
  [Plugin.MetadataRequested "dev-a"; Plugin.MetadataRequested "dev-b";
   Plugin.MetadataRequested "dev-c"; Plugin.MetadataRequested "dev-d";
   Plugin.SnapshotCycleStarted;
   Plugin.MetadataRequested "dev-e"; Plugin.MetadataRequested "dev-f";
   Plugin.MetadataRequested "dev-g"; Plugin.MetadataRequested "dev-h"].

(** Four fetches in flight and two owners waiting. *)
Definition adapterAtCap : Plugin.HueAdapter :=
  Plugin.set_m_v2DeviceFetchQueue ["dev-e"; "dev-f"]
    (Plugin.set_m_pendingV2DeviceFetch {["dev-a"; "dev-b"; "dev-c"; "dev-d"]} startedAdapter).

(** Two short releases one second apart with no press report in between,
    then the expiry of the window. *)
Definition lateReleases : list Plugin.ButtonInput :=
  [Plugin.ButtonReport "short_release" 1000; Plugin.ButtonReport "short_release" 2000;
   Plugin.WindowExpired].

(** Four clicks in quick succession, the window expiry, and a later click. *)
Definition fourClicks : list Plugin.ButtonInput :=
  [Plugin.ButtonReport "initial_press" 900; Plugin.ButtonReport "short_release" 1000;
   Plugin.ButtonReport "initial_press" 1300; Plugin.ButtonReport "short_release" 1400;
   Plugin.ButtonReport "initial_press" 1700; Plugin.ButtonReport "short_release" 1800;
   Plugin.ButtonReport "initial_press" 2100; Plugin.ButtonReport "short_release" 2200;
   Plugin.WindowExpired;
   Plugin.ButtonReport "initial_press" 5000; Plugin.ButtonReport "short_release" 5100;
   Plugin.WindowExpired].

(** The adapter after three short releases on the channel [button] of [dev]. *)
Definition adapterAfterThreeReleases : Plugin.HueAdapter :=
  Plugin.set_m_buttonMultiPress
    {[Plugin.channelBindingKey "dev" "button" := Plugin.releasedTracker "dev" "button" 3 1800]}
    startedAdapter.

(** The gamut triangle and the red chromaticity of the specification's
    example, in thousandths. *)
Definition gamutB : @Plugin.HueGamut Q :=
  Plugin.mkHueGamut ((675 # 1000)%Q, (322 # 1000)%Q) ((409 # 1000)%Q, (518 # 1000)%Q)
                    ((167 # 1000)%Q, (40 # 1000)%Q).

Definition redPoint : Q * Q := ((701 # 1000)%Q, (299 # 1000)%Q).

(** A point inside [gamutB]. *)
Definition whitePoint : Q * Q := ((400 # 1000)%Q, (300 # 1000)%Q).

(** A bootstrapped sidecar that knows the light of [dev-1]. *)
Definition sidecarWithLight : Sidecar.HueSidecar :=
  Sidecar.set_m_lightResourceByDevice {["dev-1" := "light-1"]}
    (Sidecar.set_m_hasBootstrap true Sidecar.initial).

Definition brightnessZero : Sidecar.ChannelInvokeRequest.t :=
  {| Sidecar.ChannelInvokeRequest.deviceExternalId := "dev-1";
     Sidecar.ChannelInvokeRequest.channelExternalId := "bri";
     Sidecar.ChannelInvokeRequest.hasScalarValue := true;
     Sidecar.ChannelInvokeRequest.value := Sidecar.SInt 0;
     Sidecar.ChannelInvokeRequest.valueJson := "" |}.

Definition ctWrite (v : Sidecar.ScalarValue) : Sidecar.ChannelInvokeRequest.t :=
  {| Sidecar.ChannelInvokeRequest.deviceExternalId := "dev-1";
     Sidecar.ChannelInvokeRequest.channelExternalId := "ct";
     Sidecar.ChannelInvokeRequest.hasScalarValue := true;
     Sidecar.ChannelInvokeRequest.value := v;
     Sidecar.ChannelInvokeRequest.valueJson := "" |}.

(** A host that accepts every message, a bridge that answers no
    collection, and a transport that takes every request. *)
Definition acceptAll : Sidecar.Msg → bool := λ _, true.
Definition bridgeDown : string → string + QJsonArray := λ _, inl "timeout".
Definition putAccepted : string → QJsonObject → option string := λ _ _, None.
Definition noColor : Sidecar.ChannelInvokeRequest.t → option (Q * Q) := λ _, None.
Definition noDevices : list QJsonArray → gmap string Sidecar.DeviceEntry.t := λ _, ∅.

(** The [ct] channel of a light that advertises 153..454 mirek. *)
Definition ctChannel : Plugin.Channel.t :=
  {| Plugin.Channel.id := "ct"; Plugin.Channel.name := "Color temperature";
     Plugin.Channel.kind := Plugin.ColorTemperature; Plugin.Channel.dataType := Plugin.TypeInt;
     Plugin.Channel.minValue := 153%Q; Plugin.Channel.maxValue := 454%Q;
     Plugin.Channel.stepValue := 1%Q; Plugin.Channel.unit := "mired" |}.

Definition noXy : Plugin.QVariant → Q * Q := λ _, (0%Q, 0%Q).

(** A started plugin whose device [dev-1] is the light [light-1] with
    the channel [ctChannel], bound for raw and for preset writes. *)
Definition adapterWithLight : Plugin.HueAdapter :=
  Plugin.set_m_v2DeviceChannels {["dev-1" := [ctChannel]]}
    (Plugin.set_m_channelBindings
       {[Plugin.channelBindingKey "dev-1" "ct" :=
           {| Plugin.HueChannelBinding.resourceId := "light-1";
              Plugin.HueChannelBinding.resourceType := "light" |};
         Plugin.channelBindingKey "dev-1" "ctPreset" :=
           {| Plugin.HueChannelBinding.resourceId := "light-1";
              Plugin.HueChannelBinding.resourceType := "light" |}]}
       startedAdapter).

(** A scene entry without a name, as the bridge reports a transient stub. *)
Definition namelessScene : QJsonObject :=
  [("id", JString "scene-1"); ("metadata", JObject [("name", JString "")])].

(** A power channel that is switched on, a light entry of the sidecar
    with that channel, and a snapshot whose only device is [dev-1]. *)
Definition onChannel : Sidecar.Channel.t :=
  {| Sidecar.Channel.externalId := "on"; Sidecar.Channel.name := "Power";
     Sidecar.Channel.minValue := 0%Q; Sidecar.Channel.maxValue := 1%Q;
     Sidecar.Channel.hasValue := true; Sidecar.Channel.lastValue := Sidecar.SBool true |}.

Definition lightEntry (id : string) : Sidecar.DeviceEntry.t :=
  {| Sidecar.DeviceEntry.device :=
       {| Sidecar.Device.externalId := id; Sidecar.Device.name := "Lamp";
          Sidecar.Device.manufacturer := "Signify"; Sidecar.Device.model := "LCT015";
          Sidecar.Device.firmware := "1.0"; Sidecar.Device.deviceClass := Sidecar.ClassLight;
          Sidecar.Device.hasBattery := false; Sidecar.Device.metaJson := [] |};
     Sidecar.DeviceEntry.channels := [onChannel];
     Sidecar.DeviceEntry.lightResourceId := "light-1" |}.

Definition snapshotOfOne : Sidecar.Snapshot.t :=
  {| Sidecar.Snapshot.devices := {["dev-1" := lightEntry "dev-1"]};
     Sidecar.Snapshot.rooms := []; Sidecar.Snapshot.groups := [];
     Sidecar.Snapshot.scenes := [] |}.

(** A sidecar that knows [dev-1] and [dev-old], and one that has just
    published [snapshotOfOne]. *)
Definition sidecarWithTwo : Sidecar.HueSidecar :=
  Sidecar.set_m_devices {["dev-1" := lightEntry "dev-1"; "dev-old" := lightEntry "dev-old"]}
    (Sidecar.set_m_hasBootstrap true Sidecar.initial).

Definition sidecarInSync : Sidecar.HueSidecar :=
  Sidecar.publishedState snapshotOfOne (Sidecar.set_m_hasBootstrap true Sidecar.initial).

(** A plugin that reported [dev-1] and [dev-old] in its last cycle. *)
Definition adapterKnowingTwo : Plugin.HueAdapter :=
  Plugin.set_m_knownDeviceExternalIds {["dev-1"; "dev-old"]}
    (Plugin.set_m_v2DeviceChannels {["dev-1" := [ctChannel]; "dev-old" := [ctChannel]]}
       (Plugin.set_m_v2Devices
          {["dev-1" := Plugin.Device.set_id "dev-1" Plugin.Device.empty;
            "dev-old" := Plugin.Device.set_id "dev-old" Plugin.Device.empty]}
          startedAdapter)).

(** A snapshot cycle that has just started, and the replies of the bridge
    to the request for one collection. *)
Definition cycleStarted : Plugin.HueAdapter :=
  Plugin.stateOf (Plugin.fetchV2ResourcesSnapshot startedAdapter).

Definition failedReply (resourceType : string) : Plugin.Reply.t :=
  {| Plugin.Reply.path := "/clip/v2/resource/" +:+ resourceType;
     Plugin.Reply.failed := true; Plugin.Reply.object := None |}.

Definition noMerge : string → QJsonArray → Plugin.Act unit := λ _ _, Plugin.skip.

(** A cycle in which only [button] is outstanding, after three retries:
    the device collection holds [dev-1], whose metadata is cached. *)
Definition lampDevice : Plugin.Device.t :=
  {| Plugin.Device.id := "dev-1"; Plugin.Device.name := "Lamp";
     Plugin.Device.manufacturer := "Signify"; Plugin.Device.model := "LCT015";
     Plugin.Device.firmware := "1.0"; Plugin.Device.deviceClass := Plugin.ClassLight;
     Plugin.Device.meta := [("id", JString "dev-1")] |}.

(** A rebuild that would be noticed if it ran: it signals a completed
    synchronization. *)
Definition signallingRebuild : Plugin.Act unit := Plugin.emit Plugin.fullSyncCompleted.

Definition adapterAwaitingButton : Plugin.HueAdapter :=
  Plugin.set_m_v2ResourceRetryCount {["button" := 3]}
    (Plugin.set_m_pendingV2ResourceTypes {["button"]}
       (Plugin.set_m_v2SnapshotPending 1
          (Plugin.set_m_v2SnapshotByType {["device" := [JObject [("id", JString "dev-1")]]]}
             (Plugin.set_m_v2DeviceInfoCache {["dev-1" := lampDevice]}
                (Plugin.set_m_knownDeviceExternalIds {["dev-1"]}
                   (Plugin.set_m_connected true startedAdapter)))))).

(** A configured sidecar, and a bridge that answers every collection
    with an empty array except [button], which times out. *)
Definition sidecarConfigured : Sidecar.HueSidecar :=
  Sidecar.set_m_settings
    {| Sidecar.ConnectionSettings.host := "hue.local"; Sidecar.ConnectionSettings.ip := "";
       Sidecar.ConnectionSettings.appKey := "app-key" |}
    Sidecar.initial.

Definition bridgeWithoutButtons : string → string + QJsonArray :=
  λ resourceType, if bool_decide (resourceType = "button") then inl "timeout" else inr [].

(** The metadata of a device with two light services and a button, and
    the product data of a smart plug. *)
Definition metaWithServices : QJsonObject :=
  [("name", JString "Desk");
   ("services",
    JArray [JObject [("rid", JString "light-1"); ("rtype", JString "light")];
            JObject [("rid", JString "button-1"); ("rtype", JString "button")];
            JObject [("rid", JString "light-2"); ("rtype", JString "light")]])].

Definition plugProduct : QJsonObject :=
  [("product_name", JString "Hue Smart Plug")].

(** A sidecar that also knows the room [room-old], and a room entry of
    the bridge whose only child is the device [dev-1]. *)
Definition sidecarWithRoom : Sidecar.HueSidecar :=
  Sidecar.set_m_knownRooms {["room-old"]} sidecarWithTwo.

Definition roomWithMember : QJsonObject :=
  [("children", JArray [JObject [("rid", JString " dev-1 "); ("rtype", JString "device")]]);
   ("id", JString "room-1")].

(** The [data] of a delete event of the bridge for the device [dev-old]. *)
Definition deleteOfOld : QJsonArray :=
  [JObject [("id", JString "dev-old"); ("type", JString "device")]].

(** A rebuild at step 6 in which the device collection no longer has
    [dev-old], known from the last cycle and cached with its metadata,
    while the light collection still has a light that names it as owner:
    step 3 gave the device its power channel. *)
Definition oldLamp : Plugin.Device.t :=
  {| Plugin.Device.id := "dev-old"; Plugin.Device.name := "Lamp";
     Plugin.Device.manufacturer := "Signify"; Plugin.Device.model := "LCT015";
     Plugin.Device.firmware := "1.0"; Plugin.Device.deviceClass := Plugin.ClassLight;
     Plugin.Device.meta := [("id", JString "dev-old")] |}.

Definition powerChannel : Plugin.Channel.t :=
  {| Plugin.Channel.id := "on"; Plugin.Channel.name := "Power";
     Plugin.Channel.kind := Plugin.PowerOnOff; Plugin.Channel.dataType := Plugin.TypeBool;
     Plugin.Channel.minValue := 0%Q; Plugin.Channel.maxValue := 0%Q;
     Plugin.Channel.stepValue := 0%Q; Plugin.Channel.unit := "" |}.

Definition staleLight : QJsonValue :=
  JObject [("id", JString "light-9");
           ("owner", JObject [("rid", JString "dev-old"); ("rtype", JString "device")]);
           ("on", JObject [("on", JBool true)])].

Definition adapterWithStaleLight : Plugin.HueAdapter :=
  Plugin.set_m_knownDeviceExternalIds {["dev-old"]}
    (Plugin.set_m_v2DeviceChannels {["dev-old" := [powerChannel]]}
       (Plugin.set_m_v2DeviceInfoCache {["dev-old" := oldLamp]}
          (Plugin.set_m_v2Devices {["dev-old" := oldLamp]}
             (Plugin.set_m_deviceIdToExternalId {["dev-old" := "dev-old"]} startedAdapter)))).

Definition noColorVariant : Q → Q → Plugin.QVariant := λ _ _, Plugin.VInvalid.

(** A host that refuses the scene list and accepts everything else. *)
Definition refuseScenes : Sidecar.Msg → bool :=
  λ m, match m with Sidecar.ScenesUpdated _ => false | _ => true end.

End Examples.

(* ===================================================================== *)
(** * Theorems *)
(* ===================================================================== *)

Module QtFacts.
Import Qt.

(** Evaluates the comparisons of literals in the goal. *)
Ltac decide_literals :=
  repeat match goal with
         | |- context [bool_decide (?a = ?b)] =>
             let v := eval vm_compute in (bool_decide (a = b)) in
             match v with
             | true => change (bool_decide (a = b)) with true
             | false => change (bool_decide (a = b)) with false
             end
         end.

(** ** Rational comparison, clamping and rounding *)

Lemma Qltb_lt a b : Qltb a b = true ↔ (a < b)%Q.
Proof.
  unfold Qltb. rewrite negb_true_iff. split.
  - intros Hle. apply Qnot_le_lt. intros Hc. apply Qle_bool_iff in Hc. congruence.
  - intros Hlt. destruct (Qle_bool b a) eqn:E; [|reflexivity].
    apply Qle_bool_iff in E. exfalso. by apply (Qlt_not_le a b).
Qed.

Lemma Qltb_irrefl (x : Q) : Qltb x x = false.
Proof. unfold Qltb. rewrite negb_false_iff. apply Qle_bool_iff, Qle_refl. Qed.

Lemma Qltb_trans (x y z : Q) : Qltb x y = true → Qltb y z = true → Qltb x z = true.
Proof. rewrite !Qltb_lt. apply Qlt_trans. Qed.

Lemma qBoundQ_bounds lo v hi :
  (lo <= hi)%Q → (lo <= qBoundQ lo v hi)%Q ∧ (qBoundQ lo v hi <= hi)%Q.
Proof.
  intros Hlh. unfold qBoundQ, Qltb.
  destruct (Qle_bool lo v) eqn:E1; cbn.
  - apply Qle_bool_iff in E1. destruct (Qle_bool v hi) eqn:E2; cbn.
    + apply Qle_bool_iff in E2. done.
    + split; [done|apply Qle_refl].
  - split; [apply Qle_refl|done].
Qed.

Lemma qBoundQ_positive v hi : (0 < hi)%Q → Qltb 0 (qBoundQ 0 v hi) = true ↔ (0 < v)%Q.
Proof.
  intros Hhi. unfold qBoundQ.
  destruct (Qltb v 0) eqn:E1.
  - apply Qltb_lt in E1. rewrite Qltb_irrefl. split; [discriminate|].
    intros Hv. exfalso. apply (Qlt_irrefl v). by apply (Qlt_trans v 0 v).
  - destruct (Qltb hi v) eqn:E2.
    + apply Qltb_lt in E2. rewrite Qltb_lt. split; [|done].
      intros _. by apply (Qlt_trans 0 hi v).
    + apply Qltb_lt.
Qed.

Lemma round_nonneg d : (0 <= d)%Q → round d = Qfloor (d + (1 # 2))%Q.
Proof. intros Hd. unfold round. apply Qle_bool_iff in Hd. rewrite Hd. reflexivity. Qed.

Lemma round_comp x y : (x == y)%Q → round x = round y.
Proof.
  intros Hxy. unfold round.
  assert (Qle_bool 0 x = Qle_bool 0 y) as ->.
  { destruct (Qle_bool 0 y) eqn:E.
    - apply Qle_bool_iff. apply Qle_bool_iff in E. by rewrite Hxy.
    - destruct (Qle_bool 0 x) eqn:E'; [|reflexivity].
      apply Qle_bool_iff in E'. rewrite Hxy in E'. apply Qle_bool_iff in E'. congruence. }
  destruct (Qle_bool 0 y).
  - apply Qfloor_comp. by rewrite Hxy.
  - apply Qceiling_comp. by rewrite Hxy.
Qed.

(** The mirek of a raw colour-temperature write lies in the protocol range. *)
Lemma ct_mired_range v : 100 ≤ round (qBoundQ 100 v 1000) ≤ 1000.
Proof.
  destruct (qBoundQ_bounds 100 v 1000) as [Hlo Hhi]; [discriminate|].
  rewrite round_nonneg by (eapply Qle_trans; [|exact Hlo]; discriminate).
  split.
  - change 100 with (Qfloor (100 + (1 # 2))%Q). apply Qfloor_resp_le.
    apply Qplus_le_compat; [exact Hlo|apply Qle_refl].
  - change 1000 with (Qfloor (1000 + (1 # 2))%Q). apply Qfloor_resp_le.
    apply Qplus_le_compat; [exact Hhi|apply Qle_refl].
Qed.

End QtFacts.

Module PluginFacts.
Import Qt Plugin QtFacts.

(** ** Running member functions *)

Lemma run_get_bind {B} (f : HueAdapter → Act B) s : (get ≫= f) s = f s s.
Proof. unfold mbind, Act_bind, get. destruct (f s s) as [[b s2] e2]. reflexivity. Qed.

Lemma run_modify_bind {B} g (f : unit → Act B) s : (modify g ≫= f) s = f tt (g s).
Proof. unfold mbind, Act_bind, modify. destruct (f tt (g s)) as [[b s2] e2]. reflexivity. Qed.

Lemma run_ret_bind {A B} (a : A) (f : A → Act B) s : (mret a ≫= f) s = f a s.
Proof. unfold mbind, Act_bind, mret, Act_ret. destruct (f a s) as [[b s2] e2]. reflexivity. Qed.

Lemma run_emit_bind {B} e (f : unit → Act B) s :
  (emit e ≫= f) s = (resultOf (f tt s), stateOf (f tt s), e :: effectsOf (f tt s)).
Proof. unfold mbind, Act_bind, emit. destruct (f tt s) as [[b s2] e2]. reflexivity. Qed.

Lemma run_bind {A B} (m : Act A) (f : A → Act B) s :
  (m ≫= f) s = (resultOf (f (resultOf (m s)) (stateOf (m s))),
                 stateOf (f (resultOf (m s)) (stateOf (m s))),
                 effectsOf (m s) ++ effectsOf (f (resultOf (m s)) (stateOf (m s)))).
Proof.
  unfold mbind, Act_bind. destruct (m s) as [[a s1] e1]. cbn.
  destruct (f a s1) as [[b s2] e2]. reflexivity.
Qed.

Lemma run_skip_bind {B} (f : unit → Act B) s : (skip ≫= f) s = f tt s.
Proof. apply run_ret_bind. Qed.

Lemma run_modify g s : modify g s = (tt, g s, []).
Proof. reflexivity. Qed.

Lemma run_emit e s : emit e s = (tt, s, [e]).
Proof. reflexivity. Qed.

Lemma run_skip s : skip s = (tt, s, []).
Proof. reflexivity. Qed.

Lemma run_ret {A} (a : A) s : (mret a : Act A) s = (a, s, []).
Proof. reflexivity. Qed.

(** Symbolic execution of the straight-line prefix of a member function. *)
Ltac act :=
  repeat (rewrite ?run_get_bind, ?run_modify_bind, ?run_ret_bind, ?run_skip_bind,
            ?run_emit_bind, ?run_modify, ?run_emit, ?run_skip, ?run_ret;
          cbn [resultOf stateOf effectsOf fst snd]).

(** ** The lazy metadata fetch queue *)

Lemma size_insert_le (x : string) (X : gset string) :
  (size ({[x]} ∪ X) ≤ S (size X))%nat.
Proof.
  rewrite size_union_alt, size_singleton.
  assert (size (X ∖ {[x]}) ≤ size X)%nat by (apply subseteq_size, subseteq_difference_l; done).
  lia.
Qed.

Lemma size_remove_le (x : string) (X : gset string) : (size (X ∖ {[x]}) ≤ size X)%nat.
Proof. apply subseteq_size, subseteq_difference_l. done. Qed.

Lemma fetch_noop s id :
  id ∈ m_pendingV2DeviceFetch s ∨ id ∈ m_v2DeviceFetchQueue s ∨ id ∈ m_failedV2DeviceFetch s →
  fetchV2DeviceResource id s = (tt, s, []).
Proof.
  intros Hin. unfold fetchV2DeviceResource. act.
  destruct (negb (m_nam s) || isEmpty id); [reflexivity|].
  repeat case_bool_decide; try reflexivity.
  exfalso. destruct Hin as [?|[?|?]]; contradiction.
Qed.

(** [startV2DeviceFetch] either declines and changes nothing, or puts the
    device in flight and issues its request. *)
Lemma start_spec id s :
  (resultOf (startV2DeviceFetch id s) = false
   ∧ stateOf (startV2DeviceFetch id s) = s
   ∧ effectsOf (startV2DeviceFetch id s) = [])
  ∨ (resultOf (startV2DeviceFetch id s) = true
     ∧ stateOf (startV2DeviceFetch id s)
       = set_m_pendingV2DeviceFetch ({[id]} ∪ m_pendingV2DeviceFetch s) s
     ∧ effectsOf (startV2DeviceFetch id s) = [networkGet ("device/" +:+ id)]).
Proof.
  unfold startV2DeviceFetch. act.
  destruct (m_nam s) eqn:Hn; cbn; [|left; done].
  unfold isEmpty. case_bool_decide; cbn; [left; done|].
  case_bool_decide; [left; done|].
  case_bool_decide; [left; done|].
  act. right. done.
Qed.

Lemma drain_bound q : ∀ s,
  (pendingCount s ≤ kMaxConcurrentV2DeviceFetch)%nat →
  (pendingCount (stateOf (drainV2DeviceFetchQueue q s)) ≤ kMaxConcurrentV2DeviceFetch)%nat.
Proof.
  induction q as [|d q IH]; intros s Hs; cbn [drainV2DeviceFetchQueue]; [exact Hs|].
  act. destruct (_ <? _)%nat eqn:Hlt; [|exact Hs]. act.
  apply Nat.ltb_lt in Hlt.
  destruct (isEmpty d); [apply IH; exact Hs|].
  destruct (bool_decide (d ∈ m_failedV2DeviceFetch s)); [apply IH; exact Hs|].
  destruct (bool_decide (d ∈ m_pendingV2DeviceFetch s)); [apply IH; exact Hs|].
  destruct (start_spec d (set_m_v2DeviceFetchQueue q s)) as [(_ & -> & _)|(_ & -> & _)].
  - exact Hs.
  - unfold pendingCount in *. cbn. pose proof (size_insert_le d (m_pendingV2DeviceFetch s)).
    unfold kMaxConcurrentV2DeviceFetch in *. lia.
Qed.

Lemma drain_effects q : ∀ s, (length (effectsOf (drainV2DeviceFetchQueue q s)) ≤ 1)%nat.
Proof.
  induction q as [|d q IH]; intros s; cbn [drainV2DeviceFetchQueue]; [cbn; lia|].
  act. destruct (_ <? _)%nat; [|cbn; lia]. act.
  destruct (isEmpty d); [apply IH|].
  destruct (bool_decide (d ∈ m_failedV2DeviceFetch s)); [apply IH|].
  destruct (bool_decide (d ∈ m_pendingV2DeviceFetch s)); [apply IH|].
  destruct (start_spec d (set_m_v2DeviceFetchQueue q s))
    as [(_ & _ & ->)|(_ & _ & ->)]; cbn; lia.
Qed.

(** The loop passes over ineligible entries and starts the first eligible one. *)
Lemma drain_fifo skipped : ∀ s d rest,
  m_nam s = true → token s ≠ "" →
  (pendingCount s < kMaxConcurrentV2DeviceFetch)%nat →
  Forall (ineligible s) skipped →
  ¬ ineligible s d →
  drainV2DeviceFetchQueue (skipped ++ d :: rest) s
  = (true,
     set_m_pendingV2DeviceFetch ({[d]} ∪ m_pendingV2DeviceFetch s)
                                (set_m_v2DeviceFetchQueue rest s),
     [networkGet ("device/" +:+ d)]).
Proof.
  induction skipped as [|x skipped IH]; intros s d rest Hn Ht Hc Hsk Hd;
    cbn [app drainV2DeviceFetchQueue]; act.
  - apply Nat.ltb_lt in Hc. unfold pendingCount in Hc. rewrite Hc. act.
    unfold ineligible in Hd.
    unfold isEmpty. rewrite !bool_decide_eq_false_2 by tauto.
    unfold startV2DeviceFetch. act.
    cbn [m_nam set_m_v2DeviceFetchQueue m_failedV2DeviceFetch token]. rewrite Hn. cbn [negb orb].
    unfold isEmpty. rewrite !bool_decide_eq_false_2 by tauto. act. reflexivity.
  - pose proof Hc as Hc'. apply Nat.ltb_lt in Hc'. unfold pendingCount in Hc'. rewrite Hc'. act.
    inversion Hsk as [|? ? Hx Hsk']; subst.
    assert (Hgoal :
      drainV2DeviceFetchQueue (skipped ++ d :: rest)
                              (set_m_v2DeviceFetchQueue (skipped ++ d :: rest) s)
      = (true,
         set_m_pendingV2DeviceFetch ({[d]} ∪ m_pendingV2DeviceFetch s)
                                    (set_m_v2DeviceFetchQueue rest s),
         [networkGet ("device/" +:+ d)])).
    { rewrite (IH (set_m_v2DeviceFetchQueue (skipped ++ d :: rest) s) d rest); auto. }
    destruct Hx as [->|[Hx|Hx]].
    + cbn. exact Hgoal.
    + destruct (isEmpty x); [exact Hgoal|]. rewrite bool_decide_eq_true_2 by done. exact Hgoal.
    + destruct (isEmpty x); [exact Hgoal|].
      destruct (bool_decide (x ∈ m_failedV2DeviceFetch s)); [exact Hgoal|].
      rewrite bool_decide_eq_true_2 by done. exact Hgoal.
Qed.

Lemma fetch_bound id s :
  (pendingCount s ≤ kMaxConcurrentV2DeviceFetch)%nat →
  (pendingCount (stateOf (fetchV2DeviceResource id s)) ≤ kMaxConcurrentV2DeviceFetch)%nat.
Proof.
  intros Hs. unfold fetchV2DeviceResource. act.
  destruct (negb (m_nam s) || isEmpty id); [exact Hs|].
  repeat (case_bool_decide; [exact Hs|]).
  destruct (_ <=? _)%nat eqn:Hle; [exact Hs|].
  apply Nat.leb_gt in Hle. rewrite run_bind. cbn [stateOf fst snd skip mret Act_ret].
  destruct (start_spec id s) as [(_ & -> & _)|(_ & -> & _)]; [exact Hs|].
  unfold pendingCount in *. cbn.
  pose proof (size_insert_le id (m_pendingV2DeviceFetch s)). lia.
Qed.

Lemma startNext_bound s :
  (pendingCount s ≤ kMaxConcurrentV2DeviceFetch)%nat →
  (pendingCount (stateOf (startNextQueuedV2DeviceFetch s)) ≤ kMaxConcurrentV2DeviceFetch)%nat.
Proof.
  intros Hs. unfold startNextQueuedV2DeviceFetch. act.
  destruct (negb (m_nam s)); [exact Hs|].
  rewrite run_bind. cbn [stateOf fst snd].
  pose proof (drain_bound (m_v2DeviceFetchQueue s) s Hs) as Hd.
  destruct (negb (resultOf _)); [exact Hd|]. act.
  destruct (_ && _); exact Hd.
Qed.

Lemma startNext_effects s :
  (length (effectsOf (startNextQueuedV2DeviceFetch s)) ≤ 1)%nat.
Proof.
  unfold startNextQueuedV2DeviceFetch. act.
  destruct (negb (m_nam s)); [cbn; lia|].
  rewrite run_bind. cbn [effectsOf snd].
  pose proof (drain_effects (m_v2DeviceFetchQueue s) s) as Hd.
  destruct (negb (resultOf _)); [|act; destruct (_ && _)]; cbn; rewrite app_nil_r; exact Hd.
Qed.

Lemma startNext_fifo s skipped d rest :
  m_nam s = true → token s ≠ "" →
  (pendingCount s < kMaxConcurrentV2DeviceFetch)%nat →
  m_v2DeviceFetchQueue s = skipped ++ d :: rest →
  Forall (ineligible s) skipped →
  ¬ ineligible s d →
  effectsOf (startNextQueuedV2DeviceFetch s) = [networkGet ("device/" +:+ d)]
  ∧ m_v2DeviceFetchQueue (stateOf (startNextQueuedV2DeviceFetch s)) = rest
  ∧ m_pendingV2DeviceFetch (stateOf (startNextQueuedV2DeviceFetch s))
    = {[d]} ∪ m_pendingV2DeviceFetch s.
Proof.
  intros Hn Ht Hc Hq Hsk Hd. unfold startNextQueuedV2DeviceFetch. act.
  rewrite Hn. cbn [negb]. rewrite Hq, run_bind.
  rewrite (drain_fifo skipped s d rest Hn Ht Hc Hsk Hd).
  cbn [resultOf stateOf effectsOf fst snd negb]. act.
  destruct (_ && _); act; cbn; auto.
Qed.

Lemma requestSnapshots_pending res : ∀ d s,
  m_pendingV2DeviceFetch (stateOf (requestSnapshots res d s)) = m_pendingV2DeviceFetch s.
Proof.
  induction res as [|r res IH]; intros d s; cbn [requestSnapshots]; [reflexivity|].
  rewrite run_bind. cbn [stateOf fst snd]. rewrite IH.
  unfold requestV2ResourceSnapshot, sendV2ResourceSnapshotRequest.
  destruct (isEmpty r); [reflexivity|]. destruct (0 <? _); [reflexivity|]. act.
  destruct (negb (m_nam s)); [reflexivity|]. case_bool_decide; [reflexivity|].
  destruct (isEmpty (token s)); [reflexivity|]. act. reflexivity.
Qed.

Lemma step_bound ev s :
  (pendingCount s ≤ kMaxConcurrentV2DeviceFetch)%nat →
  (pendingCount (stateOf (fetchQueueStep ev s)) ≤ kMaxConcurrentV2DeviceFetch)%nat.
Proof.
  intros Hs. destruct ev as [id|id|id|id| |]; cbn [fetchQueueStep]; [| | |exact Hs| |].
  - by apply fetch_bound.
  - rewrite run_bind. cbn [stateOf fst snd]. apply startNext_bound.
    unfold deviceFetchSucceeded. destruct (isEmpty id); [exact Hs|]. cbn.
    unfold pendingCount in *. cbn.
    pose proof (size_remove_le id (m_pendingV2DeviceFetch s)). lia.
  - rewrite run_bind. cbn [stateOf fst snd]. apply startNext_bound.
    unfold deviceFetchFailed. destruct (isEmpty id); [exact Hs|]. act.
    unfold pendingCount in *. cbn.
    pose proof (size_remove_le id (m_pendingV2DeviceFetch s)). lia.
  - unfold onV2DeviceFetchTimerTimeout. act. by apply startNext_bound.
  - unfold fetchV2ResourcesSnapshot. act.
    destruct (negb (m_nam s)); [exact Hs|]. destruct (isEmpty (token s)); [exact Hs|].
    act. unfold pendingCount. rewrite requestSnapshots_pending. cbn. rewrite size_empty. lia.
Qed.

Lemma run_bound evs : ∀ s,
  (pendingCount s ≤ kMaxConcurrentV2DeviceFetch)%nat →
  (pendingCount (stateOf (runActs (fetchQueueStep <$> evs) s))
   ≤ kMaxConcurrentV2DeviceFetch)%nat.
Proof.
  induction evs as [|ev evs IH]; intros s Hs; cbn [fmap list_fmap runActs]; [exact Hs|].
  rewrite run_bind. cbn [stateOf fst snd]. apply IH. by apply step_bound.
Qed.

Lemma fetch_idempotent id s :
  fetchV2DeviceResource id (stateOf (fetchV2DeviceResource id s))
  = (tt, stateOf (fetchV2DeviceResource id s), []).
Proof.
  unfold fetchV2DeviceResource at 2 3. act.
  destruct (negb (m_nam s) || isEmpty id) eqn:Hg.
  { cbn. unfold fetchV2DeviceResource. act. rewrite Hg. reflexivity. }
  case_bool_decide as Hf. { cbn. apply fetch_noop. auto. }
  case_bool_decide as Hp. { cbn. apply fetch_noop. auto. }
  case_bool_decide as Hq. { cbn. apply fetch_noop. auto. }
  destruct (_ <=? _)%nat eqn:Hle.
  { cbn. apply fetch_noop. right. left. cbn. apply elem_of_app. right. by apply list_elem_of_singleton. }
  rewrite run_bind. cbn [stateOf fst snd skip mret Act_ret].
  destruct (start_spec id s) as [(Hr & Hst & _)|(_ & Hst & _)]; rewrite Hst.
  - unfold fetchV2DeviceResource. act. rewrite Hg.
    rewrite !bool_decide_eq_false_2 by done. rewrite Hle.
    rewrite run_bind. cbn [stateOf fst snd skip mret Act_ret resultOf effectsOf].
    unfold startV2DeviceFetch in *. revert Hr Hst. act.
    apply orb_false_iff in Hg as [Hn He]. rewrite Hn, He. cbn.
    rewrite bool_decide_eq_false_2 by done.
    destruct (isEmpty (token s)); [reflexivity|]. act. cbn. discriminate.
  - apply fetch_noop. left. cbn. apply elem_of_union. left. by apply elem_of_singleton.
Qed.

Lemma fetch_enqueues id s :
  m_nam s = true → id ≠ "" →
  ¬ (id ∈ m_pendingV2DeviceFetch s ∨ id ∈ m_v2DeviceFetchQueue s
     ∨ id ∈ m_failedV2DeviceFetch s) →
  (kMaxConcurrentV2DeviceFetch ≤ pendingCount s)%nat →
  fetchV2DeviceResource id s
  = (tt, set_m_v2DeviceFetchQueue (m_v2DeviceFetchQueue s ++ [id]) s, []).
Proof.
  intros Hn He Hnew Hcap. unfold fetchV2DeviceResource. act.
  rewrite Hn. unfold isEmpty. rewrite !bool_decide_eq_false_2 by tauto. cbn [negb orb].
  apply Nat.leb_le in Hcap. unfold pendingCount in Hcap. rewrite Hcap. reflexivity.
Qed.

(** ** Button multi-press aggregation *)

Lemma wrapInt_id z : - 2 ^ 31 ≤ z < 2 ^ 31 → wrapInt z = z.
Proof. intros Hz. unfold wrapInt. rewrite Z.mod_small; lia. Qed.

(** A short release counts, stamps and restarts the window, whatever the
    time since the previous one; it never finalizes. *)
Lemma short_release_counts s dev ch ts :
  dev ≠ "" → ch ≠ "" →
  - 2 ^ 31 ≤ ButtonMultiPressTracker.count
               (default ButtonMultiPressTracker.empty
                        (m_buttonMultiPress s !! channelBindingKey dev ch)) < 2 ^ 31 - 1 →
  effectsOf (dispatchButtonEvent dev ch ShortPressRelease ts s)
  = [rawEvent dev ch ShortPressRelease ts]
  ∧ m_buttonMultiPress (stateOf (dispatchButtonEvent dev ch ShortPressRelease ts s))
      !! channelBindingKey dev ch
    = Some (releasedTracker dev ch
              (ButtonMultiPressTracker.count
                 (default ButtonMultiPressTracker.empty
                          (m_buttonMultiPress s !! channelBindingKey dev ch)) + 1) ts).
Proof.
  intros Hd Hc Hrange. unfold dispatchButtonEvent. act.
  rewrite (bool_decide_eq_true_2 (ShortPressRelease = ShortPressRelease)) by reflexivity. act.
  unfold handleShortPressRelease, isEmpty.
  rewrite !bool_decide_eq_false_2 by done. cbn [orb]. act.
  split; [reflexivity|]. cbn -[channelBindingKey wrapInt].
  rewrite lookup_insert_eq. rewrite wrapInt_id by lia. reflexivity.
Qed.

Lemma finalize_spec s key tracker :
  m_buttonMultiPress s !! key = Some tracker →
  ButtonMultiPressTracker.deviceExtId tracker ≠ "" →
  ButtonMultiPressTracker.channelExtId tracker ≠ "" →
  effectsOf (finalizePendingShortPress key s)
  = (if ButtonMultiPressTracker.count tracker <? 2 then []
     else [channelStateUpdated
             (ButtonMultiPressTracker.deviceExtId tracker)
             (ButtonMultiPressTracker.channelExtId tracker)
             (VButtonEventCode (aggregatedCode (ButtonMultiPressTracker.count tracker)))
             (ButtonMultiPressTracker.lastTs tracker)])
  ∧ ∃ tracker',
      m_buttonMultiPress (stateOf (finalizePendingShortPress key s)) !! key = Some tracker'
      ∧ ButtonMultiPressTracker.count tracker' = 0
      ∧ ButtonMultiPressTracker.lastTs tracker' = 0
      ∧ ButtonMultiPressTracker.timer tracker'
        = stopTimer (ButtonMultiPressTracker.timer tracker).
Proof.
  intros Hk Hd Hc. unfold finalizePendingShortPress. act. rewrite Hk. act.
  assert (aggregatedCode (ButtonMultiPressTracker.count tracker) ≠ BtnNone) as Hagg.
  { unfold aggregatedCode. repeat case_bool_decide; discriminate. }
  unfold isEmpty. rewrite !bool_decide_eq_false_2 by done. cbn [negb andb].
  split.
  - destruct (_ <? 2); act; reflexivity.
  - eexists. split.
    + destruct (_ <? 2); act; cbn; apply lookup_insert_eq.
    + cbn. done.
Qed.

Lemma aggregatedCode_spec c : aggregatedCode c = pressCodeOf c.
Proof.
  unfold aggregatedCode, pressCodeOf.
  repeat case_bool_decide; repeat case_decide; try reflexivity; lia.
Qed.

Lemma initial_press_spec s dev ch ts :
  dispatchButtonEvent dev ch InitialPress ts s
  = match m_buttonMultiPress s !! channelBindingKey dev ch with
    | Some tracker =>
        if (0 <? ButtonMultiPressTracker.count tracker)
           && (0 <? ButtonMultiPressTracker.lastTs tracker)
           && (kButtonMultiPressResetGapMs <=? ts - ButtonMultiPressTracker.lastTs tracker)
        then (tt, stateOf (finalizePendingShortPress (channelBindingKey dev ch) s),
              effectsOf (finalizePendingShortPress (channelBindingKey dev ch) s)
              ++ [rawEvent dev ch InitialPress ts])
        else (tt, s, [rawEvent dev ch InitialPress ts])
    | None => (tt, s, [rawEvent dev ch InitialPress ts])
    end.
Proof.
  unfold dispatchButtonEvent. act.
  rewrite (bool_decide_eq_true_2 (InitialPress = InitialPress)) by reflexivity.
  destruct (m_buttonMultiPress s !! channelBindingKey dev ch) as [tracker|]; [|act; reflexivity].
  destruct (0 <? ButtonMultiPressTracker.count tracker); [|act; reflexivity].
  destruct (0 <? ButtonMultiPressTracker.lastTs tracker); [|act; reflexivity].
  cbn [andb].
  destruct (_ <=? _); [|act; reflexivity].
  rewrite run_bind. act. reflexivity.
Qed.

Lemma raw_event_emitted s dev ch code ts :
  ∃ before,
    effectsOf (dispatchButtonEvent dev ch code ts s) = before ++ [rawEvent dev ch code ts].
Proof.
  unfold dispatchButtonEvent. act.
  rewrite run_bind. rewrite run_bind. act. cbn [app].
  eexists. rewrite app_assoc. reflexivity.
Qed.

(** C3, as the code has it.  The gap test sits on the initial-press
    report, not on the short release: an initial press that finds a
    pending count whose last release is at least 500 ms old finalizes it
    first.  Every short release increments the count, stamps the time and
    (re)starts the 1200 ms window, without any gap test.  When the window
    expires (or a count is finalized), a count of 2, 3, 4 or at least 5
    emits exactly one Double, Triple, Quadruple or Quintuple press stamped
    with the last release, a smaller count emits nothing, and the tracker
    is reset with its timer stopped.  Every report ends with its own raw
    notification. *)
Theorem button_multi_press_aggregation :
  (∀ s dev ch ts,
     dev ≠ "" → ch ≠ "" →
     - 2 ^ 31 ≤ ButtonMultiPressTracker.count
                  (default ButtonMultiPressTracker.empty
                           (m_buttonMultiPress s !! channelBindingKey dev ch)) < 2 ^ 31 - 1 →
     effectsOf (dispatchButtonEvent dev ch ShortPressRelease ts s)
     = [rawEvent dev ch ShortPressRelease ts]
     ∧ m_buttonMultiPress (stateOf (dispatchButtonEvent dev ch ShortPressRelease ts s))
         !! channelBindingKey dev ch
       = Some (releasedTracker dev ch
                 (ButtonMultiPressTracker.count
                    (default ButtonMultiPressTracker.empty
                             (m_buttonMultiPress s !! channelBindingKey dev ch)) + 1) ts))
  ∧ (∀ s dev ch ts,
       dispatchButtonEvent dev ch InitialPress ts s
       = match m_buttonMultiPress s !! channelBindingKey dev ch with
         | Some tracker =>
             if (0 <? ButtonMultiPressTracker.count tracker)
                && (0 <? ButtonMultiPressTracker.lastTs tracker)
                && (500 <=? ts - ButtonMultiPressTracker.lastTs tracker)
             then (tt, stateOf (finalizePendingShortPress (channelBindingKey dev ch) s),
                   effectsOf (finalizePendingShortPress (channelBindingKey dev ch) s)
                   ++ [rawEvent dev ch InitialPress ts])
             else (tt, s, [rawEvent dev ch InitialPress ts])
         | None => (tt, s, [rawEvent dev ch InitialPress ts])
         end)
  ∧ (∀ s key tracker,
       m_buttonMultiPress s !! key = Some tracker →
       ButtonMultiPressTracker.deviceExtId tracker ≠ "" →
       ButtonMultiPressTracker.channelExtId tracker ≠ "" →
       effectsOf (onMultiPressTimerTimeout key s)
       = (if ButtonMultiPressTracker.count tracker <? 2 then []
          else [channelStateUpdated
                  (ButtonMultiPressTracker.deviceExtId tracker)
                  (ButtonMultiPressTracker.channelExtId tracker)
                  (VButtonEventCode (pressCodeOf (ButtonMultiPressTracker.count tracker)))
                  (ButtonMultiPressTracker.lastTs tracker)])
       ∧ ∃ tracker',
           m_buttonMultiPress (stateOf (onMultiPressTimerTimeout key s)) !! key = Some tracker'
           ∧ ButtonMultiPressTracker.count tracker' = 0
           ∧ ButtonMultiPressTracker.lastTs tracker' = 0
           ∧ ButtonMultiPressTracker.timer tracker'
             = stopTimer (ButtonMultiPressTracker.timer tracker))
  ∧ (∀ s dev ch code ts,
       ∃ before,
         effectsOf (dispatchButtonEvent dev ch code ts s)
         = before ++ [rawEvent dev ch code ts]).
Proof.
  split; [exact short_release_counts|].
  split; [exact initial_press_spec|].
  split; [|exact raw_event_emitted].
  intros s key tracker Hk Hd Hc. unfold onMultiPressTimerTimeout.
  rewrite <- aggregatedCode_spec. by apply finalize_spec.
Qed.

(** The aggregation on concrete trackers: a fourth release on a count of
    three, and the expiry of the window on that count. *)
Lemma button_multi_press_aggregation_witness :
  m_buttonMultiPress
    (stateOf (dispatchButtonEvent "dev" "button" ShortPressRelease 2200
                                  Examples.adapterAfterThreeReleases))
    !! channelBindingKey "dev" "button"
  = Some (releasedTracker "dev" "button" 4 2200)
  ∧ effectsOf (onMultiPressTimerTimeout (channelBindingKey "dev" "button")
                                         Examples.adapterAfterThreeReleases)
    = [channelStateUpdated "dev" "button" (VButtonEventCode TriplePress) 1800].
Proof.
  destruct button_multi_press_aggregation as (Hrelease & _ & Hexpiry & _).
  split.
  - destruct (Hrelease Examples.adapterAfterThreeReleases "dev" "button" 2200) as [_ Ht].
    + discriminate.
    + discriminate.
    + vm_compute. split; [discriminate|reflexivity].
    + exact Ht.
  - destruct (Hexpiry Examples.adapterAfterThreeReleases (channelBindingKey "dev" "button")
                      (releasedTracker "dev" "button" 3 1800)) as [He _].
    + reflexivity.
    + discriminate.
    + discriminate.
    + exact He.
Defined.

(** C3 as stated fails: the second short release comes 1000 ms after the
    first, more than the 500 ms threshold, and no press report precedes
    it.  Nothing is flushed: the count runs on to 2 and the window expiry
    reports a double press, where the claim has the first press flushed
    and a count of 1 that reports nothing. *)
Lemma short_release_after_gap_not_flushed :
  2000 - 1000 > kButtonMultiPressResetGapMs
  ∧ effectsOf (runActs (buttonStep "dev" "button" <$> Examples.lateReleases)
                       Examples.startedAdapter)
    = [rawEvent "dev" "button" ShortPressRelease 1000;
       rawEvent "dev" "button" ShortPressRelease 2000;
       rawEvent "dev" "button" DoublePress 2000]
  ∧ (ButtonMultiPressTracker.count
       <$> m_buttonMultiPress
             (stateOf (runActs (buttonStep "dev" "button" <$> take 2 Examples.lateReleases)
                               Examples.startedAdapter))
           !! channelBindingKey "dev" "button")
    = Some 2.
Proof. split; [reflexivity|]. split; vm_compute; reflexivity. Qed.

(** Four clicks at most 400 ms apart: every report is passed on, one
    quadruple press follows the window, and a later single click adds
    nothing. *)
Example four_clicks_aggregate :
  effectsOf (runActs (buttonStep "dev" "button" <$> Examples.fourClicks)
                     Examples.startedAdapter)
  = [rawEvent "dev" "button" InitialPress 900;
     rawEvent "dev" "button" ShortPressRelease 1000;
     rawEvent "dev" "button" InitialPress 1300;
     rawEvent "dev" "button" ShortPressRelease 1400;
     rawEvent "dev" "button" InitialPress 1700;
     rawEvent "dev" "button" ShortPressRelease 1800;
     rawEvent "dev" "button" InitialPress 2100;
     rawEvent "dev" "button" ShortPressRelease 2200;
     rawEvent "dev" "button" QuadruplePress 2200;
     rawEvent "dev" "button" InitialPress 5000;
     rawEvent "dev" "button" ShortPressRelease 5100].
Proof. vm_compute. reflexivity. Qed.

(** ** Gamut clamping *)

Section GamutFacts.
Context {R : Type} `{Number.t R}.
Variable pointEq : (R * R) → (R * R) → bool.

(** All that is used of the comparison of numbers: it is a strict
    order.  IEEE comparison of [double]s is one, and so is the order
    of the rationals. *)
Hypothesis ltb_irrefl : ∀ x : R, Number.ltb x x = false.
Hypothesis ltb_trans :
  ∀ x y z : R, Number.ltb x y = true → Number.ltb y z = true → Number.ltb x z = true.

Lemma ltb_asym x y : Number.ltb x y = true → Number.ltb y x = false.
Proof.
  intros Hxy. destruct (Number.ltb y x) eqn:Hyx; [|reflexivity].
  rewrite <- (ltb_irrefl x). symmetry. by apply (ltb_trans x y x).
Qed.

(** Without a valid gamut the point is left alone.  With one, a point
    that [pointInTriangle] accepts is returned unchanged; any other point
    is replaced by one of the three edge projections, and no projection
    is strictly nearer to the point than the one returned. *)
Lemma clamp_nearest_projection (g : HueGamut) (p : R * R) :
  clampColorToGamut pointEq None p = p
  ∧ (isValid pointEq g = false → clampColorToGamut pointEq (Some g) p = p)
  ∧ (isValid pointEq g = true →
     if pointInTriangle p (p1 g) (p2 g) (p3 g)
     then clampColorToGamut pointEq (Some g) p = p
     else clampColorToGamut pointEq (Some g) p ∈ edgeProjections g p
          ∧ ∀ c, c ∈ edgeProjections g p →
                 Number.ltb (dist2 p c) (dist2 p (clampColorToGamut pointEq (Some g) p))
                 = false).
Proof.
  split; [reflexivity|]. split.
  { intros Hv. unfold clampColorToGamut. rewrite Hv. reflexivity. }
  intros Hv. unfold clampColorToGamut, edgeProjections. rewrite Hv. cbn [negb].
  destruct (pointInTriangle p (p1 g) (p2 g) (p3 g)); [reflexivity|].
  set (pAB := closestPointOnSegment p (p1 g) (p2 g)).
  set (pBC := closestPointOnSegment p (p2 g) (p3 g)).
  set (pCA := closestPointOnSegment p (p3 g) (p1 g)).
  destruct (Number.ltb (dist2 p pBC) (dist2 p pAB)) eqn:E1.
  - destruct (Number.ltb (dist2 p pCA) (dist2 p pBC)) eqn:E2.
    + split; [repeat constructor|].
      intros c Hc. rewrite !elem_of_cons, elem_of_nil in Hc.
      destruct Hc as [->|[->|[->|[]]]].
      * destruct (Number.ltb (dist2 p pAB) (dist2 p pCA)) eqn:E3; [|reflexivity].
        rewrite <- (ltb_asym _ _ E1). symmetry. by apply (ltb_trans _ _ _ E3).
      * by apply ltb_asym.
      * apply ltb_irrefl.
    + split; [repeat constructor|].
      intros c Hc. rewrite !elem_of_cons, elem_of_nil in Hc.
      destruct Hc as [->|[->|[->|[]]]].
      * by apply ltb_asym.
      * apply ltb_irrefl.
      * exact E2.
  - destruct (Number.ltb (dist2 p pCA) (dist2 p pAB)) eqn:E2.
    + split; [repeat constructor|].
      intros c Hc. rewrite !elem_of_cons, elem_of_nil in Hc.
      destruct Hc as [->|[->|[->|[]]]].
      * by apply ltb_asym.
      * destruct (Number.ltb (dist2 p pBC) (dist2 p pCA)) eqn:E3; [|reflexivity].
        rewrite <- E1. symmetry. by apply (ltb_trans _ _ _ E3).
      * apply ltb_irrefl.
    + split; [repeat constructor|].
      intros c Hc. rewrite !elem_of_cons, elem_of_nil in Hc.
      destruct Hc as [->|[->|[->|[]]]].
      * apply ltb_irrefl.
      * exact E1.
      * exact E2.
Qed.

End GamutFacts.

(** ** The device loop and the removal that follows it *)

Lemma emitDeviceIfComplete_spec k s :
  waitsForMetadata s k = false →
  emitDeviceIfComplete k s = (false, s, deviceUpdates s [k]).
Proof.
  unfold waitsForMetadata, emitDeviceIfComplete, deviceUpdates. act. cbn [flat_map].
  destruct (default [] (m_v2DeviceChannels s !! k)) as [|c cs]; [reflexivity|].
  intros ->. act. reflexivity.
Qed.

Lemma emitDevices_spec keys s :
  existsb (waitsForMetadata s) keys = false →
  emitDevices keys s = (false, s, deviceUpdates s keys).
Proof.
  induction keys as [|k keys IH]; intros Hw; cbn [emitDevices]; [reflexivity|].
  cbn [existsb] in Hw. apply orb_false_iff in Hw as [Hk Hw].
  rewrite run_bind, (emitDeviceIfComplete_spec _ _ Hk).
  cbn [resultOf stateOf effectsOf fst snd].
  rewrite run_bind, (IH Hw). act. cbn [orb]. unfold deviceUpdates. cbn [flat_map].
  by rewrite !app_nil_r.
Qed.

Lemma removedIds_deviceUpdates s keys : removedIds (deviceUpdates s keys) = [].
Proof.
  unfold deviceUpdates, removedIds. induction keys as [|k keys IH]; [reflexivity|].
  cbn [flat_map]. rewrite flat_map_app, IH.
  by destruct (default [] (m_v2DeviceChannels s !! k)).
Qed.

Lemma removeDevice_spec extId s :
  removeDevice extId s
  = (tt, forget extId s, if isEmpty extId then [] else [deviceRemoved extId]).
Proof.
  unfold removeDevice, forget. destruct (isEmpty extId); [reflexivity|]. act. reflexivity.
Qed.

Lemma removeDevices_spec l : ∀ s,
  removeDevices l s
  = (tt, foldl (λ s extId, forget extId s) s l,
     deviceRemoved <$> filter (λ extId, extId ≠ "") l).
Proof.
  induction l as [|x l IH]; intros s; cbn [removeDevices foldl]; [reflexivity|].
  rewrite run_bind, removeDevice_spec. cbn [resultOf stateOf effectsOf fst snd].
  rewrite IH. cbn [fst snd]. rewrite filter_cons. unfold isEmpty.
  case_bool_decide as Hx.
  - rewrite decide_False by (intros Hn; by apply Hn). reflexivity.
  - rewrite decide_True by done. reflexivity.
Qed.

Lemma removedIds_of_signals l : removedIds (deviceRemoved <$> l) = l.
Proof. induction l as [|x l IH]; [reflexivity|]. cbn. f_equal. exact IH. Qed.

Lemma forget_known l : ∀ s,
  m_knownDeviceExternalIds (foldl (λ s extId, forget extId s) s l)
  = m_knownDeviceExternalIds s.
Proof.
  induction l as [|x l IH]; intros s; cbn [foldl]; [reflexivity|].
  rewrite IH. unfold forget. by destruct (isEmpty x).
Qed.

Lemma forget_erases d l : ∀ s,
  d ≠ "" →
  d ∈ l ∨ (m_v2Devices s !! d = None ∧ m_v2DeviceChannels s !! d = None
           ∧ m_v2DeviceInfoCache s !! d = None) →
  let s' := foldl (λ s extId, forget extId s) s l in
  m_v2Devices s' !! d = None ∧ m_v2DeviceChannels s' !! d = None
  ∧ m_v2DeviceInfoCache s' !! d = None.
Proof.
  intros s Hd. revert s. induction l as [|x l IH]; intros s Hin; cbn [foldl].
  - destruct Hin as [Hin|Hnone]; [by apply elem_of_nil in Hin|exact Hnone].
  - apply IH. destruct (decide (x = d)) as [->|Hx].
    + right. unfold forget, isEmpty. rewrite bool_decide_eq_false_2 by exact Hd.
      cbn. by rewrite !lookup_delete_eq.
    + destruct Hin as [Hin|(H1 & H2 & H3)].
      * left. apply elem_of_cons in Hin as [->|Hin]; [done|exact Hin].
      * right. unfold forget. destruct (isEmpty x); [done|]. cbn.
        by rewrite !lookup_delete_ne.
Qed.

Lemma removeMissingDevices_spec ids s :
  removeMissingDevices ids s
  = (tt,
     set_m_knownDeviceExternalIds ids
       (foldl (λ s extId, forget extId s) s (elements (m_knownDeviceExternalIds s ∖ ids))),
     deviceRemoved <$> filter (λ extId, extId ≠ "")
                              (elements (m_knownDeviceExternalIds s ∖ ids))).
Proof.
  unfold removeMissingDevices. act. rewrite run_bind, removeDevices_spec. act.
  cbn [app]. by rewrite app_nil_r.
Qed.

Lemma count_once (d : string) l :
  NoDup l → d ∈ l → filter (λ x, x = d) l = [d].
Proof.
  induction 1 as [|x l Hx Hl IH]; intros Hd; [by apply elem_of_nil in Hd|].
  rewrite filter_cons. apply elem_of_cons in Hd as [->|Hd].
  - rewrite decide_True by done. f_equal.
    apply elem_of_nil_inv. intros y Hy. apply list_elem_of_filter in Hy as [-> Hy]. done.
  - rewrite decide_False; [by apply IH|]. intros ->. done.
Qed.

Lemma absent_device_plugin ids s d :
  d ∈ m_knownDeviceExternalIds s → d ∉ ids → d ≠ "" →
  let first := removeMissingDevices ids s in
  filter (λ x, x = d) (removedIds (effectsOf first)) = [d]
  ∧ m_v2Devices (stateOf first) !! d = None
  ∧ m_v2DeviceChannels (stateOf first) !! d = None
  ∧ m_v2DeviceInfoCache (stateOf first) !! d = None
  ∧ m_knownDeviceExternalIds (stateOf first) = ids.
Proof.
  intros Hin Hout Hd first. subst first. rewrite removeMissingDevices_spec.
  cbn [stateOf effectsOf fst snd]. rewrite removedIds_of_signals.
  assert (Hel : d ∈ elements (m_knownDeviceExternalIds s ∖ ids)).
  { apply elem_of_elements, elem_of_difference. done. }
  split.
  - apply count_once; [apply NoDup_filter, NoDup_elements|].
    apply list_elem_of_filter. done.
  - pose proof (forget_erases d (elements (m_knownDeviceExternalIds s ∖ ids)) s Hd
                  (or_introl Hel)) as (H1 & H2 & H3).
    cbn. repeat split; assumption.
Qed.

Lemma reprocessing_plugin ids s :
  m_knownDeviceExternalIds s = ids →
  effectsOf (removeMissingDevices ids s) = []
  ∧ m_knownDeviceExternalIds (stateOf (removeMissingDevices ids s)) = ids.
Proof.
  intros Hk. rewrite removeMissingDevices_spec. cbn [stateOf effectsOf fst snd].
  rewrite Hk, difference_diag_L, elements_empty. split; reflexivity.
Qed.

(** ** Failed snapshot requests *)

Lemma finalize_degraded rebuild s :
  m_v2BootstrapDone s = false →
  m_v2SnapshotPending s = 0 →
  m_pendingV2DeviceFetch s = ∅ →
  m_v2DeviceFetchQueue s = [] →
  m_v2SnapshotFailedThisCycle s = true →
  finalizeV2SnapshotIfReady rebuild s
  = (tt, set_m_v2SnapshotFailedThisCycle false (set_m_v2BootstrapDone true s), []).
Proof.
  intros Hb Hp Hf Hq Hfailed. unfold finalizeV2SnapshotIfReady. act.
  rewrite Hb, Hp, Hf, Hq, Hfailed. cbn [negb andb].
  rewrite !bool_decide_eq_true_2 by reflexivity. cbn [andb]. act. reflexivity.
Qed.

Lemma finalize_not_ready rebuild s :
  m_v2SnapshotPending s ≠ 0 →
  finalizeV2SnapshotIfReady rebuild s = (tt, s, []).
Proof.
  intros Hp. unfold finalizeV2SnapshotIfReady. act.
  rewrite (bool_decide_eq_false_2 _ Hp), andb_false_r. reflexivity.
Qed.

Lemma decrement_spec s :
  decrementSnapshotPending s
  = (tt, (if 0 <? m_v2SnapshotPending s
          then set_m_v2SnapshotPending (m_v2SnapshotPending s - 1) s else s), []).
Proof. unfold decrementSnapshotPending. act. by destruct (0 <? _). Qed.

Lemma snapshotRequestFailed_retries rebuild resourceType s :
  resourceType ≠ "" →
  0 ≤ default 0 (m_v2ResourceRetryCount s !! resourceType) < kMaxV2ResourceSnapshotRetries →
  snapshotRequestFailed rebuild resourceType s
  = (true,
     set_m_v2ResourceRetryCount
       (<[resourceType := default 0 (m_v2ResourceRetryCount s !! resourceType) + 1]>
          (m_v2ResourceRetryCount s))
       (set_m_pendingV2ResourceTypes (m_pendingV2ResourceTypes s ∖ {[resourceType]}) s),
     [singleShotSnapshotRequest
        (kV2ResourceRetryBaseDelayMs
         * (default 0 (m_v2ResourceRetryCount s !! resourceType) + 1))
        resourceType]).
Proof.
  intros Htype [Hlo Hhi]. unfold snapshotRequestFailed. act.
  cbn [m_v2ResourceRetryCount set_m_pendingV2ResourceTypes].
  apply Z.ltb_lt in Hhi as Hhi'. rewrite Hhi'. act.
  rewrite run_bind. unfold requestV2ResourceSnapshot, isEmpty.
  rewrite (bool_decide_eq_false_2 _ Htype).
  assert (Hdelay : (0 <? kV2ResourceRetryBaseDelayMs
                         * (default 0 (m_v2ResourceRetryCount s !! resourceType) + 1)) = true).
  { apply Z.ltb_lt. unfold kV2ResourceRetryBaseDelayMs. lia. }
  rewrite Hdelay. act. reflexivity.
Qed.

Lemma snapshotRequestFailed_gives_up rebuild resourceType s :
  kMaxV2ResourceSnapshotRetries ≤ default 0 (m_v2ResourceRetryCount s !! resourceType) →
  m_v2BootstrapDone s = false →
  m_v2SnapshotPending s = 1 →
  m_pendingV2DeviceFetch s = ∅ →
  m_v2DeviceFetchQueue s = [] →
  snapshotRequestFailed rebuild resourceType s
  = (false,
     set_m_v2SnapshotFailedThisCycle false
       (set_m_v2BootstrapDone true
          (set_m_v2SnapshotPending 0
             (set_m_v2SnapshotByType (<[resourceType := []]> (m_v2SnapshotByType s))
                (set_m_v2SnapshotFailedThisCycle true
                   (set_m_v2ResourceRetryCount
                      (delete resourceType (m_v2ResourceRetryCount s))
                      (set_m_pendingV2ResourceTypes
                         (m_pendingV2ResourceTypes s ∖ {[resourceType]}) s)))))),
     []).
Proof.
  intros Hatt Hb Hp Hf Hq. unfold snapshotRequestFailed. act.
  cbn [m_v2ResourceRetryCount set_m_pendingV2ResourceTypes].
  assert (Hge : (default 0 (m_v2ResourceRetryCount s !! resourceType)
                 <? kMaxV2ResourceSnapshotRetries) = false) by (apply Z.ltb_ge; lia).
  rewrite Hge. act. rewrite run_bind, decrement_spec.
  cbn [resultOf stateOf effectsOf fst snd m_v2SnapshotPending set_m_v2SnapshotByType
       set_m_v2SnapshotFailedThisCycle set_m_v2ResourceRetryCount
       set_m_pendingV2ResourceTypes].
  rewrite Hp. change (0 <? 1) with true. change (1 - 1) with 0. cbn iota.
  rewrite run_bind, finalize_degraded by (cbn; assumption || reflexivity).
  act. reflexivity.
Qed.

Lemma snapshotRequestFailed_marks rebuild resourceType s :
  kMaxV2ResourceSnapshotRetries ≤ default 0 (m_v2ResourceRetryCount s !! resourceType) →
  1 < m_v2SnapshotPending s →
  snapshotRequestFailed rebuild resourceType s
  = (false,
     set_m_v2SnapshotPending (m_v2SnapshotPending s - 1)
       (set_m_v2SnapshotByType (<[resourceType := []]> (m_v2SnapshotByType s))
          (set_m_v2SnapshotFailedThisCycle true
             (set_m_v2ResourceRetryCount
                (delete resourceType (m_v2ResourceRetryCount s))
                (set_m_pendingV2ResourceTypes
                   (m_pendingV2ResourceTypes s ∖ {[resourceType]}) s)))),
     []).
Proof.
  intros Hatt Hp. unfold snapshotRequestFailed. act.
  cbn [m_v2ResourceRetryCount set_m_pendingV2ResourceTypes].
  assert (Hge : (default 0 (m_v2ResourceRetryCount s !! resourceType)
                 <? kMaxV2ResourceSnapshotRetries) = false) by (apply Z.ltb_ge; lia).
  rewrite Hge. act. rewrite run_bind, decrement_spec.
  cbn [resultOf stateOf effectsOf fst snd m_v2SnapshotPending set_m_v2SnapshotByType
       set_m_v2SnapshotFailedThisCycle set_m_v2ResourceRetryCount
       set_m_pendingV2ResourceTypes].
  assert (Hpos : (0 <? m_v2SnapshotPending s) = true) by (apply Z.ltb_lt; lia).
  rewrite Hpos. rewrite run_bind, finalize_not_ready by (cbn; lia).
  act. reflexivity.
Qed.

End PluginFacts.

Module SidecarFacts.
Import Qt Sidecar QtFacts.

(** ** Running member functions *)

Lemma op_get_bind {B} (f : HueSidecar → Op B) s : (get ≫= f) s = f s s.
Proof. unfold mbind, Op_bind, get. destruct (f s s) as [[b s2] e2]. reflexivity. Qed.

Lemma op_modify_bind {B} g (f : unit → Op B) s : (modify g ≫= f) s = f tt (g s).
Proof. unfold mbind, Op_bind, modify. destruct (f tt (g s)) as [[b s2] e2]. reflexivity. Qed.

Lemma op_ret_bind {A B} (a : A) (f : A → Op B) s : (mret a ≫= f) s = f a s.
Proof. unfold mbind, Op_bind, mret, Op_ret. destruct (f a s) as [[b s2] e2]. reflexivity. Qed.

Lemma op_skip_bind {B} (f : unit → Op B) s : (skip ≫= f) s = f tt s.
Proof. apply op_ret_bind. Qed.

Lemma op_bind {A B} (m : Op A) (f : A → Op B) s :
  (m ≫= f) s = (resultOf (f (resultOf (m s)) (stateOf (m s))),
                 stateOf (f (resultOf (m s)) (stateOf (m s))),
                 sentBy (m s) ++ sentBy (f (resultOf (m s)) (stateOf (m s)))).
Proof.
  unfold mbind, Op_bind. destruct (m s) as [[a s1] e1]. cbn.
  destruct (f a s1) as [[b s2] e2]. reflexivity.
Qed.

Lemma op_modify g s : modify g s = (tt, g s, []).
Proof. reflexivity. Qed.

Lemma op_skip s : skip s = (tt, s, []).
Proof. reflexivity. Qed.

Lemma op_ret {A} (a : A) s : (mret a : Op A) s = (a, s, []).
Proof. reflexivity. Qed.

Lemma op_send_accepted sink m s : sink m = true → send sink m s = (true, s, [m]).
Proof. intros Hs. unfold send. rewrite Hs. reflexivity. Qed.

Lemma op_send_bind {B} sink m (f : bool → Op B) s :
  sink m = true →
  (send sink m ≫= f) s = (resultOf (f true s), stateOf (f true s), m :: sentBy (f true s)).
Proof.
  intros Hs. rewrite op_bind, (op_send_accepted _ _ _ Hs). reflexivity.
Qed.

Ltac op :=
  repeat (rewrite ?op_get_bind, ?op_modify_bind, ?op_ret_bind, ?op_skip_bind,
            ?op_modify, ?op_skip, ?op_ret;
          cbn [resultOf stateOf sentBy fst snd]).

(** ** A pass whose sends are all accepted *)

Section Accepting.
Variable sink : Msg → bool.
Hypothesis accepts : ∀ m, sink m = true.

Lemma send_accepts m s : send sink m s = (true, s, [m]).
Proof. unfold send. by rewrite accepts. Qed.

Lemma forEach_accepts {A} (body : A → Op bool) (msgs : A → list Msg) l :
  (∀ x s, body x s = (true, s, msgs x)) →
  ∀ s, forEach body l s = (true, s, flat_map msgs l).
Proof.
  intros Hbody. induction l as [|x l IH]; intros s; cbn [forEach flat_map].
  - reflexivity.
  - rewrite op_bind, Hbody. cbn [resultOf stateOf sentBy fst snd]. rewrite IH. reflexivity.
Qed.

Lemma removeVanishedDevice_accepts snapshot key s :
  removeVanishedDevice sink snapshot key s
  = if bool_decide (key ∈ dom (Snapshot.devices snapshot)) then (true, s, [])
    else (true, set_m_lightResourceByDevice (delete key (m_lightResourceByDevice s)) s,
          [DeviceRemoved key]).
Proof.
  unfold removeVanishedDevice. case_bool_decide; [reflexivity|].
  rewrite op_bind, send_accepts. op. reflexivity.
Qed.

Lemma removal_accepts snapshot keys : ∀ s,
  ∃ s', forEach (removeVanishedDevice sink snapshot) keys s
        = (true, s',
           DeviceRemoved <$> filter (λ key, key ∉ dom (Snapshot.devices snapshot)) keys)
        ∧ ∀ v, set_m_lightResourceByDevice v s' = set_m_lightResourceByDevice v s.
Proof.
  induction keys as [|k keys IH]; intros s; cbn [forEach].
  - exists s. split; reflexivity.
  - rewrite op_bind, removeVanishedDevice_accepts, filter_cons.
    case_bool_decide as Hk; cbn [resultOf stateOf sentBy fst snd].
    + rewrite decide_False by (intros Hn; by apply Hn).
      destruct (IH s) as (s' & -> & Hs'). exists s'. split; [reflexivity|exact Hs'].
    + rewrite decide_True by done.
      destruct (IH (set_m_lightResourceByDevice (delete k (m_lightResourceByDevice s)) s))
        as (s' & -> & Hs').
      exists s'. split; [reflexivity|]. intros v. rewrite Hs'. reflexivity.
Qed.

Lemma publishDevice_accepts ts kv s :
  publishDevice sink ts kv s = (true, s, deviceMessages ts kv).
Proof.
  unfold publishDevice. rewrite op_bind, send_accepts. cbn [resultOf stateOf sentBy fst snd negb].
  rewrite (forEach_accepts _
             (λ channel,
                if Channel.hasValue channel
                then [ChannelStateUpdated (Device.externalId (DeviceEntry.device kv.2))
                                          (Channel.externalId channel)
                                          (Channel.lastValue channel) ts]
                else [])).
  - reflexivity.
  - intros ch s0. unfold publishChannelValue. destruct (Channel.hasValue ch); cbn [negb].
    + apply send_accepts.
    + reflexivity.
Qed.

Lemma publishSnapshot_accepts ts snapshot s :
  publishSnapshot sink ts snapshot s
  = (true, publishedState snapshot s, snapshotMessages ts snapshot s).
Proof.
  unfold publishSnapshot. op.
  destruct (removal_accepts snapshot ((map_to_list (m_devices s)).*1) s) as (s' & Hrem & Hs').
  rewrite op_bind, Hrem. cbn [resultOf stateOf sentBy fst snd negb].
  rewrite op_bind, (forEach_accepts _ (deviceMessages ts)) by apply publishDevice_accepts.
  cbn [resultOf stateOf sentBy fst snd negb].
  rewrite op_bind,
    (forEach_accepts _ (λ room, if isEmpty (Room.externalId room) then []
                                else [RoomUpdated room])).
  2:{ intros room s0. destruct (isEmpty _); [reflexivity|apply send_accepts]. }
  cbn [resultOf stateOf sentBy fst snd negb].
  rewrite op_bind,
    (forEach_accepts _ (λ old, if bool_decide (old ∈ idsOf (Snapshot.rooms snapshot))
                               then [] else [RoomRemoved old])).
  2:{ intros old s0. case_bool_decide; [reflexivity|apply send_accepts]. }
  cbn [resultOf stateOf sentBy fst snd negb].
  rewrite op_bind,
    (forEach_accepts _ (λ room, if isEmpty (Room.externalId room) then []
                                else [GroupUpdated room])).
  2:{ intros room s0. destruct (isEmpty _); [reflexivity|apply send_accepts]. }
  cbn [resultOf stateOf sentBy fst snd negb].
  rewrite op_bind,
    (forEach_accepts _ (λ old, if bool_decide (old ∈ idsOf (Snapshot.groups snapshot))
                               then [] else [GroupRemoved old])).
  2:{ intros old s0. case_bool_decide; [reflexivity|apply send_accepts]. }
  cbn [resultOf stateOf sentBy fst snd negb].
  rewrite op_bind, send_accepts. cbn [resultOf stateOf sentBy fst snd negb]. op.
  unfold snapshotMessages, publishedState, vanishedDevices, updateMessages, removeMessages.
  cbn [app].
  change (set_m_lightResourceByDevice (nextLightByDevice snapshot)
            (set_m_devices (Snapshot.devices snapshot) s'))
    with (set_m_devices (Snapshot.devices snapshot)
            (set_m_lightResourceByDevice (nextLightByDevice snapshot) s')).
  rewrite Hs'. reflexivity.
Qed.
End Accepting.

(** ** What a pass says about one device *)

Lemma filter_flat_map_nil {A B} (P : B → bool) (f : A → list B) l :
  (∀ x, x ∈ l → List.filter P (f x) = []) → List.filter P (flat_map f l) = [].
Proof.
  induction l as [|x l IH]; intros Hf; cbn [flat_map]; [reflexivity|].
  rewrite List.filter_app, Hf, IH; [reflexivity| |left].
  intros y Hy. apply Hf. by right.
Qed.

Lemma removedIds_flat_map_nil {A} (f : A → list Msg) l :
  (∀ x, removedIds (f x) = []) → removedIds (flat_map f l) = [].
Proof.
  intros Hf. induction l as [|x l IH]; cbn [flat_map]; [reflexivity|].
  unfold removedIds in *. rewrite flat_map_app, Hf, IH. reflexivity.
Qed.

Lemma removedIds_of_messages l : removedIds (DeviceRemoved <$> l) = l.
Proof. induction l as [|x l IH]; [reflexivity|]. cbn. f_equal. exact IH. Qed.

Lemma removedIds_snapshotMessages ts snapshot s :
  removedIds (snapshotMessages ts snapshot s) = vanishedDevices snapshot s.
Proof.
  unfold snapshotMessages, removedIds. rewrite !flat_map_app.
  fold (removedIds (DeviceRemoved <$> vanishedDevices snapshot s)).
  rewrite removedIds_of_messages.
  fold (removedIds (flat_map (deviceMessages ts) (map_to_list (Snapshot.devices snapshot)))).
  rewrite removedIds_flat_map_nil.
  2:{ intros kv. unfold deviceMessages. cbn.
      apply removedIds_flat_map_nil. intros ch. by destruct (Channel.hasValue ch). }
  unfold updateMessages, removeMessages.
  repeat match goal with
  | |- context [flat_map ?g (flat_map ?f ?l)] =>
      change (flat_map g (flat_map f l)) with (removedIds (flat_map f l));
      rewrite (removedIds_flat_map_nil f l)
  end.
  - cbn. by rewrite app_nil_r.
  - intros old. by case_bool_decide.
  - intros room. by destruct (isEmpty _).
  - intros old. by case_bool_decide.
  - intros room. by destruct (isEmpty _).
Qed.

Lemma vanishedDevices_NoDup snapshot s : NoDup (vanishedDevices snapshot s).
Proof. apply NoDup_filter, NoDup_fst_map_to_list. Qed.

Lemma elem_of_vanishedDevices snapshot s d :
  d ∈ vanishedDevices snapshot s
  ↔ d ∈ dom (m_devices s) ∧ d ∉ dom (Snapshot.devices snapshot).
Proof.
  unfold vanishedDevices. rewrite list_elem_of_filter, !elem_of_dom.
  assert (d ∈ (map_to_list (m_devices s)).*1 ↔ is_Some (m_devices s !! d)) as ->; [|tauto].
  rewrite list_elem_of_fmap. split.
  - intros ([k e] & -> & Hin). apply elem_of_map_to_list in Hin. by exists e.
  - intros [e He]. exists (d, e). split; [reflexivity|]. by apply elem_of_map_to_list.
Qed.

Lemma vanishedDevices_published snapshot s :
  vanishedDevices snapshot (publishedState snapshot s) = [].
Proof.
  apply elem_of_nil_inv. intros d Hd. apply elem_of_vanishedDevices in Hd as [Hin Hout].
  by apply Hout.
Qed.

Lemma concerns_removed_absent d l :
  d ∉ l → List.filter (concerns d) (DeviceRemoved <$> l) = [].
Proof.
  induction l as [|x l IH]; intros Hd; [reflexivity|]. cbn.
  rewrite bool_decide_eq_false_2.
  - apply IH. intros Hin. apply Hd. by right.
  - intros ->. apply Hd. by left.
Qed.

Lemma concerns_removed_once d l :
  NoDup l → d ∈ l → List.filter (concerns d) (DeviceRemoved <$> l) = [DeviceRemoved d].
Proof.
  induction 1 as [|x l Hx Hl IH]; intros Hd; [by apply elem_of_nil in Hd|].
  cbn. apply elem_of_cons in Hd as [->|Hd].
  - rewrite bool_decide_eq_true_2 by reflexivity. f_equal. by apply concerns_removed_absent.
  - rewrite bool_decide_eq_false_2; [by apply IH|]. intros ->. by apply Hx.
Qed.

Lemma concerns_snapshotMessages ts snapshot s d :
  keyedById (Snapshot.devices snapshot) →
  d ∉ dom (Snapshot.devices snapshot) →
  List.filter (concerns d) (snapshotMessages ts snapshot s)
  = List.filter (concerns d) (DeviceRemoved <$> vanishedDevices snapshot s).
Proof.
  intros Hkeyed Hd. unfold snapshotMessages. rewrite !List.filter_app.
  rewrite (filter_flat_map_nil _ (deviceMessages ts)).
  2:{ intros [k e] Hin. apply elem_of_map_to_list in Hin.
      assert (Hk : Device.externalId (DeviceEntry.device e) ≠ d).
      { rewrite (Hkeyed k e Hin). intros ->. apply Hd. apply elem_of_dom. by exists e. }
      unfold deviceMessages. cbn. rewrite bool_decide_eq_false_2 by exact Hk.
      apply filter_flat_map_nil. intros ch _. destruct (Channel.hasValue ch); [|reflexivity].
      cbn. by rewrite bool_decide_eq_false_2. }
  unfold updateMessages, removeMessages.
  rewrite !filter_flat_map_nil.
  - cbn. by rewrite app_nil_r.
  - intros old _. by case_bool_decide.
  - intros room _. by destruct (isEmpty _).
  - intros old _. by case_bool_decide.
  - intros room _. by destruct (isEmpty _).
Qed.

Section Passes.
Variable sink : Msg → bool.
Hypothesis accepts : ∀ m, sink m = true.

Lemma absent_device_sidecar ts ts' snapshot s d :
  keyedById (Snapshot.devices snapshot) →
  d ∈ dom (m_devices s) →
  d ∉ dom (Snapshot.devices snapshot) →
  let first := publishSnapshot sink ts snapshot s in
  let second := publishSnapshot sink ts' snapshot (stateOf first) in
  List.filter (concerns d) (sentBy first) = [DeviceRemoved d]
  ∧ m_devices (stateOf first) !! d = None
  ∧ m_lightResourceByDevice (stateOf first) !! d = None
  ∧ List.filter (concerns d) (sentBy second) = []
  ∧ removedIds (sentBy second) = [].
Proof.
  intros Hkeyed Hin Hout first second. subst first second.
  rewrite !(publishSnapshot_accepts sink accepts). cbn [stateOf sentBy fst snd].
  assert (Hnone : Snapshot.devices snapshot !! d = None) by (by apply not_elem_of_dom).
  rewrite !concerns_snapshotMessages by assumption.
  rewrite removedIds_snapshotMessages, vanishedDevices_published.
  split; [|split; [|split; [|split]]].
  - apply concerns_removed_once; [apply vanishedDevices_NoDup|].
    by apply elem_of_vanishedDevices.
  - exact Hnone.
  - cbn. unfold nextLightByDevice. by rewrite lookup_omap, Hnone.
  - reflexivity.
  - reflexivity.
Qed.
End Passes.

(** ** Publishing the same snapshot again *)

Lemma removeMessages_same message known : removeMessages message known known = [].
Proof.
  unfold removeMessages. apply elem_of_nil_inv. intros m Hm.
  apply list_elem_of_In, in_flat_map in Hm as (old & Hold & Hm).
  apply list_elem_of_In, elem_of_elements in Hold.
  rewrite bool_decide_eq_true_2 in Hm by exact Hold. destruct Hm.
Qed.

Lemma snapshotMessages_published ts snapshot s :
  snapshotMessages ts snapshot (publishedState snapshot s)
  = flat_map (deviceMessages ts) (map_to_list (Snapshot.devices snapshot))
    ++ updateMessages RoomUpdated (Snapshot.rooms snapshot)
    ++ updateMessages GroupUpdated (Snapshot.groups snapshot)
    ++ [ScenesUpdated (Snapshot.scenes snapshot)].
Proof.
  unfold snapshotMessages. rewrite vanishedDevices_published.
  cbn [publishedState m_knownRooms m_knownGroups set_m_knownGroups set_m_knownRooms].
  rewrite !removeMessages_same. reflexivity.
Qed.

Lemma deviceUpdated_sent ts devices key entry :
  devices !! key = Some entry →
  DeviceUpdated (DeviceEntry.device entry) (DeviceEntry.channels entry)
  ∈ flat_map (deviceMessages ts) (map_to_list devices).
Proof.
  intros Hlook. apply list_elem_of_In, in_flat_map. exists (key, entry). split.
  - apply list_elem_of_In. by apply elem_of_map_to_list.
  - left. reflexivity.
Qed.

(** ** Collections that fail during a poll *)

Section Polling.
Variable sink : Msg → bool.
Variable fetchResourceArray : string → string + QJsonArray.
Variable snapshotDevices : list QJsonArray → gmap string DeviceEntry.t.
Variable sendErrorText : string.

Lemma pollBridge_core_failure ts s :
  isEmpty (effectiveHost (m_settings s)) = false →
  isEmpty (trimmed (ConnectionSettings.appKey (m_settings s))) = false →
  (∃ resourceType, resourceType ∈ coreTypes
                   ∧ ∃ error, fetchResourceArray resourceType = inl error) →
  ∃ resourceType error,
    resourceType ∈ coreTypes
    ∧ fetchResourceArray resourceType = inl error
    ∧ pollBridge sink fetchResourceArray snapshotDevices sendErrorText ts s
      = ((false, error), s, []).
Proof.
  intros Hhost Hkey (failed & Hcore & failure & Hfailed).
  unfold pollBridge. op. rewrite Hhost, Hkey.
  destruct (fetchResourceArray "device") as [e|deviceData] eqn:Hdevice.
  { exists "device", e. split; [by left|]. split; [exact Hdevice|reflexivity]. }
  destruct (fetchResourceArray "light") as [e|lightData] eqn:Hlight.
  { exists "light", e. split; [right; by left|]. split; [exact Hlight|reflexivity]. }
  cbn zeta.
  destruct (fetchResourceArray "room") as [e|roomData] eqn:Hroom.
  { exists "room", e. split; [do 2 right; by left|]. split; [exact Hroom|reflexivity]. }
  destruct (fetchResourceArray "zone") as [e|zoneData] eqn:Hzone.
  { exists "zone", e. split; [do 3 right; by left|]. split; [exact Hzone|reflexivity]. }
  destruct (fetchResourceArray "scene") as [e|sceneData] eqn:Hscene.
  { exists "scene", e. split; [do 4 right; by left|]. split; [exact Hscene|reflexivity]. }
  exfalso. unfold coreTypes in Hcore.
  repeat (apply elem_of_cons in Hcore as [->|Hcore]; [congruence|]).
  by apply elem_of_nil in Hcore.
Qed.

Lemma pollBridge_secondary_failure ts s :
  pollBridge sink fetchResourceArray snapshotDevices sendErrorText ts s
  = pollBridge sink (emptyOnFailure fetchResourceArray) snapshotDevices sendErrorText ts s.
Proof.
  unfold pollBridge, fetchOrEmpty, emptyOnFailure. decide_literals. cbn iota.
  reflexivity.
Qed.
End Polling.

(** ** Channel writes *)

Section CommandFacts.
Variable sink : Msg → bool.
Variable fetchResourceArray : string → string + QJsonArray.
Variable snapshotDevices : list QJsonArray → gmap string DeviceEntry.t.
Variable colorWriteXy : ChannelInvokeRequest.t → option (Q * Q).
Variable putJsonAsync : string → QJsonObject → option string.
Variable sendErrorText : string.


End CommandFacts.


End SidecarFacts.

Module WriteFacts.
Import Qt QtFacts.

(** ** Colour-temperature writes on the two paths *)

Lemma round_le x y : (x <= y)%Q → round x ≤ round y.
Proof.
  intros Hxy. unfold round.
  destruct (Qle_bool 0 x) eqn:Hx; destruct (Qle_bool 0 y) eqn:Hy.
  - apply Qfloor_resp_le. by apply Qplus_le_compat; [|apply Qle_refl].
  - apply Qle_bool_iff in Hx. exfalso.
    assert (Qle_bool 0 y = true) as Hy'; [|congruence].
    apply Qle_bool_iff. by apply (Qle_trans 0 x y).
  - transitivity 0.
    + change 0 with (Qceiling 0). apply Qceiling_resp_le.
      assert (x < 0)%Q as Hneg.
      { apply Qnot_le_lt. intros Hc. apply Qle_bool_iff in Hc. congruence. }
      apply Qlt_le_weak in Hneg. clear -Hneg.
      unfold Qle, Qminus, Qplus, Qopp in *. cbn in *. lia.
    + apply Qle_bool_iff in Hy. change 0 with (Qfloor 0). apply Qfloor_resp_le.
      clear -Hy. unfold Qle, Qplus in *. cbn in *. lia.
  - apply Qceiling_resp_le. by apply Qplus_le_compat; [|apply Qle_refl].
Qed.

Lemma Qltb_false a b : Qltb a b = false ↔ (b <= a)%Q.
Proof.
  unfold Qltb. rewrite negb_false_iff. apply Qle_bool_iff.
Qed.

Lemma ctRangeOf_positive channels :
  (0 < (Plugin.ctRangeOf channels).1)%Q ∧ (0 < (Plugin.ctRangeOf channels).2)%Q.
Proof.
  unfold Plugin.ctRangeOf. destruct (List.find _ channels) as [ch|]; cbn [fst snd].
  - split.
    + destruct (Qltb 0 (Plugin.Channel.minValue ch)) eqn:E; [by apply Qltb_lt|reflexivity].
    + destruct (Qltb 0 (Plugin.Channel.maxValue ch)) eqn:E; [by apply Qltb_lt|reflexivity].
  - split; reflexivity.
Qed.

Lemma ctPresetMired_spread channels idx :
  ((Plugin.ctRangeOf channels).1 < (Plugin.ctRangeOf channels).2)%Q →
  Plugin.ctPresetMired idx channels
  = round ((Plugin.ctRangeOf channels).1
           + inject_Z idx / 4
             * ((Plugin.ctRangeOf channels).2 - (Plugin.ctRangeOf channels).1))%Q.
Proof.
  intros Hlt. unfold Plugin.ctPresetMired.
  destruct (Plugin.ctRangeOf channels) as [lo hi]. cbn [fst snd] in *.
  assert (Hspan : (0 < hi - lo)%Q).
  { unfold Qminus. by apply (proj1 (Qlt_minus_iff _ _)). }
  apply Qltb_lt in Hspan as ->. reflexivity.
Qed.

Lemma ctPresetMired_midpoint channels idx :
  ((Plugin.ctRangeOf channels).2 <= (Plugin.ctRangeOf channels).1)%Q →
  Plugin.ctPresetMired idx channels
  = round (((Plugin.ctRangeOf channels).1 + (Plugin.ctRangeOf channels).2) / 2)%Q.
Proof.
  intros Hle. unfold Plugin.ctPresetMired.
  destruct (Plugin.ctRangeOf channels) as [lo hi]. cbn [fst snd] in *.
  assert (Qltb 0 (hi - lo) = false) as ->.
  { apply Qltb_false. clear -Hle. unfold Qle, Qminus, Qplus, Qopp in *. cbn in *. lia. }
  apply round_comp. field.
Qed.

(** C6, as the code has it. The sidecar clamps a raw colour-temperature
    write to 100..1000 mirek and rounds it, whatever the light advertises.
    The plugin forwards a raw write as the integer it was given, without
    any bound, and reads the advertised range of the device's first [ct]
    channel only for a preset write.  There the index is clamped to 0..4;
    the range is the advertised minimum and maximum, with 153 in place of
    a minimum and 500 in place of a maximum that is not positive, and
    153..500 when the device has no [ct] channel, so both bounds are
    positive.  When the minimum is below the maximum, index [idx] is sent
    as [qRound(min + idx/4 * (max - min))], index 0 as the minimum, index
    4 as the maximum, and a larger index never as a smaller value;
    otherwise every index is sent as the midpoint of the two bounds. *)
Theorem color_temperature_write_ranges :
  (∀ colorWriteXy request v,
     Sidecar.ChannelInvokeRequest.hasScalarValue request = true →
     Sidecar.scalarAsDouble (Sidecar.ChannelInvokeRequest.value request) = Some v →
     Sidecar.buildLightCommandPayload colorWriteXy "ct" request
     = inr (Sidecar.mirekPayload (round (qBoundQ 100 v 1000)))
     ∧ 100 ≤ round (qBoundQ 100 v 1000) ≤ 1000)
  ∧ (∀ variantToXy gamuts lightId value channels,
       Plugin.lightWriteBody variantToXy gamuts lightId "ct" value channels
       = Some (Plugin.mirekBody (Plugin.variantToInt value),
               Plugin.VInt (Plugin.variantToInt value)))
  ∧ (∀ variantToXy gamuts lightId value channels,
       Plugin.lightWriteBody variantToXy gamuts lightId "ctPreset" value channels
       = Some (Plugin.mirekBody
                 (Plugin.ctPresetMired (qBoundZ 0 (Plugin.variantToInt value) 4) channels),
               Plugin.VInt (qBoundZ 0 (Plugin.variantToInt value) 4))
       ∧ 0 ≤ qBoundZ 0 (Plugin.variantToInt value) 4 ≤ 4)
  ∧ (∀ channels,
       let ctMin := (Plugin.ctRangeOf channels).1 in
       let ctMax := (Plugin.ctRangeOf channels).2 in
       (0 < ctMin)%Q ∧ (0 < ctMax)%Q
       ∧ (List.find (λ c, bool_decide (Plugin.Channel.id c = "ct")) channels = None →
          ctMin = 153%Q ∧ ctMax = 500%Q)
       ∧ (∀ ch,
            List.find (λ c, bool_decide (Plugin.Channel.id c = "ct")) channels = Some ch →
            ((0 < Plugin.Channel.minValue ch)%Q → ctMin = Plugin.Channel.minValue ch)
            ∧ ((Plugin.Channel.minValue ch <= 0)%Q → ctMin = 153%Q)
            ∧ ((0 < Plugin.Channel.maxValue ch)%Q → ctMax = Plugin.Channel.maxValue ch)
            ∧ ((Plugin.Channel.maxValue ch <= 0)%Q → ctMax = 500%Q))
       ∧ ((ctMin < ctMax)%Q →
          (∀ idx,
             Plugin.ctPresetMired idx channels
             = round (ctMin + inject_Z idx / 4 * (ctMax - ctMin))%Q)
          ∧ Plugin.ctPresetMired 0 channels = round ctMin
          ∧ Plugin.ctPresetMired 4 channels = round ctMax
          ∧ (∀ idx idx',
               idx ≤ idx' →
               Plugin.ctPresetMired idx channels ≤ Plugin.ctPresetMired idx' channels))
       ∧ ((ctMax <= ctMin)%Q →
          ∀ idx, Plugin.ctPresetMired idx channels = round ((ctMin + ctMax) / 2)%Q)).
Proof.
  split; [|split; [|split]].
  - intros colorWriteXy request v Hscalar Hv. split; [|apply ct_mired_range].
    unfold Sidecar.buildLightCommandPayload. cbn. rewrite Hscalar, Hv. reflexivity.
  - reflexivity.
  - intros. split; [reflexivity|]. unfold qBoundZ. lia.
  - intros channels ctMin ctMax. subst ctMin ctMax.
    destruct (ctRangeOf_positive channels) as [Hlo Hhi].
    split; [exact Hlo|]. split; [exact Hhi|]. split; [|split; [|split]].
    + intros Hnone. unfold Plugin.ctRangeOf. rewrite Hnone. by split.
    + intros ch Hfind. unfold Plugin.ctRangeOf. rewrite Hfind. cbn [fst snd].
      split; [|split; [|split]].
      * intros Hpos. by apply Qltb_lt in Hpos as ->.
      * intros Hneg. by apply Qltb_false in Hneg as ->.
      * intros Hpos. by apply Qltb_lt in Hpos as ->.
      * intros Hneg. by apply Qltb_false in Hneg as ->.
    + intros Hlt. split; [intros idx; by apply ctPresetMired_spread|].
      split; [|split].
      * rewrite ctPresetMired_spread by exact Hlt. apply round_comp. field.
      * rewrite ctPresetMired_spread by exact Hlt. apply round_comp. field.
      * intros idx idx' Hle. rewrite !ctPresetMired_spread by exact Hlt.
        apply round_le. apply Qplus_le_compat; [apply Qle_refl|].
        apply Qmult_le_compat_r.
        -- apply Qmult_le_compat_r; [|discriminate]. by rewrite <- Zle_Qle.
        -- apply Qlt_le_weak. unfold Qminus. by apply (proj1 (Qlt_minus_iff _ _)).
    + intros Hle idx. by apply ctPresetMired_midpoint.
Qed.

(** A sidecar write of 50 mirek is sent as 100; preset 4 on a light that
    advertises 153..454 mirek is sent as 454, preset 2 on a device
    without a [ct] channel as 327. *)
Lemma color_temperature_write_ranges_witness :
  Sidecar.buildLightCommandPayload Examples.noColor "ct" (Examples.ctWrite (Sidecar.SInt 50))
  = inr (Sidecar.mirekPayload 100)
  ∧ Plugin.ctPresetMired 4 [Examples.ctChannel] = 454
  ∧ Plugin.ctPresetMired 2 [] = 327.
Proof.
  destruct color_temperature_write_ranges as (Hsidecar & _ & _ & Hpreset).
  split; [|split].
  - destruct (Hsidecar Examples.noColor (Examples.ctWrite (Sidecar.SInt 50)) (inject_Z 50))
      as [-> _]; reflexivity.
  - destruct (Hpreset [Examples.ctChannel]) as (_ & _ & _ & _ & Hspread & _).
    destruct Hspread as (_ & _ & -> & _); reflexivity.
  - destruct (Hpreset []) as (_ & _ & _ & _ & Hspread & _).
    destruct Hspread as (-> & _); reflexivity.
Defined.

(** The plugin sends a raw write of 50 mirek to the bridge as 50, below
    the protocol minimum of 100, and echoes 50 as the final value. *)
Lemma plugin_raw_ct_write_unclamped :
  Plugin.effectsOf
    (Plugin.updateChannelState Examples.noXy ∅ "dev-1" "ct" (Plugin.VInt 50)
                               Examples.adapterWithLight)
  = [Plugin.networkPut "light/light-1" (Plugin.mirekBody 50);
     Plugin.cmdResult {| Plugin.CmdResponse.status := Plugin.Success;
                         Plugin.CmdResponse.finalValue := Plugin.VInt 50;
                         Plugin.CmdResponse.error := "" |}]
  ∧ ¬ 100 ≤ 50.
Proof. split; [vm_compute; reflexivity | lia]. Qed.

End WriteFacts.

Module SceneFacts.
Import Qt QtFacts.

(** ** Scenes without a name *)

Lemma handleV2SceneResource_named resObj scenes :
  Plugin.allNamed scenes → Plugin.allNamed (Plugin.handleV2SceneResource resObj scenes).
Proof.
  intros Hnamed. unfold Plugin.handleV2SceneResource.
  destruct (isEmpty (toString (value resObj "id"))); [exact Hnamed|].
  destruct (isEmpty (trimmed _)) eqn:Hname; [exact Hnamed|].
  intros sceneId scene Hlook. apply lookup_insert_Some in Hlook as [[_ <-]|[_ Hlook]].
  - cbn. by apply bool_decide_eq_false_1 in Hname.
  - by eapply Hnamed.
Qed.

Lemma handleV2SceneResource_stores resObj scenes :
  toString (value resObj "id") ≠ "" →
  trimmed (Plugin.parsedSceneName resObj
             (default Plugin.Scene.empty (scenes !! toString (value resObj "id")))) ≠ "" →
  ∃ scene,
    Plugin.handleV2SceneResource resObj scenes !! toString (value resObj "id") = Some scene
    ∧ Plugin.Scene.id scene = toString (value resObj "id")
    ∧ Plugin.Scene.name scene
      = Plugin.parsedSceneName resObj
          (default Plugin.Scene.empty (scenes !! toString (value resObj "id"))).
Proof.
  intros Hid Hname. unfold Plugin.handleV2SceneResource, isEmpty.
  rewrite (bool_decide_eq_false_2 _ Hid), (bool_decide_eq_false_2 _ Hname).
  eexists. rewrite lookup_insert_eq. split; [reflexivity|]. split; reflexivity.
Qed.

Lemma snapshotScenes_keeps obj sceneData : ∀ acc,
  Sidecar.Scene.externalId (Sidecar.sceneOf obj) ≠ "" →
  Sidecar.sceneOf obj ∈ acc ∨ JObject obj ∈ sceneData →
  Sidecar.sceneOf obj
  ∈ foldl (λ (scenes : list Sidecar.Scene.t) (entry : QJsonValue),
             if negb (isObject entry) then scenes
             else
               let scene := Sidecar.sceneOf (toObject entry) in
               if negb (isEmpty (Sidecar.Scene.externalId scene))
               then scenes ++ [scene] else scenes)
          acc sceneData.
Proof.
  intros acc Hid. revert acc. induction sceneData as [|entry rest IH]; intros acc Hin.
  - destruct Hin as [Hin|Hin]; [exact Hin|by apply elem_of_nil in Hin].
  - cbn [foldl]. apply IH. destruct Hin as [Hin|Hin].
    + left. destruct (negb (isObject entry)); [exact Hin|]. cbn zeta.
      destruct (negb (isEmpty _)); [|exact Hin]. apply elem_of_app. by left.
    + apply elem_of_cons in Hin as [<-|Hin]; [|by right].
      left. cbn [isObject negb toObject]. cbn zeta. unfold isEmpty.
      rewrite (bool_decide_eq_false_2 _ Hid). cbn [negb]. apply elem_of_app. right. by left.
Qed.

(** C5, as the code has it.  The plugin keeps every stored scene named:
    [handleV2SceneResource] preserves it, a resource with an id and a
    name after parsing is stored under that name, and the list handed to
    [scenesUpdated] after a scene event holds named scenes only.  The
    scene loop of the sidecar's [buildSnapshot] tests the id alone: an
    entry with an id is part of the snapshot's scenes whatever its name. *)
Theorem scene_name_rule :
  (∀ resObj scenes,
     Plugin.allNamed scenes → Plugin.allNamed (Plugin.handleV2SceneResource resObj scenes))
  ∧ (∀ resObj scenes,
       toString (value resObj "id") ≠ "" →
       trimmed (Plugin.parsedSceneName resObj
                  (default Plugin.Scene.empty (scenes !! toString (value resObj "id")))) ≠ "" →
       ∃ scene,
         Plugin.handleV2SceneResource resObj scenes !! toString (value resObj "id")
         = Some scene
         ∧ Plugin.Scene.id scene = toString (value resObj "id")
         ∧ Plugin.Scene.name scene
           = Plugin.parsedSceneName resObj
               (default Plugin.Scene.empty (scenes !! toString (value resObj "id"))))
  ∧ (∀ resObj s,
       Plugin.allNamed (Plugin.m_v2Scenes s) →
       ∃ scenes,
         Plugin.effectsOf (Plugin.onSceneEvent resObj s) = [Plugin.scenesUpdated scenes]
         ∧ ∀ scene, scene ∈ scenes → trimmed (Plugin.Scene.name scene) ≠ "")
  ∧ (∀ sceneData obj,
       JObject obj ∈ sceneData →
       toString (value obj "id") ≠ "" →
       Sidecar.sceneOf obj ∈ Sidecar.snapshotScenes sceneData
       ∧ Sidecar.Scene.name (Sidecar.sceneOf obj)
         = toString (value (toObject (value obj "metadata")) "name")).
Proof.
  split; [exact handleV2SceneResource_named|].
  split; [exact handleV2SceneResource_stores|].
  split.
  - intros resObj s Hnamed. unfold Plugin.onSceneEvent. eexists. split.
    + PluginFacts.act. reflexivity.
    + cbn. intros scene Hin. unfold Plugin.sceneValues in Hin.
      apply list_elem_of_fmap in Hin as ([sceneId scene'] & -> & Hin).
      apply elem_of_map_to_list in Hin.
      by apply (handleV2SceneResource_named resObj _ Hnamed sceneId).
  - intros sceneData obj Hin Hid. split; [|reflexivity].
    apply snapshotScenes_keeps; [exact Hid|by right].
Qed.

(** The stub [namelessScene]: the plugin leaves its table empty, the
    sidecar puts a scene without a name into the snapshot. *)
Lemma scene_name_rule_witness :
  Plugin.allNamed (Plugin.handleV2SceneResource Examples.namelessScene ∅)
  ∧ Sidecar.sceneOf Examples.namelessScene
    ∈ Sidecar.snapshotScenes [JObject Examples.namelessScene]
  ∧ Sidecar.Scene.name (Sidecar.sceneOf Examples.namelessScene) = "".
Proof.
  destruct scene_name_rule as (Hnamed & _ & _ & Hsidecar). split.
  - apply Hnamed. intros sceneId scene Hlook. by rewrite lookup_empty in Hlook.
  - destruct (Hsidecar [JObject Examples.namelessScene] Examples.namelessScene) as [Hin _].
    + by left.
    + discriminate.
    + split; [exact Hin|reflexivity].
Defined.

(** The failing input of C5.  A poll whose scene collection holds the
    stub: the sidecar hands a scene named by the empty string to the host,
    where the plugin stores nothing for the same resource. *)
Lemma sidecar_publishes_nameless_scene :
  Sidecar.sentBy
    (Sidecar.publishSnapshot Examples.acceptAll 0
       (Sidecar.buildSnapshot Examples.noDevices [] [] [] [] [] [] [] [] [] [] []
                              [JObject Examples.namelessScene])
       Sidecar.initial)
  = [Sidecar.ScenesUpdated
       [{| Sidecar.Scene.externalId := "scene-1"; Sidecar.Scene.name := "";
           Sidecar.Scene.scopeExternalId := ""; Sidecar.Scene.scopeType := "";
           Sidecar.Scene.metaJson := Examples.namelessScene |}]]
  ∧ Plugin.handleV2SceneResource Examples.namelessScene ∅ = ∅.
Proof. split; vm_compute; reflexivity. Qed.

End SceneFacts.

Module SyncFacts.
Import Qt QtFacts.

(** ** The same snapshot twice *)

(** C2, as the code has it.  Neither path compares a device with what it
    emitted last.  Sidecar, for passes whose sends the host accepts: a
    pass sends the messages of [snapshotMessages] and leaves
    [publishedState]; publishing the same snapshot again leaves the same
    state and removes nothing, but sends every device update, channel
    value, room, group and scene message again.  Plugin: the device loop
    emits [deviceUpdated] for every device with a non-empty channel list
    whenever no device waits for metadata, reads nothing but the current
    tables and leaves the state as it was, so a repeat emits the same
    list again. *)
Theorem full_sync_repeats_updates :
  (∀ sink ts ts' snapshot s,
     (∀ m, sink m = true) →
     let first := Sidecar.publishSnapshot sink ts snapshot s in
     let second := Sidecar.publishSnapshot sink ts' snapshot (Sidecar.stateOf first) in
     Sidecar.sentBy first = Sidecar.snapshotMessages ts snapshot s
     ∧ Sidecar.stateOf first = Sidecar.publishedState snapshot s
     ∧ Sidecar.stateOf second = Sidecar.stateOf first
     ∧ Sidecar.sentBy second
       = flat_map (Sidecar.deviceMessages ts')
                  (map_to_list (Sidecar.Snapshot.devices snapshot))
         ++ Sidecar.updateMessages Sidecar.RoomUpdated (Sidecar.Snapshot.rooms snapshot)
         ++ Sidecar.updateMessages Sidecar.GroupUpdated (Sidecar.Snapshot.groups snapshot)
         ++ [Sidecar.ScenesUpdated (Sidecar.Snapshot.scenes snapshot)]
     ∧ ∀ key entry,
         Sidecar.Snapshot.devices snapshot !! key = Some entry →
         Sidecar.DeviceUpdated (Sidecar.DeviceEntry.device entry)
                               (Sidecar.DeviceEntry.channels entry)
         ∈ Sidecar.sentBy second)
  ∧ (∀ keys s,
       existsb (Plugin.waitsForMetadata s) keys = false →
       Plugin.emitDevices keys s = (false, s, Plugin.deviceUpdates s keys))
  ∧ (∀ s key channel channels,
       Plugin.m_v2DeviceChannels s !! key = Some (channel :: channels) →
       Plugin.deviceUpdates s [key]
       = [Plugin.deviceUpdated
            (Plugin.deviceForEmission key
               (default Plugin.Device.empty (Plugin.m_v2Devices s !! key)))
            (channel :: channels)]).
Proof.
  split; [|split].
  - intros sink ts ts' snapshot s Haccepts first second. subst first second.
    rewrite !(SidecarFacts.publishSnapshot_accepts sink Haccepts).
    cbn [Sidecar.stateOf Sidecar.sentBy fst snd].
    rewrite SidecarFacts.snapshotMessages_published.
    split; [reflexivity|]. split; [reflexivity|]. split; [reflexivity|].
    split; [reflexivity|].
    intros key entry Hlook. apply elem_of_app. left.
    by apply (SidecarFacts.deviceUpdated_sent ts' _ key).
  - intros keys s. apply PluginFacts.emitDevices_spec.
  - intros s key channel channels Hlook. unfold Plugin.deviceUpdates. cbn [flat_map].
    rewrite Hlook. reflexivity.
Qed.

(** The snapshot with [dev-1] published over a sidecar that holds it. *)
Lemma full_sync_repeats_updates_witness :
  Sidecar.DeviceUpdated (Sidecar.DeviceEntry.device (Examples.lightEntry "dev-1")) [Examples.onChannel]
  ∈ Sidecar.sentBy
      (Sidecar.publishSnapshot Examples.acceptAll 8000 Examples.snapshotOfOne
         (Sidecar.stateOf
            (Sidecar.publishSnapshot Examples.acceptAll 7000 Examples.snapshotOfOne
                                     Examples.sidecarWithTwo)))
  ∧ Plugin.deviceUpdates Examples.adapterKnowingTwo ["dev-1"]
    = [Plugin.deviceUpdated
         (Plugin.deviceForEmission "dev-1"
            (default Plugin.Device.empty
                     (Plugin.m_v2Devices Examples.adapterKnowingTwo !! "dev-1")))
         [Examples.ctChannel]].
Proof.
  destruct full_sync_repeats_updates as (Hsidecar & _ & Hplugin). split.
  - destruct (Hsidecar Examples.acceptAll 7000 8000 Examples.snapshotOfOne
                       Examples.sidecarWithTwo) as (_ & _ & _ & _ & Hsent); [reflexivity|].
    apply (Hsent "dev-1" (Examples.lightEntry "dev-1")). reflexivity.
  - apply (Hplugin Examples.adapterKnowingTwo "dev-1" Examples.ctChannel []). reflexivity.
Defined.

(** C2 as stated fails.  The sidecar holds exactly the devices of the
    snapshot, so nothing differs from what it sent last; publishing the
    snapshot still sends the update of [dev-1] and its channel value. *)
Lemma unchanged_device_updated_again :
  Sidecar.m_devices Examples.sidecarInSync = Sidecar.Snapshot.devices Examples.snapshotOfOne
  ∧ Sidecar.sentBy (Sidecar.publishSnapshot Examples.acceptAll 8000 Examples.snapshotOfOne
                                            Examples.sidecarInSync)
    = [Sidecar.DeviceUpdated (Sidecar.DeviceEntry.device (Examples.lightEntry "dev-1"))
                             [Examples.onChannel];
       Sidecar.ChannelStateUpdated "dev-1" "on" (Sidecar.SBool true) 8000;
       Sidecar.ScenesUpdated []].
Proof. split; [reflexivity|vm_compute; reflexivity]. Qed.

End SyncFacts.

Module CycleFacts.
Import Qt QtFacts.

(** ** Collections that cannot be fetched *)

(** C4, as the code has it.  The two paths follow different policies and
    neither tells core from secondary collections by retrying.  Sidecar:
    when [device], [light], [room], [zone] or [scene] fails, the poll
    returns the error of the first one that failed, sends nothing and
    leaves the state; a failed secondary collection counts as an empty
    array at once, the poll being the one of a bridge that answered it
    with an empty array.  Plugin: a failed snapshot request of any
    collection is asked again after [1000 * n] ms on its n-th failure, for
    n up to 3; the fourth failure records an empty array and marks the
    cycle failed. *)
Theorem snapshot_failure_policy :
  (∀ sink fetchResourceArray snapshotDevices sendErrorText ts s,
     isEmpty (Sidecar.effectiveHost (Sidecar.m_settings s)) = false →
     isEmpty (trimmed (Sidecar.ConnectionSettings.appKey (Sidecar.m_settings s))) = false →
     (∃ resourceType, resourceType ∈ Sidecar.coreTypes
                      ∧ ∃ error, fetchResourceArray resourceType = inl error) →
     ∃ resourceType error,
       resourceType ∈ Sidecar.coreTypes
       ∧ fetchResourceArray resourceType = inl error
       ∧ Sidecar.pollBridge sink fetchResourceArray snapshotDevices sendErrorText ts s
         = ((false, error), s, []))
  ∧ (∀ sink fetchResourceArray snapshotDevices sendErrorText ts s,
       Sidecar.pollBridge sink fetchResourceArray snapshotDevices sendErrorText ts s
       = Sidecar.pollBridge sink (Sidecar.emptyOnFailure fetchResourceArray)
                            snapshotDevices sendErrorText ts s)
  ∧ (∀ rebuild resourceType s,
       resourceType ≠ "" →
       0 ≤ default 0 (Plugin.m_v2ResourceRetryCount s !! resourceType) < 3 →
       Plugin.snapshotRequestFailed rebuild resourceType s
       = (true,
          Plugin.set_m_v2ResourceRetryCount
            (<[resourceType := default 0 (Plugin.m_v2ResourceRetryCount s !! resourceType) + 1]>
               (Plugin.m_v2ResourceRetryCount s))
            (Plugin.set_m_pendingV2ResourceTypes
               (Plugin.m_pendingV2ResourceTypes s ∖ {[resourceType]}) s),
          [Plugin.singleShotSnapshotRequest
             (1000 * (default 0 (Plugin.m_v2ResourceRetryCount s !! resourceType) + 1))
             resourceType]))
  ∧ (∀ rebuild resourceType s,
       3 ≤ default 0 (Plugin.m_v2ResourceRetryCount s !! resourceType) →
       1 < Plugin.m_v2SnapshotPending s →
       Plugin.snapshotRequestFailed rebuild resourceType s
       = (false,
          Plugin.set_m_v2SnapshotPending (Plugin.m_v2SnapshotPending s - 1)
            (Plugin.set_m_v2SnapshotByType
               (<[resourceType := []]> (Plugin.m_v2SnapshotByType s))
               (Plugin.set_m_v2SnapshotFailedThisCycle true
                  (Plugin.set_m_v2ResourceRetryCount
                     (delete resourceType (Plugin.m_v2ResourceRetryCount s))
                     (Plugin.set_m_pendingV2ResourceTypes
                        (Plugin.m_pendingV2ResourceTypes s ∖ {[resourceType]}) s)))),
          [])).
Proof.
  split; [exact SidecarFacts.pollBridge_core_failure|].
  split; [exact SidecarFacts.pollBridge_secondary_failure|].
  split; [exact PluginFacts.snapshotRequestFailed_retries|].
  exact PluginFacts.snapshotRequestFailed_marks.
Qed.

(** A bridge that answers nothing aborts the sidecar's poll; the plugin
    asks for [light] a second time 2000 ms after its second failure. *)
Lemma snapshot_failure_policy_witness :
  (∃ resourceType error,
     resourceType ∈ Sidecar.coreTypes
     ∧ Examples.bridgeDown resourceType = inl error
     ∧ Sidecar.pollBridge Examples.acceptAll Examples.bridgeDown Examples.noDevices "refused"
                          7000 Examples.sidecarConfigured
       = ((false, error), Examples.sidecarConfigured, []))
  ∧ Plugin.effectsOf
      (Plugin.snapshotRequestFailed Plugin.skip "light"
         (Plugin.set_m_v2ResourceRetryCount {["light" := 1]} Examples.cycleStarted))
    = [Plugin.singleShotSnapshotRequest 2000 "light"].
Proof.
  destruct snapshot_failure_policy as (Hcore & _ & Hretry & _). split.
  - apply (Hcore Examples.acceptAll Examples.bridgeDown Examples.noDevices "refused" 7000
                  Examples.sidecarConfigured).
    + reflexivity.
    + reflexivity.
    + exists "device". split; [by left|]. by exists "timeout".
  - rewrite Hretry.
    + reflexivity.
    + discriminate.
    + vm_compute. split; [discriminate|reflexivity].
Defined.

(** C4 as stated fails.  The plugin does not abort a cycle whose [device]
    request fails: it schedules the request again, the cycle keeps its 13
    outstanding collections and is not marked failed.  The sidecar does
    not retry [button]: the poll of a bridge whose [button] collection
    times out completes and reports a full synchronization. *)
Lemma core_failure_retried_not_aborted :
  Plugin.effectsOf
    (Plugin.onNetworkReplyFinished Plugin.skip Examples.noMerge
                                   (Examples.failedReply "device") Examples.cycleStarted)
  = [Plugin.singleShotSnapshotRequest 1000 "device"]
  ∧ Plugin.m_v2SnapshotPending
      (Plugin.stateOf
         (Plugin.onNetworkReplyFinished Plugin.skip Examples.noMerge
                                        (Examples.failedReply "device") Examples.cycleStarted))
    = 13
  ∧ Plugin.m_v2SnapshotFailedThisCycle
      (Plugin.stateOf
         (Plugin.onNetworkReplyFinished Plugin.skip Examples.noMerge
                                        (Examples.failedReply "device") Examples.cycleStarted))
    = false
  ∧ Sidecar.pollBridge Examples.acceptAll Examples.bridgeWithoutButtons Examples.noDevices
                       "refused" 7000 Examples.sidecarConfigured
    = ((true, ""), Sidecar.set_m_connected true Examples.sidecarConfigured,
       [Sidecar.ScenesUpdated []; Sidecar.ConnectionStateChanged true;
        Sidecar.FullSyncCompleted]).
Proof. repeat split; vm_compute; reflexivity. Qed.

(** ** A cycle with a collection that failed for good *)

Lemma rebuild_guarded derive seed flush s :
  Plugin.m_v2BootstrapDone s = true →
  Plugin.buildDevicesFromV2Snapshots derive seed flush s = (tt, s, []).
Proof.
  intros Hdone. unfold Plugin.buildDevicesFromV2Snapshots. PluginFacts.act.
  rewrite Hdone. reflexivity.
Qed.




End CycleFacts.

(* ===================================================================== *)
(** * The helpers of the plugin's anonymous namespace *)
(* ===================================================================== *)

Module StringFacts.
Import Qt.

Lemma trimRight_idem s : trimRight (trimRight s) = trimRight s.
Proof.
  induction s as [|c r IH]; [reflexivity|]. cbn [trimRight].
  destruct (trimRight r) as [|c' r'] eqn:Hr.
  - destruct (isSpace c) eqn:Hc; [reflexivity|]. cbn [trimRight]. by rewrite Hc.
  - cbn [trimRight]. cbn [trimRight] in IH. rewrite IH. reflexivity.
Qed.

Lemma trimLeft_noLeadingSpace s : noLeadingSpace (trimLeft s).
Proof.
  induction s as [|c r IH]; [exact I|]. cbn [trimLeft].
  destruct (isSpace c) eqn:Hc; [exact IH|exact Hc].
Qed.

Lemma trimLeft_id s : noLeadingSpace s → trimLeft s = s.
Proof. destruct s as [|c r]; [reflexivity|]. cbn. by intros ->. Qed.

Lemma trimRight_noLeadingSpace s : noLeadingSpace s → noLeadingSpace (trimRight s).
Proof.
  destruct s as [|c r]; [intros _; exact I|]. cbn [noLeadingSpace trimRight]. intros Hc.
  destruct (trimRight r); [rewrite Hc|]; exact Hc.
Qed.

Lemma trimmed_idem s : trimmed (trimmed s) = trimmed s.
Proof.
  unfold trimmed.
  rewrite (trimLeft_id (trimRight (trimLeft s))).
  - apply trimRight_idem.
  - apply trimRight_noLeadingSpace, trimLeft_noLeadingSpace.
Qed.

(** A text that has [a ++ b] as a part has [a] and [b] as parts. *)
Lemma prefix_app a b : ∀ s,
  String.prefix (a +:+ b) s = true → String.prefix a s = true ∧ containsStr s b = true.
Proof.
  induction a as [|c a IH]; intros s Hp.
  - change ("" +:+ b) with b in Hp. split; [by destruct s|].
    destruct s; cbn [containsStr]; by rewrite Hp.
  - change (String c a +:+ b) with (String c (a +:+ b)) in Hp.
    destruct s as [|d s]; [discriminate|]. cbn [String.prefix] in Hp |- *.
    destruct (ascii_dec c d); [|discriminate].
    destruct (IH s Hp) as [Ha Hb]. split; [exact Ha|].
    cbn [containsStr]. by rewrite Hb, orb_true_r.
Qed.

Lemma containsStr_app s : ∀ a b,
  containsStr s (a +:+ b) = true → containsStr s a = true ∧ containsStr s b = true.
Proof.
  induction s as [|c s IH]; intros a b Hc.
  - cbn [containsStr] in Hc. rewrite orb_false_r in Hc.
    destruct (prefix_app a b "" Hc) as [Ha Hb].
    split; [|exact Hb]. cbn [containsStr]. by rewrite Ha.
  - cbn [containsStr] in Hc. apply orb_true_iff in Hc as [Hp|Hc].
    + destruct (prefix_app a b _ Hp) as [Ha Hb]. split; [|exact Hb].
      cbn [containsStr]. by rewrite Ha.
    + destruct (IH a b Hc) as [Ha Hb]. cbn [containsStr]. by rewrite Ha, Hb, !orb_true_r.
Qed.

Lemma toLowerChar_idem c : toLowerChar (toLowerChar c) = toLowerChar c.
Proof. destruct c as [[] [] [] [] [] [] [] []]; reflexivity. Qed.

Lemma toLower_idem s : toLower (toLower s) = toLower s.
Proof. induction s as [|c s IH]; [reflexivity|]. cbn. by rewrite toLowerChar_idem, IH. Qed.

Lemma toLower_toUpperChar c : toLowerChar (toUpperChar c) = toLowerChar c.
Proof. destruct c as [[] [] [] [] [] [] [] []]; reflexivity. Qed.

Lemma length_toLower s : String.length (toLower s) = String.length s.
Proof. induction s as [|c r IH]; [reflexivity|]. cbn. by rewrite IH. Qed.

Lemma length_replaceChar s a b : String.length (replaceChar s a b) = String.length s.
Proof. induction s as [|c r IH]; [reflexivity|]. cbn. by rewrite IH. Qed.

End StringFacts.

Module JsonFacts.
Import Qt.

Lemma value_missing obj key : contains obj key = false → value obj key = JUndefined.
Proof.
  induction obj as [|[k v] rest IH]; [reflexivity|]. cbn.
  case_bool_decide; [discriminate|]. exact IH.
Qed.

Lemma value_insert_eq obj key v : value (insert obj key v) key = v.
Proof.
  induction obj as [|[k w] rest IH]; cbn.
  - by rewrite bool_decide_eq_true_2.
  - case_bool_decide as Hk; cbn.
    + by rewrite bool_decide_eq_true_2.
    + rewrite bool_decide_eq_false_2 by exact Hk. exact IH.
Qed.

Lemma value_insert_ne obj key key' v :
  key ≠ key' → value (insert obj key v) key' = value obj key'.
Proof.
  intros Hne. induction obj as [|[k w] rest IH]; cbn.
  - by rewrite bool_decide_eq_false_2.
  - case_bool_decide as Hk; cbn.
    + subst k. by rewrite !bool_decide_eq_false_2.
    + case_bool_decide; [reflexivity|exact IH].
Qed.

Lemma insert_not_empty obj key v : objIsEmpty (insert obj key v) = false.
Proof. destruct obj as [|[k w] rest]; cbn; [reflexivity|]. by case_bool_decide. Qed.

End JsonFacts.

Module MetadataFacts.
Import Qt Plugin StringFacts JsonFacts.

(** ** [firstNonEmptyString] *)

(** X1. The text that [firstNonEmptyString] returns has no white space
    at either end: trimming it again changes nothing.  When the object
    has none of the keys, the text is empty. *)
Theorem firstNonEmptyString_trimmed obj keys :
  trimmed (firstNonEmptyString obj keys) = firstNonEmptyString obj keys
  ∧ ((∀ key, key ∈ keys → contains obj key = false) → firstNonEmptyString obj keys = "").
Proof.
  split.
  - induction keys as [|key rest IH]; [reflexivity|]. cbn [firstNonEmptyString].
    destruct (value obj key) as [| | | |text| |nested]; try exact IH.
    + destruct (negb (isEmpty (trimmed text))); [apply trimmed_idem|exact IH].
    + cbn zeta. destruct (negb (isEmpty (trimmed (toString (value nested "value")))));
        [apply trimmed_idem|].
      destruct (negb (isEmpty (trimmed (toString (value nested "name")))));
        [apply trimmed_idem|exact IH].
  - induction keys as [|key rest IH]; intros Hmissing; [reflexivity|].
    cbn [firstNonEmptyString]. rewrite value_missing by (apply Hmissing; by left).
    apply IH. intros k Hk. apply Hmissing. by right.
Qed.

Lemma firstNonEmptyString_trimmed_witness :
  firstNonEmptyString Examples.metaWithServices ["archetype"; "product_name"] = "".
Proof.
  destruct (firstNonEmptyString_trimmed Examples.metaWithServices
              ["archetype"; "product_name"]) as [_ Hmissing].
  apply Hmissing. intros key Hkey.
  apply elem_of_cons in Hkey as [->|Hkey]; [reflexivity|].
  apply list_elem_of_singleton in Hkey as ->. reflexivity.
Defined.

(** ** [buildServiceRefMap], [attachServiceRefs] and [serviceRefFromMeta] *)

Lemma collect_lookup type services : ∀ acc : gmap string (list string),
  type ≠ "" →
  foldl (λ (refs : gmap string (list string)) (val : QJsonValue),
           if negb (isObject val) then refs
           else
             let obj := toObject val in
             let type := toString (value obj "rtype") in
             let rid := toString (value obj "rid") in
             if isEmpty type || isEmpty rid then refs
             else <[type := default [] (refs !! type) ++ [rid]]> refs)
        acc services !! type
  = match serviceRids type services with
    | [] => acc !! type
    | rids => Some (default [] (acc !! type) ++ rids)
    end.
Proof.
  intros acc Htype. revert acc.
  induction services as [|val rest IH]; intros acc; [reflexivity|].
  cbn [foldl]. rewrite IH. unfold serviceRids. cbn [flat_map].
  fold (serviceRids type rest).
  destruct val as [| | | | | |obj]; cbn [isObject negb toObject]; try reflexivity.
  cbn zeta. unfold isEmpty.
  destruct (decide (toString (value obj "rtype") = type)) as [Heq|Hne].
  - rewrite (bool_decide_eq_true_2 _ Heq). rewrite Heq.
    rewrite (bool_decide_eq_false_2 (type = "")) by exact Htype. cbn [orb andb].
    case_bool_decide as Hrid; cbn [negb app].
    + reflexivity.
    + rewrite lookup_insert_eq.
      destruct (serviceRids type rest); cbn [default from_option id app].
      * reflexivity.
      * by rewrite <- app_assoc.
  - rewrite (bool_decide_eq_false_2 _ Hne). cbn [andb app].
    destruct (bool_decide (toString (value obj "rtype") = "") || _); [reflexivity|].
    by rewrite lookup_insert_ne.
Qed.

Lemma collectServiceRefs_lookup type services :
  type ≠ "" →
  collectServiceRefs services !! type
  = match serviceRids type services with [] => None | rids => Some rids end.
Proof.
  intros Htype. unfold collectServiceRefs. rewrite collect_lookup by exact Htype.
  rewrite lookup_empty. by destruct (serviceRids type services).
Qed.

Lemma build_step_eq (map : QJsonObject) (entry : string * list string) :
  match entry.2 with
  | [rid] => insert map entry.1 (JString rid)
  | rids => insert map entry.1 (JArray (JString <$> rids))
  end = insert map entry.1 (refEntry entry.2).
Proof. destruct entry as [k [|rid [|rid' rids]]]; reflexivity. Qed.

Lemma build_preserved key (l : list (string * list string)) : ∀ acc,
  key ∉ l.*1 →
  value (foldl (λ (map : QJsonObject) (entry : string * list string),
                  match entry.2 with
                  | [rid] => insert map entry.1 (JString rid)
                  | rids => insert map entry.1 (JArray (JString <$> rids))
                  end) acc l) key
  = value acc key.
Proof.
  induction l as [|entry rest IH]; intros acc Hkey; [reflexivity|].
  cbn [foldl]. rewrite IH, build_step_eq.
  - apply value_insert_ne. intros Heq. apply Hkey. rewrite <- Heq. by left.
  - intros Hin. apply Hkey. by right.
Qed.

Lemma build_value key rids (l : list (string * list string)) : ∀ acc,
  NoDup l.*1 → (key, rids) ∈ l →
  value (foldl (λ (map : QJsonObject) (entry : string * list string),
                  match entry.2 with
                  | [rid] => insert map entry.1 (JString rid)
                  | rids => insert map entry.1 (JArray (JString <$> rids))
                  end) acc l) key
  = refEntry rids.
Proof.
  induction l as [|entry rest IH]; intros acc Hnodup Hin; [by apply elem_of_nil in Hin|].
  cbn [foldl]. apply NoDup_cons in Hnodup as [Hfresh Hnodup].
  apply elem_of_cons in Hin as [<-|Hin].
  - rewrite build_preserved by exact Hfresh. rewrite build_step_eq. apply value_insert_eq.
  - by apply IH.
Qed.

Lemma build_not_empty (l : list (string * list string)) : ∀ acc,
  (l ≠ [] ∨ objIsEmpty acc = false) →
  objIsEmpty (foldl (λ (map : QJsonObject) (entry : string * list string),
                       match entry.2 with
                       | [rid] => insert map entry.1 (JString rid)
                       | rids => insert map entry.1 (JArray (JString <$> rids))
                       end) acc l) = false.
Proof.
  induction l as [|entry rest IH]; intros acc Hne.
  - by destruct Hne.
  - cbn [foldl]. apply IH. right. rewrite build_step_eq. apply insert_not_empty.
Qed.

Lemma firstRefOf_entry rids :
  match refEntry rids with
  | JString s => let text := trimmed s in if negb (isEmpty text) then text else ""
  | JArray arr => firstRefOf arr
  | _ => ""
  end = firstRefOf (JString <$> rids).
Proof. destruct rids as [|rid [|rid' rids]]; reflexivity. Qed.

(** X2. Round trip of the service references.  When the [services] of a
    device's metadata name at least one service of a type, then after
    [attachServiceRefs] the lookup [serviceRefFromMeta] of that type gives
    the first of their resource ids that is not blank, trimmed, in the
    order of the [services] array; whatever [serviceRefs] the metadata
    held before is replaced. *)
Theorem service_ref_round_trip meta type :
  type ≠ "" →
  serviceRids type (toArray (value meta "services")) ≠ [] →
  serviceRefFromMeta (attachServiceRefs meta) type
  = firstRefOf (JString <$> serviceRids type (toArray (value meta "services"))).
Proof.
  intros Htype Hrids.
  pose proof (collectServiceRefs_lookup type (toArray (value meta "services")) Htype) as Hl.
  destruct (serviceRids type (toArray (value meta "services"))) as [|rid rids] eqn:Heq;
    [done|].
  unfold attachServiceRefs.
  destruct (toArray (value meta "services")) as [|service services] eqn:Hservices;
    [discriminate|].
  rewrite <- Hservices in *. unfold buildServiceRefMap.
  apply elem_of_map_to_list in Hl as Hin.
  rewrite build_not_empty.
  2:{ left. intros Hnil. rewrite Hnil in Hin. by apply elem_of_nil in Hin. }
  unfold serviceRefFromMeta. rewrite value_insert_eq. cbn [toObject].
  rewrite build_not_empty.
  2:{ left. intros Hnil. rewrite Hnil in Hin. by apply elem_of_nil in Hin. }
  rewrite (build_value type (rid :: rids)); [|apply NoDup_fst_map_to_list|exact Hin].
  apply firstRefOf_entry.
Qed.

Lemma service_ref_round_trip_witness :
  serviceRefFromMeta (attachServiceRefs Examples.metaWithServices) "light" = "light-1".
Proof.
  rewrite (service_ref_round_trip Examples.metaWithServices "light").
  - reflexivity.
  - discriminate.
  - discriminate.
Defined.

(** ** [deviceSoftwareUpdateStatusFromString] and its inverse *)

(** X3. Reading back the text of a software-update status gives the
    status again, except for [UpdateAvailable], whose text is read as
    [UpToDate]: every text that has [update] in it, in any case, has [up]
    and [date] in it, which the parser tests first.  The parser ignores
    the case of its text. *)
Theorem software_update_status_texts :
  (∀ status,
     deviceSoftwareUpdateStatusFromString (deviceSoftwareUpdateStatusToString status)
     = match status with
       | DeviceSoftwareUpdateStatus.UpdateAvailable => DeviceSoftwareUpdateStatus.UpToDate
       | _ => status
       end)
  ∧ (∀ text,
       containsStr (toLower text) "update" = true →
       deviceSoftwareUpdateStatusFromString text = DeviceSoftwareUpdateStatus.UpToDate)
  ∧ (∀ text,
       deviceSoftwareUpdateStatusFromString (toLower text)
       = deviceSoftwareUpdateStatusFromString text).
Proof.
  split; [|split].
  - intros []; vm_compute; reflexivity.
  - intros text Hupdate. unfold deviceSoftwareUpdateStatusFromString.
    destruct (containsStr_app (toLower text) "up" "date" Hupdate) as [-> ->]. reflexivity.
  - intros text. unfold deviceSoftwareUpdateStatusFromString. by rewrite toLower_idem.
Qed.

Lemma software_update_status_texts_witness :
  deviceSoftwareUpdateStatusFromString "update_pending"
  = DeviceSoftwareUpdateStatus.UpToDate.
Proof.
  destruct software_update_status_texts as (_ & Hupdate & _).
  apply Hupdate. reflexivity.
Defined.

(** ** [classifyDeviceString] and [applyDeviceClassFromMetadata] *)

Lemma classify_range text :
  classifyDeviceString text ∈ [ClassUnknown; ClassPlug; ClassSensor; ClassSwitch; ClassGateway].
Proof.
  unfold classifyDeviceString.
  repeat match goal with |- context [if ?b then _ else _] => destruct b end;
    repeat (first [by left | right]).
Qed.

Lemma applyFirstClass_first device before text after :
  Forall (λ text, classifyDeviceString text = ClassUnknown) before →
  classifyDeviceString text ≠ ClassUnknown →
  applyFirstClass device (before ++ text :: after)
  = match Device.deviceClass device with
    | ClassUnknown | ClassLight => withDeviceClass (classifyDeviceString text) device
    | _ => device
    end.
Proof.
  intros Hbefore Htext. induction Hbefore as [|other rest Hother _ IH].
  - cbn [app applyFirstClass]. by destruct (classifyDeviceString text).
  - cbn [app applyFirstClass]. by rewrite Hother.
Qed.

Lemma applyFirstClass_cases device candidates :
  applyFirstClass device candidates = device
  ∨ ∃ text, text ∈ candidates ∧ classifyDeviceString text ≠ ClassUnknown
      ∧ applyFirstClass device candidates = withDeviceClass (classifyDeviceString text) device
      ∧ Device.deviceClass device ∈ [ClassUnknown; ClassLight].
Proof.
  induction candidates as [|text rest IH]; [by left|].
  cbn [applyFirstClass].
  destruct (classifyDeviceString text) eqn:Hclass;
    try (destruct IH as [IH|(other & Hin & Hother & Heq & Hdev)];
         [by left|right; exists other; by repeat split; [right|..]]);
    (destruct (Device.deviceClass device) eqn:Hdev; try (by left);
     right; exists text; rewrite Hclass; repeat split; try done; try (by left);
     repeat (first [by left|right])).
Qed.

(** X5. [applyDeviceClassFromMetadata] changes nothing of a device but
    its class, and the class only when it is [Unknown] or [Light]; the
    new class is [Plug], [Sensor], [Switch] or [Gateway], the one of the
    first text that classifies among the product archetype, the product
    name, the archetype and the name of the metadata, in this order. *)
Theorem device_class_from_metadata device metaObj productObj :
  let result := applyDeviceClassFromMetadata device metaObj productObj in
  let candidates :=
    [toString (value productObj "product_archetype");
     toString (value productObj "product_name");
     toString (value metaObj "archetype");
     toString (value metaObj "name")] in
  withDeviceClass (Device.deviceClass device) result
  = withDeviceClass (Device.deviceClass device) device
  ∧ (Device.deviceClass device ∉ [ClassUnknown; ClassLight] → result = device)
  ∧ (Device.deviceClass result = Device.deviceClass device
     ∨ Device.deviceClass result ∈ [ClassPlug; ClassSensor; ClassSwitch; ClassGateway])
  ∧ (∀ before text after,
       candidates = before ++ text :: after →
       Forall (λ text, classifyDeviceString text = ClassUnknown) before →
       classifyDeviceString text ≠ ClassUnknown →
       Device.deviceClass device ∈ [ClassUnknown; ClassLight] →
       Device.deviceClass result = classifyDeviceString text).
Proof.
  intros result candidates. subst result. unfold applyDeviceClassFromMetadata.
  fold candidates. repeat split.
  - destruct (applyFirstClass_cases device candidates) as [->|(text & _ & _ & -> & _)];
      reflexivity.
  - intros Hclass.
    destruct (applyFirstClass_cases device candidates) as [->|(text & _ & _ & _ & Hdev)];
      [reflexivity|by destruct Hclass].
  - destruct (applyFirstClass_cases device candidates) as [->|(text & _ & Htext & -> & _)];
      [by left|right]. cbn [withDeviceClass Device.deviceClass].
    pose proof (classify_range text) as Hrange.
    apply elem_of_cons in Hrange as [Hu|Hrange]; [done|exact Hrange].
  - intros before text after -> Hbefore Htext Hdev.
    rewrite (applyFirstClass_first device before text after Hbefore Htext).
    apply elem_of_cons in Hdev as [->|Hdev]; [reflexivity|].
    apply list_elem_of_singleton in Hdev as ->. reflexivity.
Qed.

Lemma device_class_from_metadata_witness :
  Device.deviceClass
    (applyDeviceClassFromMetadata Examples.lampDevice Examples.metaWithServices
                                  Examples.plugProduct)
  = ClassPlug.
Proof.
  destruct (device_class_from_metadata Examples.lampDevice Examples.metaWithServices
              Examples.plugProduct) as (_ & _ & _ & Hfirst).
  apply (Hfirst [""] "Hue Smart Plug" ["";  "Desk"]).
  - reflexivity.
  - repeat constructor.
  - discriminate.
  - right. by left.
Defined.

End MetadataFacts.

Module EffectFacts.
Import Qt Plugin StringFacts JsonFacts.

(** ** [mapHueEffectName] and [hueEffectNameForDeviceEffect] *)

(** X4. No effect name of the bridge is mapped to [Concentrate] or
    [Alarm], although both have a name: [enchant] and [prism] are read
    back as [Sparkle].  The other named effects are read back as
    themselves, and the case of a name does not matter. *)
Theorem effect_names_round_trip :
  (∀ name,
     mapHueEffectName name ≠ DeviceEffect.Concentrate
     ∧ mapHueEffectName name ≠ DeviceEffect.Alarm
     ∧ mapHueEffectName name ≠ DeviceEffect.Other)
  ∧ (∀ effect,
       mapHueEffectName (hueEffectNameForDeviceEffect effect)
       = match effect with
         | DeviceEffect.Concentrate | DeviceEffect.Alarm => DeviceEffect.Sparkle
         | DeviceEffect.Other => DeviceEffect.CustomVendor
         | _ => effect
         end)
  ∧ (∀ name, mapHueEffectName (toLower name) = mapHueEffectName name).
Proof.
  split; [|split].
  - intros name. unfold mapHueEffectName.
    repeat match goal with |- context [if ?b then _ else _] => destruct b end;
      repeat split; discriminate.
  - intros []; vm_compute; reflexivity.
  - intros name. unfold mapHueEffectName. by rewrite toLower_idem.
Qed.

(** ** [beautifyHueEffectLabel] *)

Lemma toLower_capitalizeWords lower : ∀ afterSpace,
  toLower (capitalizeWords afterSpace lower) = toLower lower.
Proof.
  induction lower as [|c r IH]; intros afterSpace; [reflexivity|].
  cbn [capitalizeWords toLower]. rewrite IH.
  destruct afterSpace; [by rewrite toLower_toUpperChar|reflexivity].
Qed.

Lemma length_capitalizeWords lower : ∀ afterSpace,
  String.length (capitalizeWords afterSpace lower) = String.length lower.
Proof. induction lower as [|c r IH]; intros afterSpace; [reflexivity|]. cbn. by rewrite IH. Qed.

Lemma normalize_capitalized_char c (upper : bool) :
  let normal c := toLowerChar (if Ascii.eqb (if Ascii.eqb c "_" then " " else c) "-"
                               then " " else if Ascii.eqb c "_" then " " else c)%char in
  normal (if upper then toUpperChar (normal c) else normal c) = normal c.
Proof. destruct upper, c as [[] [] [] [] [] [] [] []]; reflexivity. Qed.

Lemma normalize_capitalized effect : ∀ afterSpace,
  toLower (replaceChar (replaceChar
     (capitalizeWords afterSpace
        (toLower (replaceChar (replaceChar effect "_" " ") "-" " "))) "_" " ") "-" " ")
  = toLower (replaceChar (replaceChar effect "_" " ") "-" " ").
Proof.
  induction effect as [|c r IH]; intros afterSpace; [reflexivity|].
  cbn [replaceChar toLower capitalizeWords]. rewrite IH. f_equal.
  apply (normalize_capitalized_char c afterSpace).
Qed.

(** X6. The label of an effect whose name is ASCII text is as long as
    the name and reads as the name: in lower case it is the name in lower
    case with [_] and [-] replaced by blanks.  Labelling a label changes
    nothing. *)
Theorem effect_label_reads_as_name effect :
  isAsciiText effect = true →
  String.length (beautifyHueEffectLabel effect) = String.length effect
  ∧ toLower (beautifyHueEffectLabel effect)
    = toLower (replaceChar (replaceChar effect "_" " ") "-" " ")
  ∧ beautifyHueEffectLabel (beautifyHueEffectLabel effect) = beautifyHueEffectLabel effect.
Proof.
  intros _. unfold beautifyHueEffectLabel at 1 2 4.
  destruct (isEmpty effect) eqn:Hempty.
  { unfold isEmpty in Hempty. apply bool_decide_eq_true in Hempty as ->. by repeat split. }
  assert (String.length (capitalizeWords true
            (toLower (replaceChar (replaceChar effect "_" " ") "-" " ")))
          = String.length effect) as Hlen.
  { by rewrite length_capitalizeWords, length_toLower, !length_replaceChar. }
  repeat split; [exact Hlen|..].
  - by rewrite toLower_capitalizeWords, toLower_idem.
  - unfold beautifyHueEffectLabel. rewrite Hempty.
    destruct (isEmpty (capitalizeWords true _)) eqn:Hempty'; [reflexivity|].
    by rewrite normalize_capitalized.
Qed.

(** The bridge's [sun-beam_glow] is shown as [Sun Beam Glow]. *)
Lemma effect_label_reads_as_name_witness :
  String.length (beautifyHueEffectLabel "sun-beam_glow") = 13%nat
  ∧ toLower (beautifyHueEffectLabel "sun-beam_glow") = "sun beam glow"
  ∧ beautifyHueEffectLabel "sun-beam_glow" = "Sun Beam Glow".
Proof.
  destruct (effect_label_reads_as_name "sun-beam_glow") as (Hlen & Hlower & _);
    [reflexivity|].
  split; [exact Hlen|]. split; [exact Hlower|reflexivity].
Defined.

(** ** [applyHueEffects] *)

Lemma seenEffects_fold effects : ∀ seen key,
  key ∈ foldl (λ (seen : gset string) existing,
                 {[toLower (DeviceEffectDescriptor.label existing)]}
                 ∪ ({[toLower (DeviceEffectDescriptor.id existing)]} ∪ seen))
              seen effects
  ↔ key ∈ seen
    ∨ ∃ d, d ∈ effects
        ∧ (key = toLower (DeviceEffectDescriptor.id d)
           ∨ key = toLower (DeviceEffectDescriptor.label d)).
Proof.
  induction effects as [|e effects IH]; intros seen key; cbn [foldl].
  - split; [by left|]. intros [H|(d & Hd & _)]; [exact H|]. by apply elem_of_nil in Hd.
  - rewrite IH. rewrite !elem_of_union, !elem_of_singleton. split.
    + intros [[Hl|[Hi|Hs]]|(d & Hd & Hkey)].
      * right. exists e. split; [left|by right].
      * right. exists e. split; [left|by left].
      * by left.
      * right. exists d. split; [by right|exact Hkey].
    + intros [Hs|(d & Hd & Hkey)]; [left; right; by right|].
      apply elem_of_cons in Hd as [->|Hd].
      * left. destruct Hkey as [->| ->]; [right; by left|by left].
      * right. by exists d.
Qed.

Lemma elem_of_seenEffects effects key :
  key ∈ seenEffects effects
  ↔ ∃ d, d ∈ effects
      ∧ (key = toLower (DeviceEffectDescriptor.id d)
         ∨ key = toLower (DeviceEffectDescriptor.label d)).
Proof.
  unfold seenEffects. rewrite seenEffects_fold. split; [|by right].
  intros [H|H]; [by apply elem_of_empty in H|exact H].
Qed.

Lemma addEffectsFromArray_cons category val array acc :
  addEffectsFromArray category (val :: array) acc
  = addEffectsFromArray category array (addEffectsFromArray category [val] acc).
Proof. reflexivity. Qed.

Lemma addEffect_registered effects category acc added val :
  registered effects acc added →
  ∃ added', registered effects (addEffectsFromArray category [val] acc) added'.
Proof.
  intros (Hlist & Hseen & Hfresh & Hnew).
  unfold addEffectsFromArray. cbn [foldl].
  destruct val as [| | | | s | |]; try (by exists added).
  cbv zeta. destruct (isEmpty (trimmed s)) eqn:Hempty; [by exists added|].
  destruct (bool_decide (toLower (trimmed s) = "no_effect")) eqn:Hno; [by exists added|].
  destruct (bool_decide (toLower (trimmed s) ∈ acc.1)) eqn:Hin; [by exists added|].
  apply bool_decide_eq_false in Hno, Hin.
  unfold isEmpty in Hempty. apply bool_decide_eq_false in Hempty.
  eexists (added ++ [_]). repeat apply conj; cbn [fst snd].
  - by rewrite Hlist, app_assoc.
  - intros key. rewrite elem_of_union, elem_of_singleton, Hseen, fmap_app, elem_of_app.
    cbn [fmap list_fmap compose DeviceEffectDescriptor.id].
    rewrite list_elem_of_singleton. tauto.
  - rewrite fmap_app. apply NoDup_app. split; [exact Hfresh|]. split.
    + intros key Hkey Hnew'. cbn in Hnew'. apply list_elem_of_singleton in Hnew' as ->.
      apply Hin, Hseen. by right.
    + cbn. apply NoDup_singleton.
  - intros d Hd. apply elem_of_app in Hd as [Hd|Hd]; [by apply Hnew|].
    apply list_elem_of_singleton in Hd as ->.
    cbn [DeviceEffectDescriptor.id DeviceEffectDescriptor.meta].
    repeat split; try done.
    intros Hseen'. apply Hin, Hseen. by left.
Qed.

Lemma addEffectsFromArray_registered effects category array : ∀ acc added,
  registered effects acc added →
  ∃ added', registered effects (addEffectsFromArray category array acc) added'.
Proof.
  induction array as [|val array IH]; intros acc added Hreg; [by exists added|].
  rewrite addEffectsFromArray_cons.
  destruct (addEffect_registered effects category acc added val Hreg) as [added' Hreg'].
  by apply (IH _ added').
Qed.

(** Seen keys stay seen, and the keys of an array are all seen once it
    is processed. *)
Lemma addEffectsFromArray_grows category array : ∀ acc key,
  key ∈ acc.1 → key ∈ (addEffectsFromArray category array acc).1.
Proof.
  induction array as [|val array IH]; intros acc key Hkey; [exact Hkey|].
  rewrite addEffectsFromArray_cons. apply IH.
  unfold addEffectsFromArray. cbn [foldl].
  destruct val as [| | | | s | |]; try exact Hkey.
  cbv zeta. repeat case_match; try exact Hkey.
  cbn [fst]. apply elem_of_union. by right.
Qed.

Lemma addEffectsFromArray_sees category array : ∀ acc key,
  key ∈ effectKeys array → key ∈ (addEffectsFromArray category array acc).1.
Proof.
  induction array as [|val array IH]; intros acc key Hkey.
  - by apply elem_of_nil in Hkey.
  - rewrite addEffectsFromArray_cons. unfold effectKeys in Hkey. cbn [flat_map] in Hkey.
    apply elem_of_app in Hkey as [Hkey|Hkey]; [|by apply IH].
    apply addEffectsFromArray_grows.
    unfold addEffectsFromArray. cbn [foldl].
    destruct val as [| | | | s | |]; try (by apply elem_of_nil in Hkey).
    cbv zeta in Hkey |- *.
    destruct (isEmpty (trimmed s)); [by apply elem_of_nil in Hkey|].
    destruct (bool_decide (toLower (trimmed s) = "no_effect"));
      [by apply elem_of_nil in Hkey|].
    cbn [orb] in Hkey. apply list_elem_of_singleton in Hkey as ->.
    destruct (bool_decide (toLower (trimmed s) ∈ acc.1)) eqn:Hin.
    + by apply bool_decide_eq_true in Hin.
    + cbn [fst]. apply elem_of_union. left. by apply elem_of_singleton.
Qed.

(** An array whose keys are all seen adds nothing. *)
Lemma addEffectsFromArray_seen category array : ∀ acc,
  (∀ key, key ∈ effectKeys array → key ∈ acc.1) →
  addEffectsFromArray category array acc = acc.
Proof.
  induction array as [|val array IH]; intros acc Hkeys; [reflexivity|].
  rewrite addEffectsFromArray_cons.
  assert (addEffectsFromArray category [val] acc = acc) as ->.
  { unfold addEffectsFromArray. cbn [foldl].
    destruct val as [| | | | s | |]; try reflexivity.
    cbv zeta. destruct (isEmpty (trimmed s)) eqn:Hempty; [reflexivity|].
    destruct (bool_decide (toLower (trimmed s) = "no_effect")) eqn:Hno; [reflexivity|].
    rewrite bool_decide_eq_true_2; [reflexivity|].
    apply Hkeys. unfold effectKeys. cbn [flat_map]. cbv zeta. rewrite Hempty, Hno.
    cbn [orb app]. by left. }
  apply IH. intros key Hkey. apply Hkeys. unfold effectKeys. cbn [flat_map].
  apply elem_of_app. by right.
Qed.

(** X7. [applyHueEffects] keeps the effects a device has and appends
    new ones.  Each new effect has a name that is not empty and is not
    [no_effect]; compared without case, the names of the new effects
    differ from each other and from the names and labels of the effects
    the device had; the name is kept in the metadata of the effect.
    Applying the same light resource again adds nothing. *)
Theorem hue_effects_registered_once effects source :
  ∃ added,
    applyHueEffects effects source = effects ++ added
    ∧ NoDup ((toLower ∘ DeviceEffectDescriptor.id) <$> added)
    ∧ (∀ d, d ∈ added →
         DeviceEffectDescriptor.id d ≠ ""
         ∧ toLower (DeviceEffectDescriptor.id d) ≠ "no_effect"
         ∧ (toLower (DeviceEffectDescriptor.id d) ∉ seenEffects effects)
         ∧ value (DeviceEffectDescriptor.meta d) "hueEffect"
           = JString (DeviceEffectDescriptor.id d))
    ∧ applyHueEffects (effects ++ added) source = effects ++ added.
Proof.
  unfold applyHueEffects. destruct (objIsEmpty source) eqn:Hempty.
  { exists []. rewrite app_nil_r. repeat apply conj; [reflexivity|apply NoDup_nil_2|..].
    - intros d Hd. by apply elem_of_nil in Hd.
    - reflexivity. }
  cbv zeta.
  set (effectsArr := toArray (value (toObject (value source "effects")) "effect_values")).
  set (v2ActionArr :=
         toArray (value (toObject (value (toObject (value source "effects_v2")) "action"))
                        "effect_values")).
  set (timedArr := toArray (value (toObject (value source "timed_effects")) "effect_values")).
  assert (registered effects (seenEffects effects, effects) []) as Hstart.
  { repeat apply conj; cbn [fst snd].
    - by rewrite app_nil_r.
    - intros key. split; [by left|]. intros [H|H]; [exact H|by apply elem_of_nil in H].
    - apply NoDup_nil_2.
    - intros d Hd. by apply elem_of_nil in Hd. }
  destruct (addEffectsFromArray_registered effects "effects" effectsArr _ _ Hstart)
    as [added1 Hreg1].
  destruct (addEffectsFromArray_registered effects "effects" v2ActionArr _ _ Hreg1)
    as [added2 Hreg2].
  destruct (addEffectsFromArray_registered effects "timed_effects" timedArr _ _ Hreg2)
    as [added Hreg].
  set (first := addEffectsFromArray "effects" effectsArr (seenEffects effects, effects))
    in *.
  set (second := addEffectsFromArray "effects" v2ActionArr first) in *.
  set (third := addEffectsFromArray "timed_effects" timedArr second) in *.
  destruct Hreg as (Hlist & Hseen & Hfresh & Hnew).
  exists added. repeat apply conj; [exact Hlist|exact Hfresh|exact Hnew|].
  assert (∀ key, key ∈ third.1 → key ∈ seenEffects (effects ++ added)) as Hall.
  { intros key Hkey. apply Hseen in Hkey as [Hkey|Hkey].
    - apply elem_of_seenEffects in Hkey as (d & Hd & Hkey).
      apply elem_of_seenEffects. exists d. split; [|exact Hkey].
      apply elem_of_app. by left.
    - apply list_elem_of_fmap in Hkey as (d & -> & Hd).
      apply elem_of_seenEffects. exists d. split; [apply elem_of_app; by right|by left]. }
  rewrite (addEffectsFromArray_seen "effects" effectsArr).
  2:{ cbn [fst]. intros key Hkey. apply Hall.
      do 2 apply addEffectsFromArray_grows. by apply addEffectsFromArray_sees. }
  rewrite (addEffectsFromArray_seen "effects" v2ActionArr).
  2:{ cbn [fst]. intros key Hkey. apply Hall.
      apply addEffectsFromArray_grows. by apply addEffectsFromArray_sees. }
  rewrite (addEffectsFromArray_seen "timed_effects" timedArr); [reflexivity|].
  cbn [fst]. intros key Hkey. apply Hall. by apply addEffectsFromArray_sees.
Qed.

End EffectFacts.

(* ===================================================================== *)
(** * More of the plugin: emission, delete events, owners, writes *)
(* ===================================================================== *)

Module EmissionFacts.
Import Qt Plugin PluginFacts.

Lemma sameTables_refl s : sameTables s s.
Proof. by repeat split. Qed.

Lemma sameTables_trans s1 s2 s3 : sameTables s1 s2 → sameTables s2 s3 → sameTables s1 s3.
Proof.
  intros (a1 & a2 & a3 & a4 & a5 & a6) (b1 & b2 & b3 & b4 & b5 & b6).
  repeat split; congruence.
Qed.

Lemma fetch_cases id s :
  fetchV2DeviceResource id s = (tt, s, [])
  ∨ fetchV2DeviceResource id s
    = (tt, set_m_v2DeviceFetchQueue (m_v2DeviceFetchQueue s ++ [id]) s, [])
  ∨ fetchV2DeviceResource id s
    = (tt, set_m_pendingV2DeviceFetch ({[id]} ∪ m_pendingV2DeviceFetch s) s,
       [networkGet ("device/" +:+ id)]).
Proof.
  unfold fetchV2DeviceResource. act.
  destruct (negb (m_nam s) || isEmpty id); [by left|].
  destruct (bool_decide (id ∈ m_failedV2DeviceFetch s)); [by left|].
  destruct (bool_decide (id ∈ m_pendingV2DeviceFetch s)); [by left|].
  destruct (bool_decide (id ∈ m_v2DeviceFetchQueue s)); [by left|].
  destruct (_ <=? _)%nat; [right; left; reflexivity|].
  rewrite run_bind. destruct (start_spec id s) as [(Hr & Hs & He)|(Hr & Hs & He)];
    rewrite Hs, He; act; [by left|by right; right].
Qed.

Lemma fetch_sameTables id s : sameTables s (stateOf (fetchV2DeviceResource id s)).
Proof.
  destruct (fetch_cases id s) as [->|[->| ->]]; by repeat split.
Qed.

Lemma waitsForMetadata_same s s' key :
  sameTables s s' → waitsForMetadata s' key = waitsForMetadata s key.
Proof. intros (H1 & H2 & _). unfold waitsForMetadata. by rewrite H1, H2. Qed.

Lemma deviceForEmission_complete key device :
  objIsEmpty (Device.meta device) = false →
  Device.name (deviceForEmission key device) ≠ ""
  ∧ objIsEmpty (Device.meta (deviceForEmission key device)) = false
  ∧ (Device.id (deviceForEmission key device) = "" → key = "").
Proof.
  intros Hmeta. unfold deviceForEmission.
  set (d := if isEmpty (Device.id device) then Device.set_id key device else device).
  assert (Device.meta d = Device.meta device) as Hm.
  { subst d. by destruct (isEmpty (Device.id device)). }
  assert (Device.id d = "" → key = "") as Hid.
  { subst d. unfold isEmpty. case_bool_decide as Hi; cbn; [done|]. intros ?. done. }
  destruct (isEmpty (Device.name d)) eqn:Hname.
  - cbv zeta. rewrite Hm.
    destruct (negb (isEmpty (toString (value (toObject (value (Device.meta device) "metadata"))
                                             "name")))) eqn:E1;
      [|destruct (negb (isEmpty (toString
                   (value (toObject (value (Device.meta device) "product_data"))
                          "product_name")))) eqn:E2];
      cbn [Device.set_name Device.name Device.meta Device.id]; rewrite ?Hm;
      (split; [|split; [exact Hmeta|exact Hid]]).
    + apply negb_true_iff in E1. unfold isEmpty in E1. by apply bool_decide_eq_false in E1.
    + apply negb_true_iff in E2. unfold isEmpty in E2. by apply bool_decide_eq_false in E2.
    + discriminate.
  - rewrite Hm. unfold isEmpty in Hname. by apply bool_decide_eq_false in Hname.
Qed.

Lemma completeUpdate_mono s keys keys' e :
  (∀ key, key ∈ keys → key ∈ keys') → completeUpdate s keys e → completeUpdate s keys' e.
Proof.
  intros Hsub. destruct e; cbn; try done.
  - intros (H1 & H2 & H3 & key & Hk & H4). repeat split; try done. exists key. split; [by apply Hsub|done].
  - intros (key & Hk & H4). exists key. split; [by apply Hsub|done].
Qed.

Lemma emitDeviceIfComplete_complete key s :
  Forall (completeUpdate s [key]) (effectsOf (emitDeviceIfComplete key s))
  ∧ resultOf (emitDeviceIfComplete key s) = waitsForMetadata s key
  ∧ sameTables s (stateOf (emitDeviceIfComplete key s)).
Proof.
  unfold emitDeviceIfComplete. act.
  destruct (default [] (m_v2DeviceChannels s !! key)) as [|c cs] eqn:Hch.
  { act. split; [constructor|]. split; [|apply sameTables_refl].
    unfold waitsForMetadata. by rewrite Hch. }
  assert (m_v2DeviceChannels s !! key = Some (c :: cs)) as Hlook.
  { destruct (m_v2DeviceChannels s !! key); [cbn in Hch; by subst|discriminate]. }
  destruct (objIsEmpty _) eqn:Hmeta.
  - rewrite run_bind. act. rewrite app_nil_r.
    assert (waitsForMetadata s key = true) as Hwait.
    { unfold waitsForMetadata. by rewrite Hch. }
    split; [|split; [by rewrite Hwait|apply fetch_sameTables]].
    destruct (fetch_cases key s) as [->|[->| ->]]; cbn [effectsOf snd]; repeat constructor.
    exists key. split; [by left|done].
  - act. assert (waitsForMetadata s key = false) as Hwait.
    { unfold waitsForMetadata. by rewrite Hch. }
    split; [|split; [by rewrite Hwait|apply sameTables_refl]].
    destruct (deviceForEmission_complete key
                (default Device.empty (m_v2Devices s !! key)) Hmeta) as (Hn & Hm & Hi).
    repeat constructor; try done.
    exists key. split; [by left|done].
Qed.

Lemma emitDevices_complete keys s :
  Forall (completeUpdate s keys) (effectsOf (emitDevices keys s))
  ∧ resultOf (emitDevices keys s) = existsb (waitsForMetadata s) keys
  ∧ sameTables s (stateOf (emitDevices keys s)).
Proof.
  revert s. induction keys as [|key keys IH]; intros s; cbn [emitDevices existsb].
  - split; [constructor|]. split; [reflexivity|apply sameTables_refl].
  - destruct (emitDeviceIfComplete_complete key s) as (He & Hr & Hs).
    rewrite run_bind, run_bind. act. rewrite app_nil_r.
    set (s1 := stateOf (emitDeviceIfComplete key s)) in *.
    destruct (IH s1) as (He' & Hr' & Hs'). split; [|split].
    + apply Forall_app. split.
      * eapply Forall_impl; [exact He|]. intros e. apply completeUpdate_mono.
        intros k Hk. apply list_elem_of_singleton in Hk as ->. by left.
      * eapply Forall_impl; [exact He'|]. intros e Hc.
        apply (completeUpdate_mono s keys); [intros k Hk; by right|].
        pose proof (λ k, waitsForMetadata_same s s1 k Hs) as Hwait.
        destruct Hs as (Hd & Hc' & _). destruct e; cbn in Hc |- *; try done.
        -- destruct Hc as (H1 & H2 & H3 & k & Hk & H4 & H5 & H6).
           repeat split; try done. exists k. repeat split; try done; [by rewrite <- Hc'|].
           by rewrite <- Hwait.
        -- destruct Hc as (k & Hk & H4 & H5). exists k. repeat split; try done.
           by rewrite <- Hwait.
    + rewrite Hr, Hr'. f_equal. clear -Hs. induction keys as [|k keys IH]; [reflexivity|].
      cbn [existsb]. by rewrite IH, (waitsForMetadata_same s s1).
    + by apply (sameTables_trans s s1).
Qed.


(** X8. Every device that the device loop of a rebuild hands over has
    channels, metadata and a name, and an id unless its key is empty; a
    device with channels but without metadata is not handed over, its
    metadata is asked for instead.  The loop produces nothing else,
    reports whether a device waits for metadata, and leaves the device
    tables and the known ids as they are. *)
Theorem emitted_devices_complete keys s :
  let run := emitDevices keys s in
  (∀ device channels,
     deviceUpdated device channels ∈ effectsOf run →
     channels ≠ [] ∧ Device.name device ≠ ""
     ∧ objIsEmpty (Device.meta device) = false
     ∧ ∃ key, key ∈ keys
              ∧ m_v2DeviceChannels s !! key = Some channels
              ∧ waitsForMetadata s key = false
              ∧ (Device.id device = "" → key = ""))
  ∧ (∀ e, e ∈ effectsOf run →
       (∃ device channels, e = deviceUpdated device channels)
       ∨ ∃ key, key ∈ keys ∧ waitsForMetadata s key = true
                ∧ e = networkGet ("device/" +:+ key))
  ∧ resultOf run = existsb (waitsForMetadata s) keys
  ∧ m_v2Devices (stateOf run) = m_v2Devices s
  ∧ m_v2DeviceChannels (stateOf run) = m_v2DeviceChannels s
  ∧ m_knownDeviceExternalIds (stateOf run) = m_knownDeviceExternalIds s.
Proof.
  intros run. subst run.
  destruct (emitDevices_complete keys s) as (He & Hr & Hd & Hc & _ & Hk & _).
  rewrite Forall_forall in He.
  split; [|split; [|by repeat split]].
  - intros device channels Hin. exact (He _ Hin).
  - intros e Hin. specialize (He _ Hin). destruct e; cbn in He; try done.
    + left. by eexists _, _.
    + right. destruct He as (key & Hkey & -> & Hwait). by exists key.
Qed.

Lemma removedIds_app l1 l2 : removedIds (l1 ++ l2) = removedIds l1 ++ removedIds l2.
Proof. unfold removedIds. apply flat_map_app. Qed.

Lemma removedIds_complete s keys effects :
  Forall (completeUpdate s keys) effects → removedIds effects = [].
Proof.
  induction 1 as [|e effects He _ IH]; [reflexivity|].
  cbn [removedIds flat_map]. fold (removedIds effects). rewrite IH.
  by destruct e.
Qed.

(** X9. While a device with channels waits for its metadata, the rebuild
    removes nothing: no [deviceRemoved] is emitted and the device tables
    and the known ids stay as they are, whatever the snapshot lacks.
    Only a pass in which no device waits emits the removals of the known
    ids that the snapshot lacks and records the ids of the snapshot. *)
Theorem metadata_wait_postpones_removal ids s :
  let run := emitDevicesAndRemovals ids s in
  resultOf run = existsb (waitsForMetadata s) (map_to_list (m_v2Devices s)).*1
  ∧ (resultOf run = true →
     removedIds (effectsOf run) = []
     ∧ m_knownDeviceExternalIds (stateOf run) = m_knownDeviceExternalIds s
     ∧ m_v2Devices (stateOf run) = m_v2Devices s
     ∧ m_v2DeviceChannels (stateOf run) = m_v2DeviceChannels s)
  ∧ (resultOf run = false →
     removedIds (effectsOf run)
     = filter (λ extId, extId ≠ "") (elements (m_knownDeviceExternalIds s ∖ ids))
     ∧ m_knownDeviceExternalIds (stateOf run) = ids).
Proof.
  intros run. subst run. unfold emitDevicesAndRemovals. act. rewrite run_bind.
  destruct (emitDevices_complete ((map_to_list (m_v2Devices s)).*1) s)
    as (He & Hr & Hs).
  set (loop := emitDevices ((map_to_list (m_v2Devices s)).*1) s) in *.
  destruct (resultOf loop) eqn:Hres; act; rewrite <- Hr.
  - split; [reflexivity|]. split; [|discriminate]. intros _. rewrite app_nil_r.
    destruct Hs as (Hd & Hc & _ & Hk & _).
    split; [by apply (removedIds_complete s ((map_to_list (m_v2Devices s)).*1))|done].
  - rewrite run_bind, removeMissingDevices_spec. act. rewrite app_nil_r.
    split; [reflexivity|]. split; [discriminate|]. intros _.
    destruct Hs as (Hd & Hc & _ & Hk & _). rewrite Hk. split; [|reflexivity].
    rewrite removedIds_app, (removedIds_complete s _ _ He), removedIds_of_signals.
    reflexivity.
Qed.

Lemma metadata_wait_postpones_removal_witness :
  removedIds (effectsOf (emitDevicesAndRemovals {["dev-1"]} Examples.adapterKnowingTwo)) = []
  ∧ "dev-old" ∈ m_knownDeviceExternalIds
                  (stateOf (emitDevicesAndRemovals {["dev-1"]} Examples.adapterKnowingTwo)).
Proof.
  destruct (metadata_wait_postpones_removal {["dev-1"]} Examples.adapterKnowingTwo)
    as (_ & Hwait & _).
  destruct Hwait as (Hnone & Hknown & _); [vm_compute; reflexivity|].
  split; [exact Hnone|]. rewrite Hknown. vm_compute. set_solver.
Defined.

End EmissionFacts.

Module DeleteFacts.
Import Qt Plugin PluginFacts EmissionFacts.

Lemma deleteDevice_cases resVal s :
  deleteDevice resVal s = (tt, s, [])
  ∨ ∃ deviceId extId,
      extId ≠ ""
      ∧ deleteDevice resVal s
        = (tt,
           set_m_deviceToLightResource (delete extId (m_deviceToLightResource s))
             (set_m_knownDeviceExternalIds (m_knownDeviceExternalIds s ∖ {[extId]})
                (set_m_v2DeviceInfoCache (delete extId (m_v2DeviceInfoCache s))
                   (set_m_v2DeviceChannels (delete extId (m_v2DeviceChannels s))
                      (set_m_v2Devices (delete extId (m_v2Devices s))
                         (set_m_deviceIdToExternalId
                            (delete deviceId (m_deviceIdToExternalId s)) s))))),
           [deviceRemoved extId]).
Proof.
  unfold deleteDevice.
  destruct (negb (isObject resVal)); [by left|].
  destruct (negb (bool_decide _)); [by left|].
  destruct (isEmpty (toString (value (toObject resVal) "id"))) eqn:Hid; [by left|].
  right. act. eexists _, _. split; [|reflexivity].
  unfold isEmpty in *. apply bool_decide_eq_false in Hid.
  case_bool_decide as Htaken; [exact Hid|exact Htaken].
Qed.

Lemma lookup_delete_none `{Countable K} {A} (m : gmap K A) (i j : K) :
  m !! i = None → delete j m !! i = None.
Proof. intros Hm. destruct (decide (j = i)) as [->|Hne]; [apply lookup_delete_eq|by rewrite lookup_delete_ne]. Qed.

Lemma deleteDevice_erased resVal s extId :
  erased extId s ∨ extId ∈ removedIds (effectsOf (deleteDevice resVal s)) →
  erased extId (stateOf (deleteDevice resVal s)).
Proof.
  destruct (deleteDevice_cases resVal s) as [->|(deviceId & removed & Hne & ->)];
    cbn [stateOf effectsOf fst snd removedIds flat_map app].
  - intros [He|Hin]; [exact He|by apply elem_of_nil in Hin].
  - intros [(H1 & H2 & H3 & H4 & H5)|Hin].
    + repeat split; cbn; try (by apply lookup_delete_none).
      intros Hin. by apply elem_of_difference in Hin as [Hin _].
    + apply list_elem_of_singleton in Hin as ->.
      repeat split; cbn; try apply lookup_delete_eq.
      intros Hin. apply elem_of_difference in Hin as [_ Hin]. apply Hin.
      by apply elem_of_singleton.
Qed.

Lemma deleteDevice_frame resVal s :
  m_channelBindings (stateOf (deleteDevice resVal s)) = m_channelBindings s
  ∧ m_v2ResourceToDevice (stateOf (deleteDevice resVal s)) = m_v2ResourceToDevice s
  ∧ effectsOf (deleteDevice resVal s)
    = deviceRemoved <$> removedIds (effectsOf (deleteDevice resVal s))
  ∧ "" ∉ removedIds (effectsOf (deleteDevice resVal s)).
Proof.
  destruct (deleteDevice_cases resVal s) as [->|(deviceId & removed & Hne & ->)];
    cbn [stateOf effectsOf fst snd removedIds flat_map app fmap list_fmap];
    repeat split; try apply not_elem_of_nil.
  intros Hin. by apply list_elem_of_singleton in Hin.
Qed.

Lemma handleV2DeleteEvent_erased dataArr : ∀ s extId,
  erased extId s ∨ extId ∈ removedIds (effectsOf (handleV2DeleteEvent dataArr s)) →
  erased extId (stateOf (handleV2DeleteEvent dataArr s)).
Proof.
  induction dataArr as [|resVal rest IH]; intros s extId; cbn [handleV2DeleteEvent].
  - intros [He|Hin]; [exact He|by apply elem_of_nil in Hin].
  - rewrite run_bind. cbn [stateOf effectsOf fst snd]. rewrite removedIds_app.
    intros [He|Hin].
    + apply IH. left. apply deleteDevice_erased. by left.
    + apply elem_of_app in Hin as [Hin|Hin].
      * apply IH. left. apply deleteDevice_erased. by right.
      * apply IH. by right.
Qed.

Lemma handleV2DeleteEvent_frame dataArr : ∀ s,
  m_channelBindings (stateOf (handleV2DeleteEvent dataArr s)) = m_channelBindings s
  ∧ m_v2ResourceToDevice (stateOf (handleV2DeleteEvent dataArr s)) = m_v2ResourceToDevice s
  ∧ effectsOf (handleV2DeleteEvent dataArr s)
    = deviceRemoved <$> removedIds (effectsOf (handleV2DeleteEvent dataArr s))
  ∧ "" ∉ removedIds (effectsOf (handleV2DeleteEvent dataArr s)).
Proof.
  induction dataArr as [|resVal rest IH]; intros s; cbn [handleV2DeleteEvent].
  - repeat split. apply not_elem_of_nil.
  - rewrite run_bind. cbn [stateOf effectsOf fst snd].
    destruct (deleteDevice_frame resVal s) as (H1 & H2 & H3 & H4).
    destruct (IH (stateOf (deleteDevice resVal s))) as (I1 & I2 & I3 & I4).
    rewrite removedIds_app, fmap_app, <- H3, <- I3, I1, I2, H1, H2.
    repeat split. intros Hin. apply elem_of_app in Hin as [Hin|Hin]; done.
Qed.

(** X10. A device that a delete event reports removed is gone from the
    device, channel, info cache, known-id and light tables, so that the
    removal of the next rebuild does not report it a second time,
    whatever the snapshot holds.  The removed id is never empty.  The
    channel bindings are not touched by the event. *)
Theorem deleted_device_not_removed_again dataArr ids s extId :
  extId ∈ removedIds (effectsOf (handleV2DeleteEvent dataArr s)) →
  let s' := stateOf (handleV2DeleteEvent dataArr s) in
  extId ≠ ""
  ∧ m_v2Devices s' !! extId = None
  ∧ m_v2DeviceChannels s' !! extId = None
  ∧ m_v2DeviceInfoCache s' !! extId = None
  ∧ (extId ∉ m_knownDeviceExternalIds s')
  ∧ m_deviceToLightResource s' !! extId = None
  ∧ (extId ∉ removedIds (effectsOf (removeMissingDevices ids s')))
  ∧ m_channelBindings s' = m_channelBindings s.
Proof.
  intros Hin s'.
  destruct (handleV2DeleteEvent_erased dataArr s extId (or_intror Hin))
    as (H1 & H2 & H3 & H4 & H5).
  destruct (handleV2DeleteEvent_frame dataArr s) as (F1 & _ & _ & F4).
  repeat split; try done.
  - intros ->. done.
  - subst s'. rewrite removeMissingDevices_spec. cbn [effectsOf snd].
    rewrite removedIds_of_signals. intros Hrem.
    apply list_elem_of_filter in Hrem as [_ Hrem].
    apply elem_of_elements, elem_of_difference in Hrem as [Hknown _]. done.
Qed.

Lemma deleted_device_not_removed_again_witness :
  removedIds (effectsOf (handleV2DeleteEvent Examples.deleteOfOld Examples.adapterKnowingTwo))
  = ["dev-old"]
  ∧ removedIds
      (effectsOf
         (removeMissingDevices {["dev-1"]}
            (stateOf (handleV2DeleteEvent Examples.deleteOfOld Examples.adapterKnowingTwo))))
    = [].
Proof.
  assert (removedIds (effectsOf (handleV2DeleteEvent Examples.deleteOfOld
                                   Examples.adapterKnowingTwo)) = ["dev-old"]) as Hevent.
  { vm_compute. reflexivity. }
  split; [exact Hevent|].
  destruct (deleted_device_not_removed_again Examples.deleteOfOld {["dev-1"]}
              Examples.adapterKnowingTwo "dev-old") as (_ & _ & _ & _ & Hknown & _).
  { rewrite Hevent. by left. }
  rewrite removeMissingDevices_spec. cbn [effectsOf snd]. rewrite removedIds_of_signals.
  apply elem_of_nil_inv. intros x Hx. apply list_elem_of_filter in Hx as [_ Hx].
  apply elem_of_elements, elem_of_difference in Hx as [Hin Hout].
  revert Hin. vm_compute. intros Hin.
  apply Hout. set_solver.
Defined.

End DeleteFacts.

Module OwnerFacts.
Import Qt Plugin PluginFacts EmissionFacts.

(** X11. Resolving the owner of a resource gives the empty id, and then
    changes and sends nothing, unless the owner is a device with an id.
    Otherwise the id it returns is the one recorded for the owner
    afterwards, at most one request for the owner's metadata is sent, and
    resolving the same resource again gives the same id, changes nothing
    and sends nothing. *)
Theorem owner_resolution_idempotent resObj s :
  let run := deviceExternalIdFromV2Resource resObj s in
  let owner := toObject (value resObj "owner") in
  let rid := toString (value owner "rid") in
  (resultOf run = "" → stateOf run = s ∧ effectsOf run = [])
  ∧ (resultOf run ≠ "" →
     toString (value owner "rtype") = "device"
     ∧ default "" (m_deviceIdToExternalId (stateOf run) !! rid) = resultOf run)
  ∧ (effectsOf run = [] ∨ effectsOf run = [networkGet ("device/" +:+ rid)])
  ∧ deviceExternalIdFromV2Resource resObj (stateOf run) = (resultOf run, stateOf run, []).
Proof.
  intros run owner rid. subst run. unfold deviceExternalIdFromV2Resource.
  fold owner. fold rid.
  case_bool_decide as Htype; cbn [negb]; [|by repeat split; try left].
  destruct (isEmpty rid) eqn:Hrid; [by repeat split; try left|].
  assert (rid ≠ "") as Hne.
  { unfold isEmpty in Hrid. by apply bool_decide_eq_false in Hrid. }
  act.
  destruct (isEmpty (default "" (m_deviceIdToExternalId s !! rid))) eqn:Hmapped.
  - act. rewrite run_bind. act. rewrite app_nil_r.
    set (s1 := set_m_deviceIdToExternalId (<[rid:=rid]> (m_deviceIdToExternalId s)) s).
    pose proof (fetch_sameTables rid s1) as (_ & _ & Hcache & _ & Hmap & _).
    assert (default "" (m_deviceIdToExternalId (stateOf (fetchV2DeviceResource rid s1)) !! rid)
            = rid) as Hlook.
    { rewrite Hmap. subst s1. cbn. by rewrite lookup_insert_eq. }
    split; [done|]. split; [done|]. split.
    { destruct (fetch_cases rid s1) as [->|[->| ->]]; [by left|by left|by right]. }
    rewrite Hlook, Hrid.
    destruct (objIsEmpty _); act; [|reflexivity].
    rewrite run_bind, fetch_idempotent. act. reflexivity.
  - assert (default "" (m_deviceIdToExternalId s !! rid) ≠ "") as Hm.
    { unfold isEmpty in Hmapped. by apply bool_decide_eq_false in Hmapped. }
    destruct (objIsEmpty _) eqn:Hmeta.
    + rewrite run_bind. act. rewrite app_nil_r.
      pose proof (fetch_sameTables rid s) as (_ & _ & Hcache & _ & Hmap & _).
      split; [done|]. split; [by rewrite Hmap|]. split.
      { destruct (fetch_cases rid s) as [->|[->| ->]]; [by left|by left|by right]. }
      rewrite Hmap, Hmapped, Hcache, Hmeta.
      rewrite run_bind, fetch_idempotent. act. reflexivity.
    + act. split; [done|]. split; [done|]. split; [by left|].
      rewrite Hmapped, Hmeta. act. reflexivity.
Qed.

End OwnerFacts.

Module ReplyFacts.
Import Qt Plugin PluginFacts.

Section Writes.
Variable variantToXy : QVariant → Q * Q.
Variable m_gamutByLightId : gmap string (@HueGamut Q).

Lemma sendV2ResourceUpdate_cases resourceType resourceId payload s :
  sendV2ResourceUpdate resourceType resourceId payload s = (false, s, [])
  ∨ (m_nam s = true ∧ token s ≠ "" ∧ objIsEmpty payload = false
     ∧ sendV2ResourceUpdate resourceType resourceId payload s
       = (true, s, [networkPut (resourceType +:+ "/" +:+ resourceId) payload])).
Proof.
  unfold sendV2ResourceUpdate. act.
  destruct (m_nam s); cbn [negb]; [|by left].
  destruct (isEmpty resourceType || isEmpty resourceId); [by left|].
  destruct (objIsEmpty payload); [by left|].
  destruct (isEmpty (token s)) eqn:Htoken; [by left|].
  right. act. repeat split; try done.
  unfold isEmpty in Htoken. by apply bool_decide_eq_false in Htoken.
Qed.

(** X12. A channel write leaves the adapter as it was and is answered
    exactly once: it is passed to the base class when the adapter is
    stopping, the channel is not bound to a light or the channel is not
    one of the writable ones; otherwise one [cmdResult] is emitted.  A
    request is sent to the bridge exactly when that result is a success,
    it goes to the bound light, and it comes before the result. *)
Theorem channel_write_answered_once deviceExternalId channelExternalId value s :
  let run := updateChannelState variantToXy m_gamutByLightId
                                deviceExternalId channelExternalId value s in
  stateOf run = s
  ∧ (effectsOf run = [baseUpdateChannelState deviceExternalId channelExternalId value]
     ∨ ∃ binding body finalValue,
         m_stopping s = false
         ∧ m_channelBindings s !! channelBindingKey deviceExternalId channelExternalId
           = Some binding
         ∧ HueChannelBinding.resourceType binding = "light"
         ∧ HueChannelBinding.resourceId binding ≠ ""
         ∧ lightWriteBody variantToXy m_gamutByLightId
                          (HueChannelBinding.resourceId binding) channelExternalId value
                          (default [] (m_v2DeviceChannels s !! deviceExternalId))
           = Some (body, finalValue)
         ∧ (effectsOf run
            = [cmdResult {| CmdResponse.status := Failure;
                            CmdResponse.finalValue := finalValue;
                            CmdResponse.error := "Hue request could not be sent" |}]
            ∨ (m_nam s = true ∧ token s ≠ ""
               ∧ effectsOf run
                 = [networkPut ("light/" +:+ HueChannelBinding.resourceId binding) body;
                    cmdResult {| CmdResponse.status := Success;
                                 CmdResponse.finalValue := finalValue;
                                 CmdResponse.error := "" |}]))).
Proof.
  intros run. subst run. unfold updateChannelState. act.
  destruct (m_stopping s) eqn:Hstop; [split; [reflexivity|by left]|].
  destruct (m_channelBindings s !! channelBindingKey deviceExternalId channelExternalId)
    as [binding|] eqn:Hbinding; cbn [default from_option id];
    [|cbn; split; [reflexivity|by left]].
  case_bool_decide as Htype; cbn [negb orb]; [|split; [reflexivity|by left]].
  destruct (isEmpty (HueChannelBinding.resourceId binding)) eqn:Hid;
    [split; [reflexivity|by left]|].
  destruct (lightWriteBody _ _ _ _ _ _) as [[body finalValue]|] eqn:Hbody;
    [|split; [reflexivity|by left]].
  rewrite run_bind.
  assert (HueChannelBinding.resourceId binding ≠ "") as Hne.
  { unfold isEmpty in Hid. by apply bool_decide_eq_false in Hid. }
  destruct (sendV2ResourceUpdate_cases (HueChannelBinding.resourceType binding)
              (HueChannelBinding.resourceId binding) body s)
    as [->|(Hnam & Htoken & _ & ->)]; act.
  - split; [reflexivity|]. right. exists binding, body, finalValue.
    repeat split; try done. by left.
  - split; [reflexivity|]. right. exists binding, body, finalValue.
    repeat split; try done. right. rewrite Htype. by repeat split.
Qed.

End Writes.
End ReplyFacts.

(* ===================================================================== *)
(** * More of the sidecar: delivery, polling, writes, rooms, channels *)
(* ===================================================================== *)

Module DeliveryFacts.
Import Qt QtFacts Sidecar SidecarFacts.

Section Delivery.
Variable sink : Msg → bool.

Lemma delivered_all msgs : forallb sink msgs = true → delivered sink msgs = msgs.
Proof.
  induction msgs as [|m msgs IH]; [reflexivity|]. cbn [forallb delivered].
  destruct (sink m); [|discriminate]. cbn [andb]. intros H. by rewrite IH.
Qed.

Lemma delivered_app a b :
  delivered sink (a ++ b)
  = if forallb sink a then a ++ delivered sink b else delivered sink a.
Proof.
  induction a as [|m a IH]; [reflexivity|]. cbn [app forallb delivered].
  destruct (sink m); cbn [andb]; [|reflexivity].
  rewrite IH. by destruct (forallb sink a).
Qed.

Lemma set_lights_id s : set_m_lightResourceByDevice (m_lightResourceByDevice s) s = s.
Proof. by destruct s. Qed.

Lemma delivers_ret : delivers sink (mret true) [] id.
Proof. intros s. exists (m_lightResourceByDevice s). by rewrite set_lights_id. Qed.

Lemma delivers_send m : delivers sink (send sink m) [m] id.
Proof.
  intros s. exists (m_lightResourceByDevice s). rewrite set_lights_id.
  unfold send. cbn [forallb delivered]. by destruct (sink m).
Qed.

Lemma delivers_then (step next : Op bool) a b commit :
  delivers sink step a id → delivers sink next b commit →
  delivers sink (step ≫= λ ok : bool, if negb ok then mret false else next) (a ++ b) commit.
Proof.
  intros Hstep Hnext s. destruct (Hstep s) as [lights Hs].
  rewrite op_bind, Hs. cbn [resultOf stateOf sentBy fst snd].
  rewrite forallb_app, delivered_app.
  destruct (forallb sink a) eqn:Ha; cbn [negb andb id].
  - destruct (Hnext (set_m_lightResourceByDevice lights s)) as [lights' ->].
    cbn [resultOf stateOf sentBy fst snd]. exists lights'.
    rewrite (delivered_all a Ha). reflexivity.
  - exists lights. op. by rewrite app_nil_r.
Qed.

Lemma delivers_loop {A} (body : A → Op bool) (msgs : A → list Msg) l :
  (∀ x, delivers sink (body x) (msgs x) id) → delivers sink (forEach body l) (flat_map msgs l) id.
Proof.
  intros Hbody. induction l as [|x l IH]; cbn [forEach flat_map]; [apply delivers_ret|].
  intros s. destruct (Hbody x s) as [lights Hs].
  rewrite op_bind, Hs. cbn [resultOf stateOf sentBy fst snd].
  rewrite forallb_app, delivered_app.
  destruct (forallb sink (msgs x)) eqn:Ha; cbn [andb id].
  - destruct (IH (set_m_lightResourceByDevice lights s)) as [lights' ->].
    cbn [resultOf stateOf sentBy fst snd]. exists lights'.
    rewrite (delivered_all _ Ha). by destruct (forallb sink (flat_map msgs l)).
  - exists lights. op. by rewrite app_nil_r.
Qed.

Lemma delivers_removeVanishedDevice snapshot key :
  delivers sink (removeVanishedDevice sink snapshot key)
           (if bool_decide (key ∈ dom (Snapshot.devices snapshot)) then []
            else [DeviceRemoved key]) id.
Proof.
  unfold removeVanishedDevice. case_bool_decide; [apply delivers_ret|].
  intros s. rewrite op_bind. unfold send. cbn [forallb delivered].
  destruct (sink (DeviceRemoved key)); cbn [resultOf stateOf sentBy fst snd negb andb id]; op.
  - by eexists.
  - exists (m_lightResourceByDevice s). by rewrite set_lights_id.
Qed.

Lemma delivers_publishDevice ts kv :
  delivers sink (publishDevice sink ts kv) (deviceMessages ts kv) id.
Proof.
  unfold publishDevice, deviceMessages.
  apply (delivers_then _ _ [_]); [apply delivers_send|].
  unfold channelValueMessages. apply delivers_loop. intros channel.
  unfold publishChannelValue. destruct (Channel.hasValue channel); cbn [negb];
    [apply delivers_send|apply delivers_ret].
Qed.

Lemma flat_map_filter_fmap {A} (P : A → Prop) `{∀ x, Decision (P x)} (f : A → Msg) l :
  flat_map (λ x, if bool_decide (P x) then [] else [f x]) l
  = f <$> filter (λ x, ¬ P x) l.
Proof.
  induction l as [|x l IH]; [reflexivity|]. cbn [flat_map]. rewrite filter_cons, IH.
  case_bool_decide.
  - rewrite decide_False by (intros Hn; by apply Hn). reflexivity.
  - rewrite decide_True by done. reflexivity.
Qed.

Lemma delivers_commit m (f1 f2 f3 f4 : HueSidecar → HueSidecar) :
  delivers sink (send sink m ≫= λ ok : bool,
            if negb ok then mret false
            else modify f1;; modify f2;; modify f3;; modify f4;; mret true)
           [m] (λ s, f4 (f3 (f2 (f1 s)))).
Proof.
  intros s. exists (m_lightResourceByDevice s). rewrite set_lights_id.
  rewrite op_bind. unfold send. cbn [forallb delivered].
  destruct (sink m); cbn [resultOf stateOf sentBy fst snd negb andb id]; op; reflexivity.
Qed.

Lemma publishSnapshot_delivers ts snapshot s :
  ∃ lights,
    publishSnapshot sink ts snapshot s
    = (forallb sink (snapshotMessages ts snapshot s),
       (if forallb sink (snapshotMessages ts snapshot s)
        then publishedState snapshot s
        else set_m_lightResourceByDevice lights s),
       delivered sink (snapshotMessages ts snapshot s)).
Proof.
  unfold publishSnapshot. op.
  match goal with |- ∃ lights, ?chain s = _ =>
    assert (delivers sink chain (snapshotMessages ts snapshot s)
              (λ s, set_m_knownGroups (idsOf (Snapshot.groups snapshot))
                      (set_m_knownRooms (idsOf (Snapshot.rooms snapshot))
                         (set_m_lightResourceByDevice (nextLightByDevice snapshot)
                            (set_m_devices (Snapshot.devices snapshot) s))))) as Hd
  end.
  { unfold snapshotMessages, vanishedDevices, updateMessages, removeMessages.
    rewrite <- (flat_map_filter_fmap (λ key, key ∈ dom (Snapshot.devices snapshot))).
    apply delivers_then; [apply delivers_loop, delivers_removeVanishedDevice|].
    apply delivers_then; [apply delivers_loop, delivers_publishDevice|].
    apply delivers_then.
    { apply delivers_loop. intros room. destruct (isEmpty _);
        [apply delivers_ret|apply delivers_send]. }
    apply delivers_then.
    { apply delivers_loop. intros old. case_bool_decide;
        [apply delivers_ret|apply delivers_send]. }
    apply delivers_then.
    { apply delivers_loop. intros room. destruct (isEmpty _);
        [apply delivers_ret|apply delivers_send]. }
    apply delivers_then.
    { apply delivers_loop. intros old. case_bool_decide;
        [apply delivers_ret|apply delivers_send]. }
    apply delivers_commit. }
  destruct (Hd s) as [lights ->]. exists lights.
  destruct (forallb sink _); [|reflexivity]. unfold publishedState. by destruct s.
Qed.

(** X13. [publishSnapshot] hands the messages of [snapshotMessages] to
    the host in their order and stops at the first one the host
    refuses.  It succeeds exactly when none is refused, and only then
    are the device table, the light table and the known rooms and groups
    replaced by those of the snapshot.  After a refusal the device table
    and the known rooms and groups are as before, so the next pass
    compares with the same state again. *)
Theorem snapshot_commit_all_or_nothing ts snapshot s :
  let run := publishSnapshot sink ts snapshot s in
  sentBy run = delivered sink (snapshotMessages ts snapshot s)
  ∧ resultOf run = forallb sink (snapshotMessages ts snapshot s)
  ∧ (resultOf run = true →
     sentBy run = snapshotMessages ts snapshot s
     ∧ stateOf run = publishedState snapshot s)
  ∧ (resultOf run = false →
     m_devices (stateOf run) = m_devices s
     ∧ m_knownRooms (stateOf run) = m_knownRooms s
     ∧ m_knownGroups (stateOf run) = m_knownGroups s
     ∧ ∃ refused rest,
         sink refused = false
         ∧ snapshotMessages ts snapshot s = sentBy run ++ refused :: rest).
Proof.
  intros run. subst run. destruct (publishSnapshot_delivers ts snapshot s) as [lights ->].
  cbn [resultOf stateOf sentBy fst snd]. split; [reflexivity|]. split; [reflexivity|].
  split.
  - intros Hok. rewrite Hok. split; [by apply delivered_all|reflexivity].
  - intros Hok. rewrite Hok. repeat split.
    clear -Hok. induction (snapshotMessages ts snapshot s) as [|m msgs IH]; [discriminate|].
    cbn [forallb delivered] in *. destruct (sink m) eqn:Hm; cbn [andb] in Hok.
    + destruct (IH Hok) as (refused & rest & Hr & Heq).
      exists refused, rest. split; [exact Hr|]. cbn [app]. by rewrite <- Heq.
    + by exists m, msgs.
Qed.

End Delivery.
End DeliveryFacts.

Module PollFacts.
Import Qt QtFacts Sidecar SidecarFacts DeliveryFacts.

Section Polls.
Variable sink : Msg → bool.
Variable fetchResourceArray : string → string + QJsonArray.
Variable snapshotDevices : list QJsonArray → gmap string DeviceEntry.t.
Variable sendErrorText : string.

Lemma sameSchedule_refl s : sameSchedule s s.
Proof. by repeat split. Qed.

Lemma sameSchedule_trans s1 s2 s3 :
  sameSchedule s1 s2 → sameSchedule s2 s3 → sameSchedule s1 s3.
Proof. intros (a & b & c & d) (a' & b' & c' & d'). repeat split; congruence. Qed.

Lemma publishSnapshot_schedule ts snapshot s :
  sameSchedule s (stateOf (publishSnapshot sink ts snapshot s)).
Proof.
  destruct (publishSnapshot_delivers sink ts snapshot s) as [lights ->].
  cbn [stateOf fst snd]. destruct (forallb sink _); by repeat split.
Qed.

Lemma send_state m s : stateOf (send sink m s) = s.
Proof. unfold send. by destruct (sink m). Qed.

Lemma setConnectionState_spec connected s :
  sameSchedule s (stateOf (setConnectionState sink connected s))
  ∧ m_connected (stateOf (setConnectionState sink connected s)) = connected
  ∧ m_nextPollDueMs (stateOf (setConnectionState sink connected s)) = m_nextPollDueMs s.
Proof.
  unfold setConnectionState. op. case_bool_decide as Hc; [by repeat split|].
  op. rewrite op_bind. cbn [resultOf stateOf sentBy fst snd]. op.
  rewrite send_state. by repeat split.
Qed.

Lemma pollBridge_schedule ts s :
  sameSchedule s (stateOf (pollBridge sink fetchResourceArray snapshotDevices
                                      sendErrorText ts s))
  ∧ ((resultOf (pollBridge sink fetchResourceArray snapshotDevices
                           sendErrorText ts s)).1 = true →
     m_connected (stateOf (pollBridge sink fetchResourceArray snapshotDevices
                                      sendErrorText ts s)) = true).
Proof.
  unfold pollBridge. op.
  destruct (isEmpty (effectiveHost _)); [split; [apply sameSchedule_refl|discriminate]|].
  destruct (isEmpty (trimmed _)); [split; [apply sameSchedule_refl|discriminate]|].
  destruct (fetchResourceArray "device") as [e|deviceData];
    [split; [apply sameSchedule_refl|discriminate]|].
  destruct (fetchResourceArray "light") as [e|lightData];
    [split; [apply sameSchedule_refl|discriminate]|].
  cbv zeta.
  destruct (fetchResourceArray "room") as [e|roomData];
    [split; [apply sameSchedule_refl|discriminate]|].
  destruct (fetchResourceArray "zone") as [e|zoneData];
    [split; [apply sameSchedule_refl|discriminate]|].
  destruct (fetchResourceArray "scene") as [e|sceneData];
    [split; [apply sameSchedule_refl|discriminate]|].
  set (snapshot := buildSnapshot _ _ _ _ _ _ _ _ _ _ _ _ _).
  assert (∀ s1, sameSchedule s s1 →
    sameSchedule s
      (stateOf ((publishSnapshot sink ts snapshot ≫= λ ok : bool,
                 if negb ok then mret (false, sendErrorText)
                 else setConnectionState sink true;; send sink FullSyncCompleted;;
                      mret (true, "")) s1))
    ∧ ((resultOf ((publishSnapshot sink ts snapshot ≫= λ ok : bool,
                   if negb ok then mret (false, sendErrorText)
                   else setConnectionState sink true;; send sink FullSyncCompleted;;
                        mret (true, "")) s1)).1 = true →
       m_connected
         (stateOf ((publishSnapshot sink ts snapshot ≫= λ ok : bool,
                    if negb ok then mret (false, sendErrorText)
                    else setConnectionState sink true;; send sink FullSyncCompleted;;
                         mret (true, "")) s1)) = true)) as Hrest.
  { intros s1 Hs1. rewrite op_bind. cbn [resultOf stateOf sentBy fst snd].
    pose proof (publishSnapshot_schedule ts snapshot s1) as Hpub.
    destruct (resultOf (publishSnapshot sink ts snapshot s1)); cbn [negb]; op.
    - rewrite op_bind. cbn [resultOf stateOf sentBy fst snd].
      rewrite op_bind. cbn [resultOf stateOf sentBy fst snd]. op.
      rewrite send_state.
      destruct (setConnectionState_spec true
                  (stateOf (publishSnapshot sink ts snapshot s1))) as (Hsch & Hconn & _).
      split; [|intros _; exact Hconn].
      eapply sameSchedule_trans; [exact Hs1|].
      eapply sameSchedule_trans; [exact Hpub|exact Hsch].
    - split; [|discriminate]. by eapply sameSchedule_trans. }
  destruct (fetchResourceArray "zigbee_device_discovery") as [e|discoveryData].
  - op. apply Hrest, sameSchedule_refl.
  - op. apply Hrest. by repeat split.
Qed.

(** X14. [tick] does nothing before the bootstrap and before the poll is
    due.  A tick that polls sets the next poll at least one second
    ahead: the poll interval after a success, the retry interval after a
    failure, neither below 1000 ms.  Afterwards the connection state is
    the result of the poll, and any tick earlier than one second later
    does nothing. *)
Theorem poll_rate_limited now s :
  let run := tick sink fetchResourceArray snapshotDevices sendErrorText now s in
  let polled := pollBridge sink fetchResourceArray snapshotDevices sendErrorText now s in
  (m_hasBootstrap s = false ∨ now < m_nextPollDueMs s → run = (tt, s, []))
  ∧ (m_hasBootstrap s = true → m_nextPollDueMs s ≤ now →
     m_nextPollDueMs (stateOf run)
     = now + Z.max 1000 (if (resultOf polled).1 then m_pollIntervalMs s
                         else m_retryIntervalMs s)
     ∧ now + 1000 ≤ m_nextPollDueMs (stateOf run)
     ∧ m_connected (stateOf run) = (resultOf polled).1
     ∧ ∀ now', now' < now + 1000 →
         tick sink fetchResourceArray snapshotDevices sendErrorText now' (stateOf run)
         = (tt, stateOf run, [])).
Proof.
  intros run polled. subst run. unfold tick. op. split.
  - intros [Hboot|Hdue]; [by rewrite Hboot|].
    destruct (m_hasBootstrap s); cbn [negb]; [|reflexivity].
    apply Z.ltb_lt in Hdue. by rewrite Hdue.
  - intros Hboot Hdue. rewrite Hboot. cbn [negb].
    apply Z.ltb_ge in Hdue. rewrite Hdue. rewrite op_bind. fold polled.
    destruct (pollBridge_schedule now s) as ((Hb & Hp & Hr & _) & Hconn).
    fold polled in Hb, Hp, Hr, Hconn.
    cbn [resultOf stateOf sentBy fst snd].
    destruct ((resultOf polled).1) eqn:Hok; cbn [negb].
    + op. rewrite Hp.
      cbn [m_nextPollDueMs set_m_nextPollDueMs m_connected m_hasBootstrap].
      split; [reflexivity|]. split; [lia|].
      split; [by apply Hconn|].
      intros now' Hnow'. op.
      cbn [m_nextPollDueMs set_m_nextPollDueMs m_connected m_hasBootstrap].
      rewrite Hb, Hboot. cbn [negb].
      assert ((now' <? now + Z.max 1000 (m_pollIntervalMs s)) = true) as ->
        by (apply Z.ltb_lt; lia).
      reflexivity.
    + rewrite op_bind. cbn [resultOf stateOf sentBy fst snd].
      destruct (setConnectionState_spec false (stateOf polled))
        as ((Hb' & Hp' & Hr' & _) & Hconn' & _).
      set (s1 := stateOf (setConnectionState sink false (stateOf polled))) in *.
      assert (∀ (step : Op unit),
                stateOf (step s1) = s1 →
                let final := stateOf ((step ≫= λ _ : unit,
                               modify (λ s, set_m_nextPollDueMs
                                 (now + Z.max 1000 (m_retryIntervalMs s)) s)) s1) in
                final = set_m_nextPollDueMs (now + Z.max 1000 (m_retryIntervalMs s)) s1)
        as Hfinal.
      { intros step Hstep final. subst final. rewrite op_bind.
        cbn [resultOf stateOf sentBy fst snd]. rewrite Hstep. op.
        by rewrite Hr', Hr. }
      match goal with |- context [stateOf ((?step ≫= _) s1)] =>
        rewrite (Hfinal step)
      end.
      2:{ destruct (negb (isEmpty _)); [|reflexivity].
          rewrite op_bind. cbn [resultOf stateOf sentBy fst snd]. op. apply send_state. }
      cbn [m_nextPollDueMs set_m_nextPollDueMs m_connected m_hasBootstrap].
      split; [reflexivity|]. split; [lia|]. split; [exact Hconn'|].
      intros now' Hnow'. op.
      cbn [m_nextPollDueMs set_m_nextPollDueMs m_connected m_hasBootstrap].
      rewrite Hb', Hb, Hboot. cbn [negb].
      assert ((now' <? now + Z.max 1000 (m_retryIntervalMs s)) = true) as ->
        by (apply Z.ltb_lt; lia).
      reflexivity.
Qed.

End Polls.

(** A poll at 5000 ms of a bridge that does not answer: the sidecar is
    disconnected and polls again after the retry interval. *)
Lemma poll_rate_limited_witness :
  m_nextPollDueMs (stateOf (tick Examples.acceptAll Examples.bridgeDown Examples.noDevices
                                 "refused" 5000
                                 (set_m_hasBootstrap true Examples.sidecarConfigured)))
  = 15000
  ∧ m_connected (stateOf (tick Examples.acceptAll Examples.bridgeDown Examples.noDevices
                               "refused" 5000
                               (set_m_hasBootstrap true Examples.sidecarConfigured)))
    = false.
Proof.
  destruct (poll_rate_limited Examples.acceptAll Examples.bridgeDown Examples.noDevices
              "refused" 5000 (set_m_hasBootstrap true Examples.sidecarConfigured))
    as (_ & Hpoll).
  destruct Hpoll as (Hdue & _ & Hconnected & _); [reflexivity|discriminate|].
  split; [rewrite Hdue; reflexivity|rewrite Hconnected; reflexivity].
Defined.

End PollFacts.

Module InvokeFacts.
Import Qt QtFacts Sidecar SidecarFacts DeliveryFacts.

Section Invokes.
Variable sink : Msg → bool.
Variable fetchResourceArray : string → string + QJsonArray.
Variable snapshotDevices : list QJsonArray → gmap string DeviceEntry.t.
Variable colorWriteXy : ChannelInvokeRequest.t → option (Q * Q).
Variable putJsonAsync : string → QJsonObject → option string.
Variable sendErrorText : string.

(** X15. The sidecar reports a colour-temperature write with the value
    as it was written, rounded, whereas the body sent to the bridge holds
    the value clamped to 100..1000 mirek: for a write whose rounded value
    lies outside that range, the reported state differs from what the
    bridge was asked to set.  The written number is one of magnitude at
    most 2^53: there the conversion of a 64-bit integer to [double] is
    exact and [llround] stays within the 64-bit range. *)
Theorem ct_write_reported_unclamped now request s lightId v :
  m_hasBootstrap s = true →
  m_lightResourceByDevice s !! ChannelInvokeRequest.deviceExternalId request = Some lightId →
  lightId ≠ "" →
  ChannelInvokeRequest.channelExternalId request = "ct" →
  ChannelInvokeRequest.hasScalarValue request = true →
  scalarAsDouble (ChannelInvokeRequest.value request) = Some v →
  (inject_Z (- 2 ^ 53) <= v <= inject_Z (2 ^ 53))%Q →
  putJsonAsync ("/clip/v2/resource/light/" +:+ lightId)
               (mirekPayload (round (qBoundQ 100 v 1000))) = None →
  sink (ChannelStateUpdated (ChannelInvokeRequest.deviceExternalId request) "ct"
                            (SInt (round v)) now) = true →
  buildLightCommandPayload colorWriteXy "ct" request
  = inr (mirekPayload (round (qBoundQ 100 v 1000)))
  ∧ onChannelInvoke sink fetchResourceArray snapshotDevices sendErrorText
                    colorWriteXy putJsonAsync now request s
    = ({| CmdResponse.status := Success; CmdResponse.error := "";
          CmdResponse.finalValue := ChannelInvokeRequest.value request |},
       s,
       [ChannelStateUpdated (ChannelInvokeRequest.deviceExternalId request) "ct"
                            (SInt (round v)) now])
  ∧ (round v < 100 ∨ 1000 < round v → round v ≠ round (qBoundQ 100 v 1000)).
Proof.
  intros Hboot Hlight Hne Hch Hscalar Hv _ Hput Hsink.
  assert (Hpayload : buildLightCommandPayload colorWriteXy "ct" request
                     = inr (mirekPayload (round (qBoundQ 100 v 1000)))).
  { unfold buildLightCommandPayload. cbn. rewrite Hscalar, Hv. reflexivity. }
  split; [exact Hpayload|]. split.
  - unfold onChannelInvoke. op. rewrite Hboot. cbn [negb].
    assert (Hlit : isEmpty lightId = false) by (by apply bool_decide_eq_false_2).
    rewrite Hlight. cbn [default from_option id]. rewrite Hlit.
    op. rewrite Hlight. cbn [default from_option id]. rewrite Hlit.
    rewrite Hch, Hpayload, Hput, Hscalar, Hv. decide_literals. cbn [andb orb].
    rewrite op_bind, (op_send_bind _ _ _ _ Hsink). op. reflexivity.
  - pose proof (ct_mired_range v). lia.
Qed.


End Invokes.

(** Writing 50 mirek to [dev-1]: the bridge is asked for 100, the host
    is told 50. *)
Lemma ct_write_reported_unclamped_witness :
  buildLightCommandPayload Examples.noColor "ct" (Examples.ctWrite (SInt 50))
  = inr (mirekPayload 100)
  ∧ sentBy (onChannelInvoke Examples.acceptAll Examples.bridgeDown Examples.noDevices
                            "refused" Examples.noColor Examples.putAccepted
                            5000 (Examples.ctWrite (SInt 50)) Examples.sidecarWithLight)
    = [ChannelStateUpdated "dev-1" "ct" (SInt 50) 5000].
Proof.
  destruct (ct_write_reported_unclamped Examples.acceptAll Examples.bridgeDown
              Examples.noDevices Examples.noColor Examples.putAccepted "refused"
              5000 (Examples.ctWrite (SInt 50)) Examples.sidecarWithLight "light-1"
              (inject_Z 50))
    as (Hpayload & Hrun & _).
  - reflexivity.
  - reflexivity.
  - discriminate.
  - reflexivity.
  - reflexivity.
  - reflexivity.
  - split; discriminate.
  - reflexivity.
  - reflexivity.
  - split; [exact Hpayload|]. rewrite Hrun. reflexivity.
Defined.

End InvokeFacts.

Module RoomFacts.
Import Qt QtFacts Sidecar SidecarFacts StringFacts.

Lemma memberIdsOf_trimmed obj : trimmedMembers (memberIdsOf obj).
Proof.
  unfold memberIdsOf.
  assert (∀ children acc, trimmedMembers acc →
    trimmedMembers
      (foldl (λ (members : list string) (childValue : QJsonValue),
                if negb (isObject childValue) then members
                else
                  let child := toObject childValue in
                  if negb (bool_decide (toString (value child "rtype") = "device"))
                  then members
                  else
                    let rid := trimmed (toString (value child "rid")) in
                    if negb (isEmpty rid) then members ++ [rid] else members)
             acc children)) as Hfold.
  { induction children as [|child children IH]; intros acc Hacc; [exact Hacc|].
    cbn [foldl]. apply IH.
    destruct (negb (isObject child)); [exact Hacc|]. cbv zeta.
    destruct (negb (bool_decide _)); [exact Hacc|].
    destruct (negb (isEmpty _)) eqn:Hrid; [|exact Hacc].
    apply Forall_app. split; [exact Hacc|]. repeat constructor.
    - apply negb_true_iff in Hrid. unfold isEmpty in Hrid.
      by apply bool_decide_eq_false in Hrid.
    - apply trimmed_idem. }
  apply Hfold. constructor.
Qed.

Lemma collectMemberships_trimmed arr : ∀ memberships,
  trimmedMemberships memberships → trimmedMemberships (collectMemberships arr memberships).
Proof.
  unfold collectMemberships.
  induction arr as [|entry arr IH]; intros memberships Hm; [exact Hm|].
  cbn [foldl]. apply IH.
  destruct (negb (isObject entry)); [exact Hm|]. cbv zeta.
  destruct (isEmpty _); [exact Hm|].
  intros id members Hlook.
  destruct (decide (trimmed (toString (value (toObject entry) "id")) = id)) as [<-|Hne].
  - rewrite lookup_insert_eq in Hlook. inversion Hlook; subst.
    split; [apply trimmed_idem|apply memberIdsOf_trimmed].
  - rewrite lookup_insert_ne in Hlook by exact Hne. by apply Hm.
Qed.

Lemma snapshotRooms_members label memberships data room :
  trimmedMemberships memberships →
  room ∈ snapshotRooms label memberships data →
  Room.externalId room ≠ "" ∧ Room.zone room = label
  ∧ trimmedMembers (Room.deviceExternalIds room)
  ∧ (trimmed (Room.externalId room) ≠ Room.externalId room →
     Room.deviceExternalIds room = []).
Proof.
  intros Hm. unfold snapshotRooms.
  assert (∀ acc,
    room ∈ foldl (λ (rooms : list Room.t) (entry : QJsonValue),
                    if negb (isObject entry) then rooms
                    else
                      let obj := toObject entry in
                      let externalId := toString (value obj "id") in
                      let room :=
                        {| Room.externalId := externalId;
                           Room.name := toString (value (toObject (value obj "metadata")) "name");
                           Room.zone := label;
                           Room.deviceExternalIds := default [] (memberships !! externalId);
                           Room.metaJson := obj |} in
                      if negb (isEmpty externalId) then rooms ++ [room] else rooms)
                 acc data →
    room ∈ acc
    ∨ (Room.externalId room ≠ "" ∧ Room.zone room = label
       ∧ Room.deviceExternalIds room = default [] (memberships !! Room.externalId room)))
    as Hfold.
  { induction data as [|entry data IH]; intros acc Hin; [by left|].
    cbn [foldl] in Hin. apply IH in Hin as [Hin|Hin]; [|by right].
    destruct (negb (isObject entry)); [by left|]. cbv zeta in Hin.
    destruct (negb (isEmpty _)) eqn:Hid; [|by left].
    apply elem_of_app in Hin as [Hin|Hin]; [by left|].
    apply list_elem_of_singleton in Hin as ->. right. cbn.
    apply negb_true_iff in Hid. unfold isEmpty in Hid.
    apply bool_decide_eq_false in Hid. done. }
  intros Hin. apply Hfold in Hin as [Hin|(Hid & Hzone & Hmembers)];
    [by apply elem_of_nil in Hin|].
  split; [exact Hid|]. split; [exact Hzone|]. rewrite Hmembers.
  destruct (memberships !! Room.externalId room) as [members|] eqn:Hlook;
    cbn [default from_option id].
  - destruct (Hm _ _ Hlook) as [Hkey Hmem]. split; [exact Hmem|]. intros Hne. done.
  - split; [constructor|done].
Qed.

Section Snapshot.
Variable snapshotDevices : list QJsonArray → gmap string DeviceEntry.t.

(** X17. Every room and every zone of a snapshot has an id; rooms carry
    the label [room], zones the label [zone]; the member ids are
    trimmed and not empty.  Memberships are recorded under the trimmed
    id and looked up under the id as it is, so a room or zone whose id
    has white space at an end has no members. *)
Theorem snapshot_room_members deviceData lightData motionData tamperData temperatureData
    lightLevelData devicePowerData buttonData zigbeeConnectivityData
    roomData zoneData sceneData room :
  let snapshot :=
    buildSnapshot snapshotDevices deviceData lightData motionData tamperData
                  temperatureData lightLevelData devicePowerData buttonData
                  zigbeeConnectivityData roomData zoneData sceneData in
  room ∈ Snapshot.rooms snapshot ∨ room ∈ Snapshot.groups snapshot →
  Room.externalId room ≠ ""
  ∧ (room ∈ Snapshot.rooms snapshot → Room.zone room = "room")
  ∧ (room ∈ Snapshot.groups snapshot → Room.zone room = "zone")
  ∧ Forall (λ member, member ≠ "" ∧ trimmed member = member) (Room.deviceExternalIds room)
  ∧ (trimmed (Room.externalId room) ≠ Room.externalId room →
     Room.deviceExternalIds room = []).
Proof.
  intros snapshot Hin. subst snapshot. cbn [buildSnapshot Snapshot.rooms Snapshot.groups] in *.
  assert (trimmedMemberships (collectMemberships zoneData (collectMemberships roomData ∅)))
    as Hm.
  { do 2 apply collectMemberships_trimmed. intros id members Hlook.
    by rewrite lookup_empty in Hlook. }
  assert (Room.externalId room ≠ ""
          ∧ trimmedMembers (Room.deviceExternalIds room)
          ∧ (trimmed (Room.externalId room) ≠ Room.externalId room →
             Room.deviceExternalIds room = [])) as (Hid & Hmem & Htrim).
  { destruct Hin as [Hin|Hin];
      destruct (snapshotRooms_members _ _ _ _ Hm Hin) as (H1 & _ & H3 & H4); done. }
  split; [exact Hid|]. split; [|split; [|split; [exact Hmem|exact Htrim]]].
  - intros Hroom. by destruct (snapshotRooms_members _ _ _ _ Hm Hroom) as (_ & H2 & _).
  - intros Hgroup. by destruct (snapshotRooms_members _ _ _ _ Hm Hgroup) as (_ & H2 & _).
Qed.

End Snapshot.

(** A room whose child is written with blanks around its id. *)
Lemma snapshot_room_members_witness :
  ∃ room,
    Snapshot.rooms (buildSnapshot Examples.noDevices [] [] [] [] [] [] [] [] []
                                  [JObject Examples.roomWithMember] [] [])
    = [room]
    ∧ Room.deviceExternalIds room = ["dev-1"]
    ∧ Room.zone room = "room".
Proof.
  eexists. split; [vm_compute; reflexivity|]. split; [reflexivity|].
  eapply (snapshot_room_members Examples.noDevices [] [] [] [] [] [] [] [] []
            [JObject Examples.roomWithMember] [] []).
  - left. vm_compute. left.
  - vm_compute. left.
Defined.

End RoomFacts.

Module ChannelListFacts.
Import Qt QtFacts Sidecar SidecarFacts.

Lemma channelById_upsert_eq channels channel :
  channelById (Channel.externalId channel) (upsertChannel channels channel) = Some channel.
Proof.
  unfold channelById. induction channels as [|existing rest IH]; cbn [upsertChannel].
  - cbn. by rewrite bool_decide_eq_true_2.
  - case_bool_decide as Heq; cbn [negb List.find].
    + by rewrite bool_decide_eq_true_2.
    + rewrite bool_decide_eq_false_2 by exact Heq. exact IH.
Qed.

Lemma channelById_upsert_ne id channels channel :
  id ≠ Channel.externalId channel →
  channelById id (upsertChannel channels channel) = channelById id channels.
Proof.
  intros Hne. unfold channelById.
  induction channels as [|existing rest IH]; cbn [upsertChannel].
  - cbn. rewrite bool_decide_eq_false_2; [reflexivity|]. intros Heq. by apply Hne.
  - case_bool_decide as Heq; cbn [negb List.find].
    + rewrite (bool_decide_eq_false_2 (Channel.externalId channel = id))
        by (intros H; by apply Hne).
      rewrite (bool_decide_eq_false_2 (Channel.externalId existing = id))
        by (intros H; apply Hne; congruence).
      reflexivity.
    + destruct (bool_decide (Channel.externalId existing = id)); [reflexivity|exact IH].
Qed.

Lemma upsertChannel_ids channels channel :
  Channel.externalId <$> upsertChannel channels channel
  = if bool_decide (Channel.externalId channel ∈ Channel.externalId <$> channels)
    then Channel.externalId <$> channels
    else (Channel.externalId <$> channels) ++ [Channel.externalId channel].
Proof.
  induction channels as [|existing rest IH]; cbn [upsertChannel fmap list_fmap].
  - rewrite bool_decide_eq_false_2 by apply not_elem_of_nil. reflexivity.
  - destruct (decide (Channel.externalId existing = Channel.externalId channel))
      as [Heq|Heq].
    + rewrite (bool_decide_eq_true_2 _ Heq). cbn [negb fmap list_fmap].
      rewrite Heq. rewrite bool_decide_eq_true_2 by (by left). reflexivity.
    + rewrite (bool_decide_eq_false_2 _ Heq). cbn [negb fmap list_fmap].
      change (list_fmap _ _ Channel.externalId ?l) with (Channel.externalId <$> l).
      rewrite IH. case_bool_decide as Hin.
      * rewrite bool_decide_eq_true_2 by (by right). reflexivity.
      * rewrite bool_decide_eq_false_2; [reflexivity|].
        intros Hin'. apply elem_of_cons in Hin' as [Hin'|Hin']; [by apply Heq|done].
Qed.

(** X18. After [upsertChannel] the channel found under the id of the
    new channel is the new channel, and the channels found under other
    ids are as before.  A channel with a known id is replaced in place, a
    new one is appended, so the ids stay without duplicates; doing it
    twice is doing it once. *)
Theorem upsert_channel_round_trip channels channel :
  channelById (Channel.externalId channel) (upsertChannel channels channel) = Some channel
  ∧ (∀ id, id ≠ Channel.externalId channel →
           channelById id (upsertChannel channels channel) = channelById id channels)
  ∧ Channel.externalId <$> upsertChannel channels channel
    = (if bool_decide (Channel.externalId channel ∈ Channel.externalId <$> channels)
       then Channel.externalId <$> channels
       else (Channel.externalId <$> channels) ++ [Channel.externalId channel])
  ∧ (NoDup (Channel.externalId <$> channels) →
     NoDup (Channel.externalId <$> upsertChannel channels channel))
  ∧ upsertChannel (upsertChannel channels channel) channel = upsertChannel channels channel.
Proof.
  split; [apply channelById_upsert_eq|]. split; [intros id; apply channelById_upsert_ne|].
  split; [apply upsertChannel_ids|]. split.
  - intros Hnodup. rewrite upsertChannel_ids. case_bool_decide as Hin; [exact Hnodup|].
    apply NoDup_app. split; [exact Hnodup|]. split; [|apply NoDup_singleton].
    intros id Hid Hid'. apply list_elem_of_singleton in Hid' as ->. done.
  - induction channels as [|existing rest IH]; cbn [upsertChannel].
    + by rewrite bool_decide_eq_true_2.
    + case_bool_decide as Heq; cbn [negb upsertChannel].
      * by rewrite bool_decide_eq_true_2.
      * rewrite bool_decide_eq_false_2 by exact Heq. cbn [negb]. by rewrite IH.
Qed.

End ChannelListFacts.

Module RemovalFacts.
Import Qt QtFacts Sidecar SidecarFacts.

Lemma removedRoomIds_app a b : removedRoomIds (a ++ b) = removedRoomIds a ++ removedRoomIds b.
Proof. apply flat_map_app. Qed.

Lemma removedGroupIds_app a b :
  removedGroupIds (a ++ b) = removedGroupIds a ++ removedGroupIds b.
Proof. apply flat_map_app. Qed.

Lemma picked_none (pick : Msg → list string) msgs :
  Forall (λ m, pick m = []) msgs → flat_map pick msgs = [].
Proof. induction 1 as [|m msgs Hm _ IH]; [reflexivity|]. cbn. by rewrite Hm, IH. Qed.

Lemma Forall_flat_map {A} (P : Msg → Prop) (f : A → list Msg) l :
  (∀ x, Forall P (f x)) → Forall P (flat_map f l).
Proof.
  intros Hf. induction l as [|x l IH]; [constructor|]. cbn. apply Forall_app. by split.
Qed.

Lemma removeMessages_ids (message : string → Msg) (pick : Msg → list string) known next :
  (∀ id, pick (message id) = [id]) →
  flat_map pick (removeMessages message known next)
  = filter (λ id, id ∉ next) (elements known).
Proof.
  intros Hpick. unfold removeMessages.
  induction (elements known) as [|id ids IH]; [reflexivity|].
  cbn [flat_map]. rewrite flat_map_app, IH, filter_cons.
  case_bool_decide as Hin.
  - rewrite decide_False by (intros Hn; by apply Hn). reflexivity.
  - rewrite decide_True by done. cbn. by rewrite Hpick.
Qed.

Lemma deviceMessages_plain ts kv :
  Forall (λ m, match m with RoomRemoved _ | GroupRemoved _ => False | _ => True end)
         (deviceMessages ts kv).
Proof.
  unfold deviceMessages. constructor; [exact I|]. unfold channelValueMessages.
  apply Forall_flat_map. intros ch. destruct (Channel.hasValue ch); repeat constructor.
Qed.

Lemma removedRoomIds_snapshotMessages ts snapshot s :
  removedRoomIds (snapshotMessages ts snapshot s)
  = filter (λ id, id ∉ idsOf (Snapshot.rooms snapshot)) (elements (m_knownRooms s)).
Proof.
  unfold snapshotMessages. rewrite !removedRoomIds_app.
  unfold removedRoomIds at 1 2 3 5 6 7.
  rewrite (picked_none _ (DeviceRemoved <$> _)) by (apply Forall_fmap, Forall_true; done).
  rewrite (picked_none _ (flat_map (deviceMessages ts) _)).
  2:{ apply Forall_flat_map. intros kv. eapply Forall_impl; [apply deviceMessages_plain|].
      by intros []. }
  rewrite (picked_none _ (updateMessages RoomUpdated _)).
  2:{ apply Forall_flat_map. intros room. destruct (isEmpty _); repeat constructor. }
  rewrite (picked_none _ (updateMessages GroupUpdated _)).
  2:{ apply Forall_flat_map. intros room. destruct (isEmpty _); repeat constructor. }
  rewrite (picked_none _ (removeMessages GroupRemoved _ _)).
  2:{ apply Forall_flat_map. intros old. case_bool_decide; repeat constructor. }
  cbn [flat_map app]. rewrite !app_nil_r.
  apply removeMessages_ids. done.
Qed.

Lemma removedGroupIds_snapshotMessages ts snapshot s :
  removedGroupIds (snapshotMessages ts snapshot s)
  = filter (λ id, id ∉ idsOf (Snapshot.groups snapshot)) (elements (m_knownGroups s)).
Proof.
  unfold snapshotMessages. rewrite !removedGroupIds_app.
  unfold removedGroupIds at 1 2 3 4 5 7.
  rewrite (picked_none _ (DeviceRemoved <$> _)) by (apply Forall_fmap, Forall_true; done).
  rewrite (picked_none _ (flat_map (deviceMessages ts) _)).
  2:{ apply Forall_flat_map. intros kv. eapply Forall_impl; [apply deviceMessages_plain|].
      by intros []. }
  rewrite (picked_none _ (updateMessages RoomUpdated _)).
  2:{ apply Forall_flat_map. intros room. destruct (isEmpty _); repeat constructor. }
  rewrite (picked_none _ (updateMessages GroupUpdated _)).
  2:{ apply Forall_flat_map. intros room. destruct (isEmpty _); repeat constructor. }
  rewrite (picked_none _ (removeMessages RoomRemoved _ _)).
  2:{ apply Forall_flat_map. intros old. case_bool_decide; repeat constructor. }
  cbn [flat_map app]. rewrite !app_nil_r.
  apply removeMessages_ids. done.
Qed.

(** X19. For a pass whose sends the host accepts: a room or group that
    the sidecar knows and the snapshot no longer has is reported removed
    exactly once and is no longer known afterwards; nothing else is
    reported removed; publishing the same snapshot again reports no room
    and no group removed. *)
Theorem vanished_room_removed_once sink ts ts' snapshot s :
  (∀ m, sink m = true) →
  let first := publishSnapshot sink ts snapshot s in
  let second := publishSnapshot sink ts' snapshot (stateOf first) in
  (∀ id, id ∈ m_knownRooms s → id ∉ idsOf (Snapshot.rooms snapshot) →
         filter (λ x, x = id) (removedRoomIds (sentBy first)) = [id]
         ∧ id ∉ m_knownRooms (stateOf first))
  ∧ (∀ id, id ∈ m_knownGroups s → id ∉ idsOf (Snapshot.groups snapshot) →
           filter (λ x, x = id) (removedGroupIds (sentBy first)) = [id]
           ∧ id ∉ m_knownGroups (stateOf first))
  ∧ (∀ id, id ∈ removedRoomIds (sentBy first) →
           id ∈ m_knownRooms s ∧ id ∉ idsOf (Snapshot.rooms snapshot))
  ∧ (∀ id, id ∈ removedGroupIds (sentBy first) →
           id ∈ m_knownGroups s ∧ id ∉ idsOf (Snapshot.groups snapshot))
  ∧ removedRoomIds (sentBy second) = []
  ∧ removedGroupIds (sentBy second) = [].
Proof.
  intros Haccept first second. subst first second.
  rewrite !(publishSnapshot_accepts sink Haccept). cbn [stateOf sentBy fst snd].
  rewrite !removedRoomIds_snapshotMessages, !removedGroupIds_snapshotMessages.
  cbn [publishedState m_knownRooms m_knownGroups set_m_knownGroups set_m_knownRooms].
  split; [|split; [|split; [|split; [|split]]]].
  - intros id Hin Hout. split; [|exact Hout].
    apply PluginFacts.count_once; [apply NoDup_filter, NoDup_elements|].
    apply list_elem_of_filter. split; [done|]. by apply elem_of_elements.
  - intros id Hin Hout. split; [|exact Hout].
    apply PluginFacts.count_once; [apply NoDup_filter, NoDup_elements|].
    apply list_elem_of_filter. split; [done|]. by apply elem_of_elements.
  - intros id Hid. apply list_elem_of_filter in Hid as [Hout Hin].
    by apply elem_of_elements in Hin.
  - intros id Hid. apply list_elem_of_filter in Hid as [Hout Hin].
    by apply elem_of_elements in Hin.
  - apply elem_of_nil_inv. intros id Hid. apply list_elem_of_filter in Hid as [Hout Hin].
    by apply elem_of_elements in Hin.
  - apply elem_of_nil_inv. intros id Hid. apply list_elem_of_filter in Hid as [Hout Hin].
    by apply elem_of_elements in Hin.
Qed.

(** The room [room-old] is known and the snapshot has no rooms. *)
Lemma vanished_room_removed_once_witness :
  filter (λ x, x = "room-old")
         (removedRoomIds
            (sentBy (publishSnapshot Examples.acceptAll 7000 Examples.snapshotOfOne
                                     Examples.sidecarWithRoom)))
  = ["room-old"]
  ∧ "room-old" ∉ m_knownRooms
                   (stateOf (publishSnapshot Examples.acceptAll 7000 Examples.snapshotOfOne
                                             Examples.sidecarWithRoom)).
Proof.
  destruct (vanished_room_removed_once Examples.acceptAll 7000 8000 Examples.snapshotOfOne
              Examples.sidecarWithRoom) as (Hrooms & _); [reflexivity|].
  apply (Hrooms "room-old").
  - unfold Examples.sidecarWithRoom. cbn [m_knownRooms set_m_knownRooms].
    by apply elem_of_singleton.
  - unfold idsOf, Examples.snapshotOfOne. cbn [Snapshot.rooms fmap list_fmap].
    rewrite filter_nil. apply not_elem_of_empty.
Defined.

End RemovalFacts.

(* ===================================================================== *)
(** * More of the plugin: connection state and gamuts *)
(* ===================================================================== *)

Module ConnectionFacts.
Import Qt QtFacts Plugin PluginFacts.

Lemma setConnected_spec connected s :
  setConnected connected s
  = if bool_decide (m_connected s = connected) then (tt, s, [])
    else (tt, set_m_connected connected s, [connectionStateChanged connected]).
Proof. unfold setConnected. act. case_bool_decide; [reflexivity|]. act. reflexivity. Qed.

(** X20. Whatever sequence of connection states is requested, the
    [connectionStateChanged] signals alternate: the first differs from
    the state the adapter was in, each one from the one before; the
    adapter ends in the state requested last, which is the one signalled
    last. *)
Theorem connection_signals_alternate requests s :
  let run := runActs (setConnected <$> requests) s in
  ∃ signals,
    effectsOf run = connectionStateChanged <$> signals
    ∧ alternates (m_connected s) signals
    ∧ m_connected (stateOf run) = default (m_connected s) (last requests)
    ∧ m_connected (stateOf run) = default (m_connected s) (last signals).
Proof.
  intros run. subst run. revert s.
  induction requests as [|request requests IH]; intros s; cbn [fmap list_fmap runActs].
  - exists []. by repeat split.
  - change (list_fmap _ _ setConnected requests) with (setConnected <$> requests).
    rewrite run_bind, setConnected_spec. case_bool_decide as Hsame.
    + cbn [resultOf stateOf effectsOf fst snd app].
      destruct (IH s) as (signals & He & Ha & Hl & Hs). exists signals.
      split; [exact He|]. split; [exact Ha|]. split; [|exact Hs].
      rewrite Hl, last_cons. by destruct (last requests).
    + cbn [resultOf stateOf effectsOf fst snd app].
      destruct (IH (set_m_connected request s)) as (signals & He & Ha & Hl & Hs).
      cbn [m_connected set_m_connected] in Ha, Hl, Hs.
      exists (request :: signals). rewrite He.
      split; [reflexivity|]. split; [|split].
      * cbn. split; [|exact Ha]. clear -Hsame.
        destruct request, (m_connected s); try reflexivity; by destruct Hsame.
      * rewrite Hl, last_cons. by destruct (last requests).
      * rewrite Hs, last_cons. by destruct (last signals).
Qed.

End ConnectionFacts.

Module GamutTableFacts.
Import Qt QtFacts Plugin PluginFacts.

Section Tables.
Variable pointEq : (Q * Q) → (Q * Q) → bool.

(** X21. [updateGamutForLight] keeps every stored gamut valid.  It
    touches the entry of its light only, and only to store the first
    three points of the report when they form a valid gamut: a report
    with fewer than three points, or with coinciding points, leaves the
    entry that the light had. *)
Theorem stored_gamuts_stay_valid lightId controlObj gamuts :
  let updated := updateGamutForLight pointEq lightId controlObj gamuts in
  ((∀ id g, gamuts !! id = Some g → isValid pointEq g = true) →
   ∀ id g, updated !! id = Some g → isValid pointEq g = true)
  ∧ (∀ id, id ≠ lightId → updated !! id = gamuts !! id)
  ∧ (updated !! lightId = gamuts !! lightId
     ∨ ∃ first second third rest,
         toArray (value controlObj "colorgamut") = first :: second :: third :: rest
         ∧ updated !! lightId
           = Some {| p1 := pointFrom first; p2 := pointFrom second; p3 := pointFrom third |})
  ∧ ((length (toArray (value controlObj "colorgamut")) < 3)%nat → updated = gamuts).
Proof.
  intros updated. subst updated. unfold updateGamutForLight.
  destruct (toArray (value controlObj "colorgamut")) as [|first [|second [|third rest]]];
    try (split; [done|]; split; [done|]; split; [by left|done]).
  cbv zeta.
  destruct (isValid pointEq _) eqn:Hvalid; cbn [negb].
  - split; [|split; [|split]].
    + intros Hall id g Hlook. destruct (decide (id = lightId)) as [->|Hne].
      * rewrite lookup_insert_eq in Hlook. by inversion Hlook; subst.
      * rewrite lookup_insert_ne in Hlook by done. by apply (Hall id).
    + intros id Hne. by rewrite lookup_insert_ne.
    + right. exists first, second, third, rest. split; [reflexivity|].
      by rewrite lookup_insert_eq.
    + cbn. lia.
  - split; [done|]. split; [done|]. split; [by left|]. cbn. lia.
Qed.

End Tables.
End GamutTableFacts.

(* ===================================================================== *)
(** * Failed fetches, parsers, keys and placeholders *)
(* ===================================================================== *)

Module FailureFacts.
Import Qt QtFacts Plugin PluginFacts EmissionFacts.

(** What the queue leaves alone, and what it may start: never a device
    whose fetch has failed. *)
Lemma drain_failed q : ∀ s,
  let run := drainV2DeviceFetchQueue q s in
  m_failedV2DeviceFetch (stateOf run) = m_failedV2DeviceFetch s
  ∧ m_v2BootstrapDone (stateOf run) = m_v2BootstrapDone s
  ∧ m_nam (stateOf run) = m_nam s
  ∧ token (stateOf run) = token s
  ∧ m_v2DeviceFetchTimer (stateOf run) = m_v2DeviceFetchTimer s
  ∧ (∀ x, x ∈ m_failedV2DeviceFetch s →
          x ∈ m_pendingV2DeviceFetch (stateOf run) → x ∈ m_pendingV2DeviceFetch s)
  ∧ Forall (λ e, ∃ d, e = networkGet ("device/" +:+ d) ∧ d ∉ m_failedV2DeviceFetch s)
           (effectsOf run).
Proof.
  induction q as [|d q IH]; intros s; cbn [drainV2DeviceFetchQueue].
  - by repeat split.
  - act. destruct (_ <? _)%nat; [|by repeat split]. act.
    pose proof (IH (set_m_v2DeviceFetchQueue q s)) as IH'. cbn zeta in IH'.
    destruct (isEmpty d); [exact IH'|].
    case_bool_decide as Hfailed; [exact IH'|].
    case_bool_decide as Hpending; [exact IH'|].
    clear IH IH'.
    destruct (start_spec d (set_m_v2DeviceFetchQueue q s)) as [(Hr & Hs & He)|(Hr & Hs & He)];
      rewrite Hs, He; cbn.
    + by repeat split.
    + repeat split; try done.
      * intros x Hx Hin. apply elem_of_union in Hin as [Hin|Hin]; [|exact Hin].
        apply elem_of_singleton in Hin as ->. done.
      * repeat constructor. by exists d.
Qed.

Lemma startNext_failed s :
  let run := startNextQueuedV2DeviceFetch s in
  m_failedV2DeviceFetch (stateOf run) = m_failedV2DeviceFetch s
  ∧ m_v2BootstrapDone (stateOf run) = m_v2BootstrapDone s
  ∧ m_nam (stateOf run) = m_nam s
  ∧ token (stateOf run) = token s
  ∧ (∀ x, x ∈ m_failedV2DeviceFetch s →
          x ∈ m_pendingV2DeviceFetch (stateOf run) → x ∈ m_pendingV2DeviceFetch s)
  ∧ Forall (λ e, ∃ d, e = networkGet ("device/" +:+ d) ∧ d ∉ m_failedV2DeviceFetch s)
           (effectsOf run).
Proof.
  unfold startNextQueuedV2DeviceFetch. act.
  destruct (negb (m_nam s)); [by repeat split|].
  rewrite run_bind. cbn [resultOf stateOf effectsOf fst snd].
  destruct (drain_failed (m_v2DeviceFetchQueue s) s) as (H1 & H2 & H3 & H4 & H5 & H6 & H7).
  set (run := drainV2DeviceFetchQueue (m_v2DeviceFetchQueue s) s) in *.
  destruct (negb (resultOf run)); act; rewrite ?app_nil_r.
  - by repeat split.
  - destruct (_ && _); act; rewrite ?app_nil_r; by repeat split.
Qed.

Lemma requestSnapshots_failed res : ∀ d s,
  m_failedV2DeviceFetch (stateOf (requestSnapshots res d s)) = m_failedV2DeviceFetch s.
Proof.
  induction res as [|r res IH]; intros d s; cbn [requestSnapshots]; [reflexivity|].
  rewrite run_bind. cbn [resultOf stateOf effectsOf fst snd]. rewrite IH.
  unfold requestV2ResourceSnapshot. destruct (isEmpty r); [reflexivity|].
  destruct (0 <? _); [reflexivity|].
  unfold sendV2ResourceSnapshotRequest. act.
  destruct (negb (m_nam s)); [reflexivity|].
  case_bool_decide; [reflexivity|]. destruct (isEmpty (token s)); [reflexivity|].
  act. reflexivity.
Qed.

Lemma prefix_append p s : String.prefix p (p +:+ s) = true.
Proof.
  induction p as [|c p IH]; [by destruct s|].
  change (String c p +:+ s) with (String c (p +:+ s)). cbn [String.prefix].
  destruct (ascii_dec c c); [exact IH|done].
Qed.

Section Cycle.
Variable rebuild : Act unit.
Variable mergeFetchedDevices : string → QJsonArray → Act unit.

Lemma failed_device_reply deviceId s :
  onNetworkReplyFinished rebuild mergeFetchedDevices
    {| Reply.path := "/clip/v2/resource/device/" +:+ deviceId;
       Reply.failed := true; Reply.object := None |} s
  = ((if negb (m_stopping s) then setConnected false else skip);;
     deviceFetchFailed deviceId;;
     startNextQueuedV2DeviceFetch) s.
Proof.
  unfold onNetworkReplyFinished. cbn [Reply.path Reply.failed Reply.object]. act.
  assert (startsWith ("/clip/v2/resource/device/" +:+ deviceId) resourcePrefix = true)
    as -> by reflexivity.
  assert (mid ("/clip/v2/resource/device/" +:+ deviceId) (String.length resourcePrefix)
          = "device/" +:+ deviceId) as -> by reflexivity.
  assert (containsChar ("device/" +:+ deviceId) "/" = true) as -> by reflexivity.
  assert (startsWith ("device/" +:+ deviceId) "device/" = true) as ->
    by apply prefix_append.
  assert (sectionFrom1 ("device/" +:+ deviceId) "/" = deviceId) as -> by reflexivity.
  assert (startsWith ("/clip/v2/resource/device/" +:+ deviceId) "/clip/v2/resource/device/"
          = true) as -> by apply prefix_append.
  cbn [negb]. rewrite !run_bind. cbn [resultOf stateOf effectsOf fst snd].
  rewrite ?run_bind. cbn [resultOf stateOf effectsOf fst snd]. act.
  rewrite ?app_nil_r, ?app_assoc. reflexivity.
Qed.

(** X22. When the lazy fetch of a device's metadata fails, the device is
    taken out of the fetches in flight and recorded as failed, and the
    next queued fetch is started, never one of a failed device.  From
    then on a request for its metadata changes nothing and sends
    nothing, until the start of the next snapshot cycle clears the
    record.  The reply does not finalize the cycle: the bootstrap flag
    stays, and apart from the connection state and the next queued fetch
    nothing is emitted. *)
Theorem failed_device_fetch_not_retried deviceId s :
  deviceId ≠ "" →
  let reply := {| Reply.path := "/clip/v2/resource/device/" +:+ deviceId;
                  Reply.failed := true; Reply.object := None |} in
  let run := onNetworkReplyFinished rebuild mergeFetchedDevices reply s in
  let after := stateOf run in
  deviceId ∈ m_failedV2DeviceFetch after
  ∧ (deviceId ∉ m_pendingV2DeviceFetch after)
  ∧ fetchV2DeviceResource deviceId after = (tt, after, [])
  ∧ resultOf (startV2DeviceFetch deviceId after) = false
  ∧ m_v2BootstrapDone after = m_v2BootstrapDone s
  ∧ Forall (λ e, e = connectionStateChanged false
                 ∨ ∃ d, e = networkGet ("device/" +:+ d) ∧ d ≠ deviceId)
           (effectsOf run)
  ∧ (m_nam s = true → token s ≠ "" →
     m_failedV2DeviceFetch (stateOf (fetchV2ResourcesSnapshot after)) = ∅).
Proof.
  intros Hne reply run after. subst after run reply.
  rewrite failed_device_reply.
  rewrite !run_bind. cbn [resultOf stateOf effectsOf fst snd].
  set (s1 := stateOf ((if negb (m_stopping s) then setConnected false else skip) s)).
  assert (m_failedV2DeviceFetch s1 = m_failedV2DeviceFetch s
          ∧ m_pendingV2DeviceFetch s1 = m_pendingV2DeviceFetch s
          ∧ m_v2BootstrapDone s1 = m_v2BootstrapDone s
          ∧ m_nam s1 = m_nam s ∧ token s1 = token s
          ∧ Forall (λ e, e = connectionStateChanged false)
                   (effectsOf ((if negb (m_stopping s) then setConnected false else skip) s)))
    as (Hf1 & Hp1 & Hb1 & Hn1 & Ht1 & He1).
  { subst s1. destruct (negb (m_stopping s)); [|by repeat split].
    rewrite ConnectionFacts.setConnected_spec. case_bool_decide; [by repeat split|].
    repeat split. by repeat constructor. }
  set (s2 := stateOf (deviceFetchFailed deviceId s1)).
  assert (deviceFetchFailed deviceId s1
          = (tt, set_m_failedV2DeviceFetch ({[deviceId]} ∪ m_failedV2DeviceFetch s1)
                   (set_m_pendingV2DeviceFetch (m_pendingV2DeviceFetch s1 ∖ {[deviceId]}) s1),
             [])) as Hfail.
  { unfold deviceFetchFailed, isEmpty. rewrite bool_decide_eq_false_2 by exact Hne.
    act. reflexivity. }
  assert (deviceId ∈ m_failedV2DeviceFetch s2) as Hin2.
  { subst s2. rewrite Hfail. cbn. apply elem_of_union. left. by apply elem_of_singleton. }
  assert (deviceId ∉ m_pendingV2DeviceFetch s2) as Hout2.
  { subst s2. rewrite Hfail. cbn. intros Hin. apply elem_of_difference in Hin as [_ Hin].
    apply Hin. by apply elem_of_singleton. }
  assert (m_v2BootstrapDone s2 = m_v2BootstrapDone s ∧ m_nam s2 = m_nam s
          ∧ token s2 = token s) as (Hb2 & Hn2 & Ht2).
  { subst s2. rewrite Hfail. cbn. done. }
  destruct (startNext_failed s2) as (Hf3 & Hb3 & Hn3 & Ht3 & Hp3 & He3).
  set (s3 := stateOf (startNextQueuedV2DeviceFetch s2)) in *.
  assert (deviceId ∈ m_failedV2DeviceFetch s3) as Hin3 by (by rewrite Hf3).
  split; [exact Hin3|]. split; [intros Hin; by apply Hout2, Hp3|].
  split; [apply fetch_noop; right; by right|]. split.
  { unfold startV2DeviceFetch. act. destruct (negb (m_nam s3) || isEmpty deviceId);
      [reflexivity|]. by rewrite bool_decide_eq_true_2. }
  split; [congruence|]. split.
  { rewrite Hfail. cbn [effectsOf snd app]. apply Forall_app. split.
    - eapply Forall_impl; [exact He1|]. intros e ->. by left.
    - eapply Forall_impl; [exact He3|]. intros e (d & -> & Hd). right. exists d.
      split; [reflexivity|]. intros ->. done. }
  intros Hnam Htoken. unfold fetchV2ResourcesSnapshot. act.
  rewrite Hn3, Hn2, Hnam, Ht3, Ht2. cbn [negb]. unfold isEmpty.
  rewrite bool_decide_eq_false_2 by exact Htoken. act.
  rewrite requestSnapshots_failed. reflexivity.
Qed.

End Cycle.

(** The fetch of [dev-b] fails. *)
Lemma failed_device_fetch_not_retried_witness :
  "dev-b" ∈ m_failedV2DeviceFetch
              (stateOf (onNetworkReplyFinished skip Examples.noMerge
                          (Examples.failedReply "device/dev-b") Examples.startedAdapter))
  ∧ fetchV2DeviceResource "dev-b"
      (stateOf (onNetworkReplyFinished skip Examples.noMerge
                  (Examples.failedReply "device/dev-b") Examples.startedAdapter))
    = (tt,
       stateOf (onNetworkReplyFinished skip Examples.noMerge
                  (Examples.failedReply "device/dev-b") Examples.startedAdapter),
       []).
Proof.
  destruct (failed_device_fetch_not_retried skip Examples.noMerge "dev-b"
              Examples.startedAdapter) as (Hfailed & _ & Hnoop & _); [discriminate|].
  split; [exact Hfailed|exact Hnoop].
Defined.

End FailureFacts.

Module ParserFacts.
Import Qt QtFacts Sidecar.

(** X23. The sidecar reads a connectivity status and a button event as
    the plugin does after trimming and lower-casing the text: the status
    is the plugin's, except that a blank text gives no status where the
    plugin gives [Unknown]; the button code is the plugin's, and no code
    where the plugin gives [None].  The plugin's button mapping itself
    is exact: it does not know [ Initial_Press], which the sidecar
    reads as an initial press. *)
Theorem sidecar_parsers_normalize :
  (∀ resourceObj,
     let status := toString (value resourceObj "status") in
     parseConnectivityStatus resourceObj
     = if isEmpty (trimmed status) then None
       else Some match Plugin.connectivityStatusFromString status with
                 | Plugin.Connectivity.Connected => ConnectivityStatus.Connected
                 | Plugin.Connectivity.Disconnected => ConnectivityStatus.Disconnected
                 | Plugin.Connectivity.Limited => ConnectivityStatus.Limited
                 | Plugin.Connectivity.Unknown => ConnectivityStatus.Unknown
                 end)
  ∧ (∀ eventRaw,
       mapButtonEventCode eventRaw
       = match Plugin.mapHueV2ButtonEventToCode (toLower (trimmed eventRaw)) with
         | Plugin.InitialPress => Some ButtonEventCode.InitialPress
         | Plugin.LongPress => Some ButtonEventCode.LongPress
         | Plugin.Repeat => Some ButtonEventCode.Repeat
         | Plugin.ShortPressRelease => Some ButtonEventCode.ShortPressRelease
         | Plugin.LongPressRelease => Some ButtonEventCode.LongPressRelease
         | _ => None
         end)
  ∧ Plugin.mapHueV2ButtonEventToCode " Initial_Press" = Plugin.BtnNone
  ∧ mapButtonEventCode " Initial_Press" = Some ButtonEventCode.InitialPress.
Proof.
  split; [|split; [|split; reflexivity]].
  - intros resourceObj status. unfold parseConnectivityStatus, Plugin.connectivityStatusFromString.
    fold status. cbv zeta.
    assert (isEmpty (toLower (trimmed status)) = isEmpty (trimmed status)) as Hempty.
    { unfold isEmpty. by destruct (trimmed status). }
    rewrite Hempty. destruct (isEmpty (trimmed status)) eqn:Hblank.
    + unfold isEmpty in Hblank. apply bool_decide_eq_true in Hblank. rewrite Hblank.
      reflexivity.
    + cbn [negb].
      repeat match goal with |- context [if ?b then _ else _] => destruct b end;
        reflexivity.
  - intros eventRaw. unfold mapButtonEventCode, Plugin.mapHueV2ButtonEventToCode. cbv zeta.
    repeat case_bool_decide; reflexivity.
Qed.

End ParserFacts.

Module KeyFacts.
Import Qt QtFacts Plugin.

Lemma key_split a : ∀ a' b b',
  containsChar a "|" = false → containsChar a' "|" = false →
  a +:+ "|" +:+ b = a' +:+ "|" +:+ b' → a = a' ∧ b = b'.
Proof.
  induction a as [|c a IH]; intros [|c' a'] b b' Ha Ha' Heq.
  - cbn in Heq. by inversion Heq.
  - cbn in Heq. inversion Heq; subst. cbn in Ha'. discriminate.
  - cbn in Heq. inversion Heq; subst. cbn in Ha. discriminate.
  - change (String c a +:+ "|" +:+ b) with (String c (a +:+ "|" +:+ b)) in Heq.
    change (String c' a' +:+ "|" +:+ b') with (String c' (a' +:+ "|" +:+ b')) in Heq.
    inversion Heq; subst. cbn [containsChar] in Ha, Ha'.
    destruct (Ascii.eqb "|" c'); [discriminate|].
    destruct (IH a' b b' Ha Ha' H1) as [-> ->]. done.
Qed.

(** X24. The key of a channel binding tells the device and the channel
    apart as long as device ids hold no [|], and so does the key of a
    resource binding for resource types; with a [|] in the first part two
    different pairs can share a key. *)
Theorem binding_keys_injective :
  (∀ deviceExtId channelExtId deviceExtId' channelExtId',
     containsChar deviceExtId "|" = false → containsChar deviceExtId' "|" = false →
     channelBindingKey deviceExtId channelExtId
     = channelBindingKey deviceExtId' channelExtId' →
     deviceExtId = deviceExtId' ∧ channelExtId = channelExtId')
  ∧ (∀ resourceType resourceId resourceType' resourceId',
       containsChar resourceType "|" = false → containsChar resourceType' "|" = false →
       resourceBindingKey resourceType resourceId
       = resourceBindingKey resourceType' resourceId' →
       resourceType = resourceType' ∧ resourceId = resourceId')
  ∧ channelBindingKey "a|b" "c" = channelBindingKey "a" "b|c".
Proof.
  split; [|split; [|reflexivity]].
  - intros a b a' b'. unfold channelBindingKey. apply key_split.
  - intros a b a' b'. unfold resourceBindingKey. apply key_split.
Qed.

End KeyFacts.

Module EnsureFacts.
Import Qt QtFacts Sidecar SidecarFacts.

(** X25. [ensureDevice] keeps a snapshot keyed by device id.  It touches
    the entry of its device only: a missing entry becomes the
    placeholder named [Hue Device] with the fallback class; an entry that
    is there keeps everything, and its class too unless that is
    [Unknown] and the fallback is not.  Ensuring twice is ensuring
    once. *)
Theorem ensured_device_keeps_class devices deviceId fallbackClass :
  let ensured := ensureDevice devices deviceId fallbackClass in
  (keyedById devices → keyedById ensured)
  ∧ (∀ other, other ≠ deviceId → ensured !! other = devices !! other)
  ∧ (devices !! deviceId = None →
     ensured !! deviceId = Some (placeholder deviceId fallbackClass))
  ∧ (∀ entry, devices !! deviceId = Some entry →
       ensured !! deviceId
       = Some (if negb (isUnknownClass fallbackClass)
                  && isUnknownClass (Device.deviceClass (DeviceEntry.device entry))
               then withClass fallbackClass entry else entry))
  ∧ (∀ entry, devices !! deviceId = Some entry →
       isUnknownClass (Device.deviceClass (DeviceEntry.device entry)) = false →
       ensured = devices)
  ∧ ensureDevice ensured deviceId fallbackClass = ensured.
Proof.
  intros ensured. subst ensured. unfold ensureDevice.
  destruct (devices !! deviceId) as [entry|] eqn:Hlook.
  - destruct (negb (isUnknownClass fallbackClass)
              && isUnknownClass (Device.deviceClass (DeviceEntry.device entry))) eqn:Hcase.
    + apply andb_true_iff in Hcase as [Hfallback Hclass].
      split; [|split; [|split; [|split; [|split]]]].
      * intros Hkeyed key e He. destruct (decide (key = deviceId)) as [->|Hne].
        -- rewrite lookup_insert_eq in He. inversion He; subst. cbn.
           by apply Hkeyed.
        -- rewrite lookup_insert_ne in He by done. by apply Hkeyed.
      * intros other Hne. by rewrite lookup_insert_ne.
      * discriminate.
      * intros e He. inversion He; subst. by rewrite lookup_insert_eq, Hfallback, Hclass.
      * intros e He Hknown. inversion He; subst. congruence.
      * rewrite lookup_insert_eq. cbn [withClass DeviceEntry.device Device.deviceClass].
        apply negb_true_iff in Hfallback. rewrite Hfallback. cbn [negb andb]. reflexivity.
    + split; [done|]. split; [done|]. split; [done|].
      split; [|split; [done|by rewrite Hlook, Hcase]].
      intros e He. inversion He; subst. by rewrite Hlook, Hcase.
  - split; [|split; [|split; [|split; [|split]]]].
    + intros Hkeyed key e He. destruct (decide (key = deviceId)) as [->|Hne].
      * rewrite lookup_insert_eq in He. by inversion He; subst.
      * rewrite lookup_insert_ne in He by done. by apply Hkeyed.
    + intros other Hne. by rewrite lookup_insert_ne.
    + intros _. by rewrite lookup_insert_eq.
    + discriminate.
    + discriminate.
    + rewrite lookup_insert_eq. cbn [placeholder DeviceEntry.device Device.deviceClass].
      destruct (isUnknownClass fallbackClass); reflexivity.
Qed.

End EnsureFacts.

(* ===================================================================== *)
(** * The outcome of a poll of the sidecar *)
(* ===================================================================== *)

Module OutcomeFacts.
Import Qt QtFacts Sidecar SidecarFacts DeliveryFacts PollFacts.

Section Outcome.
Variable sink : Msg → bool.
Variable fetchResourceArray : string → string + QJsonArray.
Variable snapshotDevices : list QJsonArray → gmap string DeviceEntry.t.
Variable sendErrorText : string.

Lemma delivered_subset msgs m : m ∈ delivered sink msgs → m ∈ msgs.
Proof.
  induction msgs as [|m' msgs IH]; cbn [delivered]; [done|].
  destruct (sink m'); [|intros Hin; by apply elem_of_nil in Hin].
  intros [->|Hin]%elem_of_cons; [by left|right; by apply IH].
Qed.

Lemma no_sync_in_snapshot ts snapshot s : FullSyncCompleted ∉ snapshotMessages ts snapshot s.
Proof.
  unfold snapshotMessages, updateMessages, removeMessages. rewrite !elem_of_app.
  intros [Hin|[Hin|[Hin|[Hin|[Hin|[Hin|Hin]]]]]].
  - apply list_elem_of_fmap in Hin as (key & Heq & _). discriminate.
  - apply list_elem_of_In, in_flat_map in Hin as (kv & _ & Hin).
    unfold deviceMessages, channelValueMessages in Hin. destruct Hin as [Heq|Hin];
      [discriminate|].
    apply in_flat_map in Hin as (channel & _ & Hin).
    destruct (Channel.hasValue channel); [|done]. by destruct Hin.
  - apply list_elem_of_In, in_flat_map in Hin as (room & _ & Hin).
    destruct (isEmpty _); [done|]. by destruct Hin.
  - apply list_elem_of_In, in_flat_map in Hin as (old & _ & Hin).
    destruct (bool_decide _); [done|]. by destruct Hin.
  - apply list_elem_of_In, in_flat_map in Hin as (room & _ & Hin).
    destruct (isEmpty _); [done|]. by destruct Hin.
  - apply list_elem_of_In, in_flat_map in Hin as (old & _ & Hin).
    destruct (bool_decide _); [done|]. by destruct Hin.
  - apply list_elem_of_singleton in Hin. discriminate.
Qed.

(** The end of a poll whose snapshot was published. *)
Lemma publish_and_finish ts snapshot s1 :
  let run := (publishSnapshot sink ts snapshot ≫= λ ok : bool,
              if negb ok then mret (false, sendErrorText)
              else setConnectionState sink true;; send sink FullSyncCompleted;;
                   mret (true, "")) s1 in
  (resultOf run).1 = forallb sink (snapshotMessages ts snapshot s1)
  ∧ ((resultOf run).1 = true →
     m_connected (stateOf run) = true
     ∧ m_devices (stateOf run) = Snapshot.devices snapshot
     ∧ sentBy run
       = snapshotMessages ts snapshot s1
         ++ (if m_connected s1 then [] else delivered sink [ConnectionStateChanged true])
         ++ delivered sink [FullSyncCompleted])
  ∧ ((resultOf run).1 = false →
     m_devices (stateOf run) = m_devices s1
     ∧ m_connected (stateOf run) = m_connected s1
     ∧ sentBy run = delivered sink (snapshotMessages ts snapshot s1)).
Proof.
  intros run. subst run. rewrite op_bind.
  destruct (publishSnapshot_delivers sink ts snapshot s1) as [lights ->].
  cbn [resultOf stateOf sentBy fst snd].
  destruct (forallb sink (snapshotMessages ts snapshot s1)) eqn:Hall; cbn [negb].
  - rewrite op_bind. cbn [resultOf stateOf sentBy fst snd].
    rewrite op_bind. cbn [resultOf stateOf sentBy fst snd]. op.
    rewrite send_state.
    destruct (setConnectionState_spec sink true (publishedState snapshot s1))
      as (_ & Hconn & _).
    split; [reflexivity|]. split; [|discriminate]. intros _.
    split; [exact Hconn|]. split.
    + unfold setConnectionState. op. case_bool_decide; [reflexivity|]. op.
      rewrite op_bind. cbn [resultOf stateOf sentBy fst snd]. op. rewrite send_state.
      reflexivity.
    + rewrite (delivered_all sink _ Hall), app_nil_r. f_equal. f_equal.
      * unfold setConnectionState. op.
        change (m_connected (publishedState snapshot s1)) with (m_connected s1).
        destruct (m_connected s1); [reflexivity|].
        rewrite bool_decide_eq_false_2 by discriminate. op.
        rewrite op_bind. cbn [resultOf stateOf sentBy fst snd]. op.
        rewrite app_nil_r. unfold send. cbn [delivered]. by destruct (sink _).
      * unfold send. cbn [delivered]. by destruct (sink _).
  - op. rewrite app_nil_r. split; [reflexivity|]. split; [discriminate|]. intros _.
    by repeat split.
Qed.

(** X26. A poll of the sidecar succeeds exactly when a bridge host and
    an application key are configured, the five collections device,
    light, room, zone and scene are all fetched, and the host accepts
    every message of the snapshot.  A successful poll leaves the sidecar
    connected with the device table of the snapshot, having sent the
    snapshot's messages, then the connection change if it was not
    connected, then the end-of-sync notice, whose refusal does not make
    the poll fail.  A failed poll leaves the device table and the
    connection flag as they were, sends no end-of-sync notice, and has
    sent at most a leading part of the snapshot's messages. *)
Theorem poll_succeeds_iff ts s :
  let polled := pollBridge sink fetchResourceArray snapshotDevices sendErrorText ts s in
  let snapshot := polledSnapshot fetchResourceArray snapshotDevices in
  ((resultOf polled).1 = true
   ↔ isEmpty (effectiveHost (m_settings s)) = false
     ∧ isEmpty (trimmed (ConnectionSettings.appKey (m_settings s))) = false
     ∧ (∀ resourceType, resourceType ∈ coreTypes →
                        ∃ data, fetchResourceArray resourceType = inr data)
     ∧ forallb sink (snapshotMessages ts snapshot s) = true)
  ∧ ((resultOf polled).1 = true →
     m_connected (stateOf polled) = true
     ∧ m_devices (stateOf polled) = Snapshot.devices snapshot
     ∧ sentBy polled
       = snapshotMessages ts snapshot s
         ++ (if m_connected s then [] else delivered sink [ConnectionStateChanged true])
         ++ delivered sink [FullSyncCompleted])
  ∧ ((resultOf polled).1 = false →
     m_devices (stateOf polled) = m_devices s
     ∧ m_connected (stateOf polled) = m_connected s
     ∧ (FullSyncCompleted ∉ sentBy polled)
     ∧ ∃ rest, snapshotMessages ts snapshot s = sentBy polled ++ rest).
Proof.
  intros polled snapshot. subst polled. unfold pollBridge. op.
  assert (∀ failed error,
            failed ∈ coreTypes → fetchResourceArray failed = inl error →
            ¬ (∀ resourceType, resourceType ∈ coreTypes →
                               ∃ data, fetchResourceArray resourceType = inr data))
    as Hcore.
  { intros failed error Hin Hfailed Hall. destruct (Hall failed Hin) as [data Hdata].
    congruence. }
  assert (∀ (error : string) (P : Prop),
            ¬ P →
            (((false, error) : bool * string).1 = true
             ↔ isEmpty (effectiveHost (m_settings s)) = false
               ∧ isEmpty (trimmed (ConnectionSettings.appKey (m_settings s))) = false
               ∧ P ∧ forallb sink (snapshotMessages ts snapshot s) = true)
            ∧ (((false, error) : bool * string).1 = true →
               m_connected s = true
               ∧ m_devices s = Snapshot.devices snapshot
               ∧ [] = snapshotMessages ts snapshot s
                      ++ (if m_connected s then []
                          else delivered sink [ConnectionStateChanged true])
                      ++ delivered sink [FullSyncCompleted])
            ∧ (((false, error) : bool * string).1 = false →
               m_devices s = m_devices s ∧ m_connected s = m_connected s
               ∧ (FullSyncCompleted ∉ [])
               ∧ ∃ rest, snapshotMessages ts snapshot s = [] ++ rest)) as Hfail.
  { intros error P HP. split; [split; [discriminate|intros (_ & _ & HP' & _); done]|].
    split; [discriminate|]. intros _. repeat split; [apply not_elem_of_nil|by eexists]. }
  destruct (isEmpty (effectiveHost _)) eqn:Hhost.
  { op. split; [split; [discriminate|intros (H & _); discriminate]|].
    split; [discriminate|]. intros _. repeat split; [apply not_elem_of_nil|by eexists]. }
  destruct (isEmpty (trimmed _)) eqn:Hkey.
  { op. split; [split; [discriminate|intros (_ & H & _); discriminate]|].
    split; [discriminate|]. intros _. repeat split; [apply not_elem_of_nil|by eexists]. }
  destruct (fetchResourceArray "device") as [e|deviceData] eqn:Hdevice.
  { op. apply (Hfail e), (Hcore "device" e); [by left|done]. }
  destruct (fetchResourceArray "light") as [e|lightData] eqn:Hlight.
  { op. apply (Hfail e), (Hcore "light" e); [right; by left|done]. }
  cbv zeta.
  destruct (fetchResourceArray "room") as [e|roomData] eqn:Hroom.
  { op. apply (Hfail e), (Hcore "room" e); [do 2 right; by left|done]. }
  destruct (fetchResourceArray "zone") as [e|zoneData] eqn:Hzone.
  { op. apply (Hfail e), (Hcore "zone" e); [do 3 right; by left|done]. }
  destruct (fetchResourceArray "scene") as [e|sceneData] eqn:Hscene.
  { op. apply (Hfail e), (Hcore "scene" e); [do 4 right; by left|done]. }
  assert (buildSnapshot snapshotDevices deviceData lightData
            (fetchOrEmpty fetchResourceArray "motion")
            (fetchOrEmpty fetchResourceArray "tamper")
            (fetchOrEmpty fetchResourceArray "temperature")
            (fetchOrEmpty fetchResourceArray "light_level")
            (fetchOrEmpty fetchResourceArray "device_power")
            (fetchOrEmpty fetchResourceArray "button")
            (fetchOrEmpty fetchResourceArray "zigbee_connectivity")
            roomData zoneData sceneData = snapshot) as ->.
  { subst snapshot. unfold polledSnapshot, fetchOrEmpty.
    by rewrite Hdevice, Hlight, Hroom, Hzone, Hscene. }
  assert (∀ resourceType, resourceType ∈ coreTypes →
                          ∃ data, fetchResourceArray resourceType = inr data) as Hall.
  { intros t Ht. unfold coreTypes in Ht.
    repeat (apply elem_of_cons in Ht as [->|Ht]; [by eexists|]).
    by apply elem_of_nil in Ht. }
  assert (∀ s1,
            m_devices s1 = m_devices s → m_knownRooms s1 = m_knownRooms s →
            m_knownGroups s1 = m_knownGroups s → m_connected s1 = m_connected s →
            let run := (publishSnapshot sink ts snapshot ≫= λ ok : bool,
                        if negb ok then mret (false, sendErrorText)
                        else setConnectionState sink true;; send sink FullSyncCompleted;;
                             mret (true, "")) s1 in
            ((resultOf run).1 = true
             ↔ false = false ∧ false = false
               ∧ (∀ resourceType, resourceType ∈ coreTypes →
                                  ∃ data, fetchResourceArray resourceType = inr data)
               ∧ forallb sink (snapshotMessages ts snapshot s) = true)
            ∧ ((resultOf run).1 = true →
               m_connected (stateOf run) = true
               ∧ m_devices (stateOf run) = Snapshot.devices snapshot
               ∧ sentBy run
                 = snapshotMessages ts snapshot s
                   ++ (if m_connected s then []
                       else delivered sink [ConnectionStateChanged true])
                   ++ delivered sink [FullSyncCompleted])
            ∧ ((resultOf run).1 = false →
               m_devices (stateOf run) = m_devices s
               ∧ m_connected (stateOf run) = m_connected s
               ∧ (FullSyncCompleted ∉ sentBy run)
               ∧ ∃ rest, snapshotMessages ts snapshot s = sentBy run ++ rest)) as Hrest.
  { intros s1 Hd Hr Hg Hc run.
    assert (snapshotMessages ts snapshot s1 = snapshotMessages ts snapshot s) as Hmsgs.
    { unfold snapshotMessages, vanishedDevices. by rewrite Hd, Hr, Hg. }
    destruct (publish_and_finish ts snapshot s1) as (Hres & Hok & Hno).
    fold run in Hres, Hok, Hno. rewrite Hmsgs, ?Hc, ?Hd in *.
    split; [|split; [exact Hok|]].
    - rewrite Hres. split; [by intros ->|by intros (_ & _ & _ & ->)].
    - intros Hfalse. destruct (Hno Hfalse) as (H1 & H2 & H3).
      split; [exact H1|]. split; [exact H2|]. rewrite H3. split.
      + intros Hin. apply (no_sync_in_snapshot ts snapshot s), delivered_subset, Hin.
      + clear. induction (snapshotMessages ts snapshot s) as [|m msgs IH]; [by exists []|].
        cbn [delivered]. destruct (sink m); [|by eexists].
        destruct IH as [rest IH]. exists rest. cbn [app]. by rewrite <- IH. }
  destruct (fetchResourceArray "zigbee_device_discovery") as [e|discoveryData]; op.
  - by apply Hrest.
  - by apply Hrest.
Qed.

End Outcome.
End OutcomeFacts.

(* ===================================================================== *)
(** * The geometry of the gamut clamp *)
(* ===================================================================== *)

Module GeometryFacts.
Import Qt QtFacts Plugin.
Local Open Scope Q_scope.

Lemma Qltb_ge a b : Qltb a b = false ↔ b <= a.
Proof. unfold Qltb. rewrite negb_false_iff. apply Qle_bool_iff. Qed.

Lemma Qsquare_nonneg x : 0 <= x * x.
Proof. unfold Qle, Qmult. cbn. nia. Qed.

Lemma qBound_unit t :
  0 <= qBound 0 t 1 <= 1
  ∧ ((t < 0 ∧ qBound 0 t 1 = 0) ∨ (1 < t ∧ qBound 0 t 1 = 1)
     ∨ (0 <= t <= 1 ∧ qBound 0 t 1 = t)).
Proof.
  unfold qBound. cbn [Number.ltb Number_Q].
  destruct (Qltb t 0) eqn:E1.
  - apply Qltb_lt in E1. split; [lra|]. left. by split.
  - apply Qltb_ge in E1. destruct (Qltb 1 t) eqn:E2.
    + apply Qltb_lt in E2. split; [lra|]. right. left. by split.
    + apply Qltb_ge in E2. split; [lra|]. right. right. split; [lra|reflexivity].
Qed.

Lemma closest_onSegment p a b : onSegment a b (closestPointOnSegment p a b).
Proof.
  unfold closestPointOnSegment, onSegment.
  cbn [Number.leb Number.tiny Number.add Number.sub Number.mul Number.div Number.zero
       Number.one Number_Q].
  destruct (Qle_bool _ _).
  - exists 0. repeat split; try lra.
  - match goal with |- context [qBound 0 ?t 1] => destruct (qBound_unit t) as [[Hlo Hhi] _];
      exists (qBound 0 t 1) end.
    cbn [fst snd]. repeat split; try assumption; reflexivity.
Qed.

Lemma closest_nearest p a b q :
  (1 # 1000000000000) < edgeLength2 a b →
  onSegment a b q →
  dist2 p (closestPointOnSegment p a b) <= dist2 p q.
Proof.
  intros Hlen (s & Hs0 & Hs1 & Hq1 & Hq2).
  unfold closestPointOnSegment, dist2, edgeLength2 in *.
  cbn [Number.leb Number.tiny Number.add Number.sub Number.mul Number.div Number.zero
       Number.one Number_Q] in *.
  destruct a as [ax ay], b as [bx by_], p as [px py], q as [qx qy]. cbn [fst snd] in *.
  set (L := (bx - ax) * (bx - ax) + (by_ - ay) * (by_ - ay)) in *.
  set (d := (px - ax) * (bx - ax) + (py - ay) * (by_ - ay)).
  assert (Qle_bool L (1 # 1000000000000) = false) as ->.
  { destruct (Qle_bool L (1 # 1000000000000)) eqn:E; [|reflexivity].
    apply Qle_bool_iff in E. lra. }
  assert (0 < L) as HL by lra.
  assert (d / L * L == d) as Ht0 by (field; lra).
  destruct (qBound_unit (d / L)) as [_ Hcases].
  set (t0 := d / L) in *.
  cbn [fst snd]. rewrite Hq1, Hq2.
  set (t := qBound 0 t0 1) in *.
  assert ((px - (ax + (bx - ax) * s)) * (px - (ax + (bx - ax) * s))
          + (py - (ay + (by_ - ay) * s)) * (py - (ay + (by_ - ay) * s))
          - ((px - (ax + (bx - ax) * t)) * (px - (ax + (bx - ax) * t))
             + (py - (ay + (by_ - ay) * t)) * (py - (ay + (by_ - ay) * t)))
          == L * (s - t) * (s + t - 2 * t0)) as Hdiff.
  { transitivity (L * (s - t) * (s + t) - 2 * (s - t) * (t0 * L));
      [rewrite Ht0; unfold L, d; ring|ring]. }
  assert (0 <= L * (s - t) * (s + t - 2 * t0)) as Hsign.
  { destruct Hcases as [[Hneg Ht]|[[Hbig Ht]|[Hin Ht]]]; fold t in Ht; rewrite Ht.
    - assert (L * (s - 0) * (s + 0 - 2 * t0) == L * (s * (s - 2 * t0))) as -> by ring.
      apply Qmult_le_0_compat; [lra|]. apply Qmult_le_0_compat; lra.
    - assert (L * (s - 1) * (s + 1 - 2 * t0) == L * ((1 - s) * (2 * t0 - s - 1))) as -> by ring.
      apply Qmult_le_0_compat; [lra|]. apply Qmult_le_0_compat; lra.
    - assert (L * (s - t0) * (s + t0 - 2 * t0) == L * ((s - t0) * (s - t0))) as -> by ring.
      apply Qmult_le_0_compat; [lra|]. apply Qsquare_nonneg. }
  lra.
Qed.

(** The three areas of [pointInTriangle] add up to the area of the
    triangle, and weigh the corners. *)
Lemma areas_sum p a b c :
  signedArea p a b + signedArea p b c + signedArea p c a == signedArea a b c.
Proof.
  unfold signedArea.
  cbn [Number.half Number.add Number.sub Number.mul Number_Q]. ring.
Qed.

Lemma areas_weigh p a b c :
  signedArea a b c * p.1
  == signedArea p b c * a.1 + signedArea p c a * b.1 + signedArea p a b * c.1
  ∧ signedArea a b c * p.2
    == signedArea p b c * a.2 + signedArea p c a * b.2 + signedArea p a b * c.2.
Proof.
  unfold signedArea.
  cbn [Number.half Number.add Number.sub Number.mul Number_Q]. split; ring.
Qed.

Lemma areas_of_combination a b c p wa wb wc :
  wa + wb + wc == 1 →
  p.1 == wa * a.1 + wb * b.1 + wc * c.1 →
  p.2 == wa * a.2 + wb * b.2 + wc * c.2 →
  signedArea p a b == wc * signedArea a b c
  ∧ signedArea p b c == wa * signedArea a b c
  ∧ signedArea p c a == wb * signedArea a b c.
Proof.
  intros Hsum H1 H2. unfold signedArea.
  cbn [Number.half Number.add Number.sub Number.mul Number_Q].
  assert (wc == 1 - wa - wb) as Hwc by lra.
  rewrite H1, H2, Hwc. repeat split; ring.
Qed.

Lemma pointInTriangle_signs p a b c :
  pointInTriangle p a b c = true
  ↔ (0 <= signedArea p a b ∧ 0 <= signedArea p b c ∧ 0 <= signedArea p c a)
    ∨ (signedArea p a b <= 0 ∧ signedArea p b c <= 0 ∧ signedArea p c a <= 0).
Proof.
  unfold pointInTriangle. cbn [Number.ltb Number.zero Number_Q].
  rewrite negb_true_iff, andb_false_iff, !orb_false_iff, !Qltb_ge. tauto.
Qed.

Lemma pointInTriangle_inside p a b c :
  ¬ signedArea a b c == 0 →
  pointInTriangle p a b c = true ↔ inTriangle a b c p.
Proof.
  intros Harea. rewrite pointInTriangle_signs.
  pose proof (areas_sum p a b c) as Hsum.
  destruct (areas_weigh p a b c) as [Hx Hy].
  set (A1 := signedArea p a b) in *. set (A2 := signedArea p b c) in *.
  set (A3 := signedArea p c a) in *. set (T := signedArea a b c) in *.
  split.
  - intros Hsigns.
    assert (0 <= A2 / T ∧ 0 <= A3 / T ∧ 0 <= A1 / T) as (Ha & Hb & Hc).
    { destruct Hsigns as [(H1 & H2 & H3)|(H1 & H2 & H3)].
      - assert (0 < T) as HT by lra.
        assert (0 <= / T) by (apply Qinv_le_0_compat; lra).
        repeat split; apply Qmult_le_0_compat; assumption.
      - assert (T < 0) as HT by lra.
        assert (0 <= / - T) by (apply Qinv_le_0_compat; lra).
        assert (∀ x, x <= 0 → 0 <= x / T) as Hdiv.
        { intros x Hx0. assert (x / T == - x * / - T) as -> by (field; lra).
          apply Qmult_le_0_compat; [lra|assumption]. }
        repeat split; by apply Hdiv. }
    exists (A2 / T), (A3 / T), (A1 / T).
    split; [exact Ha|]. split; [exact Hb|]. split; [exact Hc|]. split; [|split].
    + assert (A2 / T + A3 / T + A1 / T == (A1 + A2 + A3) / T) as -> by (field; lra).
      rewrite Hsum. field. lra.
    + assert (A2 / T * a.1 + A3 / T * b.1 + A1 / T * c.1
              == (A2 * a.1 + A3 * b.1 + A1 * c.1) / T) as -> by (field; lra).
      rewrite <- Hx. field. lra.
    + assert (A2 / T * a.2 + A3 / T * b.2 + A1 / T * c.2
              == (A2 * a.2 + A3 * b.2 + A1 * c.2) / T) as -> by (field; lra).
      rewrite <- Hy. field. lra.
  - intros (wa & wb & wc & Ha & Hb & Hc & Hone & H1 & H2).
    destruct (areas_of_combination a b c p wa wb wc Hone H1 H2) as (E1 & E2 & E3).
    fold A1 in E1. fold A2 in E2. fold A3 in E3. fold T in E1, E2, E3.
    rewrite E1, E2, E3.
    destruct (Qlt_le_dec 0 T) as [HT|HT].
    + left. repeat split; apply Qmult_le_0_compat; lra.
    + right.
      assert (∀ w, 0 <= w → w * T <= 0) as Hneg.
      { intros w Hw. assert (0 <= w * - T) as Hprod by (apply Qmult_le_0_compat; lra).
        assert (w * - T == - (w * T)) as Heq by ring. rewrite Heq in Hprod. lra. }
      repeat split; by apply Hneg.
Qed.

Section Clamp.
Variable pointEq : (Q * Q) → (Q * Q) → bool.


End Clamp.


End GeometryFacts.

(* ===================================================================== *)
(** * The lazy fetch queue and the fetches under way *)
(* ===================================================================== *)

Module QueueFacts.
Import Qt Plugin QtFacts PluginFacts.

(** ** Fetches under way *)

Lemma deviceGetIds_start d : deviceGetIds [networkGet ("device/" +:+ d)] = [d].
Proof.
  unfold deviceGetIds. cbn [flat_map]. unfold startsWith.
  rewrite FailureFacts.prefix_append. cbn [app]. f_equal.
  change (mid ("device/" +:+ d) (String.length "device/")) with (mid d 0). by destruct d.
Qed.

Lemma removeOne_subset id l x : x ∈ removeOne id l → x ∈ l.
Proof.
  induction l as [|y l IH]; cbn [removeOne]; [done|].
  case_bool_decide; [by right|].
  intros [->|Hin]%elem_of_cons; [by left|right; by apply IH].
Qed.

Lemma removeOne_NoDup id l : NoDup l → NoDup (removeOne id l) ∧ (id ∉ removeOne id l).
Proof.
  induction 1 as [|y l Hy Hl IH]; cbn [removeOne]; [split; [constructor|apply not_elem_of_nil]|].
  case_bool_decide as Heq.
  - subst y. by split.
  - destruct IH as [IH1 IH2]. split.
    + constructor; [|exact IH1]. intros Hin. apply Hy. by apply (removeOne_subset id).
    + intros [->|Hin]%elem_of_cons; [done|by apply IH2].
Qed.

Lemma fetch_outcome id s : startsAtMostOne (fetchV2DeviceResource id s) s.
Proof.
  unfold startsAtMostOne, fetchV2DeviceResource. act.
  destruct (negb (m_nam s) || isEmpty id); [by left|].
  case_bool_decide; [by left|]. case_bool_decide as Hp; [by left|].
  case_bool_decide; [by left|].
  destruct (_ <=? _)%nat; [by left|].
  rewrite run_bind. cbn [stateOf effectsOf fst snd skip mret Act_ret]. rewrite app_nil_r.
  destruct (start_spec id s) as [(_ & -> & ->)|(_ & -> & ->)]; [by left|].
  right. exists id. by repeat split.
Qed.

Lemma drain_outcome q : ∀ s,
  (effectsOf (drainV2DeviceFetchQueue q s) = []
   ∧ m_pendingV2DeviceFetch (stateOf (drainV2DeviceFetchQueue q s))
     = m_pendingV2DeviceFetch s)
  ∨ ∃ d, effectsOf (drainV2DeviceFetchQueue q s) = [networkGet ("device/" +:+ d)]
         ∧ m_pendingV2DeviceFetch (stateOf (drainV2DeviceFetchQueue q s))
           = {[d]} ∪ m_pendingV2DeviceFetch s
         ∧ d ∉ m_pendingV2DeviceFetch s.
Proof.
  induction q as [|d q IH]; intros s; cbn [drainV2DeviceFetchQueue]; [by left|].
  act. destruct (_ <? _)%nat; [|by left]. act.
  destruct (isEmpty d); [apply (IH (set_m_v2DeviceFetchQueue q s))|].
  destruct (bool_decide (d ∈ m_failedV2DeviceFetch s));
    [apply (IH (set_m_v2DeviceFetchQueue q s))|].
  case_bool_decide as Hp; [apply (IH (set_m_v2DeviceFetchQueue q s))|].
  destruct (start_spec d (set_m_v2DeviceFetchQueue q s)) as [(_ & -> & ->)|(_ & -> & ->)];
    [by left|].
  right. exists d. by repeat split.
Qed.

Lemma startNext_outcome s : startsAtMostOne (startNextQueuedV2DeviceFetch s) s.
Proof.
  unfold startsAtMostOne, startNextQueuedV2DeviceFetch. act.
  destruct (negb (m_nam s)); [by left|].
  rewrite run_bind. cbn [stateOf effectsOf fst snd].
  assert (∀ s1,
            effectsOf ((if negb (resultOf (drainV2DeviceFetchQueue (m_v2DeviceFetchQueue s) s))
                        then skip
                        else s2 ← get;
                             if negb (bool_decide (m_v2DeviceFetchQueue s2 = []))
                                && (size (m_pendingV2DeviceFetch s2)
                                    <? kMaxConcurrentV2DeviceFetch)%nat
                                && negb (m_v2DeviceFetchTimer s2)
                             then modify (set_m_v2DeviceFetchTimer true) else skip) s1) = []
            ∧ m_pendingV2DeviceFetch
                (stateOf ((if negb (resultOf (drainV2DeviceFetchQueue
                                                (m_v2DeviceFetchQueue s) s))
                           then skip
                           else s2 ← get;
                                if negb (bool_decide (m_v2DeviceFetchQueue s2 = []))
                                   && (size (m_pendingV2DeviceFetch s2)
                                       <? kMaxConcurrentV2DeviceFetch)%nat
                                   && negb (m_v2DeviceFetchTimer s2)
                                then modify (set_m_v2DeviceFetchTimer true) else skip) s1))
              = m_pendingV2DeviceFetch s1) as Htimer.
  { intros s1. destruct (negb _); [by split|]. act. destruct (_ && _); by split. }
  destruct (Htimer (stateOf (drainV2DeviceFetchQueue (m_v2DeviceFetchQueue s) s)))
    as [-> ->].
  rewrite app_nil_r. apply drain_outcome.
Qed.

(** One event keeps the fetches under way duplicate-free and within the
    in-flight set. *)
Lemma step_outstanding ev s outstanding :
  ev ≠ SnapshotCycleStarted →
  NoDup outstanding →
  (∀ id, id ∈ outstanding → id ∈ m_pendingV2DeviceFetch s) →
  let run := fetchQueueStep ev s in
  let outstanding' := answeredBy ev outstanding ++ deviceGetIds (effectsOf run) in
  NoDup outstanding'
  ∧ ∀ id, id ∈ outstanding' → id ∈ m_pendingV2DeviceFetch (stateOf run).
Proof.
  intros Hev Hnodup Hsub run outstanding'. subst run outstanding'.
  assert (∀ (run : unit * HueAdapter * list Effect) s1 (left : list string),
            startsAtMostOne run s1 →
            NoDup left → (∀ id, id ∈ left → id ∈ m_pendingV2DeviceFetch s1) →
            NoDup (left ++ deviceGetIds (effectsOf run))
            ∧ ∀ id, id ∈ left ++ deviceGetIds (effectsOf run)
                    → id ∈ m_pendingV2DeviceFetch (stateOf run)) as Hone.
  { intros run s1 left [[-> ->]|(d & -> & -> & Hfresh)] Hleft Hin.
    - cbn [deviceGetIds flat_map]. rewrite app_nil_r. by split.
    - rewrite deviceGetIds_start. split.
      + apply NoDup_app. split; [exact Hleft|]. split; [|apply NoDup_singleton].
        intros x Hx Hd. apply list_elem_of_singleton in Hd as ->. by apply Hfresh, Hin.
      + intros id [Hid|Hid]%elem_of_app; apply elem_of_union.
        * right. by apply Hin.
        * left. apply list_elem_of_singleton in Hid as ->. by apply elem_of_singleton. }
  destruct ev as [id|id|id|id| |]; cbn [fetchQueueStep answeredBy]; [| | | | |done].
  - apply (Hone _ s); [apply fetch_outcome|exact Hnodup|exact Hsub].
  - rewrite run_bind. cbn [stateOf effectsOf fst snd].
    assert (effectsOf (deviceFetchSucceeded id s) = []) as ->
      by (unfold deviceFetchSucceeded; by destruct (isEmpty id)).
    cbn [app]. destruct (removeOne_NoDup id outstanding Hnodup) as [Hnd Hgone].
    apply (Hone _ (stateOf (deviceFetchSucceeded id s)));
      [apply startNext_outcome|exact Hnd|].
    intros x Hx. pose proof (removeOne_subset _ _ _ Hx) as Hx'.
    unfold deviceFetchSucceeded. destruct (isEmpty id); [by apply Hsub|]. cbn.
    apply elem_of_difference. split; [by apply Hsub|].
    intros Heq. apply elem_of_singleton in Heq as ->. by apply Hgone.
  - rewrite run_bind. cbn [stateOf effectsOf fst snd].
    assert (effectsOf (deviceFetchFailed id s) = []) as ->
      by (unfold deviceFetchFailed; by destruct (isEmpty id)).
    cbn [app]. destruct (removeOne_NoDup id outstanding Hnodup) as [Hnd Hgone].
    apply (Hone _ (stateOf (deviceFetchFailed id s)));
      [apply startNext_outcome|exact Hnd|].
    intros x Hx. pose proof (removeOne_subset _ _ _ Hx) as Hx'.
    unfold deviceFetchFailed. destruct (isEmpty id); [by apply Hsub|]. act. cbn.
    apply elem_of_difference. split; [by apply Hsub|].
    intros Heq. apply elem_of_singleton in Heq as ->. by apply Hgone.
  - cbn [deviceGetIds flat_map effectsOf snd skip mret Act_ret]. rewrite app_nil_r.
    destruct (removeOne_NoDup id outstanding Hnodup) as [Hnd _]. split; [exact Hnd|].
    intros x Hx. apply Hsub. by apply (removeOne_subset id).
  - unfold onV2DeviceFetchTimerTimeout. act.
    apply (Hone _ (set_m_v2DeviceFetchTimer false s));
      [apply startNext_outcome|exact Hnodup|exact Hsub].
Qed.

Lemma trace_outstanding evs : ∀ s outstanding,
  SnapshotCycleStarted ∉ evs →
  NoDup outstanding →
  (∀ id, id ∈ outstanding → id ∈ m_pendingV2DeviceFetch s) →
  NoDup (outstandingFetches evs s outstanding)
  ∧ ∀ id, id ∈ outstandingFetches evs s outstanding
          → id ∈ m_pendingV2DeviceFetch (stateOf (runActs (fetchQueueStep <$> evs) s)).
Proof.
  induction evs as [|ev evs IH]; intros s outstanding Hcycle Hnodup Hsub;
    cbn [outstandingFetches fmap list_fmap runActs]; [by split|].
  destruct (step_outstanding ev s outstanding) as [Hnd Hin]; [|exact Hnodup|exact Hsub|].
  { intros ->. apply Hcycle. by left. }
  rewrite run_bind. cbn [stateOf fst snd].
  apply IH; [|exact Hnd|exact Hin]. intros Hc. apply Hcycle. by right.
Qed.

Lemma fetch_starts id s :
  m_nam s = true → token s ≠ "" → id ≠ "" →
  ¬ (id ∈ m_pendingV2DeviceFetch s ∨ id ∈ m_v2DeviceFetchQueue s
     ∨ id ∈ m_failedV2DeviceFetch s) →
  (size (m_pendingV2DeviceFetch s) < 4)%nat →
  fetchV2DeviceResource id s
  = (tt, set_m_pendingV2DeviceFetch ({[id]} ∪ m_pendingV2DeviceFetch s) s,
     [networkGet ("device/" +:+ id)]).
Proof.
  intros Hn Ht He Hnew Hcap. unfold fetchV2DeviceResource. act.
  rewrite Hn. unfold isEmpty. rewrite !bool_decide_eq_false_2 by tauto. cbn [negb orb].
  assert ((kMaxConcurrentV2DeviceFetch <=? size (m_pendingV2DeviceFetch s))%nat = false) as ->.
  { apply Nat.leb_gt. unfold kMaxConcurrentV2DeviceFetch. lia. }
  rewrite run_bind. unfold startV2DeviceFetch. act. rewrite Hn. unfold isEmpty.
  rewrite !bool_decide_eq_false_2 by tauto. cbn [negb orb]. act. reflexivity.
Qed.

Lemma reply_starts_next (answered : bool) id s d rest :
  m_nam s = true → token s ≠ "" → id ≠ "" →
  id ∈ m_pendingV2DeviceFetch s →
  (size (m_pendingV2DeviceFetch s) ≤ 4)%nat →
  m_v2DeviceFetchQueue s = d :: rest →
  d ≠ "" → d ≠ id → d ∉ m_failedV2DeviceFetch s → d ∉ m_pendingV2DeviceFetch s →
  let run := fetchQueueStep (if answered then DeviceFetchAnswered id
                             else DeviceFetchFailed id) s in
  effectsOf run = [networkGet ("device/" +:+ d)]
  ∧ m_v2DeviceFetchQueue (stateOf run) = rest
  ∧ m_pendingV2DeviceFetch (stateOf run) = {[d]} ∪ (m_pendingV2DeviceFetch s ∖ {[id]})
  ∧ (size (m_pendingV2DeviceFetch (stateOf run)) ≤ 4)%nat.
Proof.
  intros Hn Ht He Hid Hcap Hq Hd Hdid Hdf Hdp run. subst run.
  assert (size (m_pendingV2DeviceFetch s ∖ {[id]}) < 4)%nat as Hfree.
  { assert (size (m_pendingV2DeviceFetch s)
            = size ({[id]} : gset string) + size (m_pendingV2DeviceFetch s ∖ {[id]}))%nat
      as Hsplit.
    { rewrite <- size_union.
      2:{ apply elem_of_disjoint. intros x Hx1 Hx2.
          apply elem_of_difference in Hx2 as [_ Hx2]. by apply Hx2. }
      f_equal. apply set_eq. intros x. split.
      - intros Hx. apply elem_of_union. destruct (decide (x = id)) as [->|Hne].
        + left. by apply elem_of_singleton.
        + right. apply elem_of_difference. split; [exact Hx|].
          intros Hc. by apply elem_of_singleton in Hc.
      - intros [Hx|Hx]%elem_of_union.
        + by apply elem_of_singleton in Hx as ->.
        + by apply elem_of_difference in Hx as [Hx _]. }
    rewrite size_singleton in Hsplit. lia. }
  assert (∀ s1,
            m_nam s1 = true → token s1 ≠ "" →
            m_pendingV2DeviceFetch s1 = m_pendingV2DeviceFetch s ∖ {[id]} →
            m_v2DeviceFetchQueue s1 = d :: rest →
            d ∉ m_failedV2DeviceFetch s1 →
            effectsOf (startNextQueuedV2DeviceFetch s1) = [networkGet ("device/" +:+ d)]
            ∧ m_v2DeviceFetchQueue (stateOf (startNextQueuedV2DeviceFetch s1)) = rest
            ∧ m_pendingV2DeviceFetch (stateOf (startNextQueuedV2DeviceFetch s1))
              = {[d]} ∪ (m_pendingV2DeviceFetch s ∖ {[id]})
            ∧ (size (m_pendingV2DeviceFetch (stateOf (startNextQueuedV2DeviceFetch s1)))
               ≤ 4)%nat) as Hnext.
  { intros s1 Hn1 Ht1 Hp1 Hq1 Hf1.
    destruct (startNext_fifo s1 [] d rest) as (Heff & Hqueue & Hpend);
      [exact Hn1|exact Ht1|unfold pendingCount; by rewrite Hp1|exact Hq1|constructor| |].
    { unfold ineligible. rewrite Hp1. intros [?|[?|Hin]]; [done|done|].
      apply elem_of_difference in Hin as [Hin _]. done. }
    rewrite Hp1 in Hpend. split; [exact Heff|]. split; [exact Hqueue|].
    split; [exact Hpend|]. rewrite Hpend.
    pose proof (size_insert_le d (m_pendingV2DeviceFetch s ∖ {[id]})). lia. }
  assert (isEmpty id = false) as Hne by (by apply bool_decide_eq_false_2).
  destruct answered; cbn [fetchQueueStep]; rewrite run_bind; cbn [stateOf effectsOf fst snd].
  - unfold deviceFetchSucceeded. rewrite Hne. cbn [effectsOf stateOf modify fst snd app].
    by apply Hnext.
  - unfold deviceFetchFailed. rewrite Hne. act. cbn [app].
    apply Hnext; try done. cbn. intros [Hin|Hin]%elem_of_union; [|done].
    apply elem_of_singleton in Hin. done.
Qed.

(** C9, as the code has it.  The lazy device-metadata fetch is
    idempotent: a request for a device that is in flight, queued or known
    to have failed changes nothing and sends nothing, and so does any
    repeated request.  A new request that finds fewer than 4 devices in
    flight sends its GET at once and puts the device in flight; one that
    finds 4 joins the tail of the queue without sending anything.
    [startNextQueuedV2DeviceFetch] starts the first eligible queue entry,
    only that one, and leaves the entries behind it in order; the reply
    to a fetch, answered or failed, takes its device out of the in-flight
    set and starts the head of the queue.  Along every sequence of queue
    events at most 4 devices are in the in-flight set, and as long as no
    snapshot cycle starts every fetch under way is in that set, so at
    most 4 are under way. *)
Theorem lazy_fetch_queue_contract :
  (∀ s id,
     id ∈ m_pendingV2DeviceFetch s ∨ id ∈ m_v2DeviceFetchQueue s
     ∨ id ∈ m_failedV2DeviceFetch s →
     fetchV2DeviceResource id s = (tt, s, []))
  ∧ (∀ s id,
       fetchV2DeviceResource id (stateOf (fetchV2DeviceResource id s))
       = (tt, stateOf (fetchV2DeviceResource id s), []))
  ∧ (∀ s id,
       m_nam s = true → token s ≠ "" → id ≠ "" →
       ¬ (id ∈ m_pendingV2DeviceFetch s ∨ id ∈ m_v2DeviceFetchQueue s
          ∨ id ∈ m_failedV2DeviceFetch s) →
       (size (m_pendingV2DeviceFetch s) < 4)%nat →
       fetchV2DeviceResource id s
       = (tt, set_m_pendingV2DeviceFetch ({[id]} ∪ m_pendingV2DeviceFetch s) s,
          [networkGet ("device/" +:+ id)]))
  ∧ (∀ s id,
       m_nam s = true → id ≠ "" →
       ¬ (id ∈ m_pendingV2DeviceFetch s ∨ id ∈ m_v2DeviceFetchQueue s
          ∨ id ∈ m_failedV2DeviceFetch s) →
       (4 ≤ size (m_pendingV2DeviceFetch s))%nat →
       fetchV2DeviceResource id s
       = (tt, set_m_v2DeviceFetchQueue (m_v2DeviceFetchQueue s ++ [id]) s, []))
  ∧ (∀ s skipped d rest,
       m_nam s = true → token s ≠ "" →
       (size (m_pendingV2DeviceFetch s) < 4)%nat →
       m_v2DeviceFetchQueue s = skipped ++ d :: rest →
       Forall (ineligible s) skipped →
       ¬ ineligible s d →
       effectsOf (startNextQueuedV2DeviceFetch s) = [networkGet ("device/" +:+ d)]
       ∧ m_v2DeviceFetchQueue (stateOf (startNextQueuedV2DeviceFetch s)) = rest
       ∧ m_pendingV2DeviceFetch (stateOf (startNextQueuedV2DeviceFetch s))
         = {[d]} ∪ m_pendingV2DeviceFetch s)
  ∧ (∀ s, (length (effectsOf (startNextQueuedV2DeviceFetch s)) ≤ 1)%nat)
  ∧ (∀ (answered : bool) s id d rest,
       m_nam s = true → token s ≠ "" → id ≠ "" →
       id ∈ m_pendingV2DeviceFetch s →
       (size (m_pendingV2DeviceFetch s) ≤ 4)%nat →
       m_v2DeviceFetchQueue s = d :: rest →
       d ≠ "" → d ≠ id → d ∉ m_failedV2DeviceFetch s → d ∉ m_pendingV2DeviceFetch s →
       let run := fetchQueueStep (if answered then DeviceFetchAnswered id
                                  else DeviceFetchFailed id) s in
       effectsOf run = [networkGet ("device/" +:+ d)]
       ∧ m_v2DeviceFetchQueue (stateOf run) = rest
       ∧ m_pendingV2DeviceFetch (stateOf run)
         = {[d]} ∪ (m_pendingV2DeviceFetch s ∖ {[id]})
       ∧ (size (m_pendingV2DeviceFetch (stateOf run)) ≤ 4)%nat)
  ∧ (∀ evs s,
       (size (m_pendingV2DeviceFetch s) ≤ 4)%nat →
       (size (m_pendingV2DeviceFetch (stateOf (runActs (fetchQueueStep <$> evs) s))) ≤ 4)%nat)
  ∧ (∀ evs s outstanding,
       SnapshotCycleStarted ∉ evs →
       NoDup outstanding →
       (∀ id, id ∈ outstanding → id ∈ m_pendingV2DeviceFetch s) →
       (size (m_pendingV2DeviceFetch s) ≤ 4)%nat →
       NoDup (outstandingFetches evs s outstanding)
       ∧ (∀ id, id ∈ outstandingFetches evs s outstanding
                → id ∈ m_pendingV2DeviceFetch
                         (stateOf (runActs (fetchQueueStep <$> evs) s)))
       ∧ (length (outstandingFetches evs s outstanding) ≤ 4)%nat).
Proof.
  split; [exact fetch_noop|].
  split; [intros s id; apply fetch_idempotent|].
  split; [intros s id; apply fetch_starts|].
  split; [intros s id; apply fetch_enqueues|].
  split; [exact startNext_fifo|]. split; [exact startNext_effects|].
  split; [intros answered s id d rest; apply reply_starts_next|].
  split; [exact run_bound|].
  intros evs s outstanding Hcycle Hnodup Hsub Hcap.
  destruct (trace_outstanding evs s outstanding Hcycle Hnodup Hsub) as [Hnd Hin].
  split; [exact Hnd|]. split; [exact Hin|].
  pose proof (run_bound evs s Hcap) as Hbound. unfold pendingCount in Hbound.
  unfold kMaxConcurrentV2DeviceFetch in Hbound.
  assert (length (outstandingFetches evs s outstanding)
          ≤ size (m_pendingV2DeviceFetch (stateOf (runActs (fetchQueueStep <$> evs) s))))%nat;
    [|lia].
  rewrite <- (size_list_to_set (C:=gset string) _ Hnd).
  apply subseteq_size. intros x Hx. apply elem_of_list_to_set in Hx. by apply Hin.
Qed.

(** The contract on concrete runs: a first request starts at once; with
    four fetches in flight the answer of [dev-a] starts the head of the
    queue; along [fetchEvents] the fetches under way are the four in the
    in-flight set. *)
Lemma lazy_fetch_queue_contract_witness :
  effectsOf (fetchV2DeviceResource "dev-a" Examples.startedAdapter)
  = [networkGet "device/dev-a"]
  ∧ effectsOf (fetchQueueStep (DeviceFetchAnswered "dev-a") Examples.adapterAtCap)
    = [networkGet "device/dev-e"]
  ∧ m_v2DeviceFetchQueue
      (stateOf (fetchQueueStep (DeviceFetchAnswered "dev-a") Examples.adapterAtCap))
    = ["dev-f"]
  ∧ (length (outstandingFetches Examples.fetchEvents Examples.startedAdapter []) ≤ 4)%nat.
Proof.
  destruct lazy_fetch_queue_contract
    as (_ & _ & Hstart & _ & _ & _ & Hreply & _ & Htrace).
  split; [|split; [|split]].
  - rewrite (Hstart Examples.startedAdapter "dev-a"); [reflexivity|reflexivity|discriminate|
      discriminate| |vm_compute; lia].
    apply (bool_decide_eq_false_1
             ("dev-a" ∈ m_pendingV2DeviceFetch Examples.startedAdapter
              ∨ "dev-a" ∈ m_v2DeviceFetchQueue Examples.startedAdapter
              ∨ "dev-a" ∈ m_failedV2DeviceFetch Examples.startedAdapter)).
    vm_compute. reflexivity.
  - destruct (Hreply true Examples.adapterAtCap "dev-a" "dev-e" ["dev-f"]) as (He & _);
      [reflexivity|discriminate|discriminate| |vm_compute; lia|reflexivity|discriminate|
       discriminate| | |exact He].
    + apply (bool_decide_eq_true_1 _). vm_compute. reflexivity.
    + apply (bool_decide_eq_false_1 ("dev-e" ∈ m_failedV2DeviceFetch Examples.adapterAtCap)).
      vm_compute. reflexivity.
    + apply (bool_decide_eq_false_1 ("dev-e" ∈ m_pendingV2DeviceFetch Examples.adapterAtCap)).
      vm_compute. reflexivity.
  - destruct (Hreply true Examples.adapterAtCap "dev-a" "dev-e" ["dev-f"]) as (_ & Hq & _);
      [reflexivity|discriminate|discriminate| |vm_compute; lia|reflexivity|discriminate|
       discriminate| | |exact Hq].
    + apply (bool_decide_eq_true_1 _). vm_compute. reflexivity.
    + apply (bool_decide_eq_false_1 ("dev-e" ∈ m_failedV2DeviceFetch Examples.adapterAtCap)).
      vm_compute. reflexivity.
    + apply (bool_decide_eq_false_1 ("dev-e" ∈ m_pendingV2DeviceFetch Examples.adapterAtCap)).
      vm_compute. reflexivity.
  - destruct (Htrace Examples.fetchEvents Examples.startedAdapter []) as (_ & _ & Hlen);
      [|constructor|intros id Hid; by apply elem_of_nil in Hid|vm_compute; lia|exact Hlen].
    unfold Examples.fetchEvents. rewrite !not_elem_of_cons.
    repeat split; try discriminate. apply not_elem_of_nil.
Defined.

(** C9 as stated fails.  The cap is kept on the in-flight set, and a new
    snapshot cycle clears that set without aborting the requests: four
    fetches are started, the cycle restarts before any reply, and four
    more are started, so eight device fetches are under way while the
    in-flight set holds four. *)
Lemma cycle_start_forgets_fetches :
  outstandingFetches Examples.fetchesAcrossCycles Examples.startedAdapter []
  = ["dev-a"; "dev-b"; "dev-c"; "dev-d"; "dev-e"; "dev-f"; "dev-g"; "dev-h"]
  ∧ size (m_pendingV2DeviceFetch
            (stateOf (runActs (fetchQueueStep <$> Examples.fetchesAcrossCycles)
                              Examples.startedAdapter))) = 4%nat.
Proof. split; vm_compute; reflexivity. Qed.

End QueueFacts.

(* ===================================================================== *)
(** * Devices that left the bridge *)
(* ===================================================================== *)

Module AbsenceFacts.
Import Qt QtFacts.

(** ** The sidecar, whatever the host accepts *)

Section SidecarPasses.
Import Sidecar SidecarFacts DeliveryFacts.

Lemma delivered_prefix sink msgs : ∃ rest, msgs = delivered sink msgs ++ rest.
Proof.
  induction msgs as [|m msgs [rest IH]]; [by exists []|]. cbn [delivered].
  destruct (sink m); [|by eexists]. exists rest. cbn [app]. by rewrite <- IH.
Qed.

Lemma filter_prefix_nil {A} (f : A → bool) (sent rest : list A) :
  List.filter f (sent ++ rest) = [] → List.filter f sent = [].
Proof. rewrite List.filter_app. by intros [-> _]%app_eq_nil. Qed.

Lemma filter_prefix_one {A} (f : A → bool) (sent rest : list A) x :
  List.filter f (sent ++ rest) = [x] → List.filter f sent = [] ∨ List.filter f sent = [x].
Proof.
  rewrite List.filter_app. destruct (List.filter f sent) as [|y l]; [by left|].
  cbn [app]. intros Heq. injection Heq as -> Hnil.
  apply app_eq_nil in Hnil as [-> _]. by right.
Qed.

Lemma removedIds_sent_app (a b : list Msg) : removedIds (a ++ b) = removedIds a ++ removedIds b.
Proof. apply flat_map_app. Qed.

Lemma absent_device_any_host sink ts snapshot s d :
  keyedById (Snapshot.devices snapshot) →
  d ∈ dom (m_devices s) →
  d ∉ dom (Snapshot.devices snapshot) →
  let first := publishSnapshot sink ts snapshot s in
  (List.filter (concerns d) (sentBy first) = []
   ∨ List.filter (concerns d) (sentBy first) = [DeviceRemoved d])
  ∧ (resultOf first = true →
     List.filter (concerns d) (sentBy first) = [DeviceRemoved d]
     ∧ m_devices (stateOf first) !! d = None
     ∧ m_lightResourceByDevice (stateOf first) !! d = None
     ∧ ∀ sink' ts',
         let second := publishSnapshot sink' ts' snapshot (stateOf first) in
         List.filter (concerns d) (sentBy second) = []
         ∧ removedIds (sentBy second) = [])
  ∧ (resultOf first = false →
     m_devices (stateOf first) = m_devices s
     ∧ ∀ sink' ts',
         (∀ key, sink' (DeviceRemoved key) = true) →
         DeviceRemoved d ∈ sentBy (publishSnapshot sink' ts' snapshot (stateOf first))).
Proof.
  intros Hkeyed Hin Hout first. subst first.
  destruct (publishSnapshot_delivers sink ts snapshot s) as [lights ->].
  cbn [resultOf stateOf sentBy fst snd].
  assert (Hnone : Snapshot.devices snapshot !! d = None) by (by apply not_elem_of_dom).
  assert (List.filter (concerns d) (snapshotMessages ts snapshot s) = [DeviceRemoved d])
    as Hall.
  { rewrite concerns_snapshotMessages by assumption.
    apply concerns_removed_once; [apply vanishedDevices_NoDup|].
    by apply elem_of_vanishedDevices. }
  split; [|split].
  - destruct (delivered_prefix sink (snapshotMessages ts snapshot s)) as [rest Hrest].
    rewrite Hrest in Hall. by apply (filter_prefix_one _ _ rest).
  - intros Hok. rewrite Hok. rewrite (delivered_all sink _ Hok).
    split; [exact Hall|]. split; [exact Hnone|]. split.
    { cbn. unfold nextLightByDevice. by rewrite lookup_omap, Hnone. }
    intros sink' ts'.
    destruct (publishSnapshot_delivers sink' ts' snapshot (publishedState snapshot s))
      as [lights' ->].
    cbn [sentBy snd].
    destruct (delivered_prefix sink'
                (snapshotMessages ts' snapshot (publishedState snapshot s))) as [rest Hrest].
    split.
    + apply (filter_prefix_nil _ _ rest). rewrite <- Hrest.
      rewrite concerns_snapshotMessages by assumption.
      by rewrite vanishedDevices_published.
    + pose proof (removedIds_snapshotMessages ts' snapshot (publishedState snapshot s))
        as Hids.
      rewrite vanishedDevices_published, Hrest, removedIds_sent_app in Hids.
      by apply app_eq_nil in Hids as [-> _].
  - intros Hfail. rewrite Hfail. split; [reflexivity|].
    intros sink' ts' Haccepts.
    destruct (publishSnapshot_delivers sink' ts' snapshot
                (set_m_lightResourceByDevice lights s)) as [lights' ->].
    cbn [sentBy snd]. unfold snapshotMessages. rewrite delivered_app.
    assert (forallb sink'
              (DeviceRemoved <$> vanishedDevices snapshot
                                   (set_m_lightResourceByDevice lights s)) = true) as ->.
    { apply forallb_forall. intros m Hm. apply list_elem_of_In, list_elem_of_fmap in Hm
        as (key & -> & _). apply Haccepts. }
    apply elem_of_app. left. apply list_elem_of_fmap. exists d. split; [reflexivity|].
    by apply elem_of_vanishedDevices.
Qed.

End SidecarPasses.

(** ** The plugin: the removal block and the seeding of light states *)

Section PluginSeeding.
Import Plugin PluginFacts.
Variable colorVariant : Q → Q → QVariant.
Variable nowMs : Z.

Lemma channelValueIds_app a b :
  channelValueIds (a ++ b) = channelValueIds a ++ channelValueIds b.
Proof. apply flat_map_app. Qed.

Lemma fetch_no_values id s :
  channelValueIds (effectsOf (fetchV2DeviceResource id s)) = []
  ∧ removedIds (effectsOf (fetchV2DeviceResource id s)) = [].
Proof.
  destruct (QueueFacts.fetch_outcome id s) as [[-> _]|(d & -> & _)]; by split.
Qed.

(** The owner closure returns no id for no owner, an id with an entry,
    or the owner itself, which then has an entry. *)
Lemma deviceForHueOwner_spec ownerId s :
  let run := deviceForHueOwner ownerId s in
  channelValueIds (effectsOf run) = []
  ∧ removedIds (effectsOf run) = []
  ∧ m_knownDeviceExternalIds (stateOf run) = m_knownDeviceExternalIds s
  ∧ ((ownerId = "" ∧ resultOf run = "" ∧ m_v2Devices (stateOf run) = m_v2Devices s)
     ∨ (resultOf run ≠ "" ∧ resultOf run ∈ dom (m_v2Devices s)
        ∧ resultOf run = default "" (m_deviceIdToExternalId s !! ownerId)
        ∧ m_v2Devices (stateOf run) = m_v2Devices s)
     ∨ (ownerId ≠ "" ∧ resultOf run = ownerId
        ∧ m_v2Devices (stateOf run)
          = <[ownerId := (let device := default Device.empty (m_v2Devices s !! ownerId) in
                          if isEmpty (Device.id device) then Device.set_id ownerId device
                          else device)]> (m_v2Devices s))).
Proof.
  intros run. subst run. unfold deviceForHueOwner.
  destruct (isEmpty ownerId) eqn:Howner.
  { cbn. repeat split. left. unfold isEmpty in Howner.
    by apply bool_decide_eq_true in Howner. }
  act. destruct (negb (isEmpty _) && bool_decide _) eqn:Hmapped.
  { act. cbn. repeat split. right. left.
    apply andb_true_iff in Hmapped as [Hne Hin].
    apply negb_true_iff in Hne. unfold isEmpty in Hne. apply bool_decide_eq_false in Hne.
    apply bool_decide_eq_true in Hin. done. }
  cbn zeta. act.
  set (device := if isEmpty _ then _ else _).
  set (s1 := set_m_v2Devices _ s).
  assert (∃ s2, (∀ (k : unit → Act string),
                   ((if negb (bool_decide (ownerId ∈ dom (m_v2DeviceInfoCache s)))
                     then modify (λ s, set_m_v2DeviceInfoCache
                                         (<[ownerId := device]> (m_v2DeviceInfoCache s)) s)
                     else skip) ≫= k) s1 = k tt s2)
                ∧ m_v2Devices s2 = m_v2Devices s1
                ∧ m_knownDeviceExternalIds s2 = m_knownDeviceExternalIds s)
    as (s2 & Hk & Hd2 & Hk2).
  { destruct (bool_decide (ownerId ∈ dom (m_v2DeviceInfoCache s))); cbn [negb].
    - exists s1. split; [intros k; by rewrite run_skip_bind|]. by split.
    - eexists. split; [intros k; by rewrite run_modify_bind|]. by split. }
  rewrite Hk. act. rewrite run_bind. act.
  destruct (fetch_no_values ownerId
              (set_m_deviceIdToExternalId (<[ownerId:=ownerId]> (m_deviceIdToExternalId s2)) s2))
    as [Hv Hr].
  pose proof (EmissionFacts.fetch_sameTables ownerId
                (set_m_deviceIdToExternalId (<[ownerId:=ownerId]> (m_deviceIdToExternalId s2))
                                            s2)) as (Hdev & _ & _ & Hknown & _).
  rewrite app_nil_r. split; [exact Hv|]. split; [exact Hr|].
  split; [rewrite Hknown; exact Hk2|].
  right. right. unfold isEmpty in Howner. apply bool_decide_eq_false in Howner.
  split; [exact Howner|]. split; [reflexivity|]. rewrite Hdev. cbn. rewrite Hd2. reflexivity.
Qed.

(** An owner without an entry, mapped to itself if at all, gets a
    placeholder under its own id. *)
Lemma deviceForHueOwner_placeholder d s :
  d ≠ "" →
  m_v2Devices s !! d = None →
  (∀ e, m_deviceIdToExternalId s !! d = Some e → e = d) →
  resultOf (deviceForHueOwner d s) = d
  ∧ m_v2Devices (stateOf (deviceForHueOwner d s)) !! d = Some (Device.set_id d Device.empty).
Proof.
  intros Hd Hnone Hmap.
  destruct (deviceForHueOwner_spec d s)
    as (_ & _ & _ & [(Hempty & _)|[(Hne & Hin & Hres & _)|(_ & Hres & Hdev)]]).
  - done.
  - exfalso. rewrite Hres in Hne, Hin.
    destruct (m_deviceIdToExternalId s !! d) as [e|] eqn:He; cbn in Hne, Hin; [|done].
    rewrite (Hmap e eq_refl) in Hin. apply elem_of_dom in Hin as [x Hx]. congruence.
  - split; [exact Hres|]. rewrite Hdev, lookup_insert_eq, Hnone. reflexivity.
Qed.

Lemma lightStateValues_ids id resObj x :
  x ∈ channelValueIds (lightStateValues colorVariant nowMs id resObj) → x = id.
Proof.
  unfold lightStateValues. cbn zeta. rewrite !channelValueIds_app.
  repeat match goal with |- context [if ?b then _ else _] => destruct b end;
    cbn [channelValueIds flat_map app]; rewrite ?elem_of_cons, elem_of_nil; tauto.
Qed.

Lemma lightStateValues_removed id resObj :
  removedIds (lightStateValues colorVariant nowMs id resObj) = [].
Proof.
  unfold lightStateValues. cbn zeta. unfold removedIds. rewrite !flat_map_app.
  repeat match goal with |- context [if ?b then _ else _] => destruct b end; reflexivity.
Qed.

Lemma lightStateValues_on id resObj :
  contains (toObject (value resObj "on")) "on" = true →
  channelStateUpdated id "on" (VBool (toBool (value (toObject (value resObj "on")) "on") false))
                      nowMs
  ∈ lightStateValues colorVariant nowMs id resObj.
Proof. intros Hon. unfold lightStateValues. cbn zeta. rewrite Hon. by left. Qed.

Lemma seedLightState_eq val s :
  isObject val = true →
  toString (value (toObject (value (toObject val) "owner")) "rtype") = "device" →
  let owner := deviceForHueOwner
                 (toString (value (toObject (value (toObject val) "owner")) "rid")) s in
  seedLightState colorVariant nowMs val s
  = (tt, stateOf owner,
     effectsOf owner
     ++ (if isEmpty (resultOf owner) then []
         else lightStateValues colorVariant nowMs (resultOf owner) (toObject val))).
Proof.
  intros Hobj Htype owner. subst owner. unfold seedLightState.
  rewrite Hobj, Htype. rewrite (bool_decide_eq_true_2 ("device" = "device")) by reflexivity.
  cbn [negb]. rewrite run_bind. cbn [resultOf stateOf effectsOf fst snd].
  destruct (isEmpty (resultOf _)); [reflexivity|].
  unfold lightStateValues. cbn zeta.
  destruct (contains (toObject (value (toObject val) "on")) "on");
    destruct (contains (toObject (value (toObject val) "dimming")) "brightness");
    destruct (Qle_bool 0 (toDouble (value (toObject (value (toObject val) "dimming"))
                                          "brightness") (-1)));
    destruct (contains (toObject (value (toObject val) "color_temperature")) "mirek");
    destruct (contains (toObject (value (toObject (value (toObject val) "color")) "xy")) "x"
              && contains (toObject (value (toObject (value (toObject val) "color")) "xy"))
                          "y");
    act; cbn [andb app]; reflexivity.
Qed.

Lemma seedLightState_skips val s :
  isObject val = false
  ∨ toString (value (toObject (value (toObject val) "owner")) "rtype") ≠ "device" →
  seedLightState colorVariant nowMs val s = (tt, s, []).
Proof.
  intros [Hobj|Htype]; unfold seedLightState.
  - by rewrite Hobj.
  - destruct (isObject val); [|reflexivity]. cbn [negb].
    by rewrite (bool_decide_eq_false_2 _ Htype).
Qed.

Lemma seedLightState_cases val s :
  seedLightState colorVariant nowMs val s = (tt, s, [])
  ∨ let owner := deviceForHueOwner
                   (toString (value (toObject (value (toObject val) "owner")) "rid")) s in
    seedLightState colorVariant nowMs val s
    = (tt, stateOf owner,
       effectsOf owner
       ++ (if isEmpty (resultOf owner) then []
           else lightStateValues colorVariant nowMs (resultOf owner) (toObject val))).
Proof.
  destruct (isObject val) eqn:Hobj; [|left; apply seedLightState_skips; by left].
  destruct (decide (toString (value (toObject (value (toObject val) "owner")) "rtype")
                    = "device")) as [Htype|Htype].
  - right. by apply seedLightState_eq.
  - left. apply seedLightState_skips. by right.
Qed.

Lemma seedLightState_frame val s :
  removedIds (effectsOf (seedLightState colorVariant nowMs val s)) = []
  ∧ m_knownDeviceExternalIds (stateOf (seedLightState colorVariant nowMs val s))
    = m_knownDeviceExternalIds s.
Proof.
  destruct (seedLightState_cases val s) as [-> | ->]; [by split|].
  cbn [stateOf effectsOf fst snd].
  destruct (deviceForHueOwner_spec
              (toString (value (toObject (value (toObject val) "owner")) "rid")) s)
    as (_ & Hr & Hknown & _).
  split; [|exact Hknown]. unfold removedIds. rewrite flat_map_app.
  fold (removedIds (effectsOf (deviceForHueOwner
          (toString (value (toObject (value (toObject val) "owner")) "rid")) s))).
  rewrite Hr. cbn [app]. destruct (isEmpty _); [reflexivity|apply lightStateValues_removed].
Qed.

Lemma seedLightStates_frame lightArray : ∀ s,
  removedIds (effectsOf (seedLightStates colorVariant nowMs lightArray s)) = []
  ∧ m_knownDeviceExternalIds (stateOf (seedLightStates colorVariant nowMs lightArray s))
    = m_knownDeviceExternalIds s.
Proof.
  induction lightArray as [|val rest IH]; intros s; cbn [seedLightStates]; [by split|].
  rewrite run_bind. cbn [stateOf effectsOf fst snd].
  destruct (seedLightState_frame val s) as [Hr Hk].
  destruct (IH (stateOf (seedLightState colorVariant nowMs val s))) as [Hr' Hk'].
  split; [|by rewrite Hk', Hk]. unfold removedIds. rewrite flat_map_app.
  fold (removedIds (effectsOf (seedLightState colorVariant nowMs val s))).
  by rewrite Hr.
Qed.

Lemma seedLightStates_silent lightArray d : ∀ s,
  m_v2Devices s !! d = None →
  Forall (λ val, ¬ ownedBy d val) lightArray →
  (d ∉ channelValueIds (effectsOf (seedLightStates colorVariant nowMs lightArray s)))
  ∧ m_v2Devices (stateOf (seedLightStates colorVariant nowMs lightArray s)) !! d = None.
Proof.
  induction lightArray as [|val rest IH]; intros s Hnone Howners; cbn [seedLightStates].
  { cbn. split; [apply not_elem_of_nil|exact Hnone]. }
  inversion Howners as [|? ? Hval Hrest]; subst.
  rewrite run_bind. cbn [stateOf effectsOf fst snd].
  assert (m_v2Devices (stateOf (seedLightState colorVariant nowMs val s)) !! d = None
          ∧ d ∉ channelValueIds (effectsOf (seedLightState colorVariant nowMs val s)))
    as [Hnone' Hquiet].
  { destruct (seedLightState_cases val s) as [-> | ->];
      [split; [exact Hnone|apply not_elem_of_nil]|].
    cbn [stateOf effectsOf fst snd]. rewrite channelValueIds_app.
    destruct (deviceForHueOwner_spec
                (toString (value (toObject (value (toObject val) "owner")) "rid")) s)
      as (Hv & _ & _ & [(_ & Hres & ->)|[(Hne & Hin & _ & ->)|(Hne & Hres & ->)]]);
      rewrite Hv; cbn [app].
    - split; [exact Hnone|]. rewrite Hres. cbn. apply not_elem_of_nil.
    - split; [exact Hnone|]. destruct (isEmpty _); [apply not_elem_of_nil|].
      intros Hd. apply lightStateValues_ids in Hd. rewrite <- Hd in Hin.
      apply elem_of_dom in Hin as [x Hx]. congruence.
    - split.
      + rewrite lookup_insert_ne; [exact Hnone|]. intros Heq. by apply Hval.
      + destruct (isEmpty _); [apply not_elem_of_nil|].
        intros Hd. apply lightStateValues_ids in Hd. apply Hval. unfold ownedBy. congruence. }
  destruct (IH _ Hnone' Hrest) as (Hq & Hn).
  rewrite channelValueIds_app. split; [|exact Hn].
  intros [Hd|Hd]%elem_of_app; [by apply Hquiet|by apply Hq].
Qed.

Lemma forget_mapping l : ∀ s,
  m_deviceIdToExternalId (foldl (λ s extId, forget extId s) s l) = m_deviceIdToExternalId s.
Proof.
  induction l as [|x l IH]; intros s; cbn [foldl]; [reflexivity|].
  rewrite IH. unfold forget. by destruct (isEmpty x).
Qed.

(** A device that is removed while a light of the snapshot still names
    it as owner is back at once: the seeding that follows the removal
    emits the light's state under the removed id. *)
Lemma removed_owner_seeded ids resObj rest s d :
  d ∈ m_knownDeviceExternalIds s → d ∉ ids → d ≠ "" →
  toString (value (toObject (value resObj "owner")) "rtype") = "device" →
  ownedBy d (JObject resObj) →
  (∀ e, m_deviceIdToExternalId s !! d = Some e → e = d) →
  contains (toObject (value resObj "on")) "on" = true →
  let run := (removeMissingDevices ids;;
              seedLightStates colorVariant nowMs (JObject resObj :: rest)) s in
  filter (λ x, x = d) (removedIds (effectsOf run)) = [d]
  ∧ ∃ before after,
      effectsOf run = before ++ deviceRemoved d :: after
      ∧ channelStateUpdated d "on"
          (VBool (toBool (value (toObject (value resObj "on")) "on") false)) nowMs ∈ after.
Proof.
  intros Hknown Hout Hd Htype Howner Hmap Hon run. subst run.
  rewrite run_bind. cbn [stateOf effectsOf resultOf fst snd].
  destruct (absent_device_plugin ids s d Hknown Hout Hd) as (Honce & Hnone & _).
  set (s1 := stateOf (removeMissingDevices ids s)) in *.
  assert (∀ e, m_deviceIdToExternalId s1 !! d = Some e → e = d) as Hmap1.
  { subst s1. rewrite removeMissingDevices_spec. cbn. by rewrite forget_mapping. }
  destruct (seedLightStates_frame (JObject resObj :: rest) s1) as [Hrem _].
  split.
  { unfold removedIds. rewrite flat_map_app.
    fold (removedIds (effectsOf (removeMissingDevices ids s))).
    fold (removedIds (effectsOf (seedLightStates colorVariant nowMs
                                   (JObject resObj :: rest) s1))).
    by rewrite Hrem, app_nil_r. }
  assert (deviceRemoved d ∈ effectsOf (removeMissingDevices ids s)) as Hsignal.
  { rewrite removeMissingDevices_spec. cbn [effectsOf snd].
    apply list_elem_of_fmap. exists d. split; [reflexivity|].
    apply list_elem_of_filter. split; [exact Hd|].
    apply elem_of_elements, elem_of_difference. done. }
  apply list_elem_of_split in Hsignal as (before & after & ->).
  exists before, (after ++ effectsOf (seedLightStates colorVariant nowMs
                                         (JObject resObj :: rest) s1)).
  split; [by rewrite <- app_assoc|].
  apply elem_of_app. right. cbn [seedLightStates]. rewrite run_bind.
  cbn [effectsOf snd]. apply elem_of_app. left.
  rewrite seedLightState_eq by (cbn [toObject]; done). cbn [effectsOf snd toObject].
  unfold ownedBy in Howner. cbn [toObject] in Howner. rewrite Howner.
  destruct (deviceForHueOwner_placeholder d s1 Hd Hnone Hmap1) as [-> _].
  unfold isEmpty. rewrite (bool_decide_eq_false_2 (d = "")) by exact Hd.
  apply elem_of_app. right. by apply lightStateValues_on.
Qed.

Lemma deviceUpdates_removed s keys : removedIds (deviceUpdates s keys) = [].
Proof.
  induction keys as [|key keys IH]; [reflexivity|].
  unfold deviceUpdates. cbn [flat_map]. fold (deviceUpdates s keys).
  unfold removedIds. rewrite flat_map_app. fold (removedIds (deviceUpdates s keys)).
  rewrite IH. by destruct (default [] (m_v2DeviceChannels s !! key)).
Qed.

Lemma emitDevicesAndRemovals_ready ids s :
  existsb (waitsForMetadata s) ((map_to_list (m_v2Devices s)).*1) = false →
  emitDevicesAndRemovals ids s
  = (false, stateOf (removeMissingDevices ids s),
     deviceUpdates s ((map_to_list (m_v2Devices s)).*1)
     ++ effectsOf (removeMissingDevices ids s)).
Proof.
  intros Hready. unfold emitDevicesAndRemovals. act.
  rewrite run_bind, (emitDevices_spec _ s Hready).
  cbn [resultOf stateOf effectsOf fst snd]. rewrite run_bind.
  cbn [resultOf stateOf effectsOf fst snd mret Act_ret]. by rewrite app_nil_r.
Qed.

(** The same within the rebuild, from the device loop on. *)
Lemma stale_owner_seeded ids resObj rest s d :
  existsb (waitsForMetadata s) ((map_to_list (m_v2Devices s)).*1) = false →
  d ∈ m_knownDeviceExternalIds s → d ∉ ids → d ≠ "" →
  toString (value (toObject (value resObj "owner")) "rtype") = "device" →
  ownedBy d (JObject resObj) →
  (∀ e, m_deviceIdToExternalId s !! d = Some e → e = d) →
  contains (toObject (value resObj "on")) "on" = true →
  let run := emitRemoveAndSeedLights colorVariant nowMs ids (JObject resObj :: rest) s in
  filter (λ x, x = d) (removedIds (effectsOf run)) = [d]
  ∧ ∃ before after,
      effectsOf run = before ++ deviceRemoved d :: after
      ∧ channelStateUpdated d "on"
          (VBool (toBool (value (toObject (value resObj "on")) "on") false)) nowMs ∈ after.
Proof.
  intros Hready Hknown Hout Hd Htype Howner Hmap Hon run. subst run.
  unfold emitRemoveAndSeedLights.
  rewrite run_bind, (emitDevicesAndRemovals_ready ids s Hready).
  cbn [resultOf stateOf effectsOf fst snd].
  destruct (removed_owner_seeded ids resObj rest s d Hknown Hout Hd Htype Howner Hmap Hon)
    as (Honce & before & after & Heq & Hin).
  rewrite run_bind in Honce, Heq. cbn [resultOf stateOf effectsOf fst snd] in Honce, Heq.
  rewrite <- app_assoc. split.
  - unfold removedIds. rewrite flat_map_app.
    fold (removedIds (deviceUpdates s (map_to_list (m_v2Devices s)).*1)).
    rewrite deviceUpdates_removed. exact Honce.
  - exists (deviceUpdates s (map_to_list (m_v2Devices s)).*1 ++ before), after.
    split; [|exact Hin]. by rewrite Heq, <- app_assoc.
Qed.

End PluginSeeding.

(** C7, as the code has it.  Sidecar: a pass sends at most one remove
    notification for a device it knows and the snapshot lacks, and nothing
    else about it.  A pass that the host accepts in full sends exactly
    that one, takes the device and its light out of the tables, and no
    later pass over the snapshot sends a remove or anything about the
    device, whatever the host then accepts.  A pass in which the host
    refuses a message keeps the device table, so the next pass reports
    the device removed again.  Plugin: the removal block emits
    [deviceRemoved] for the device once, erases its device, channel list
    and info cache entry, and records the snapshot's ids as the known
    ones; a later pass that finds the known ids equal to the snapshot's
    removes nothing.  The seeding that follows emits no channel value for
    the removed device and leaves it without an entry when no light of
    the snapshot names it as owner; when one does, the seeding emits that
    light's state under the removed id, after the removal. *)
Theorem absent_device_removed_once :
  (∀ sink ts snapshot s d,
     Sidecar.keyedById (Sidecar.Snapshot.devices snapshot) →
     d ∈ dom (Sidecar.m_devices s) →
     d ∉ dom (Sidecar.Snapshot.devices snapshot) →
     let first := Sidecar.publishSnapshot sink ts snapshot s in
     (List.filter (Sidecar.concerns d) (Sidecar.sentBy first) = []
      ∨ List.filter (Sidecar.concerns d) (Sidecar.sentBy first) = [Sidecar.DeviceRemoved d])
     ∧ (Sidecar.resultOf first = true →
        List.filter (Sidecar.concerns d) (Sidecar.sentBy first) = [Sidecar.DeviceRemoved d]
        ∧ Sidecar.m_devices (Sidecar.stateOf first) !! d = None
        ∧ Sidecar.m_lightResourceByDevice (Sidecar.stateOf first) !! d = None
        ∧ ∀ sink' ts',
            let second := Sidecar.publishSnapshot sink' ts' snapshot (Sidecar.stateOf first) in
            List.filter (Sidecar.concerns d) (Sidecar.sentBy second) = []
            ∧ Sidecar.removedIds (Sidecar.sentBy second) = [])
     ∧ (Sidecar.resultOf first = false →
        Sidecar.m_devices (Sidecar.stateOf first) = Sidecar.m_devices s
        ∧ ∀ sink' ts',
            (∀ key, sink' (Sidecar.DeviceRemoved key) = true) →
            Sidecar.DeviceRemoved d
            ∈ Sidecar.sentBy (Sidecar.publishSnapshot sink' ts' snapshot
                                                      (Sidecar.stateOf first))))
  ∧ (∀ ids s d,
       d ∈ Plugin.m_knownDeviceExternalIds s → d ∉ ids → d ≠ "" →
       let first := Plugin.removeMissingDevices ids s in
       filter (λ x, x = d) (Plugin.removedIds (Plugin.effectsOf first)) = [d]
       ∧ Plugin.m_v2Devices (Plugin.stateOf first) !! d = None
       ∧ Plugin.m_v2DeviceChannels (Plugin.stateOf first) !! d = None
       ∧ Plugin.m_v2DeviceInfoCache (Plugin.stateOf first) !! d = None
       ∧ Plugin.m_knownDeviceExternalIds (Plugin.stateOf first) = ids)
  ∧ (∀ ids s,
       Plugin.m_knownDeviceExternalIds s = ids →
       Plugin.effectsOf (Plugin.removeMissingDevices ids s) = []
       ∧ Plugin.m_knownDeviceExternalIds (Plugin.stateOf (Plugin.removeMissingDevices ids s))
         = ids)
  ∧ (∀ colorVariant nowMs lightArray s d,
       Plugin.m_v2Devices s !! d = None →
       Forall (λ val, ¬ Plugin.ownedBy d val) lightArray →
       let seeded := Plugin.seedLightStates colorVariant nowMs lightArray s in
       (d ∉ Plugin.channelValueIds (Plugin.effectsOf seeded))
       ∧ Plugin.removedIds (Plugin.effectsOf seeded) = []
       ∧ Plugin.m_v2Devices (Plugin.stateOf seeded) !! d = None
       ∧ Plugin.m_knownDeviceExternalIds (Plugin.stateOf seeded)
         = Plugin.m_knownDeviceExternalIds s)
  ∧ (∀ colorVariant nowMs ids resObj rest s d,
       existsb (Plugin.waitsForMetadata s) ((map_to_list (Plugin.m_v2Devices s)).*1) = false →
       d ∈ Plugin.m_knownDeviceExternalIds s → d ∉ ids → d ≠ "" →
       toString (value (toObject (value resObj "owner")) "rtype") = "device" →
       Plugin.ownedBy d (JObject resObj) →
       (∀ e, Plugin.m_deviceIdToExternalId s !! d = Some e → e = d) →
       contains (toObject (value resObj "on")) "on" = true →
       let run := Plugin.emitRemoveAndSeedLights colorVariant nowMs ids
                                                 (JObject resObj :: rest) s in
       filter (λ x, x = d) (Plugin.removedIds (Plugin.effectsOf run)) = [d]
       ∧ ∃ before after,
           Plugin.effectsOf run = before ++ Plugin.deviceRemoved d :: after
           ∧ Plugin.channelStateUpdated d "on"
               (Plugin.VBool (toBool (value (toObject (value resObj "on")) "on") false))
               nowMs ∈ after).
Proof.
  split; [exact absent_device_any_host|].
  split; [exact PluginFacts.absent_device_plugin|].
  split; [exact PluginFacts.reprocessing_plugin|].
  split; [|exact stale_owner_seeded].
  intros colorVariant nowMs lightArray s d Hnone Howners seeded. subst seeded.
  destruct (seedLightStates_silent colorVariant nowMs lightArray d s Hnone Howners)
    as [Hquiet Hstill].
  destruct (seedLightStates_frame colorVariant nowMs lightArray s) as [Hrem Hknown].
  by repeat split.
Qed.

(** [dev-old] is known and the snapshot has [dev-1] only: the sidecar
    reports it removed once, a second pass is silent about it; the plugin
    removes it once, and seeding from no lights leaves it absent. *)
Lemma absent_device_removed_once_witness :
  List.filter (Sidecar.concerns "dev-old")
    (Sidecar.sentBy (Sidecar.publishSnapshot Examples.acceptAll 7000 Examples.snapshotOfOne
                                             Examples.sidecarWithTwo))
  = [Sidecar.DeviceRemoved "dev-old"]
  ∧ Sidecar.removedIds
      (Sidecar.sentBy
         (Sidecar.publishSnapshot Examples.refuseScenes 8000 Examples.snapshotOfOne
            (Sidecar.stateOf
               (Sidecar.publishSnapshot Examples.acceptAll 7000 Examples.snapshotOfOne
                                        Examples.sidecarWithTwo)))) = []
  ∧ filter (λ x, x = "dev-old")
      (Plugin.removedIds
         (Plugin.effectsOf (Plugin.removeMissingDevices {["dev-1"]} Examples.adapterKnowingTwo)))
    = ["dev-old"]
  ∧ Plugin.effectsOf
      (Plugin.removeMissingDevices {["dev-1"]}
         (Plugin.stateOf (Plugin.removeMissingDevices {["dev-1"]} Examples.adapterKnowingTwo)))
    = [].
Proof.
  destruct absent_device_removed_once as (Hsidecar & Hplugin & Hagain & _).
  destruct (Hsidecar Examples.acceptAll 7000 Examples.snapshotOfOne
                     Examples.sidecarWithTwo "dev-old") as (_ & Hfirst & _).
  { intros key entry Hlook. unfold Examples.snapshotOfOne in Hlook.
    cbn [Sidecar.Snapshot.devices] in Hlook.
    apply lookup_singleton_Some in Hlook as [<- <-]. reflexivity. }
  { apply elem_of_dom. eexists. reflexivity. }
  { apply not_elem_of_dom. reflexivity. }
  destruct Hfirst as (Honce & _ & _ & Hsecond); [vm_compute; reflexivity|].
  split; [exact Honce|]. split; [apply (Hsecond Examples.refuseScenes 8000)|].
  split.
  - destruct (Hplugin {["dev-1"]} Examples.adapterKnowingTwo "dev-old") as (Hremoved & _).
    + apply elem_of_union. right. by apply elem_of_singleton.
    + intros Hin. apply elem_of_singleton in Hin. discriminate.
    + discriminate.
    + exact Hremoved.
  - destruct (Hagain {["dev-1"]}
                (Plugin.stateOf
                   (Plugin.removeMissingDevices {["dev-1"]} Examples.adapterKnowingTwo)))
      as [Hnone _]; [vm_compute; reflexivity|].
    exact Hnone.
Defined.

(** C7 as stated fails.  Plugin: the device collection has lost
    [dev-old] while a light still names it as owner; the rebuild updates
    the device, reports it removed, and then asks for its metadata and
    emits its power state, leaving a placeholder for the removed device
    that no later cycle knows to remove.  Sidecar: the host refuses the
    scene list at the end of a pass that reported [dev-old] removed; the
    next pass reports it removed again. *)
Lemma removed_device_notified_again :
  (let run := Plugin.emitRemoveAndSeedLights Examples.noColorVariant 7000 ∅
                [Examples.staleLight] Examples.adapterWithStaleLight in
   Plugin.effectsOf run
   = Plugin.deviceUpdates Examples.adapterWithStaleLight ["dev-old"]
     ++ [Plugin.deviceRemoved "dev-old"; Plugin.networkGet "device/dev-old";
         Plugin.channelStateUpdated "dev-old" "on" (Plugin.VBool true) 7000]
   ∧ Plugin.m_v2Devices (Plugin.stateOf run) !! "dev-old"
     = Some (Plugin.Device.set_id "dev-old" Plugin.Device.empty)
   ∧ Plugin.m_knownDeviceExternalIds (Plugin.stateOf run) = ∅)
  ∧ (let first := Sidecar.publishSnapshot Examples.refuseScenes 7000 Examples.snapshotOfOne
                                          Examples.sidecarWithTwo in
     let second := Sidecar.publishSnapshot Examples.acceptAll 8000 Examples.snapshotOfOne
                                           (Sidecar.stateOf first) in
     Sidecar.resultOf first = false
     ∧ Sidecar.removedIds (Sidecar.sentBy first) = ["dev-old"]
     ∧ Sidecar.removedIds (Sidecar.sentBy second) = ["dev-old"]).
Proof. repeat split; vm_compute; reflexivity. Qed.

End AbsenceFacts.
